(** * Outrider: pattern-matching and result-scoring core

    A shallow embedding of the analysis core of the Outrider CLI
    (rule engine, heuristic "ML" analyzer, output formatter and the scan
    command's per-file driver), with the properties its specification
    states about it.

    Modelling conventions.
    - A JavaScript string is a list of code units, [text := list ascii]
      (texts whose code units are below 256).
    - A JavaScript Number that holds a count or an index is a [nat].  A
      Number that holds a confidence or a threshold is an IEEE 754 double,
      Rocq's primitive [float]: the sums and differences of
      [calculateConfidence] are rounded as the program rounds them.  The
      risk score is a quotient of two counts, times 20, rounded to an
      integer; it is computed on exact rationals ([number]).
    - An object used as a table is an association list of its own
      properties; [keys] lists them as [Object.keys] does, the array
      indices first, and [obj_get] reads an own property.  Where the
      program reads a table under a name that it is given (a file name, a
      severity, a rule name), the definition tells apart the names that
      every object inherits ([inherited]): so in [groupResultsByFile],
      [generateSummary], [getSuggestion], [setRuleEnabled], [addRule],
      [applyFix] and [addFixableRule].
    - A call that can throw, or a loop that can fail to terminate, returns
      an [outcome].
    - The regular-expression matcher is a built-in of the host language: the
      engines are parameterised by it ([rmatch]); a reference backtracking
      matcher ([JS.jsmatch]) is used to run them on concrete texts. *)

From Stdlib Require Import Ascii String.
From Stdlib Require Import List Arith Lia Bool ZArith QArith Qround Qminmax Lqa.
From Stdlib Require Import Sorted Permutation.
From Stdlib Require Import Floats.
Import ListNotations.

Close Scope Q_scope.
Open Scope nat_scope.

(** A decimal literal of type [float] denotes the nearest double, as it does
    in the source. *)
Set Warnings "-inexact-float".

(** ** Texts *)

Definition text := list ascii.

Definition lit (s : string) : text := list_ascii_of_string s.

Definition newline : ascii := "010"%char.

(** [s.substring(a, b)]: the code units from [min a b] up to [max a b],
    both clamped to the length of [s]. *)
Definition substring (s : text) (a b : nat) : text :=
  firstn (Nat.max a b - Nat.min a b) (skipn (Nat.min a b) s).

(** [s.split(sep)] for a one-character separator: never empty. *)
Fixpoint split (sep : ascii) (s : text) : list text :=
  match s with
  | [] => [[]]
  | c :: s' =>
      if Ascii.eqb c sep then [] :: split sep s'
      else match split sep s' with
           | l :: ls => (c :: l) :: ls
           | [] => [[c]]
           end
  end.

Fixpoint startsWith (needle s : text) : bool :=
  match needle, s with
  | [], _ => true
  | _ :: _, [] => false
  | c :: needle', d :: s' => Ascii.eqb c d && startsWith needle' s'
  end.

(** [s.includes(needle)] *)
Fixpoint includes (s needle : text) : bool :=
  startsWith needle s ||
  match s with
  | [] => false
  | _ :: s' => includes s' needle
  end.

(** ** Outcomes of calls *)

Inductive outcome (A : Type) : Type :=
| Returns (a : A)
| Throws (message : string)
| Diverges.

Arguments Returns {A} a.
Arguments Throws {A} message.
Arguments Diverges {A}.

Definition bind {A B} (m : outcome A) (k : A -> outcome B) : outcome B :=
  match m with
  | Returns a => k a
  | Throws e => Throws e
  | Diverges => Diverges
  end.

Notation "x <- m ;; k" := (bind m (fun x => k))
  (at level 61, m at next level, right associativity).

(** ** Positions *)

(** The [{ line, column }] that a position resolver returns. *)
Module Position.
Record t := { line : nat; column : nat }.
End Position.

(** ** Regular expressions

    The syntax of the patterns the engines carry.  Flags [m] and [s] are
    resolved in the syntax ([LineStart]/[LineEnd] are the multiline anchors,
    [Class anyChar] is the dot of a dotAll pattern); the [g] flag is kept,
    as the scanning loops depend on it. *)

Module Re.

Inductive node : Type :=
| Empty
| Char (c : ascii)
| Class (p : ascii -> bool)
| Seq (a b : node)
| Alt (a b : node)
| Star (a : node)
| NotAhead (a : node)
| LineStart
| LineEnd
| WordBoundary.

Record RegExp := { source : node; global : bool }.

Definition Plus (a : node) : node := Seq a (Star a).
Definition Opt (a : node) : node := Alt a Empty.

Fixpoint Str (s : string) : node :=
  match s with
  | EmptyString => Empty
  | String c EmptyString => Char c
  | String c s' => Seq (Char c) (Str s')
  end.

Fixpoint seqs (l : list node) : node :=
  match l with
  | [] => Empty
  | [a] => a
  | a :: l' => Seq a (seqs l')
  end.

Definition inRange (lo hi c : ascii) : bool :=
  (nat_of_ascii lo <=? nat_of_ascii c) && (nat_of_ascii c <=? nat_of_ascii hi).

Definition isLineTerminator (c : ascii) : bool :=
  Ascii.eqb c "010" || Ascii.eqb c "013".

(** [\s] *)
Definition space (c : ascii) : bool :=
  inRange "009" "013" c || Ascii.eqb c " " || Ascii.eqb c "160".

(** [\w] *)
Definition word (c : ascii) : bool :=
  inRange "a" "z" c || inRange "A" "Z" c || inRange "0" "9" c
  || Ascii.eqb c "_".

(** [.] without the [s] flag, and with it *)
Definition dot (c : ascii) : bool := negb (isLineTerminator c).
Definition anyChar (c : ascii) : bool := true.

(** [[^x]] and [[xy]] *)
Definition notChar (x : ascii) (c : ascii) : bool := negb (Ascii.eqb c x).
Definition oneOf (xs : list ascii) (c : ascii) : bool :=
  existsb (Ascii.eqb c) xs.
Definition noneOf (xs : list ascii) (c : ascii) : bool := negb (oneOf xs c).

(** A pattern that cannot match the empty string, by its shape. *)
Fixpoint consumes (r : node) : bool :=
  match r with
  | Char _ | Class _ => true
  | Seq a b => consumes a || consumes b
  | Alt a b => consumes a && consumes b
  | _ => false
  end.

End Re.

Export Re(RegExp, source, global).

(** The reference matcher: backtracking in continuation-passing style, as
    the language definition gives it.  [run r s i k] matches [r] at
    position [i] of [s] and hands the end position to [k]; a [Star] is
    greedy and refuses an iteration that consumes nothing. *)

Module JS.
Import Re.

Definition charAt (s : text) (i : nat) : option ascii := nth_error s i.

Definition isWordAt (s : text) (i : nat) : bool :=
  match charAt s i with Some c => word c | None => false end.

Fixpoint run (r : node) (s : text) (i : nat) (k : nat -> option nat)
  {struct r} : option nat :=
  match r with
  | Empty => k i
  | Char c =>
      match charAt s i with
      | Some d => if Ascii.eqb c d then k (S i) else None
      | None => None
      end
  | Class p =>
      match charAt s i with
      | Some d => if p d then k (S i) else None
      | None => None
      end
  | Seq a b => run a s i (fun j => run b s j k)
  | Alt a b =>
      match run a s i k with
      | Some e => Some e
      | None => run b s i k
      end
  | Star a =>
      (fix star (n : nat) (i : nat) {struct n} : option nat :=
         match n with
         | O => k i
         | S n' =>
             match run a s i (fun j => if i <? j then star n' j else None) with
             | Some e => Some e
             | None => k i
             end
         end) (length s) i
  | NotAhead a =>
      match run a s i (fun j => Some j) with
      | Some _ => None
      | None => k i
      end
  | LineStart =>
      match i with
      | O => k i
      | S i' =>
          match charAt s i' with
          | Some c => if isLineTerminator c then k i else None
          | None => None
          end
      end
  | LineEnd =>
      match charAt s i with
      | None => k i
      | Some c => if isLineTerminator c then k i else None
      end
  | WordBoundary =>
      let before := match i with O => false | S i' => isWordAt s i' end in
      if xorb before (isWordAt s i) then k i else None
  end.

(** Length of the match of [re] that starts exactly at position [i]. *)
Definition jsmatch (re : RegExp) (s : text) (i : nat) : option nat :=
  match run (source re) s i (fun j => Some j) with
  | Some e => Some (e - i)
  | None => None
  end.

End JS.

(** ** Scanning a text with a pattern *)

Section Scanning.

Variable rmatch : RegExp -> text -> nat -> option nat.

(** The first position from [i] on, among [n + 1] positions, where the
    pattern matches. *)
Fixpoint search (re : RegExp) (s : text) (i n : nat) : option (nat * nat) :=
  match rmatch re s i with
  | Some len => Some (i, len)
  | None =>
      match n with
      | O => None
      | S n' => search re s (S i) n'
      end
  end.

(** [re.exec(s)] with [re.lastIndex] passed in: index and length of the
    match, or [None] for [null]. *)
Definition exec (re : RegExp) (s : text) (lastIndex : nat)
  : option (nat * nat) :=
  let start := if global re then lastIndex else 0 in
  if length s <? start then None
  else search re s start (length s - start).

(** The matched text [match[0]]. *)
Definition matched (s : text) (index len : nat) : text :=
  firstn len (skipn index s).

(** [while ((match = re.exec(content)) !== null) { body }], started with
    [re.lastIndex = lastIndex]; [body] gets the accumulated state, the
    match index and the matched text.  [Diverges] when the loop does not
    finish within [fuel] rounds. *)
Fixpoint whileExec {A} (fuel : nat)
    (body : A -> nat -> text -> outcome A)
    (re : RegExp) (content : text) (lastIndex : nat) (acc : A) : outcome A :=
  match fuel with
  | O => Diverges
  | S fuel' =>
      match exec re content lastIndex with
      | None => Returns acc
      | Some (index, len) =>
          acc' <- body acc index (matched content index len) ;;
          whileExec fuel' body re content
            (if global re then index + len else lastIndex) acc'
      end
  end.

(** A global pattern without empty matches on [s] makes every loop over
    it finish; [scanFuel] rounds are then enough. *)
Definition scanFuel (s : text) : nat := S (S (length s)).

Definition progresses (re : RegExp) (s : text) : bool :=
  global re &&
  forallb (fun i => match rmatch re s i with
                    | Some O => false
                    | _ => true
                    end) (seq 0 (S (length s))).

(** [line.match(re)] used as a condition: is there a match anywhere? *)
Definition matchesSomewhere (re : RegExp) (line : text) : bool :=
  match search re line 0 (length line) with
  | Some _ => true
  | None => false
  end.

End Scanning.

(** ** Values, tables and findings *)

Inductive jsval : Type :=
| JUndefined
| JNull
| JBool (b : bool)
| JNum (q : Q)
| JStr (s : string).

(** Truthiness, as [if (v)] and [!v] see it. *)
Definition truthy (v : jsval) : bool :=
  match v with
  | JUndefined | JNull => false
  | JBool b => b
  | JNum q => negb (Qeq_bool q 0)
  | JStr s => negb (String.eqb s "")
  end.

(** [v !== false] *)
Definition notFalse (v : jsval) : bool :=
  match v with
  | JBool false => false
  | _ => true
  end.

(** [Math.min(a, b)] and [Math.max(a, b)] on doubles: [NaN] when either
    argument is; of the two zeros, the negative one is the smaller. *)
Definition Math_min (a b : float) : float :=
  if is_nan a || is_nan b then nan
  else if (a <? b)%float then a
  else if (b <? a)%float then b
  else if get_sign a then a else b.

Definition Math_max (a b : float) : float :=
  if is_nan a || is_nan b then nan
  else if (a <? b)%float then b
  else if (b <? a)%float then a
  else if get_sign a then b else a.

(** An object used as a table: its own properties, those whose keys are
    no array indices in the order of their creation.

    Two things that the host language adds to such a table are named
    here.
    - [Object.keys] and a spread list the keys that are array indices
      first, in ascending order, and then the other keys in the order of
      their creation: [keys] below.
    - A read [o[k]] that finds no property of [o] under [k] goes on to
      [Object.prototype], and finds there a function (or, under
      [__proto__], the prototype itself) for the names of [inherited]. *)
Definition obj (A : Type) : Type := list (string * A).

Definition isDigit (c : ascii) : bool :=
  (48 <=? nat_of_ascii c) && (nat_of_ascii c <=? 57).

Fixpoint decimal (acc : N) (s : string) : N :=
  match s with
  | EmptyString => acc
  | String c s' => decimal (acc * 10 + N.of_nat (nat_of_ascii c - 48)) s'
  end.

Fixpoint allDigits (s : string) : bool :=
  match s with
  | EmptyString => true
  | String c s' => isDigit c && allDigits s'
  end.

(** An array index: the decimal numeral, without a leading zero, of an
    integer from [0] to [2^32 - 2]. *)
Definition arrayIndex (k : string) : bool :=
  match k with
  | EmptyString => false
  | String c rest =>
      allDigits k
      && (negb (Ascii.eqb c "0") || String.eqb rest "")
      && (String.length k <=? 10)
      && (decimal 0 k <? 4294967295)%N
  end.

(** The properties of [Object.prototype]. *)
Definition inheritedNames : list string := [
  "constructor"; "__defineGetter__"; "__defineSetter__"; "hasOwnProperty";
  "__lookupGetter__"; "__lookupSetter__"; "isPrototypeOf";
  "propertyIsEnumerable"; "toString"; "valueOf"; "__proto__";
  "toLocaleString" ]%string.

Definition inherited (k : string) : bool :=
  existsb (String.eqb k) inheritedNames.

Fixpoint obj_get {A} (k : string) (o : obj A) : option A :=
  match o with
  | [] => None
  | (k', v) :: o' => if String.eqb k' k then Some v else obj_get k o'
  end.

(** [o[k] = v]: an existing key keeps its place, a new one goes last. *)
Fixpoint obj_set {A} (k : string) (v : A) (o : obj A) : obj A :=
  match o with
  | [] => [(k, v)]
  | (k', v') :: o' =>
      if String.eqb k' k then (k, v) :: o' else (k', v') :: obj_set k v o'
  end.

(** [{ ...a, ...b }] *)
Definition spread {A} (a b : obj A) : obj A :=
  fold_left (fun acc kv => obj_set (fst kv) (snd kv) acc) b a.

(** The keys of a table as the list holds them. *)
Definition created {A} (o : obj A) : list string := map fst o.

Fixpoint insertIndex (k : string) (ks : list string) : list string :=
  match ks with
  | [] => [k]
  | k' :: ks' =>
      if (decimal 0 k <=? decimal 0 k')%N then k :: ks
      else k' :: insertIndex k ks'
  end.

(** Array indices in ascending order. *)
Definition sortIndices (ks : list string) : list string :=
  fold_right insertIndex [] ks.

(** The order in which keys created in the order [ks] are listed: the
    array indices ascending, then the other keys as created. *)
Definition listed (ks : list string) : list string :=
  sortIndices (filter arrayIndex ks)
  ++ filter (fun k => negb (arrayIndex k)) ks.

(** [Object.keys(o)] *)
Definition keys {A} (o : obj A) : list string := listed (created o).

(** [a || b] on an optional string: [b] when [a] is absent or empty. *)
Definition orElse (a : option string) (b : string) : string :=
  match a with
  | Some s => if String.eqb s "" then b else s
  | None => b
  end.

(** [s.trim()] *)
Fixpoint trimStart (s : text) : text :=
  match s with
  | c :: s' => if Re.space c then trimStart s' else s
  | [] => []
  end.

Definition trim (s : text) : text := rev (trimStart (rev (trimStart s))).

Module Finding.

(** The [suggestion] of a finding: a text or, under a rule whose name
    every object inherits, the value that the table of suggestions
    inherits under that name (a function of [Object.prototype], or the
    prototype itself under [__proto__]). *)
Inductive advice : Type :=
| Text (s : string)
| InheritedValue (k : string).

Record t := {
  type : string;
  severity : option string;
  file : string;
  line : nat;
  column : nat;
  message : option string;
  rule : string;
  code : option text;
  suggestion : option advice;
  confidence : option float;
  category : option string
}.

End Finding.

(** The two inline disable markers. *)
Definition eslintDisable : text := lit "// eslint-disable".
Definition outriderDisable : text := lit "// outrider-disable".

Definition hasDisableMarker (lineContent : text) : bool :=
  includes lineContent eslintDisable || includes lineContent outriderDisable.

(** ** Rule engine *)

Module RuleEngine.

Record Rule := {
  name : option string;
  enabled : option jsval;
  severity : option string;
  description : option string;
  pattern : option RegExp;
  exclude : option (list RegExp)
}.

Definition builtin (n : string) (e : bool) (sev desc : string)
    (p : Re.node) : string * Rule :=
  (n, {| name := Some n; enabled := Some (JBool e); severity := Some sev;
         description := Some desc;
         pattern := Some {| source := p; global := true |};
         exclude := None |}).

Import Re.

(** [[ \t]] *)
Definition blank : list ascii := [" "; "009"]%char.

(** The default rule catalog of [initializeRules]; every pattern carries
    the [g] flag.  Each entry is preceded by its source literal (a final
    dot-star inside a group is written [.{0,}] there). *)
Definition defaultRules : obj Rule := [
  (* /const\s+(\w+)\s*=\s*[^;]+;?(?:\s*\/\/.{0,})?$/gm *)
  builtin "no-unused-variables" false "warning"
    "Variables that are declared but never used"
    (seqs [Str "const"; Plus (Class space); Plus (Class word);
           Star (Class space); Char "="; Star (Class space);
           Plus (Class (notChar ";")); Opt (Char ";");
           Opt (seqs [Star (Class space); Str "//"; Star (Class dot)]);
           LineEnd]);
  (* /console\.(log|warn|error|info)\(/g *)
  builtin "no-console-log" true "warning"
    "Console.log statements should be removed in production"
    (seqs [Str "console."; Alt (Str "log") (Alt (Str "warn")
             (Alt (Str "error") (Str "info"))); Char "("]);
  (* /debugger\s*;?/g *)
  builtin "no-debugger" true "error"
    "Debugger statements should not be in production code"
    (seqs [Str "debugger"; Star (Class space); Opt (Char ";")]);
  (* /eval\s*\(/g *)
  builtin "no-eval" true "error"
    "Eval can be dangerous and should be avoided"
    (seqs [Str "eval"; Star (Class space); Char "("]);
  (* /\bvar\s+\w+/g *)
  builtin "no-var" true "warning"
    "Use const or let instead of var"
    (seqs [WordBoundary; Str "var"; Plus (Class space); Plus (Class word)]);
  (* /let\s+(\w+)\s*=\s*([^;]+);(?:\s*\/\/.{0,})?$/gm *)
  builtin "prefer-const" true "warning"
    "Use const for variables that are never reassigned"
    (seqs [Str "let"; Plus (Class space); Plus (Class word);
           Star (Class space); Char "="; Star (Class space);
           Plus (Class (notChar ";")); Char ";";
           Opt (seqs [Star (Class space); Str "//"; Star (Class dot)]);
           LineEnd]);
  (* /\{\s*\}/g *)
  builtin "no-empty-blocks" true "warning"
    "Empty blocks should be avoided"
    (seqs [Char "{"; Star (Class space); Char "}"]);
  (* /\n\s*\n\s*\n/g *)
  builtin "no-multiple-empty-lines" true "warning"
    "Multiple consecutive empty lines should be avoided"
    (seqs [Char newline; Star (Class space); Char newline;
           Star (Class space); Char newline]);
  (* /[ \t]+$/gm *)
  builtin "no-trailing-spaces" true "warning"
    "Trailing spaces should be removed"
    (seqs [Plus (Class (oneOf blank)); LineEnd]);
  (* /^[ \t]*\t[ \t]*[^ \t]/gm *)
  builtin "no-mixed-spaces-and-tabs" true "warning"
    "Mixed spaces and tabs should be avoided"
    (seqs [LineStart; Star (Class (oneOf blank)); Char "009";
           Star (Class (oneOf blank)); Class (noneOf blank)])
].

(** [initializeRules]: [{ ...defaultRules, ...customRules }] *)
Definition initializeRules (customRules : obj Rule) : obj Rule :=
  spread defaultRules customRules.

(** [this.rules[ruleName].enabled !== false] *)
Definition isEnabled (r : Rule) : bool :=
  match enabled r with
  | Some v => notFalse v
  | None => true
  end.

(** [getEnabledRules]; a name always comes from [Object.keys(this.rules)],
    so [this.rules[ruleName]] is defined. *)
Definition getEnabledRules (rules : obj Rule) : list string :=
  filter (fun ruleName =>
            match obj_get ruleName rules with
            | Some r => isEnabled r
            | None => false
            end) (keys rules).

(** The state of an engine: [this.rules] and the cached
    [this.enabledRules].  Rule objects are owned by one engine: no other
    holder mutates them behind the cache. *)
Record engine := { rules : obj Rule; enabledRules : list string }.

(** [constructor(rules = {})] *)
Definition new (customRules : obj Rule) : engine :=
  let rs := initializeRules customRules in
  {| rules := rs; enabledRules := getEnabledRules rs |}.

Definition getLineAndColumn (content : text) (index : nat) : Position.t :=
  let beforeMatch := substring content 0 index in
  let lines := split newline beforeMatch in
  let line := length lines in
  let column := length (nth (length lines - 1) lines []) + 1 in
  {| Position.line := line; Position.column := column |}.

Definition suggestions : obj string := [
  ("no-console-log",
   "Remove console.log statement or use a proper logging library");
  ("no-debugger", "Remove debugger statement");
  ("no-eval",
   "Use alternative approaches like JSON.parse or Function constructor");
  ("no-var", "Replace with const or let");
  ("prefer-const", "Change let to const if variable is never reassigned");
  ("no-empty-blocks", "Add content to block or remove if unnecessary");
  ("no-multiple-empty-lines", "Reduce to maximum of one empty line");
  ("no-trailing-spaces", "Remove trailing spaces");
  ("no-mixed-spaces-and-tabs",
   "Use consistent indentation (spaces or tabs)")
]%string.

(** [suggestions[ruleName] || '...']: the read finds the text that the
    table owns under the name, failing that the value that the table
    inherits under a name of [inherited], which is truthy, and otherwise
    [undefined]. *)
Definition getSuggestion (ruleName : string) (code : text) : Finding.advice :=
  match obj_get ruleName suggestions with
  | None =>
      if inherited ruleName then Finding.InheritedValue ruleName
      else Finding.Text "Review and fix according to rule description"
  | own =>
      Finding.Text (orElse own "Review and fix according to rule description")
  end.

Section WithMatcher.

Variable rmatch : RegExp -> text -> nat -> option nat.

(** [shouldSkipRule]; [lineContent] is [lines[line - 1]], and calling
    [includes] on [undefined] throws. *)
Definition shouldSkipRule (rule : Rule) (lineContent : option text)
    (lineNumber : nat) : outcome bool :=
  match lineContent with
  | None =>
      Throws "Cannot read properties of undefined (reading 'includes')"
  | Some lineContent =>
      if includes lineContent eslintDisable
         || includes lineContent outriderDisable
      then Returns true
      else
        match exclude rule with
        | Some patterns =>
            if existsb (fun p => matchesSomewhere rmatch p lineContent)
                       patterns
            then Returns true else Returns false
        | None => Returns false
        end
  end.

Definition applyRule (rule : Rule) (ruleName : string) (content : text)
    (filePath : string) : outcome (list Finding.t) :=
  match pattern rule with
  | None => Returns []
  | Some re =>
      let lines := split newline content in
      whileExec rmatch (scanFuel content)
        (fun violations matchStart match0 =>
           let p := getLineAndColumn content matchStart in
           let line := Position.line p in
           let column := Position.column p in
           skip <- shouldSkipRule rule (nth_error lines (line - 1)) line ;;
           if (skip : bool) then Returns violations
           else Returns (violations ++ [
             {| Finding.type := "rule";
                Finding.severity := severity rule;
                Finding.file := filePath;
                Finding.line := line;
                Finding.column := column;
                Finding.message := description rule;
                Finding.rule := ruleName;
                Finding.code := Some (trim match0);
                Finding.suggestion := Some (getSuggestion ruleName match0);
                Finding.confidence := None;
                Finding.category := None |}]))
        re content 0 []
  end.

(** The loop of [analyze] over [this.enabledRules]. *)
Fixpoint analyzeLoop (rs : obj Rule) (names : list string) (content : text)
    (filePath : string) (results : list Finding.t)
  : outcome (list Finding.t) :=
  match names with
  | [] => Returns results
  | ruleName :: names' =>
      match obj_get ruleName rs with
      | None =>
          Throws "Cannot read properties of undefined (reading 'pattern')"
      | Some rule =>
          violations <- applyRule rule ruleName content filePath ;;
          analyzeLoop rs names' content filePath (results ++ violations)
      end
  end.

Definition analyze (this : engine) (content : text) (filePath : string)
  : outcome (list Finding.t) :=
  analyzeLoop (rules this) (enabledRules this) content filePath [].

End WithMatcher.

(** [setRuleEnabled].  For a name that the table does not own,
    [this.rules[ruleName]] is [undefined] and nothing happens, unless the
    name is one that every object inherits: the read then finds a function
    of [Object.prototype], which gets the property [enabled], and the
    active set is computed anew from the table, which is as it was.  Under
    [__proto__] the read finds [Object.prototype] itself, and the write
    gives every object of the program an inherited [enabled]: the state
    after such a call is outside this model ([None]). *)
Definition setRuleEnabled (this : engine) (ruleName : string) (e : jsval)
  : option engine :=
  match obj_get ruleName (rules this) with
  | Some r =>
      let rs := obj_set ruleName
                  {| name := name r; enabled := Some e;
                     severity := severity r; description := description r;
                     pattern := pattern r; exclude := exclude r |}
                  (rules this) in
      Some {| rules := rs; enabledRules := getEnabledRules rs |}
  | None =>
      if String.eqb ruleName "__proto__" then None
      else if inherited ruleName
      then Some {| rules := rules this;
                   enabledRules := getEnabledRules (rules this) |}
      else Some this
  end.

Definition orDefault {A} (given : option A) (default : option A) : option A :=
  match given with
  | Some _ => given
  | None => default
  end.

(** [addRule]: the rule stored is
    [{ name: ruleName, enabled: true, severity: 'warning', ...ruleConfig }].
    On a table that has no property of its own under [__proto__], the
    assignment [this.rules['__proto__'] = ...] goes to the setter that every
    object inherits and replaces the prototype of the table: the state
    after such a call is outside this model ([None]). *)
Definition addRule (this : engine) (ruleName : string) (ruleConfig : Rule)
  : option engine :=
  let rs := obj_set ruleName
              {| name := orDefault (name ruleConfig) (Some ruleName);
                 enabled := orDefault (enabled ruleConfig)
                                      (Some (JBool true));
                 severity := orDefault (severity ruleConfig)
                                       (Some "warning"%string);
                 description := description ruleConfig;
                 pattern := pattern ruleConfig;
                 exclude := exclude ruleConfig |}
              (rules this) in
  match obj_get ruleName (rules this) with
  | None =>
      if String.eqb ruleName "__proto__" then None
      else Some {| rules := rs; enabledRules := getEnabledRules rs |}
  | Some _ => Some {| rules := rs; enabledRules := getEnabledRules rs |}
  end.

End RuleEngine.

(** ** Heuristic ("ML") analyzer *)

Module MLAnalyzer.

Module Detector.
Record t := { type : string; pattern : RegExp; message : string }.
End Detector.

Module Category.
Record t := {
  description : string;
  severity : string;
  confidence : float;
  patterns : list Detector.t
}.
End Category.

(** [patterns] holds the entries of the pattern table in the order in
    which [Object.entries] lists them. *)
Module Model.
Record t := { type : string; version : string; patterns : obj Category.t }.
End Model.

Module Config.
Record t := {
  enabled : jsval;
  confidenceThreshold : float;
  maxWarningsPerFile : nat
}.
(** The constructor argument: any of the three settings may be absent. *)
Record partial := {
  enabled' : option jsval;
  confidenceThreshold' : option float;
  maxWarningsPerFile' : option nat
}.
End Config.

(** A transient match, as [findPatternMatches] records it. *)
Module Match.
Record t := {
  line : nat; column : nat; confidence : float; match0 : text
}.
End Match.

Import Re.

Definition detector (ty : string) (p : node) (msg : string) : Detector.t :=
  {| Detector.type := ty;
     Detector.pattern := {| source := p; global := true |};
     Detector.message := msg |}.

(** [\s*\([^)]*\)] *)
Definition args : node :=
  seqs [Star (Class space); Char "("; Star (Class (notChar ")")); Char ")"].

(** [getHeuristicPatterns]; every pattern carries the [g] flag, the first
    one also [s]. *)
Definition getHeuristicPatterns : obj Category.t := [
  ("race-condition",
   {| Category.description := "Potential race condition detected";
      Category.severity := "warning";
      Category.confidence := 0.8;
      Category.patterns := [
        (* /async\s+function\s*\w*\s*\([^)]*\)\s*\{\s*[^}]*
            await\s+[^;]+;\s*[^}]*\}/gs   (one line in the source) *)
        detector "async-await-misuse"
          (seqs [Str "async"; Plus (Class space); Str "function";
                 Star (Class space); Star (Class word); args;
                 Star (Class space); Char "{"; Star (Class space);
                 Star (Class (notChar "}")); Str "await";
                 Plus (Class space); Plus (Class (notChar ";")); Char ";";
                 Star (Class space); Star (Class (notChar "}")); Char "}"])
          "Async function with await but no proper error handling";
        (* /\.then\s*\([^)]*\)\s*(?!\.catch)/g *)
        detector "promise-chain-missing-catch"
          (seqs [Str ".then"; args; Star (Class space);
                 NotAhead (Str ".catch")])
          "Promise chain missing error handling (.catch)" ] |});
  ("memory-leak",
   {| Category.description := "Potential memory leak detected";
      Category.severity := "warning";
      Category.confidence := 0.75;
      Category.patterns := [
        (* /addEventListener\s*\([^)]*\)\s*(?!.*removeEventListener)/g *)
        detector "event-listener-no-removal"
          (seqs [Str "addEventListener"; args; Star (Class space);
                 NotAhead (Seq (Star (Class dot))
                               (Str "removeEventListener"))])
          "Event listener added but no removal mechanism visible";
        (* /setInterval\s*\([^)]*\)\s*(?!.*clearInterval)/g *)
        detector "setinterval-no-clear"
          (seqs [Str "setInterval"; args; Star (Class space);
                 NotAhead (Seq (Star (Class dot)) (Str "clearInterval"))])
          "setInterval called but no clearInterval visible" ] |});
  ("null-access",
   {| Category.description := "Potential null/undefined access";
      Category.severity := "warning";
      Category.confidence := 0.85;
      Category.patterns := [
        (* /(\w+\.\w+\.\w+)/g *)
        detector "optional-chaining-missing"
          (seqs [Plus (Class word); Char "."; Plus (Class word); Char ".";
                 Plus (Class word)])
          "Deep property access without null checks";
        (* /(\w+)\[(\w+)\]/g *)
        detector "array-access-no-bounds-check"
          (seqs [Plus (Class word); Char "["; Plus (Class word); Char "]"])
          "Array access without bounds checking" ] |});
  ("type-safety",
   {| Category.description := "Potential type safety issue";
      Category.severity := "warning";
      Category.confidence := 0.8;
      Category.patterns := [
        (* /==\s*[^=]/g *)
        detector "loose-equality"
          (seqs [Str "=="; Star (Class space); Class (notChar "=")])
          "Use strict equality (===) instead of loose equality (==)";
        (* /!=\s*[^=]/g *)
        detector "loose-inequality"
          (seqs [Str "!="; Star (Class space); Class (notChar "=")])
          "Use strict inequality (!==) instead of loose inequality (!=)" ] |});
  ("performance",
   {| Category.description := "Performance anti-pattern detected";
      Category.severity := "warning";
      Category.confidence := 0.7;
      Category.patterns := [
        (* /for\s*\([^)]*\)\s*\{[^}]*for\s*\([^)]*\)/g *)
        detector "nested-loops"
          (seqs [Str "for"; args; Star (Class space); Char "{";
                 Star (Class (notChar "}")); Str "for"; args])
          "Nested loops detected - consider optimization";
        (* /for\s*\([^)]*\)\s*\{[^}]*\+\s*=/g *)
        detector "string-concatenation-in-loop"
          (seqs [Str "for"; args; Star (Class space); Char "{";
                 Star (Class (notChar "}")); Char "+"; Star (Class space);
                 Char "="])
          "String concatenation in loop - consider using array.join()" ] |})
]%string.

Record analyzer := { config : Config.t; model : option Model.t }.

(** [constructor(config = {})]: defaults overridden by [config], then
    [initializeModel], which installs the heuristic model. *)
Definition new (config : Config.partial) : analyzer :=
  {| config := {|
       Config.enabled :=
         match Config.enabled' config with
         | Some v => v | None => JBool true end;
       Config.confidenceThreshold :=
         match Config.confidenceThreshold' config with
         | Some v => v | None => 0.7%float end;
       Config.maxWarningsPerFile :=
         match Config.maxWarningsPerFile' config with
         | Some v => v | None => 10 end |};
     model := Some {| Model.type := "heuristic";
                      Model.version := "1.0.0";
                      Model.patterns := getHeuristicPatterns |} |}.

Definition noOverrides : Config.partial :=
  {| Config.enabled' := None; Config.confidenceThreshold' := None;
     Config.maxWarningsPerFile' := None |}.

(** [Math.max(0, Math.min(1, x))] *)
Definition clamp01 (x : float) : float := Math_max 0 (Math_min 1 x).

Definition setIntervalText : text := lit "setInterval".
Definition addEventListenerText : text := lit "addEventListener".

(** [calculateConfidence(match, lineContent, lineNumber)], with
    [match0] for [match[0]]; [lineContent] is [lines[line - 1]], and
    calling [includes] on [undefined] throws. *)
Definition calculateConfidence (match0 : text) (lineContent : option text)
    (lineNumber : nat) : outcome float :=
  let confidence := 0.5%float in
  let confidence :=
    if 20 <? length match0 then (confidence + 0.2)%float else confidence in
  match lineContent with
  | None =>
      Throws "Cannot read properties of undefined (reading 'includes')"
  | Some lineContent =>
      let confidence :=
        if includes lineContent outriderDisable
           || includes lineContent eslintDisable
        then (confidence - 0.3)%float else confidence in
      let confidence :=
        if includes match0 setIntervalText
           || includes match0 addEventListenerText
        then (confidence + 0.1)%float else confidence in
      Returns (clamp01 confidence)
  end.

Definition getLineAndColumn (content : text) (index : nat) : Position.t :=
  let beforeMatch := substring content 0 index in
  let lines := split newline beforeMatch in
  let line := length lines in
  let column := length (nth (length lines - 1) lines []) + 1 in
  {| Position.line := line; Position.column := column |}.

Definition suggestions : obj (obj string) := [
  ("race-condition", [
     ("async-await-misuse", "Wrap await calls in try-catch blocks");
     ("promise-chain-missing-catch",
      "Add .catch() to handle promise rejections") ]);
  ("memory-leak", [
     ("event-listener-no-removal",
      "Store reference to listener and remove it when no longer needed");
     ("setinterval-no-clear",
      "Store interval ID and call clearInterval when appropriate") ]);
  ("null-access", [
     ("optional-chaining-missing",
      "Use optional chaining (?.) or add null checks");
     ("array-access-no-bounds-check",
      "Check array bounds before accessing elements") ]);
  ("type-safety", [
     ("loose-equality",
      "Replace == with === for strict equality comparison");
     ("loose-inequality",
      "Replace != with !== for strict inequality comparison") ]);
  ("performance", [
     ("nested-loops",
      "Consider using more efficient algorithms or data structures");
     ("string-concatenation-in-loop",
      "Use array.push() and array.join() instead of string concatenation") ])
]%string.

(** [suggestions[category]?.[type] || '...'], for the categories and
    types of the heuristic patterns, the only ones that the analyzer
    passes and none of them a name that objects inherit. *)
Definition getMLSuggestion (category type : string) : Finding.advice :=
  Finding.Text
    (orElse (match obj_get category suggestions with
             | Some byType => obj_get type byType
             | None => None
             end)
            "Review and optimize according to best practices").

Section WithMatcher.

Variable rmatch : RegExp -> text -> nat -> option nat.

Definition findPatternMatches (pattern : RegExp) (content : text)
    (lines : list text) : outcome (list Match.t) :=
  whileExec rmatch (scanFuel content)
    (fun matches index match0 =>
       let p := getLineAndColumn content index in
       let line := Position.line p in
       let column := Position.column p in
       confidence <- calculateConfidence match0
                       (nth_error lines (line - 1)) line ;;
       Returns (matches ++ [
         {| Match.line := line;
            Match.column := column;
            Match.confidence := confidence;
            Match.match0 := match0 |}]))
    pattern content 0 [].

(** The finding pushed for a match that reaches the threshold. *)
Definition finding (category : string) (categoryConfig : Category.t)
    (pattern : Detector.t) (filePath : string) (m : Match.t) : Finding.t :=
  {| Finding.type := "ml";
     Finding.severity := Some (Category.severity categoryConfig);
     Finding.file := filePath;
     Finding.line := Match.line m;
     Finding.column := Match.column m;
     Finding.message := Some (Detector.message pattern);
     Finding.rule := (category ++ "-" ++ Detector.type pattern)%string;
     Finding.confidence := Some (Match.confidence m);
     Finding.category := Some category;
     Finding.code := None;
     Finding.suggestion :=
       Some (getMLSuggestion category (Detector.type pattern)) |}.

(** [match.confidence >= this.config.confidenceThreshold] *)
Definition reaches (threshold : float) (m : Match.t) : bool :=
  (threshold <=? Match.confidence m)%float.

(** [for (const match of matches) if (...) results.push({...})] *)
Definition pushMatches (this : analyzer) (category : string)
    (categoryConfig : Category.t) (pattern : Detector.t) (filePath : string)
    (matches : list Match.t) (results : list Finding.t) : list Finding.t :=
  fold_left
    (fun results m =>
       if reaches (Config.confidenceThreshold (config this)) m
       then results ++ [finding category categoryConfig pattern filePath m]
       else results)
    matches results.

(** [for (const pattern of categoryConfig.patterns) ...] *)
Fixpoint detectorsLoop (this : analyzer) (category : string)
    (categoryConfig : Category.t) (patterns : list Detector.t)
    (content : text) (lines : list text) (filePath : string)
    (results : list Finding.t) : outcome (list Finding.t) :=
  match patterns with
  | [] => Returns results
  | pattern :: patterns' =>
      matches <- findPatternMatches (Detector.pattern pattern)
                   content lines ;;
      detectorsLoop this category categoryConfig patterns' content lines
        filePath
        (pushMatches this category categoryConfig pattern filePath
                     matches results)
  end.

(** [for (const [category, categoryConfig] of Object.entries(...)) ...] *)
Fixpoint categoriesLoop (this : analyzer) (entries : obj Category.t)
    (content : text) (lines : list text) (filePath : string)
    (results : list Finding.t) : outcome (list Finding.t) :=
  match entries with
  | [] => Returns results
  | (category, categoryConfig) :: entries' =>
      results' <- detectorsLoop this category categoryConfig
                    (Category.patterns categoryConfig) content lines
                    filePath results ;;
      categoriesLoop this entries' content lines filePath results'
  end.

Definition analyzeWithHeuristics (this : analyzer) (model : Model.t)
    (content : text) (filePath : string) : outcome (list Finding.t) :=
  let lines := split newline content in
  categoriesLoop this (Model.patterns model) content lines filePath [].

Definition analyzeWithMLModel (this : analyzer) (content : text)
    (filePath : string) : outcome (list Finding.t) :=
  Returns [].

(** [analyze(ast, content, filePath)]; the syntax tree is not read.  The
    [try]/[catch] around the scan swallows an exception and leaves
    [results] as it was; [results.slice(0, k)] keeps the first [k]. *)
Definition analyze (this : analyzer) (content : text) (filePath : string)
  : outcome (list Finding.t) :=
  match model this with
  | None => Returns []
  | Some model =>
      if negb (truthy (Config.enabled (config this))) then Returns []
      else
        let results := [] in
        let attempt :=
          if String.eqb (Model.type model) "heuristic"
          then analyzeWithHeuristics this model content filePath
          else analyzeWithMLModel this content filePath in
        results <- match attempt with
                   | Returns rs => Returns (results ++ rs)
                   | Throws _ => Returns results
                   | Diverges => Diverges
                   end ;;
        Returns (firstn (Config.maxWarningsPerFile (config this)) results)
  end.

End WithMatcher.

(** [updateConfig(newConfig)] *)
Definition updateConfig (this : analyzer) (newConfig : Config.partial)
  : analyzer :=
  {| config := {|
       Config.enabled :=
         match Config.enabled' newConfig with
         | Some v => v | None => Config.enabled (config this) end;
       Config.confidenceThreshold :=
         match Config.confidenceThreshold' newConfig with
         | Some v => v
         | None => Config.confidenceThreshold (config this) end;
       Config.maxWarningsPerFile :=
         match Config.maxWarningsPerFile' newConfig with
         | Some v => v
         | None => Config.maxWarningsPerFile (config this) end |};
     model := model this |}.

End MLAnalyzer.

(** ** Risk score arithmetic

    The quotient of two counts is the only place where a Number can leave
    the rationals: [0 / 0] is [NaN] and [n / 0] is [Infinity]. *)

Inductive number : Type :=
| Finite (q : Q)
| Infinity
| NaN.

Definition ofZ (z : Z) : number := Finite (inject_Z z).

(** [a / b] on two counts *)
Definition divide (a b : nat) : number :=
  match b with
  | O => match a with O => NaN | S _ => Infinity end
  | S _ => Finite (inject_Z (Z.of_nat a) / inject_Z (Z.of_nat b))
  end.

(** [x * 20] *)
Definition times20 (x : number) : number :=
  match x with
  | Finite q => Finite (q * 20)
  | Infinity => Infinity
  | NaN => NaN
  end.

(** [Math.round]: the nearest integer, a tie going up. *)
Definition round (q : Q) : Z := Qfloor (q + (1 # 2)).

Definition Math_round (x : number) : number :=
  match x with
  | Finite q => ofZ (round q)
  | Infinity => Infinity
  | NaN => NaN
  end.

(** [Math.min(100, x)] *)
Definition Math_min100 (x : number) : number :=
  match x with
  | Finite q => if Qle_bool q 100 then Finite q else ofZ 100
  | Infinity => ofZ 100
  | NaN => NaN
  end.

Definition severityIs (s : string) (f : Finding.t) : bool :=
  match Finding.severity f with
  | Some s' => String.eqb s' s
  | None => false
  end.

(** ** Output formatter *)

Module OutputFormatter.

(** What a counter of the summary holds: a count, or, once
    [(o[k] || 0) + 1] has read a function that every object inherits
    under [k], the text of that function followed by as many digits [1]
    as the key has been counted. *)
Inductive tally : Type :=
| Count (n : nat)
| FunctionText (k : string) (ones : nat).

Record Summary := {
  total : nat;
  errors : nat;
  warnings : nat;
  byType : obj tally;
  bySeverity : obj tally;
  byCategory : obj tally;
  riskScore : number
}.

(** [o[k] = (o[k] || 0) + 1].  Where [o] has no property of its own under
    [k], the read finds [undefined], and the count starts at 1, unless
    [k] is a name that every object inherits: the read then finds a
    function, and the sum is the text of the function followed by [1].
    Under [__proto__] the read finds [Object.prototype], and the
    assignment of the text goes to the inherited setter, which ignores
    it. *)
Definition bump (k : string) (o : obj tally) : obj tally :=
  match obj_get k o with
  | Some (Count n) => obj_set k (Count (n + 1)) o
  | Some (FunctionText f ones) => obj_set k (FunctionText f (ones + 1)) o
  | None =>
      if String.eqb k "__proto__" then o
      else if inherited k then obj_set k (FunctionText k 1) o
      else obj_set k (Count 1) o
  end.

(** A property key made from an optional string. *)
Definition key (s : option string) : string :=
  match s with
  | Some s => s
  | None => "undefined"
  end.

(** The body of [results.forEach(result => ...)]. *)
Definition count (summary : Summary) (result : Finding.t) : Summary :=
  {| total := total summary;
     bySeverity := bump (key (Finding.severity result)) (bySeverity summary);
     errors := if severityIs "error" result then errors summary + 1
               else errors summary;
     warnings := if severityIs "error" result then warnings summary
                 else if severityIs "warning" result
                      then warnings summary + 1
                      else warnings summary;
     byType := bump (Finding.type result) (byType summary);
     byCategory :=
       match Finding.category result with
       | Some c => if String.eqb c "" then byCategory summary
                   else bump c (byCategory summary)
       | None => byCategory summary
       end;
     riskScore := riskScore summary |}.

Definition generateSummary (results : list Finding.t) : Summary :=
  let summary :=
    {| total := length results; errors := 0; warnings := 0;
       byType := []; bySeverity := []; byCategory := [];
       riskScore := ofZ 0 |} in
  let summary := fold_left count results summary in
  if 0 <? length results then
    let errorWeight := 3 in
    let warningWeight := 1 in
    let weightedScore :=
      errors summary * errorWeight + warnings summary * warningWeight in
    {| total := total summary; errors := errors summary;
       warnings := warnings summary; byType := byType summary;
       bySeverity := bySeverity summary; byCategory := byCategory summary;
       riskScore :=
         Math_min100
           (Math_round (times20 (divide weightedScore (length results)))) |}
  else summary.

(** The [reduce] of [groupResultsByFile].  Under a file name that every
    object inherits, the read [acc[result.file]] finds a function (or
    [Object.prototype] itself) where [acc] has no group yet: no array is
    stored, and the call of [push] on what was found throws. *)
Fixpoint groupLoop (results : list Finding.t) (acc : obj (list Finding.t))
  : outcome (obj (list Finding.t)) :=
  match results with
  | [] => Returns acc
  | result :: results' =>
      match obj_get (Finding.file result) acc with
      | Some group =>
          groupLoop results'
            (obj_set (Finding.file result) (group ++ [result]) acc)
      | None =>
          if inherited (Finding.file result)
          then Throws "acc[result.file].push is not a function"
          else groupLoop results' (obj_set (Finding.file result) [result] acc)
      end
  end.

(** [groupResultsByFile]: a stable group-by. *)
Definition groupResultsByFile (results : list Finding.t)
  : outcome (obj (list Finding.t)) :=
  groupLoop results [].

End OutputFormatter.

(** ** The scan command *)

Module Scan.

Record Summary := { warnings : nat; errors : nat; riskScore : number }.

Definition generateSummary (results : list Finding.t) : Summary :=
  let warnings := length (filter (severityIs "warning") results) in
  let errors := length (filter (severityIs "error") results) in
  let riskScore := ofZ 0 in
  let riskScore :=
    if 0 <? length results then
      let totalIssues := warnings + errors in
      let errorWeight := 3 in
      let warningWeight := 1 in
      let weightedScore := errors * errorWeight + warnings * warningWeight in
      Math_min100 (Math_round (times20 (divide weightedScore totalIssues)))
    else riskScore in
  {| warnings := warnings; errors := errors; riskScore := riskScore |}.

(** The finding pushed by the [catch] of [analyzeFile]. *)
Definition parsingError (filePath : string) (message : string) : Finding.t :=
  {| Finding.type := "error";
     Finding.severity := Some "error"%string;
     Finding.file := filePath;
     Finding.line := 1;
     Finding.column := 1;
     Finding.message :=
       Some ("Failed to analyze file: " ++ message)%string;
     Finding.rule := "file-parsing-error";
     Finding.code := None;
     Finding.suggestion := None;
     Finding.confidence := None;
     Finding.category := None |}.

Section AnalyzeFile.

(** The collaborators handed to [analyzeFile]: the file system, the path
    library, the parser and the two engines. *)
Variable Ast : Type.
Variable readFileSync : string -> outcome text.
Variable extname : string -> string.
Variable parseFile : text -> string -> outcome Ast.
Variable ruleAnalyze : Ast -> text -> string -> outcome (list Finding.t).
Variable mlAnalyze : Ast -> text -> string -> outcome (list Finding.t).

(** The [try] block: [results] as the block leaves it, and how it ends. *)
Definition tryBlock (filePath : string) (results : list Finding.t)
  : list Finding.t * outcome unit :=
  match readFileSync filePath with
  | Throws e => (results, Throws e)
  | Diverges => (results, Diverges)
  | Returns content =>
      match parseFile content (extname filePath) with
      | Throws e => (results, Throws e)
      | Diverges => (results, Diverges)
      | Returns ast =>
          match ruleAnalyze ast content filePath with
          | Throws e => (results, Throws e)
          | Diverges => (results, Diverges)
          | Returns ruleResults =>
              let results := results ++ ruleResults in
              match mlAnalyze ast content filePath with
              | Throws e => (results, Throws e)
              | Diverges => (results, Diverges)
              | Returns mlResults => (results ++ mlResults, Returns tt)
              end
          end
      end
  end.

Definition analyzeFile (filePath : string) : outcome (list Finding.t) :=
  let results := [] in
  match tryBlock filePath results with
  | (results, Returns _) => Returns results
  | (results, Throws message) =>
      Returns (results ++ [parsingError filePath message])
  | (_, Diverges) => Diverges
  end.

(** The loop of [scanCommand] over the code files. *)
Fixpoint analyzeFiles (codeFiles : list string) (results : list Finding.t)
  : outcome (list Finding.t) :=
  match codeFiles with
  | [] => Returns results
  | file :: codeFiles' =>
      fileResults <- analyzeFile file ;;
      analyzeFiles codeFiles' (results ++ fileResults)
  end.

End AnalyzeFile.

End Scan.

(** ** The specification's formulas *)

(** What the specification counts: newlines strictly before an offset, and
    the index of the last of them ([-1] when there is none). *)
Definition newlinesBefore (t : text) (o : nat) : nat :=
  count_occ ascii_dec (firstn o t) newline.

Fixpoint lastNewlineIndexBefore (t : text) (o : nat) : Z :=
  match o with
  | O => (-1)%Z
  | S o' =>
      match nth_error t o' with
      | Some c => if Ascii.eqb c newline then Z.of_nat o'
                  else lastNewlineIndexBefore t o'
      | None => lastNewlineIndexBefore t o'
      end
  end.

(** Length of the last piece of a split. *)
Definition lastPiece (sep : ascii) (s : text) : nat :=
  let lines := split sep s in length (nth (length lines - 1) lines []).

(** Severity weight of a finding: 3 for ['error'], 1 for ['warning'],
    0 otherwise. *)
Definition weight (f : Finding.t) : nat :=
  if severityIs "error" f then 3
  else if severityIs "warning" f then 1
  else 0.

(** [min(100, round((sum of weights / number of findings) * 20))], and 0
    for no finding. *)
Definition specRiskScore (findings : list Finding.t) : Z :=
  match findings with
  | [] => 0%Z
  | _ :: _ =>
      Z.min 100
        (round (inject_Z (Z.of_nat (list_sum (map weight findings)))
                / inject_Z (Z.of_nat (length findings)) * 20))
  end.

Definition withSeverity (s : string) : Finding.t :=
  {| Finding.type := "rule"; Finding.severity := Some s;
     Finding.file := "a.js"; Finding.line := 1; Finding.column := 1;
     Finding.message := None; Finding.rule := "r"; Finding.code := None;
     Finding.suggestion := None; Finding.confidence := None;
     Finding.category := None |}.

(** The per-match adjustments of a confidence: [+0.2] for a matched text
    longer than 20 characters, [-0.3] on a line with a disable marker,
    [+0.1] for a matched text that mentions [setInterval] or
    [addEventListener]. *)
Definition adjustment (applies : bool) (delta : Q) : Q :=
  if applies then delta else 0%Q.

Definition highSignal (match0 : text) : bool :=
  includes match0 MLAnalyzer.setIntervalText
  || includes match0 MLAnalyzer.addEventListenerText.

Definition adjusted (base : Q) (match0 lineContent : text) : Q :=
  (base + adjustment (20 <? length match0) 0.2
   - adjustment (hasDisableMarker lineContent) 0.3
   + adjustment (highSignal match0) 0.1)%Q.

(** The confidence of a match as the specification's formula gives it, in
    exact arithmetic: the fixed base 0.5, adjusted, clamped. *)
Definition specConfidence (match0 lineContent : text) : Q :=
  Qmax 0 (Qmin 1 (adjusted 0.5 match0 lineContent)).

(** The same formula on doubles: the adjustments are made one after the
    other, in the order the specification lists them, and each sum or
    difference is rounded. *)
Definition doubleConfidence (base : float) (match0 lineContent : text)
  : float :=
  let c := base in
  let c := if 20 <? length match0 then (c + 0.2)%float else c in
  let c := if hasDisableMarker lineContent then (c - 0.3)%float else c in
  let c := if highSignal match0 then (c + 0.1)%float else c in
  Math_max 0 (Math_min 1 c).

(** The rational number that a finite double stands for. *)
Definition valueOf (x : float) : option Q :=
  match Prim2SF x with
  | S754_zero _ => Some 0%Q
  | S754_finite s m e =>
      Some ((if s then -1 else 1) * inject_Z (Zpos m) * Qpower 2 e)%Q
  | _ => None
  end.

(** Two rationals at most [10^-16] apart. *)
Definition near (a b : Q) : Prop :=
  (a - b <= 1 # 10000000000000000 /\ b - a <= 1 # 10000000000000000)%Q.

(** The confidence a match would have if the base were borrowed from its
    category. *)
Definition borrowedConfidence (categoryConfig : MLAnalyzer.Category.t)
    (match0 lineContent : text) : float :=
  doubleConfidence (MLAnalyzer.Category.confidence categoryConfig)
    match0 lineContent.

(** A pattern table with every category's base confidence replaced. *)
Definition rebase (g : string -> float) (model : MLAnalyzer.Model.t)
  : MLAnalyzer.Model.t :=
  {| MLAnalyzer.Model.type := MLAnalyzer.Model.type model;
     MLAnalyzer.Model.version := MLAnalyzer.Model.version model;
     MLAnalyzer.Model.patterns :=
       map (fun entry =>
              (fst entry,
               {| MLAnalyzer.Category.description :=
                    MLAnalyzer.Category.description (snd entry);
                  MLAnalyzer.Category.severity :=
                    MLAnalyzer.Category.severity (snd entry);
                  MLAnalyzer.Category.confidence := g (fst entry);
                  MLAnalyzer.Category.patterns :=
                    MLAnalyzer.Category.patterns (snd entry) |}))
           (MLAnalyzer.Model.patterns model) |}.

(** The raw matches of a scan, in category, detector, occurrence order,
    each with the category and detector that own it. *)
Module Raw.
Record t := {
  category : string;
  categoryConfig : MLAnalyzer.Category.t;
  detector : MLAnalyzer.Detector.t;
  found : MLAnalyzer.Match.t
}.
End Raw.

Section RawMatches.

Variable rmatch : RegExp -> text -> nat -> option nat.

Fixpoint rawOfDetectors (category : string)
    (categoryConfig : MLAnalyzer.Category.t)
    (patterns : list MLAnalyzer.Detector.t) (content : text)
  : outcome (list Raw.t) :=
  match patterns with
  | [] => Returns []
  | pattern :: patterns' =>
      matches <- MLAnalyzer.findPatternMatches rmatch
                   (MLAnalyzer.Detector.pattern pattern) content
                   (split newline content) ;;
      rest <- rawOfDetectors category categoryConfig patterns' content ;;
      Returns (map (fun m => {| Raw.category := category;
                                Raw.categoryConfig := categoryConfig;
                                Raw.detector := pattern;
                                Raw.found := m |}) matches ++ rest)
  end.

Fixpoint rawOfCategories (entries : obj MLAnalyzer.Category.t)
    (content : text) : outcome (list Raw.t) :=
  match entries with
  | [] => Returns []
  | (category, categoryConfig) :: entries' =>
      here <- rawOfDetectors category categoryConfig
                (MLAnalyzer.Category.patterns categoryConfig) content ;;
      rest <- rawOfCategories entries' content ;;
      Returns (here ++ rest)
  end.

Definition rawMatches (model : MLAnalyzer.Model.t) (content : text)
  : outcome (list Raw.t) :=
  rawOfCategories (MLAnalyzer.Model.patterns model) content.

Definition totalRawMatches (model : MLAnalyzer.Model.t) (content : text)
  : outcome nat :=
  raws <- rawMatches model content ;; Returns (length raws).

(** Every detector of the table is global and has no empty match on the
    text. *)
Definition scans (entries : obj MLAnalyzer.Category.t) (content : text)
  : bool :=
  forallb (fun entry =>
             forallb (fun d => progresses rmatch
                                 (MLAnalyzer.Detector.pattern d) content)
                     (MLAnalyzer.Category.patterns (snd entry)))
          entries.

End RawMatches.

Definition rawFinding (filePath : string) (r : Raw.t) : Finding.t :=
  MLAnalyzer.finding (Raw.category r) (Raw.categoryConfig r)
    (Raw.detector r) filePath (Raw.found r).

Definition rawReaches (threshold : float) (r : Raw.t) : bool :=
  MLAnalyzer.reaches threshold (Raw.found r).

(** A rule with its [enabled] attribute set to [true]. *)
Definition explicitlyEnabled (r : RuleEngine.Rule) : RuleEngine.Rule :=
  {| RuleEngine.name := RuleEngine.name r;
     RuleEngine.enabled := Some (JBool true);
     RuleEngine.severity := RuleEngine.severity r;
     RuleEngine.description := RuleEngine.description r;
     RuleEngine.pattern := RuleEngine.pattern r;
     RuleEngine.exclude := RuleEngine.exclude r |}.

(** An engine whose cached active set is in step with its rules, as the
    constructor, [setRuleEnabled] and [addRule] leave it. *)
Definition inStep (e : RuleEngine.engine) : Prop :=
  RuleEngine.enabledRules e = RuleEngine.getEnabledRules (RuleEngine.rules e).

(** What [findPatternMatches] records about a match of a pattern in the
    text: the matched text, the position of its offset, and the confidence
    computed from the matched text and the line that contains the offset. *)
Definition matchOk (rmatch : RegExp -> text -> nat -> option nat)
    (re : RegExp) (content : text) (m : MLAnalyzer.Match.t) : Prop :=
  exists index len lineContent,
    index <= length content /\
    rmatch re content index = Some len /\
    MLAnalyzer.Match.match0 m = matched content index len /\
    MLAnalyzer.Match.line m
      = Position.line (MLAnalyzer.getLineAndColumn content index) /\
    MLAnalyzer.Match.column m
      = Position.column (MLAnalyzer.getLineAndColumn content index) /\
    nth_error (split newline content) (MLAnalyzer.Match.line m - 1)
      = Some lineContent /\
    MLAnalyzer.calculateConfidence (MLAnalyzer.Match.match0 m)
      (Some lineContent) (MLAnalyzer.Match.line m)
      = Returns (MLAnalyzer.Match.confidence m).

Definition rawOk (rmatch : RegExp -> text -> nat -> option nat)
    (entries : obj MLAnalyzer.Category.t) (content : text)
    (r : Raw.t) : Prop :=
  In (Raw.category r, Raw.categoryConfig r) entries /\
  In (Raw.detector r) (MLAnalyzer.Category.patterns (Raw.categoryConfig r)) /\
  matchOk rmatch (MLAnalyzer.Detector.pattern (Raw.detector r)) content
    (Raw.found r).

(** The findings of the raw matches that reach the threshold. *)
Definition emitted (this : MLAnalyzer.analyzer) (filePath : string)
    (raws : list Raw.t) : list Finding.t :=
  map (rawFinding filePath)
    (filter (rawReaches
               (MLAnalyzer.Config.confidenceThreshold
                  (MLAnalyzer.config this))) raws).

(** A finding whose line carries no disable marker. *)
Definition unsuppressed (content : text) (f : Finding.t) : Prop :=
  exists lineContent,
    nth_error (split newline content) (Finding.line f - 1)
      = Some lineContent /\
    hasDisableMarker lineContent = false.

(** The engine that holds a rule table, its active set computed from it. *)
Definition engineOf (rules : obj RuleEngine.Rule) : RuleEngine.engine :=
  {| RuleEngine.rules := rules;
     RuleEngine.enabledRules := RuleEngine.getEnabledRules rules |}.

(** Every detector of a table is global and cannot match the empty
    string. *)
Definition detectorsConsume (entries : obj MLAnalyzer.Category.t) : bool :=
  forallb (fun entry =>
             forallb (fun d =>
                        global (MLAnalyzer.Detector.pattern d)
                        && Re.consumes
                             (source (MLAnalyzer.Detector.pattern d)))
                     (MLAnalyzer.Category.patterns (snd entry)))
          entries.

(** ** Example inputs *)

Definition twoLines : text := lit "ab" ++ [newline] ++ lit "cd".

Definition tenWarnings : list Finding.t := repeat (withSeverity "warning") 10.

Definition errorAndInfo : list Finding.t :=
  [withSeverity "error"; withSeverity "info"].

Definition looseEquality : text := lit "a == b".

(** The model that [initializeModel] installs. *)
Definition builtinModel : MLAnalyzer.Model.t :=
  {| MLAnalyzer.Model.type := "heuristic";
     MLAnalyzer.Model.version := "1.0.0";
     MLAnalyzer.Model.patterns := MLAnalyzer.getHeuristicPatterns |}.

Definition analyzerWith (threshold : float) (k : nat)
  : MLAnalyzer.analyzer :=
  MLAnalyzer.new
    {| MLAnalyzer.Config.enabled' := None;
       MLAnalyzer.Config.confidenceThreshold' := Some threshold;
       MLAnalyzer.Config.maxWarningsPerFile' := Some k |}.

Definition threeComparisons : text := lit "a == b; c != d; e == f".

Definition markedLog : text :=
  lit "console.log(1) // eslint-disable" ++ [newline] ++ lit "console.log(2)".


(** A call of [setInterval] that is longer than 20 characters. *)
Definition longInterval : text := lit "setInterval(tick, 1000000000)".





Definition unusedConst : text :=
  lit "const x = 1;" ++ [newline] ++ lit "console.log(x);".

Definition disabledAnalyzer : MLAnalyzer.analyzer :=
  MLAnalyzer.new
    {| MLAnalyzer.Config.enabled' := Some (JBool false);
       MLAnalyzer.Config.confidenceThreshold' := None;
       MLAnalyzer.Config.maxWarningsPerFile' := None |}.

(** A custom rule supplied without an [enabled] attribute. *)
Definition noTodo : RuleEngine.Rule :=
  {| RuleEngine.name := None;
     RuleEngine.enabled := None;
     RuleEngine.severity := Some "info"%string;
     RuleEngine.description := Some "TODO left in the code"%string;
     RuleEngine.pattern :=
       Some {| source := Re.Str "TODO"; global := true |};
     RuleEngine.exclude := None |}.

Definition todoText : text := lit "// TODO: tidy up".

(** A file system with one unreadable file, and engines that return
    nothing. *)
Definition unreadable (filePath : string) : outcome text :=
  if String.eqb filePath "bad.js"
  then Throws "ENOENT: no such file or directory"
  else Returns looseEquality.


(** * More of the code

    The parts of the program around its analysis core: the code fixer and
    the fix command, the file analyzer, the default configuration and the
    escaping of CSV fields, each followed by the notions that its
    properties speak of.

    ** Grouping and counting: what the properties speak of *)

(** The distinct elements of a list, in order of first appearance. *)
Fixpoint firsts (l : list string) : list string :=
  match l with
  | [] => []
  | x :: l' => x :: filter (fun y => negb (String.eqb y x)) (firsts l')
  end.

Definition fromFile (file : string) (r : Finding.t) : bool :=
  String.eqb (Finding.file r) file.

(** The number of findings whose severity, used as a property key, is
    [k]. *)
Definition withKey (k : string) (results : list Finding.t) : nat :=
  length (filter (fun r =>
                    String.eqb (OutputFormatter.key (Finding.severity r)) k)
                 results).

(** ** Traces of a scanning loop *)

Section Traces.

Variable rmatch : RegExp -> text -> nat -> option nat.

(** The successive results of [re.exec(s)], from [re.lastIndex = lastIndex]
    up to the [null] that ends the loop: index and length of each match. *)
Inductive scanned (re : RegExp) (s : text)
  : nat -> list (nat * nat) -> Prop :=
| scanned_done lastIndex :
    exec rmatch re s lastIndex = None -> scanned re s lastIndex []
| scanned_step lastIndex index len ms :
    exec rmatch re s lastIndex = Some (index, len) ->
    scanned re s (if global re then index + len else lastIndex) ms ->
    scanned re s lastIndex ((index, len) :: ms).

(** The loop body run over the matches of a trace. *)
Fixpoint foldMatches {A} (body : A -> nat -> text -> outcome A) (s : text)
    (acc : A) (ms : list (nat * nat)) : outcome A :=
  match ms with
  | [] => Returns acc
  | (index, len) :: ms' =>
      acc' <- body acc index (matched s index len) ;;
      foldMatches body s acc' ms'
  end.

(** Matches that are leftmost from [from] on, not empty, and apart: each
    starts at or after the end of the one before. *)
Fixpoint apart (re : RegExp) (s : text) (from : nat) (ms : list (nat * nat))
  : Prop :=
  match ms with
  | [] => forall j, from <= j <= length s -> rmatch re s j = None
  | (index, len) :: ms' =>
      from <= index <= length s /\ 0 < len /\
      rmatch re s index = Some len /\
      (forall j, from <= j < index -> rmatch re s j = None) /\
      apart re s (index + len) ms'
  end.

(** [shouldSkipRule] on a defined line, as a condition. *)
Definition skips (rule : RuleEngine.Rule) (lineContent : text) : bool :=
  hasDisableMarker lineContent
  || match RuleEngine.exclude rule with
     | Some patterns =>
         existsb (fun p => matchesSomewhere rmatch p lineContent) patterns
     | None => false
     end.

End Traces.

(** The finding that [applyRule] pushes for the match at [index]. *)
Definition violation (rule : RuleEngine.Rule) (ruleName : string)
    (content : text) (filePath : string) (index len : nat) : Finding.t :=
  let p := RuleEngine.getLineAndColumn content index in
  {| Finding.type := "rule";
     Finding.severity := RuleEngine.severity rule;
     Finding.file := filePath;
     Finding.line := Position.line p;
     Finding.column := Position.column p;
     Finding.message := RuleEngine.description rule;
     Finding.rule := ruleName;
     Finding.code := Some (trim (matched content index len));
     Finding.suggestion :=
       Some (RuleEngine.getSuggestion ruleName (matched content index len));
     Finding.confidence := None;
     Finding.category := None |}.

(** The line of the text that contains an offset. *)
Definition lineOf (content : text) (index : nat) : text :=
  nth (Position.line (RuleEngine.getLineAndColumn content index) - 1)
      (split newline content) [].

(** The findings of a trace: one for every match whose line is not
    skipped. *)
Definition violations (rmatch : RegExp -> text -> nat -> option nat)
    (rule : RuleEngine.Rule) (ruleName : string) (content : text)
    (filePath : string) (ms : list (nat * nat)) : list Finding.t :=
  flat_map (fun m =>
              if skips rmatch rule (lineOf content (fst m)) then []
              else [violation rule ruleName content filePath (fst m) (snd m)])
           ms.

(** Positions in reading order. *)
Definition positionBefore (p q : Position.t) : Prop :=
  Position.line p < Position.line q \/
  (Position.line p = Position.line q /\
   Position.column p < Position.column q).

Definition findingBefore (f g : Finding.t) : Prop :=
  Finding.line f < Finding.line g \/
  (Finding.line f = Finding.line g /\ Finding.column f < Finding.column g).

(** ** More example inputs *)

Definition twoVars : text := lit "var x = 1; var y = 2;".

(** A configuration entry in the shape of the default configuration file:
    the flag and the severity, no pattern. *)
Definition configEntry : RuleEngine.Rule :=
  {| RuleEngine.name := None;
     RuleEngine.enabled := Some (JBool true);
     RuleEngine.severity := Some "warning"%string;
     RuleEngine.description := None;
     RuleEngine.pattern := None;
     RuleEngine.exclude := None |}.

(** A rule of the default catalog, by name. *)
Definition defaultRule (ruleName : string) : RuleEngine.Rule :=
  match obj_get ruleName RuleEngine.defaultRules with
  | Some rule => rule
  | None => configEntry
  end.

(** * The code fixer

    ** Lines, replacement and collected matches *)

(** [lines.join(sep)] for a one-character separator. *)
Fixpoint join (sep : ascii) (lines : list text) : text :=
  match lines with
  | [] => []
  | l :: lines' =>
      match lines' with
      | [] => l
      | _ :: _ => l ++ sep :: join sep lines'
      end
  end.

(** [lines[i] = v] for an index inside the array, the only use the fixers
    make of it (outside, the language would extend the array; this leaves
    it as it is). *)
Fixpoint update {A} (l : list A) (i : nat) (v : A) : list A :=
  match l, i with
  | [], _ => []
  | _ :: l', O => v :: l'
  | x :: l', S i' => x :: update l' i' v
  end.

Definition text_eqb (a b : text) : bool :=
  if list_eq_dec ascii_dec a b then true else false.

Section Replacing.

Variable rmatch : RegExp -> text -> nat -> option nat.

(** [s.replace(re, replacement)] for a pattern without the [g] flag and a
    replacement without dollar signs: the leftmost match is replaced. *)
Definition replaceFirst (re : RegExp) (s replacement : text) : text :=
  match search rmatch re s 0 (length s) with
  | Some (index, len) =>
      firstn index s ++ replacement ++ skipn (index + len) s
  | None => s
  end.

(** The matches that [s.match(re)] and [s.replace(re, ...)] collect for a
    pattern with the [g] flag, from [re.lastIndex = lastIndex] on: after
    an empty match the scan moves one position on.  No scan makes more
    than [length s + 1] rounds (see [matchAll_fuel]). *)
Fixpoint matchAll (fuel : nat) (re : RegExp) (s : text) (lastIndex : nat)
  : list (nat * nat) :=
  match fuel with
  | O => []
  | S fuel' =>
      if length s <? lastIndex then []
      else
        match search rmatch re s lastIndex (length s - lastIndex) with
        | None => []
        | Some (index, len) =>
            (index, len)
            :: matchAll fuel' re s
                 (if len =? 0 then S (index + len) else index + len)
        end
  end.

(** [(s.match(re) || []).length] for a pattern with the [g] flag. *)
Definition matchCount (re : RegExp) (s : text) : nat :=
  length (matchAll (S (S (length s))) re s 0).

(** The result that [replace] builds from the collected matches: a match
    that starts before the end of the one before is passed over. *)
Fixpoint substitute (s replacement : text) (nextSourcePosition : nat)
    (ms : list (nat * nat)) : text :=
  match ms with
  | [] => skipn nextSourcePosition s
  | (position, len) :: ms' =>
      if nextSourcePosition <=? position then
        substring s nextSourcePosition position ++ replacement
        ++ substitute s replacement (position + len) ms'
      else substitute s replacement nextSourcePosition ms'
  end.

(** [s.replace(re, replacement)] for a pattern with the [g] flag. *)
Definition replaceAll (re : RegExp) (s replacement : text) : text :=
  substitute s replacement 0 (matchAll (S (S (length s))) re s 0).

End Replacing.

(** ** [CodeFixer] *)

Module CodeFixer.

Record FixResult := { fixed : bool; content : text }.

(** The content that [applyFix] and the fix functions are called with: a
    text, or [undefined] ([None]), which the loop of the fix command holds
    once it has taken the content of a value that has none. *)
Definition held : Type := option text.

(** A fix function; one that is added from outside may throw or not come
    back. *)
Definition fixer : Type := Finding.t -> held -> outcome FixResult.

(** What [applyFix] hands back: the result of a fix function;
    [{ fixed: false, content }] where the content is [undefined]; or,
    from a function that the table of fixers inherits, a value that is no
    fix result: the finding itself, the fixer itself, the text
    [[object Object]], [false] or [undefined]. *)
Inductive answer : Type :=
| Result (r : FixResult)
| UnfixedUndefined
| TheFinding
| TheFixer
| ObjectText
| False_
| Undefined.

(** [{ fixed: false, content }] *)
Definition unfixed (content0 : held) : answer :=
  match content0 with
  | Some content0 => Result {| fixed := false; content := content0 |}
  | None => UnfixedUndefined
  end.

(** A built-in fix function starts by calling [split] or [replace] on its
    content, which throws on [undefined]. *)
Definition onText (method : string)
    (body : Finding.t -> text -> FixResult) : fixer :=
  fun result content0 =>
    match content0 with
    | Some content0 => Returns (body result content0)
    | None =>
        Throws ("Cannot read properties of undefined (reading '"
                ++ method ++ "')")%string
    end.

(** [this.fixableRules] is a set, kept in insertion order without
    repetition; [this.fixers] a table. *)
Record t := { fixableRules : list string; fixers : obj fixer }.

(** The pattern of [fixTrailingSpaces], [ \t]+$ without flags: the dollar
    is the end of the input, where no character is ahead. *)
Definition trailingBlanks : RegExp :=
  {| source := Re.seqs [Re.Plus (Re.Class (Re.oneOf RuleEngine.blank));
                        Re.NotAhead (Re.Class Re.anyChar)];
     global := false |}.

(** [\S], [\t] with the [g] flag, and a space with the [g] flag. *)
Definition nonWhitespace : RegExp :=
  {| source := Re.Class (fun c => negb (Re.space c)); global := false |}.
Definition tabs : RegExp := {| source := Re.Char "009"; global := true |}.
Definition spaces : RegExp := {| source := Re.Char " "; global := true |}.

(** The pattern of [fixMultipleEmptyLines]: \n\s*\n\s*\n with the [g]
    flag. *)
Definition emptyLines : RegExp :=
  {| source := Re.seqs [Re.Char newline; Re.Star (Re.Class Re.space);
                        Re.Char newline; Re.Star (Re.Class Re.space);
                        Re.Char newline];
     global := true |}.

Section WithMatcher.

Variable rmatch : RegExp -> text -> nat -> option nat.

(** [result.line > 0 && result.line <= lines.length] *)
Definition onLine (result : Finding.t) (lines : list text) : bool :=
  (0 <? Finding.line result) && (Finding.line result <=? length lines).

Definition fixTrailingSpaces (result : Finding.t) (content : text)
  : FixResult :=
  let lines := split newline content in
  if onLine result lines then
    let lineIndex := Finding.line result - 1 in
    let originalLine := nth lineIndex lines [] in
    let fixedLine := replaceFirst rmatch trailingBlanks originalLine [] in
    if negb (text_eqb fixedLine originalLine) then
      {| fixed := true;
         content := join newline (update lines lineIndex fixedLine) |}
    else {| fixed := false; content := join newline lines |}
  else {| fixed := false; content := join newline lines |}.

Definition fixMultipleEmptyLines (result : Finding.t) (content : text)
  : FixResult :=
  let fixedContent :=
    replaceAll rmatch emptyLines content [newline; newline] in
  {| fixed := negb (text_eqb fixedContent content);
     content := fixedContent |}.

Definition fixMixedSpacesAndTabs (result : Finding.t) (content : text)
  : FixResult :=
  let lines := split newline content in
  let unfixed := {| fixed := false; content := join newline lines |} in
  if onLine result lines then
    let lineIndex := Finding.line result - 1 in
    let originalLine := nth lineIndex lines [] in
    match search rmatch nonWhitespace originalLine 0 (length originalLine)
    with
    | Some (S i, _) =>
        let firstNonWhitespace := S i in
        let leadingWhitespace :=
          substring originalLine 0 firstNonWhitespace in
        let restOfLine := skipn firstNonWhitespace originalLine in
        let tabCount := matchCount rmatch tabs leadingWhitespace in
        let spaceCount := matchCount rmatch spaces leadingWhitespace in
        if 0 <? tabCount then
          let newLeadingWhitespace :=
            repeat " "%char (spaceCount + tabCount * 2) in
          let fixedLine := newLeadingWhitespace ++ restOfLine in
          {| fixed := true;
             content := join newline (update lines lineIndex fixedLine) |}
        else unfixed
    | _ => unfixed
    end
  else unfixed.

(** The fixer that the constructor builds. *)
Definition new : t :=
  {| fixableRules := ["no-trailing-spaces"; "no-multiple-empty-lines";
                      "no-mixed-spaces-and-tabs"]%string;
     fixers := [
       ("no-trailing-spaces"%string, onText "split" fixTrailingSpaces);
       ("no-multiple-empty-lines"%string,
        onText "replace" fixMultipleEmptyLines);
       ("no-mixed-spaces-and-tabs"%string,
        onText "split" fixMixedSpacesAndTabs)
     ] |}.

End WithMatcher.

Definition isFixable (this : t) (ruleName : string) : bool :=
  existsb (String.eqb ruleName) (fixableRules this).

(** [fixer.call(this, result, content)] inside the [try] of [applyFix],
    for the value that the table inherits under [k]:
    - [constructor] is [Object], which returns its argument, the finding;
    - [valueOf] returns its receiver, the fixer;
    - [toString] and [toLocaleString] return the text [[object Object]];
    - [hasOwnProperty], [isPrototypeOf] and [propertyIsEnumerable] return
      [false]: the fixer has no property called [[object Object]] and is
      no prototype of the finding;
    - [__lookupGetter__] and [__lookupSetter__] return [undefined];
    - [__defineGetter__] and [__defineSetter__] throw, the content being
      no function, and [__proto__] is the prototype itself, which has no
      [call]: the [catch] returns the content unfixed. *)
Definition callInherited (k : string) (content0 : held) : answer :=
  if String.eqb k "constructor" then TheFinding
  else if String.eqb k "valueOf" then TheFixer
  else if String.eqb k "toString" || String.eqb k "toLocaleString"
  then ObjectText
  else if String.eqb k "hasOwnProperty" || String.eqb k "isPrototypeOf"
          || String.eqb k "propertyIsEnumerable"
  then False_
  else if String.eqb k "__lookupGetter__" || String.eqb k "__lookupSetter__"
  then Undefined
  else unfixed content0.

(** [applyFix]: a fix function that throws is caught.  The read
    [this.fixers[result.rule]] finds the fix function that the table owns
    under the rule; failing that, the value that the table inherits under
    a name of [inherited], which is truthy and is called in its place; and
    otherwise [undefined]. *)
Definition applyFix (this : t) (result : Finding.t) (content0 : held)
  : outcome answer :=
  match obj_get (Finding.rule result) (fixers this) with
  | None =>
      if inherited (Finding.rule result)
      then Returns (callInherited (Finding.rule result) content0)
      else Returns (unfixed content0)
  | Some fixer =>
      match fixer result content0 with
      | Throws _ => Returns (unfixed content0)
      | Returns r => Returns (Result r)
      | Diverges => Diverges
      end
  end.

Definition getFixableRules (this : t) : list string := fixableRules this.

(** [addFixableRule].  The assignment [this.fixers[ruleName] = fixer]
    stores the function under the name, except under [__proto__] in a
    table that has no such key of its own: there it replaces the prototype
    of the table, after which the table inherits from the function; the
    state is then outside what [t] describes, and the result is [None]. *)
Definition addFixableRule (this : t) (ruleName : string) (f : fixer)
  : option t :=
  let this' :=
    {| fixableRules :=
         if existsb (String.eqb ruleName) (fixableRules this)
         then fixableRules this
         else fixableRules this ++ [ruleName];
       fixers := obj_set ruleName f (fixers this) |} in
  match obj_get ruleName (fixers this) with
  | Some _ => Some this'
  | None => if String.eqb ruleName "__proto__" then None else Some this'
  end.

Definition removeFixableRule (this : t) (ruleName : string) : t :=
  {| fixableRules :=
       filter (fun n => negb (String.eqb n ruleName)) (fixableRules this);
     fixers :=
       filter (fun kv => negb (String.eqb (fst kv) ruleName)) (fixers this) |}.

(** [fixResult.fixed], as the condition of an [if].  Reading it throws on
    [undefined]; a text has the method [fixed] of [String.prototype], which
    is truthy; the finding, the fixer and [false] have no such property. *)
Definition readFixed (fixResult : answer) : outcome bool :=
  match fixResult with
  | Result r => Returns (fixed r)
  | ObjectText => Returns true
  | Undefined =>
      Throws "Cannot read properties of undefined (reading 'fixed')"
  | UnfixedUndefined | TheFinding | TheFixer | False_ => Returns false
  end.

(** [fixResult.content], read where [fixResult.fixed] is truthy: the
    content of a fix result, and [undefined] on the text. *)
Definition readContent (fixResult : answer) : held :=
  match fixResult with
  | Result r => Some (content r)
  | _ => None
  end.

(** [wouldModifyContent]: every fix is tried on the content as given. *)
Fixpoint wouldModifyContent (this : t) (results : list Finding.t)
    (content0 : text) : outcome bool :=
  match results with
  | [] => Returns false
  | result :: results' =>
      if isFixable this (Finding.rule result) then
        fixResult <- applyFix this result (Some content0) ;;
        isFixed <- readFixed fixResult ;;
        if isFixed then Returns true
        else wouldModifyContent this results' content0
      else wouldModifyContent this results' content0
  end.

End CodeFixer.

(** ** The fix command *)

Module Fix.

Record Stats := { fixed : nat; total : nat }.

(** The loop of [processFile] over the findings of a file: every fix is
    applied to the content that the fixes before it left. *)
Fixpoint applyFixes (codeFixer : CodeFixer.t) (fileResults : list Finding.t)
    (modifiedContent : CodeFixer.held) (fixed : nat)
  : outcome (CodeFixer.held * nat) :=
  match fileResults with
  | [] => Returns (modifiedContent, fixed)
  | result :: fileResults' =>
      if CodeFixer.isFixable codeFixer (Finding.rule result) then
        fixResult <- CodeFixer.applyFix codeFixer result modifiedContent ;;
        isFixed <- CodeFixer.readFixed fixResult ;;
        if isFixed then
          applyFixes codeFixer fileResults'
            (CodeFixer.readContent fixResult) (fixed + 1)
        else applyFixes codeFixer fileResults' modifiedContent fixed
      else applyFixes codeFixer fileResults' modifiedContent fixed
  end.

Section ProcessFile.

Variable readFileSync : string -> outcome text.
Variable writeFileSync : string -> text -> outcome unit.

Definition failed {A} (message : string) : outcome A :=
  Throws ("Failed to process file: " ++ message)%string.

(** The message of the [TypeError] with which [fs.writeFileSync] rejects
    data that is [undefined], before it writes anything. *)
Definition invalidData : string :=
  ("The " ++ String "034" "data" ++ String "034" " argument must be of type "
   ++ "string or an instance of Buffer, TypedArray, or DataView. "
   ++ "Received undefined")%string.

(** [processFile]: the calls made to [writeFileSync], in order, and how
    the function ends. *)
Definition processFile (filePath : string) (fileResults : list Finding.t)
    (codeFixer : CodeFixer.t) (dryRun backup : bool)
  : list (string * text) * outcome Stats :=
  match readFileSync filePath with
  | Throws e => ([], failed e)
  | Diverges => ([], Diverges)
  | Returns content =>
      let backupPath := (filePath ++ ".outrider-backup")%string in
      let saved :=
        if backup && negb dryRun
        then ([(backupPath, content)], writeFileSync backupPath content)
        else ([], Returns tt) in
      match saved with
      | (writes, Throws e) => (writes, failed e)
      | (writes, Diverges) => (writes, Diverges)
      | (writes, Returns _) =>
          match applyFixes codeFixer fileResults (Some content) 0 with
          | Throws e => (writes, failed e)
          | Diverges => (writes, Diverges)
          | Returns (modifiedContent, fixed) =>
              let stats :=
                {| fixed := fixed; total := length fileResults |} in
              if negb dryRun && (0 <? fixed) then
                match modifiedContent with
                | None => (writes, failed invalidData)
                | Some modifiedContent =>
                    match writeFileSync filePath modifiedContent with
                    | Throws e =>
                        (writes ++ [(filePath, modifiedContent)], failed e)
                    | Diverges =>
                        (writes ++ [(filePath, modifiedContent)], Diverges)
                    | Returns _ =>
                        (writes ++ [(filePath, modifiedContent)],
                         Returns stats)
                    end
                end
              else (writes, Returns stats)
          end
      end
  end.

End ProcessFile.

End Fix.

(** ** The fixer: what the properties speak of *)

(** The end of a match of a pattern made of one character class under a
    star, as the reference matcher computes it. *)
Definition starClass (p : ascii -> bool) (s : text) (k : nat -> option nat)
  : nat -> nat -> option nat :=
  fix star (n i : nat) {struct n} : option nat :=
    match n with
    | O => k i
    | S n' =>
        match
          match JS.charAt s i with
          | Some d => if p d then (if i <? S i then star n' (S i) else None)
                      else None
          | None => None
          end
        with
        | Some e => Some e
        | None => k i
        end
    end.

(** A pattern all of whose characters and classes lie within [P];
    lookaheads are free, as they consume nothing. *)
Fixpoint within (P : ascii -> bool) (r : Re.node) : Prop :=
  match r with
  | Re.Char c => P c = true
  | Re.Class p => forall d, p d = true -> P d = true
  | Re.Seq a b | Re.Alt a b => within P a /\ within P b
  | Re.Star a => within P a
  | _ => True
  end.

(** The characters that are not white space, in order. *)
Definition ink (s : text) : text := filter (fun c => negb (Re.space c)) s.

(** A finding of a rule on a line, with the other attributes as the rule
    engine leaves them for a rule without description. *)
Definition reported (ruleName : string) (line : nat) : Finding.t :=
  {| Finding.type := "rule";
     Finding.severity := Some "warning"%string;
     Finding.file := "a.js";
     Finding.line := line;
     Finding.column := 1;
     Finding.message := None;
     Finding.rule := ruleName;
     Finding.code := None;
     Finding.suggestion := None;
     Finding.confidence := None;
     Finding.category := None |}.

(** Two lines, the first with two trailing blanks. *)
Definition trailingText : text := lit "a  " ++ [newline] ++ lit "b".

(** Two lines, the second indented with a space and a tab. *)
Definition tabbedText : text :=
  lit "a" ++ [newline] ++ [" "; "009"]%char ++ lit "b".

(** The characters of [s] from [i] up to [j] exist and lie within [P]. *)
Definition span (P : ascii -> bool) (s : text) (i j : nat) : Prop :=
  forall x, i <= x < j ->
    exists c, JS.charAt s x = Some c /\ P c = true.

(** A rule is fixable exactly when a fix function is registered for it. *)
Definition coherent (this : CodeFixer.t) : Prop :=
  forall ruleName,
    CodeFixer.isFixable this ruleName = true
    <-> obj_get ruleName (CodeFixer.fixers this) <> None.

(** A file system that holds [trailingText] under every path and accepts
    every write. *)
Definition oneFile (filePath : string) : outcome text := Returns trailingText.

Definition accepts (filePath : string) (data : text) : outcome unit :=
  Returns tt.

(** * The file analyzer *)

Module FileAnalyzer.

Record Loc := { start : Position.t; end_ : Position.t }.

(** The object that [parseBasic] returns; its [type] is ['Program'], its
    [body] empty, its [sourceType] ['module'] and its [_basicParse]
    [true]. *)
Record Basic := {
  loc : Loc;
  range : nat * nat;
  _lines : list text;
  _content : text
}.

Definition parseBasic (content : text) (extension : string) : Basic :=
  let lines := split newline content in
  {| loc := {| start := {| Position.line := 1; Position.column := 1 |};
               end_ := {| Position.line := length lines;
                          Position.column :=
                            length (nth (length lines - 1) lines []) + 1 |} |};
     range := (0, length content);
     _lines := lines;
     _content := content |}.

(** How a method is called: on the analyzer, or as a plain function, when
    [this] is [undefined]. *)
Inductive receiver : Type := OnAnalyzer | Plain.

Definition supportedExtensions : list string :=
  [".js"; ".ts"; ".jsx"; ".tsx"]%string.

Section Parsing.

(** The parser library: the tree type and its two entry points, which
    take the text and the [jsx] option (the other options are fixed). *)
Variable Tree : Type.
Variable parseModule : text -> bool -> outcome Tree.
Variable parseScript : text -> bool -> outcome Tree.
(** [String.prototype.toLowerCase] *)
Variable toLowerCase : string -> string.

(** What [parseFile] resolves to: a tree of the parser library, or the
    fallback object. *)
Inductive Ast : Type :=
| Parsed (tree : Tree)
| BasicParse (basic : Basic).

Definition parseJavaScript (this : receiver) (content : text)
    (extension : string) : outcome Ast :=
  match parseModule content (String.eqb extension ".jsx") with
  | Returns tree => Returns (Parsed tree)
  | Diverges => Diverges
  | Throws _ =>
      match parseScript content (String.eqb extension ".jsx") with
      | Returns tree => Returns (Parsed tree)
      | Diverges => Diverges
      | Throws scriptError =>
          Throws ("Failed to parse JavaScript: " ++ scriptError)%string
      end
  end.

(** [parseTypeScript] reads [this.parseJavaScript], which throws when
    [this] is [undefined]; its own [catch] wraps the message. *)
Definition parseTypeScript (this : receiver) (content : text)
    (extension : string) : outcome Ast :=
  let attempt :=
    match this with
    | Plain =>
        Throws
          "Cannot read properties of undefined (reading 'parseJavaScript')"
    | OnAnalyzer => parseJavaScript OnAnalyzer content extension
    end in
  match attempt with
  | Throws error => Throws ("Failed to parse TypeScript: " ++ error)%string
  | r => r
  end.

(** [this.parsers] *)
Definition parsers : obj (receiver -> text -> string -> outcome Ast) :=
  [(".js"%string, parseJavaScript);
   (".jsx"%string, parseJavaScript);
   (".ts"%string, parseTypeScript);
   (".tsx"%string, parseTypeScript)].

(** [parseFile]: the parser is taken out of the table and called as a
    plain function; whatever is thrown inside the [try] leads to
    [parseBasic]. *)
Definition parseFile (content : text) (extension : string) : outcome Ast :=
  let normalizedExtension := toLowerCase extension in
  let attempt :=
    if negb (existsb (String.eqb normalizedExtension) supportedExtensions)
    then Throws ("Unsupported file type: " ++ extension)%string
    else
      match obj_get normalizedExtension parsers with
      | None => Throws ("No parser available for: " ++ extension)%string
      | Some parser => parser Plain content extension
      end in
  match attempt with
  | Throws _ => Returns (BasicParse (parseBasic content extension))
  | r => r
  end.

Record Stats := {
  totalLines : nat;
  codeLines : Z;
  commentLines : nat;
  blankLines : nat;
  functions : nat;
  classes : nat;
  imports : nat;
  exports : nat
}.

(** The four counting traversals of a tree of the parser library. *)
Variable countFunctions : Tree -> outcome nat.
Variable countClasses : Tree -> outcome nat.
Variable countImports : Tree -> outcome nat.
Variable countExports : Tree -> outcome nat.

Definition isBlank (line : text) : bool := text_eqb (trim line) [].

Definition isComment (line : text) : bool :=
  startsWith (lit "//") (trim line)
  || startsWith (lit "/*") (trim line)
  || startsWith (lit "*") (trim line).

(** [extractFileStats(ast, content)]; [ast] may be missing. *)
Definition extractFileStats (ast : option Ast) (content : text)
  : outcome Stats :=
  let lines := split newline content in
  let totalLines := length lines in
  let blankLines := length (filter isBlank lines) in
  let commentLines := length (filter isComment lines) in
  let codeLines :=
    (Z.of_nat totalLines - Z.of_nat blankLines - Z.of_nat commentLines)%Z in
  match ast with
  | Some (Parsed tree) =>
      functions <- countFunctions tree ;;
      classes <- countClasses tree ;;
      imports <- countImports tree ;;
      exports <- countExports tree ;;
      Returns {| totalLines := totalLines; codeLines := codeLines;
                 commentLines := commentLines; blankLines := blankLines;
                 functions := functions; classes := classes;
                 imports := imports; exports := exports |}
  | _ =>
      Returns {| totalLines := totalLines; codeLines := codeLines;
                 commentLines := commentLines; blankLines := blankLines;
                 functions := 0; classes := 0; imports := 0; exports := 0 |}
  end.

End Parsing.

End FileAnalyzer.

(** The lines that are neither blank nor comments. *)
Definition isCode (line : text) : bool :=
  negb (FileAnalyzer.isBlank line) && negb (FileAnalyzer.isComment line).

(** A parser library that accepts every text, and lower case for the
    letters of the extensions in use. *)
Definition anyTree (content : text) (jsx : bool) : outcome unit := Returns tt.

Definition lowerAscii (c : ascii) : ascii :=
  if Re.inRange "A" "Z" c then ascii_of_nat (nat_of_ascii c + 32) else c.

Fixpoint lower (s : string) : string :=
  match s with
  | EmptyString => EmptyString
  | String c s' => String (lowerAscii c) (lower s')
  end.

(** * The default configuration *)

Module ConfigLoader.

Definition entry (enabled : bool) (severity : string) : RuleEngine.Rule :=
  {| RuleEngine.name := None;
     RuleEngine.enabled := Some (JBool enabled);
     RuleEngine.severity := Some severity;
     RuleEngine.description := None;
     RuleEngine.pattern := None;
     RuleEngine.exclude := None |}.

(** [getDefaultConfig().rules], which the commands hand to the rule
    engine. *)
Definition rules : obj RuleEngine.Rule := [
  ("no-console-log", entry true "warning");
  ("no-debugger", entry true "error");
  ("no-eval", entry true "error");
  ("no-var", entry true "warning");
  ("prefer-const", entry true "warning");
  ("no-unused-variables", entry true "warning")
]%string.

End ConfigLoader.

(** The rules of the catalog that the default configuration does not
    name. *)
Definition unnamedRules : list string :=
  ["no-empty-blocks"; "no-multiple-empty-lines"; "no-trailing-spaces";
   "no-mixed-spaces-and-tabs"]%string.

(** A line with a call of [eval] and two trailing blanks. *)
Definition evalText : text := lit "eval(x)  ".

(** * CSV fields *)

Module CSV.

Definition quote : ascii := "034"%char.
Definition comma : ascii := ","%char.

(** The pattern of [escapeCSV]: one double quote, with the [g] flag. *)
Definition quotes : RegExp := {| source := Re.Char quote; global := true |}.

(** [escapeCSV(value)] for a string, which is what [formatCSV] gives it
    (a value that is not a string is returned as it is). *)
Definition escapeCSV (rmatch : RegExp -> text -> nat -> option nat)
    (value : text) : text :=
  let escaped := replaceAll rmatch quotes value [quote; quote] in
  if includes escaped [comma] || includes escaped [quote]
     || includes escaped [newline]
  then [quote] ++ escaped ++ [quote]
  else escaped.

End CSV.

(** How a reader of the CSV takes a field back: a field that starts with
    a quote loses its two outer quotes and every doubled quote becomes
    one. *)
Fixpoint undouble (s : text) : text :=
  match s with
  | [] => []
  | c :: s' =>
      match s' with
      | d :: s'' =>
          if Ascii.eqb c CSV.quote && Ascii.eqb d CSV.quote
          then CSV.quote :: undouble s''
          else c :: undouble s'
      | [] => [c]
      end
  end.

Definition readField (field : text) : text :=
  match field with
  | c :: rest => if Ascii.eqb c CSV.quote then undouble (removelast rest)
                 else field
  | [] => []
  end.

Definition doubled (c : ascii) : text :=
  if Ascii.eqb CSV.quote c then [CSV.quote; CSV.quote] else [c].

Definition special (c : ascii) : bool :=
  Ascii.eqb c CSV.comma || Ascii.eqb c CSV.quote || Ascii.eqb c newline.

(** A message with a comma and a quoted word. *)
Definition quotedMessage : text :=
  lit "Use " ++ [CSV.quote] ++ lit "let" ++ [CSV.quote] ++ lit ", not var".

(** ** The rules that have a fixer *)

(** The pattern of the rule [no-trailing-spaces]. *)
Definition trailingRule : RegExp :=
  {| source := Re.seqs [Re.Plus (Re.Class (Re.oneOf RuleEngine.blank));
                        Re.LineEnd];
     global := true |}.

Definition carriageReturn : ascii := "013"%char.

(** A line with trailing blanks that ends in a carriage return and a line
    feed. *)
Definition crlfText : text := lit "a  " ++ [carriageReturn; newline] ++ lit "b".

(** The ends of the matches of a pattern at a position, read off its
    syntax; for a lookahead and a word boundary only that they consume
    nothing. *)
Inductive matches (s : text) : Re.node -> nat -> nat -> Prop :=
| matches_empty i : matches s Re.Empty i i
| matches_char c i :
    JS.charAt s i = Some c -> matches s (Re.Char c) i (S i)
| matches_class p c i :
    JS.charAt s i = Some c -> p c = true -> matches s (Re.Class p) i (S i)
| matches_seq a b i j k :
    matches s a i j -> matches s b j k -> matches s (Re.Seq a b) i k
| matches_alt_l a b i j : matches s a i j -> matches s (Re.Alt a b) i j
| matches_alt_r a b i j : matches s b i j -> matches s (Re.Alt a b) i j
| matches_star_nil a i : matches s (Re.Star a) i i
| matches_star_cons a i j k :
    matches s a i j -> i < j -> matches s (Re.Star a) j k ->
    matches s (Re.Star a) i k
| matches_notAhead a i : matches s (Re.NotAhead a) i i
| matches_lineStart i :
    match i with
    | O => True
    | S i' => exists c, JS.charAt s i' = Some c
                        /\ Re.isLineTerminator c = true
    end ->
    matches s Re.LineStart i i
| matches_lineEnd i :
    match JS.charAt s i with
    | Some c => Re.isLineTerminator c = true
    | None => True
    end ->
    matches s Re.LineEnd i i
| matches_wordBoundary i : matches s Re.WordBoundary i i.

(** A text with three line feeds in a row. *)
Definition gappedText : text := lit "a" ++ [newline; newline; newline] ++ lit "b".

(** The pattern of the rule [no-mixed-spaces-and-tabs]. *)
Definition mixedRule : RegExp :=
  {| source := Re.seqs [Re.LineStart;
                        Re.Star (Re.Class (Re.oneOf RuleEngine.blank));
                        Re.Char "009";
                        Re.Star (Re.Class (Re.oneOf RuleEngine.blank));
                        Re.Class (Re.noneOf RuleEngine.blank)];
     global := true |}.

(** ** Patterns as functions on the text ahead

    A greedy star of a character class followed by [K], on the text
    ahead of the position: the number of characters matched. *)
Fixpoint starL (p : ascii -> bool) (K : text -> option nat) (l : text)
  : option nat :=
  match l with
  | [] => K []
  | c :: l' =>
      if p c then
        match starL p K l' with
        | Some m => Some (S m)
        | None => K l
        end
      else K l
  end.

(** A line feed; a line feed, white space and a line feed; and the whole
    pattern of [fixMultipleEmptyLines]. *)
Definition lineFeed (l : text) : option nat :=
  match l with
  | c :: _ => if Ascii.eqb newline c then Some 1 else None
  | [] => None
  end.

Definition feedRun (l : text) : option nat :=
  match l with
  | c :: l' =>
      if Ascii.eqb newline c
      then option_map S (starL Re.space lineFeed l')
      else None
  | [] => None
  end.

Definition emptyRun (l : text) : option nat :=
  match l with
  | c :: l' =>
      if Ascii.eqb newline c
      then option_map S (starL Re.space feedRun l')
      else None
  | [] => None
  end.

(** The number of line feeds in the white space that a text starts
    with. *)
Fixpoint wsNewlines (l : text) : nat :=
  match l with
  | c :: l' =>
      if Re.space c
      then (if Ascii.eqb newline c then 1 else 0) + wsNewlines l'
      else 0
  | [] => 0
  end.

(** Replacement of every match of [M], from left to right, by
    [replacement]; [skip] characters are still inside the match before. *)
Fixpoint replaceL (M : text -> option nat) (replacement : text) (skip : nat)
    (l : text) : text :=
  match l with
  | [] => []
  | c :: l' =>
      match skip with
      | S k => replaceL M replacement k l'
      | O =>
          match M l with
          | Some (S len') => replacement ++ replaceL M replacement len' l'
          | _ => c :: replaceL M replacement 0 l'
          end
      end
  end.

(** A text with trailing blanks before three line feeds. *)
Definition gappedTrailing : text :=
  lit "a  " ++ [newline; newline; newline] ++ lit "b".

(** Counting traversals that find nothing. *)
Definition countsNothing (tree : unit) : outcome nat := Returns 0.

(** A fix function that fixes nothing, and throws when it is given no
    content. *)
Definition leaves : CodeFixer.fixer :=
  fun result content =>
    match content with
    | Some content =>
        Returns {| CodeFixer.fixed := false; CodeFixer.content := content |}
    | None => Throws "no content"
    end.

(** A finding whose severity is ['error'] or ['warning']. *)
Definition errorOrWarning (f : Finding.t) : bool :=
  severityIs "error" f || severityIs "warning" f.

(** A table of rules as [JSON.parse] can give it: no entry has a regular
    expression for its pattern. *)
Definition withoutPatterns (customRules : obj RuleEngine.Rule) : Prop :=
  forall name rule,
    In (name, rule) customRules -> RuleEngine.pattern rule = None.

(** The rules of the default configuration, overridden. *)
Definition noisyConfig : obj RuleEngine.Rule :=
  [("no-debugger"%string,
    {| RuleEngine.name := None;
       RuleEngine.enabled := Some (JBool true);
       RuleEngine.severity := Some "info"%string;
       RuleEngine.description := None;
       RuleEngine.pattern := None;
       RuleEngine.exclude := None |})].

(** The constructor argument that sets the threshold only. *)
Definition onlyThreshold (threshold : float) : MLAnalyzer.Config.partial :=
  {| MLAnalyzer.Config.enabled' := None;
     MLAnalyzer.Config.confidenceThreshold' := Some threshold;
     MLAnalyzer.Config.maxWarningsPerFile' := None |}.

(** A finding in a file called [constructor]. *)
Definition fromConstructor : Finding.t :=
  {| Finding.type := "rule";
     Finding.severity := Some "warning"%string;
     Finding.file := "constructor";
     Finding.line := 1;
     Finding.column := 1;
     Finding.message := None;
     Finding.rule := "no-var";
     Finding.code := None;
     Finding.suggestion := None;
     Finding.confidence := None;
     Finding.category := None |}.

(** What a counter holds for a key, other than [__proto__], that has been
    counted [n] times. *)
Definition counted (k : string) (n : nat) : option OutputFormatter.tally :=
  match n with
  | O => None
  | S _ =>
      Some (if inherited k then OutputFormatter.FunctionText k n
            else OutputFormatter.Count n)
  end.

(** * Properties *)

(** ** Position resolver *)

Lemma split_nonempty sep s : split sep s <> [].
Proof.
  destruct s as [|c s]; simpl; [discriminate|].
  destruct (Ascii.eqb c sep); [discriminate|].
  destruct (split sep s); discriminate.
Qed.

Lemma split_length sep s :
  length (split sep s) = S (count_occ ascii_dec s sep).
Proof.
  induction s as [|c s IH]; simpl; [reflexivity|].
  destruct (Ascii.eqb_spec c sep) as [->|Hne].
  - destruct (ascii_dec sep sep); [|congruence]. simpl. now rewrite IH.
  - destruct (ascii_dec c sep); [congruence|].
    destruct (split sep s) eqn:E; [now destruct (@split_nonempty _ _ E)|].
    simpl in *. exact IH.
Qed.

Lemma lastPiece_cons sep c s :
  lastPiece sep (c :: s) =
  if existsb (Ascii.eqb sep) s then lastPiece sep s
  else if Ascii.eqb c sep then lastPiece sep s else S (lastPiece sep s).
Proof.
  unfold lastPiece. simpl.
  destruct (split sep s) as [|l ls] eqn:E;
    [now destruct (@split_nonempty _ _ E)|].
  assert (Hls : ls = [] <-> existsb (Ascii.eqb sep) s = false).
  { pose proof (split_length sep s) as HL. rewrite E in HL. simpl in HL.
    split; intros H.
    - subst ls. simpl in HL.
      clear E. induction s as [|d s IH]; [reflexivity|]. simpl in *.
      destruct (ascii_dec d sep); [discriminate|].
      destruct (Ascii.eqb_spec sep d); [congruence|]. simpl. auto.
    - destruct ls; [reflexivity|]. exfalso. simpl in HL.
      assert (count_occ ascii_dec s sep = 0).
      { clear -H. induction s as [|d s IH]; [reflexivity|]. simpl in *.
        destruct (Ascii.eqb_spec sep d); [discriminate|]. simpl in H.
        destruct (ascii_dec d sep); [congruence|]. auto. }
      lia. }
  destruct (Ascii.eqb c sep); simpl.
  - destruct ls as [|l' ls'].
    + rewrite (proj1 Hls eq_refl). reflexivity.
    + destruct (existsb (Ascii.eqb sep) s) eqn:Ex.
      * now rewrite Nat.sub_0_r.
      * discriminate (proj2 Hls eq_refl).
  - destruct ls as [|l' ls'].
    + rewrite (proj1 Hls eq_refl). reflexivity.
    + destruct (existsb (Ascii.eqb sep) s) eqn:Ex.
      * now rewrite Nat.sub_0_r.
      * discriminate (proj2 Hls eq_refl).
Qed.

Lemma lastPiece_snoc sep s c :
  lastPiece sep (s ++ [c]) =
  if Ascii.eqb c sep then 0 else S (lastPiece sep s).
Proof.
  induction s as [|d s IH].
  - unfold lastPiece. simpl. destruct (Ascii.eqb c sep); reflexivity.
  - change ((d :: s) ++ [c]) with (d :: (s ++ [c])).
    rewrite !lastPiece_cons, IH, existsb_app. simpl.
    rewrite orb_false_r, (Ascii.eqb_sym sep c).
    destruct (Ascii.eqb c sep) eqn:Ec; simpl.
    + now rewrite orb_true_r.
    + rewrite orb_false_r.
      destruct (existsb (Ascii.eqb sep) s); [reflexivity|].
      destruct (Ascii.eqb d sep); reflexivity.
Qed.

Lemma firstn_succ_snoc (t : text) o c :
  nth_error t o = Some c -> firstn (S o) t = firstn o t ++ [c].
Proof.
  revert o; induction t as [|d t IH]; intros [|o] H; simpl in *;
    try discriminate.
  - now inversion H.
  - f_equal. now apply IH.
Qed.

Lemma substring_0 (s : text) n : substring s 0 n = firstn n s.
Proof. unfold substring. now rewrite Nat.max_0_l, Nat.min_0_l, Nat.sub_0_r. Qed.

Lemma column_spec t o :
  o <= length t ->
  Z.of_nat (lastPiece newline (firstn o t) + 1) =
  (Z.of_nat o - lastNewlineIndexBefore t o)%Z.
Proof.
  induction o as [|o IH]; intros Ho.
  - reflexivity.
  - destruct (nth_error t o) as [c|] eqn:E.
    2:{ apply nth_error_None in E. lia. }
    rewrite (firstn_succ_snoc t o c E), lastPiece_snoc.
    cbn [lastNewlineIndexBefore]. rewrite E.
    destruct (Ascii.eqb c newline).
    + lia.
    + specialize (IH ltac:(lia)). lia.
Qed.

Lemma lastNewlineIndexBefore_range t o :
  (-1 <= lastNewlineIndexBefore t o < Z.of_nat o)%Z.
Proof.
  induction o as [|o IH]; cbn [lastNewlineIndexBefore]; [lia|].
  destruct (nth_error t o) as [c|]; [destruct (Ascii.eqb c newline)|]; lia.
Qed.

(** [lastNewlineIndexBefore] is what its name says: a newline sits at the
    index it returns and none follows before the offset. *)
Lemma lastNewlineIndexBefore_last t o j :
  (lastNewlineIndexBefore t o < Z.of_nat j)%Z -> j < o ->
  nth_error t j <> Some newline.
Proof.
  induction o as [|o IH]; [lia|]. cbn [lastNewlineIndexBefore].
  intros Hlt Hj.
  destruct (Nat.eq_dec j o) as [->|Hne].
  - destruct (nth_error t o) as [c|]; [|discriminate].
    destruct (Ascii.eqb_spec c newline) as [Hc|Hc]; [lia|congruence].
  - apply IH; [|lia].
    destruct (nth_error t o) as [c|]; [|exact Hlt].
    destruct (Ascii.eqb c newline); [|exact Hlt].
    pose proof (lastNewlineIndexBefore_range t o). lia.
Qed.

Lemma lastNewlineIndexBefore_newline t o i :
  lastNewlineIndexBefore t o = Z.of_nat i -> nth_error t i = Some newline.
Proof.
  induction o as [|o IH]; cbn [lastNewlineIndexBefore]; [lia|].
  destruct (nth_error t o) as [c|] eqn:E; [|exact IH].
  destruct (Ascii.eqb_spec c newline) as [Hc|Hc]; [|exact IH].
  intros H. apply Nat2Z.inj in H. now subst i c.
Qed.

(** C2. For every text [t] and offset [o] within it, the position resolver
    of both engines returns a line and a column that are at least 1; the
    line is one plus the number of newlines strictly before [o], and the
    column is [o] minus the index of the last newline before [o] (with
    index [-1] when there is none). *)
Theorem getLineAndColumn_resolves (t : text) (o : nat) :
  o <= length t ->
  let p := RuleEngine.getLineAndColumn t o in
  MLAnalyzer.getLineAndColumn t o = p /\
  1 <= Position.line p /\ 1 <= Position.column p /\
  Position.line p = 1 + newlinesBefore t o /\
  Z.of_nat (Position.column p) = (Z.of_nat o - lastNewlineIndexBefore t o)%Z.
Proof.
  intros Ho p. subst p.
  unfold MLAnalyzer.getLineAndColumn, RuleEngine.getLineAndColumn.
  cbn [Position.line Position.column]. rewrite substring_0.
  fold (lastPiece newline (firstn o t)).
  split; [reflexivity|]. rewrite split_length.
  repeat split; try lia.
  apply (column_spec t o Ho).
Qed.

Lemma getLineAndColumn_resolves_witness :
  4 <= length twoLines /\
  RuleEngine.getLineAndColumn twoLines 4
    = {| Position.line := 2; Position.column := 2 |} /\
  lastNewlineIndexBefore twoLines 4 = 2%Z /\
  Z.of_nat (Position.column (RuleEngine.getLineAndColumn twoLines 4)) =
    (Z.of_nat 4 - lastNewlineIndexBefore twoLines 4)%Z.
Proof.
  split; [cbn; lia|].
  split; [reflexivity|]. split; [reflexivity|].
  apply (getLineAndColumn_resolves twoLines 4). cbn; lia.
Defined.

(** ** Doubles *)

Ltac compare_cases :=
  repeat match goal with
  | H : context [(?a ?= ?b)%Z] |- _ => destruct (Z.compare_spec a b)
  | |- context [(?a ?= ?b)%Z] => destruct (Z.compare_spec a b)
  | H : context [(?a ?= ?b)%positive] |- _ => destruct (Pos.compare_spec a b)
  | |- context [(?a ?= ?b)%positive] => destruct (Pos.compare_spec a b)
  end.

Lemma SFleb_SFltb_trans x y z :
  SFleb x y = true -> SFltb y z = true -> SFleb z x = false.
Proof.
  unfold SFleb, SFltb, SFcompare.
  destruct x as [sx|sx| |sx mx ex], y as [sy|sy| |sy my ey],
    z as [sz|sz| |sz mz ez];
    try discriminate; try reflexivity;
    repeat match goal with s : bool |- _ => destruct s end;
    try discriminate; try reflexivity;
    change (PosDef.Pos.compare_cont Eq) with Pos.compare;
    intros H1 H2; compare_cases; cbn in *;
    try discriminate; try reflexivity; try lia.
Qed.

(** [x <= y] and [y < z] leave no room for [z <= x]. *)
Lemma leb_ltb_trans (x y z : float) :
  (x <=? y)%float = true -> (y <? z)%float = true ->
  (z <=? x)%float = false.
Proof. rewrite !leb_spec, ltb_spec. apply SFleb_SFltb_trans. Qed.

Lemma leb_refl_finite (x : float) :
  is_nan x = false -> (x <=? x)%float = true.
Proof.
  unfold is_nan. rewrite leb_spec, eqb_spec. unfold SFleb, SFeqb, SFcompare.
  destruct (Prim2SF x) as [sx|sx| |sx mx ex];
    try discriminate; try reflexivity;
    destruct sx; try reflexivity;
    change (PosDef.Pos.compare_cont Eq) with Pos.compare;
    rewrite Z.compare_refl, Pos.compare_refl; reflexivity.
Qed.

Lemma leb_not_nan (x y : float) : (x <=? y)%float = true -> is_nan x = false.
Proof.
  unfold is_nan. rewrite leb_spec, eqb_spec. unfold SFleb, SFeqb, SFcompare.
  destruct (Prim2SF x) as [sx|sx| |sx mx ex],
    (Prim2SF y) as [sy|sy| |sy my ey];
    try discriminate; try reflexivity;
    destruct sx; try reflexivity;
    change (PosDef.Pos.compare_cont Eq) with Pos.compare;
    rewrite Z.compare_refl, Pos.compare_refl; reflexivity.
Qed.

(** [x < y] rules out [y <= x]. *)
Lemma ltb_not_leb (x y : float) :
  (x <? y)%float = true -> (y <=? x)%float = false.
Proof.
  intros H. apply (leb_ltb_trans x x y); [|exact H].
  apply leb_refl_finite. unfold is_nan.
  rewrite ltb_spec in H. rewrite eqb_spec. revert H.
  unfold SFltb, SFeqb, SFcompare.
  destruct (Prim2SF x) as [sx|sx| |sx mx ex],
    (Prim2SF y) as [sy|sy| |sy my ey];
    try discriminate; try reflexivity;
    destruct sx; try reflexivity;
    change (PosDef.Pos.compare_cont Eq) with Pos.compare;
    rewrite Z.compare_refl, Pos.compare_refl; reflexivity.
Qed.

(** Two doubles that a comparison tells apart are not the same. *)
Lemma ltb_neq (x y : float) : (x <? y)%float = true -> x <> y.
Proof.
  intros H E. subst y. apply ltb_not_leb in H as H'.
  rewrite leb_refl_finite in H'; [discriminate|].
  unfold is_nan. rewrite ltb_spec in H. rewrite eqb_spec. revert H.
  unfold SFltb, SFeqb, SFcompare.
  destruct (Prim2SF x) as [sx|sx| |sx mx ex];
    try discriminate; try reflexivity;
    destruct sx; try reflexivity;
    change (PosDef.Pos.compare_cont Eq) with Pos.compare;
    rewrite Z.compare_refl, Pos.compare_refl; reflexivity.
Qed.

(** ** Confidence of a match *)

Lemma hasDisableMarker_comm lineContent :
  includes lineContent outriderDisable || includes lineContent eslintDisable
  = hasDisableMarker lineContent.
Proof. unfold hasDisableMarker. apply orb_comm. Qed.

(** On a defined line [calculateConfidence] returns, and what it returns
    is the formula evaluated on doubles. *)
Lemma calculateConfidence_double match0 lineContent lineNumber :
  MLAnalyzer.calculateConfidence match0 (Some lineContent) lineNumber
  = Returns (doubleConfidence 0.5 match0 lineContent).
Proof.
  unfold MLAnalyzer.calculateConfidence, doubleConfidence,
    MLAnalyzer.clamp01.
  rewrite hasDisableMarker_comm. fold (highSignal match0). reflexivity.
Qed.

Lemma doubleConfidence_range match0 lineContent :
  (0 <=? doubleConfidence 0.5 match0 lineContent)%float = true /\
  (doubleConfidence 0.5 match0 lineContent <=? 1)%float = true.
Proof.
  unfold doubleConfidence.
  destruct (20 <? length match0), (hasDisableMarker lineContent),
    (highSignal match0); split; vm_compute; reflexivity.
Qed.

Lemma doubleConfidence_near match0 lineContent :
  exists q,
    valueOf (doubleConfidence 0.5 match0 lineContent) = Some q /\
    near q (specConfidence match0 lineContent).
Proof.
  unfold doubleConfidence, specConfidence, adjusted, near.
  destruct (20 <? length match0), (hasDisableMarker lineContent),
    (highSignal match0);
    (eexists; split; [vm_compute; reflexivity|];
     split; vm_compute; discriminate).
Qed.

(** A matched text of 29 characters that mentions [setInterval], on a line
    without marker: the formula gives [0.5 + 0.2 + 0.1 = 0.8]; the program
    returns the double [0.7999999999999999], which is below the double
    that [0.8] denotes, and under a threshold of [0.8] the finding of the
    match is dropped. *)
Lemma confidence_rounding_counterexample :
  (specConfidence longInterval longInterval == 8 # 10)%Q /\
  MLAnalyzer.calculateConfidence longInterval (Some longInterval) 1
    = Returns 0.7999999999999999%float /\
  (0.7999999999999999 <? 0.8)%float = true /\
  0.7999999999999999%float <> 0.8%float /\
  (exists q, valueOf 0.7999999999999999 = Some q /\ (q < 8 # 10)%Q) /\
  MLAnalyzer.analyze JS.jsmatch (analyzerWith 0.8 10) longInterval "a.js"
    = Returns [] /\
  exists f,
    MLAnalyzer.analyze JS.jsmatch (analyzerWith 0.79 10) longInterval "a.js"
      = Returns [f] /\
    Finding.confidence f = Some 0.7999999999999999%float.
Proof.
  split; [vm_compute; reflexivity|]. split; [vm_compute; reflexivity|].
  split; [vm_compute; reflexivity|].
  split; [apply ltb_neq; vm_compute; reflexivity|].
  split; [eexists; split; vm_compute; reflexivity|].
  split; [vm_compute; reflexivity|].
  eexists. split; vm_compute; reflexivity.
Qed.

(** C3 (amended). The confidence of a match is the fixed base 0.5, plus
    0.2 when the matched text is longer than 20 characters, minus 0.3 when
    the containing line carries a disable marker, plus 0.1 when the
    matched text contains [setInterval] or [addEventListener], these sums
    and differences being made in this order on doubles, each one rounded,
    and the result clamped to [0, 1].  The double returned lies in [0, 1]
    and within [10^-16] of the value of the formula in exact
    arithmetic. *)
Theorem calculateConfidence_rounded_formula (match0 lineContent : text)
    (lineNumber : nat) :
  exists c q,
    MLAnalyzer.calculateConfidence match0 (Some lineContent) lineNumber
      = Returns c
    /\ c = doubleConfidence 0.5 match0 lineContent
    /\ ((0 <=? c)%float = true /\ (c <=? 1)%float = true)
    /\ valueOf c = Some q
    /\ near q (specConfidence match0 lineContent).
Proof.
  destruct (doubleConfidence_near match0 lineContent) as (q & Hq & Hn).
  exists (doubleConfidence 0.5 match0 lineContent), q.
  split; [apply calculateConfidence_double|]. split; [reflexivity|].
  split; [apply doubleConfidence_range|]. split; assumption.
Qed.

(** ** Risk score *)

Lemma severity_exclusive f :
  severityIs "error" f = true -> severityIs "warning" f = false.
Proof.
  unfold severityIs. destruct (Finding.severity f) as [s|]; [|discriminate].
  intros H. apply String.eqb_eq in H. now subst s.
Qed.

Lemma count_errors results summary :
  OutputFormatter.errors (fold_left OutputFormatter.count results summary)
  = OutputFormatter.errors summary
    + length (filter (severityIs "error") results).
Proof.
  revert summary; induction results as [|f results IH]; intros summary;
    cbn [fold_left filter length]; [lia|].
  rewrite IH. cbn [OutputFormatter.count OutputFormatter.errors].
  destruct (severityIs "error" f); cbn [length]; lia.
Qed.

Lemma count_warnings results summary :
  OutputFormatter.warnings (fold_left OutputFormatter.count results summary)
  = OutputFormatter.warnings summary
    + length (filter (severityIs "warning") results).
Proof.
  revert summary; induction results as [|f results IH]; intros summary;
    cbn [fold_left filter length]; [lia|].
  rewrite IH. cbn [OutputFormatter.count OutputFormatter.warnings].
  destruct (severityIs "error" f) eqn:E.
  - rewrite (severity_exclusive f E). lia.
  - destruct (severityIs "warning" f); cbn [length]; lia.
Qed.

Lemma weights_sum results :
  list_sum (map weight results)
  = length (filter (severityIs "error") results) * 3
    + length (filter (severityIs "warning") results) * 1.
Proof.
  induction results as [|f results IH]; [reflexivity|].
  change (list_sum (map weight (f :: results)))
    with (weight f + list_sum (map weight results)).
  cbn [filter]. rewrite IH. unfold weight.
  destruct (severityIs "error" f) eqn:E.
  - rewrite (severity_exclusive f E). cbn [length]. lia.
  - destruct (severityIs "warning" f); cbn [length]; lia.
Qed.

Lemma Math_min100_ofZ z : Math_min100 (ofZ z) = ofZ (Z.min 100 z).
Proof.
  unfold Math_min100, ofZ, Qle_bool. cbn [inject_Z Qnum Qden].
  rewrite Z.mul_1_r.
  destruct (Z.leb_spec z (100 * 1)).
  - now rewrite Z.min_r by lia.
  - now rewrite Z.min_l by lia.
Qed.

(** The formatter's score is the specification's formula, for every
    finding list. *)
Lemma formatter_riskScore results :
  OutputFormatter.riskScore (OutputFormatter.generateSummary results)
  = ofZ (specRiskScore results).
Proof.
  unfold OutputFormatter.generateSummary.
  destruct results as [|f results]; [reflexivity|].
  cbv zeta. change (0 <? length (f :: results)) with true. cbv iota.
  cbn [OutputFormatter.riskScore].
  rewrite count_errors, count_warnings.
  cbn [OutputFormatter.errors OutputFormatter.warnings Nat.add].
  rewrite <- weights_sum.
  unfold specRiskScore. rewrite <- Math_min100_ofZ.
  reflexivity.
Qed.

(** The scan command's score is the same formula as long as every finding
    is an ['error'] or a ['warning']. *)
Lemma scan_riskScore results :
  forallb errorOrWarning results = true ->
  Scan.riskScore (Scan.generateSummary results) = ofZ (specRiskScore results).
Proof.
  intros Hall.
  assert (Hlen : length (filter (severityIs "warning") results)
                 + length (filter (severityIs "error") results)
                 = length results).
  { induction results as [|f results IH]; [reflexivity|].
    cbn [forallb] in Hall. apply andb_true_iff in Hall as [Hf Hall].
    specialize (IH Hall). cbn [filter]. unfold errorOrWarning in Hf.
    destruct (severityIs "error" f) eqn:E.
    - rewrite (severity_exclusive f E). cbn [length]. lia.
    - cbn [orb] in Hf. rewrite Hf. cbn [length]. lia. }
  unfold Scan.generateSummary. cbv zeta. cbn [Scan.riskScore].
  rewrite Hlen, <- weights_sum.
  destruct results as [|f results]; [reflexivity|].
  change (0 <? length (f :: results)) with true. cbv iota.
  unfold specRiskScore. rewrite <- Math_min100_ofZ.
  reflexivity.
Qed.

(** The three scores the specification lists, at both places. *)
Lemma riskScore_examples :
  OutputFormatter.riskScore (OutputFormatter.generateSummary []) = ofZ 0 /\
  OutputFormatter.riskScore
    (OutputFormatter.generateSummary [withSeverity "error"]) = ofZ 60 /\
  OutputFormatter.riskScore (OutputFormatter.generateSummary tenWarnings)
    = ofZ 20 /\
  Scan.riskScore (Scan.generateSummary []) = ofZ 0 /\
  Scan.riskScore (Scan.generateSummary [withSeverity "error"]) = ofZ 60 /\
  Scan.riskScore (Scan.generateSummary tenWarnings) = ofZ 20.
Proof. repeat split; vm_compute; reflexivity. Qed.

(** Outside the lists that the scan command builds, its score and the
    formatter's part: on one ['error'] and one ['info'] finding the formula
    and the formatter give 30 and the function of the scan command gives
    60; on a single ['info'] finding the formula gives 0 and the function
    of the scan command [NaN]. *)
Remark scan_riskScore_on_other_severities :
  specRiskScore errorAndInfo = 30%Z /\
  OutputFormatter.riskScore (OutputFormatter.generateSummary errorAndInfo)
    = ofZ 30 /\
  Scan.riskScore (Scan.generateSummary errorAndInfo) = ofZ 60 /\
  specRiskScore [withSeverity "info"] = 0%Z /\
  Scan.riskScore (Scan.generateSummary [withSeverity "info"]) = NaN.
Proof. repeat split; vm_compute; reflexivity. Qed.

(** ** Scanning loops *)

Lemma bind_assoc {A B C} (m : outcome A) (k : A -> outcome B)
    (h : B -> outcome C) :
  bind (bind m k) h = bind m (fun a => bind (k a) h).
Proof. destruct m; reflexivity. Qed.

Section ScanningFacts.

Variable rmatch : RegExp -> text -> nat -> option nat.

Lemma search_spec re s n : forall i j len,
  search rmatch re s i n = Some (j, len) ->
  i <= j <= i + n /\ rmatch re s j = Some len.
Proof.
  induction n as [|n IH]; intros i j len; cbn [search];
    destruct (rmatch re s i) as [l|] eqn:E; intros H;
    try discriminate.
  - inversion H; subst. split; [lia|exact E].
  - inversion H; subst. split; [lia|exact E].
  - apply IH in H as [Hj Hm]. split; [lia|exact Hm].
Qed.

Lemma exec_spec re s lastIndex j len :
  exec rmatch re s lastIndex = Some (j, len) ->
  j <= length s /\ rmatch re s j = Some len /\
  (global re = true -> lastIndex <= j).
Proof.
  unfold exec.
  destruct (length s <? (if global re then lastIndex else 0)) eqn:E;
    [discriminate|].
  apply Nat.ltb_ge in E. intros H. apply search_spec in H as [Hj Hm].
  repeat split; [lia|exact Hm|].
  intros Hg. rewrite Hg in Hj. lia.
Qed.

Lemma progresses_spec re s :
  progresses rmatch re s = true ->
  global re = true /\
  forall i, i <= length s -> rmatch re s i <> Some 0.
Proof.
  unfold progresses. intros H. apply andb_true_iff in H as [Hg Hall].
  split; [exact Hg|]. intros i Hi Hm.
  rewrite forallb_forall in Hall.
  specialize (Hall i ltac:(apply in_seq; lia)). now rewrite Hm in Hall.
Qed.

(** What every round preserves is true of what the loop returns. *)
Lemma whileExec_invariant {A} (P : A -> Prop)
    (body : A -> nat -> text -> outcome A) re content :
  (forall acc i len acc',
     i <= length content -> rmatch re content i = Some len -> P acc ->
     body acc i (matched content i len) = Returns acc' -> P acc') ->
  forall fuel lastIndex acc acc',
    P acc ->
    whileExec rmatch fuel body re content lastIndex acc = Returns acc' ->
    P acc'.
Proof.
  intros Hbody. induction fuel as [|fuel IH]; intros li acc acc' HP;
    cbn [whileExec]; [discriminate|].
  destruct (exec rmatch re content li) as [[i len]|] eqn:E.
  - apply exec_spec in E as (Hi & Hm & _).
    destruct (body acc i (matched content i len)) as [a| |] eqn:Eb;
      cbn [bind]; try discriminate.
    apply IH. exact (Hbody acc i len a Hi Hm HP Eb).
  - intros H; inversion H; subst; exact HP.
Qed.

(** A loop whose body never throws does not throw. *)
Lemma whileExec_no_throw {A} (body : A -> nat -> text -> outcome A)
    re content :
  (forall acc i len e,
     i <= length content -> rmatch re content i = Some len ->
     body acc i (matched content i len) <> Throws e) ->
  forall fuel lastIndex acc e,
    whileExec rmatch fuel body re content lastIndex acc <> Throws e.
Proof.
  intros Hbody. induction fuel as [|fuel IH]; intros li acc e;
    cbn [whileExec]; [discriminate|].
  destruct (exec rmatch re content li) as [[i len]|] eqn:E; [|discriminate].
  apply exec_spec in E as (Hi & Hm & _).
  destruct (body acc i (matched content i len)) as [a| |] eqn:Eb;
    cbn [bind]; [apply IH| |discriminate].
  intros H; inversion H; subst. exact (Hbody acc i len e Hi Hm Eb).
Qed.

(** Enough fuel: over a global pattern without empty matches, a loop whose
    body finishes finishes within [scanFuel] rounds. *)
Lemma whileExec_finishes {A} (body : A -> nat -> text -> outcome A)
    re content :
  progresses rmatch re content = true ->
  (forall acc i len,
     i <= length content -> rmatch re content i = Some len ->
     body acc i (matched content i len) <> Diverges) ->
  forall fuel lastIndex acc,
    S (length content) - lastIndex < fuel ->
    whileExec rmatch fuel body re content lastIndex acc <> Diverges.
Proof.
  intros Hp Hbody. apply progresses_spec in Hp as [Hg Hne].
  induction fuel as [|fuel IH]; intros li acc Hfuel; [lia|].
  cbn [whileExec].
  destruct (exec rmatch re content li) as [[i len]|] eqn:E; [|discriminate].
  apply exec_spec in E as (Hi & Hm & Hli). specialize (Hli Hg).
  destruct (body acc i (matched content i len)) as [a| |] eqn:Eb;
    cbn [bind]; [|discriminate|destruct (Hbody acc i len Hi Hm Eb)].
  rewrite Hg. apply IH.
  assert (len <> 0) by (intros ->; exact (Hne i Hi Hm)). lia.
Qed.

End ScanningFacts.

(** ** The reference matcher *)

(** The end of a match is related to its start as the continuation relates
    its result to its argument, for any relation that is stable when the
    start moves left. *)
Lemma run_rel (R : nat -> nat -> Prop)
    (HR : forall i j e, i <= j -> R j e -> R i e) (r : Re.node) :
  forall s i k e,
    (forall j e', i <= j -> k j = Some e' -> R j e') ->
    JS.run r s i k = Some e -> R i e.
Proof.
  induction r as [|c|p|a IHa b IHb|a IHa b IHb|a IHa|a IHa| | |];
    intros s i k e Hk H; cbn [JS.run] in H.
  - exact (Hk i e (le_n i) H).
  - destruct (JS.charAt s i) as [d|]; [|discriminate].
    destruct (Ascii.eqb c d); [|discriminate].
    exact (HR i (S i) e (le_S _ _ (le_n i)) (Hk (S i) e (le_S _ _ (le_n i)) H)).
  - destruct (JS.charAt s i) as [d|]; [|discriminate].
    destruct (p d); [|discriminate].
    exact (HR i (S i) e (le_S _ _ (le_n i)) (Hk (S i) e (le_S _ _ (le_n i)) H)).
  - apply (IHa s i (fun j => JS.run b s j k) e); [|exact H].
    intros j e' Hj Hb. apply (IHb s j k e'); [|exact Hb].
    intros j' e'' Hj' Hk'. apply Hk; [lia|exact Hk'].
  - destruct (JS.run a s i k) as [e0|] eqn:Ea.
    + inversion H; subst e0. exact (IHa s i k e Hk Ea).
    + exact (IHb s i k e Hk H).
  - revert i e Hk H. generalize (length s) as n.
    induction n as [|n IHn]; intros i e Hk H.
    + exact (Hk i e (le_n i) H).
    + match type of H with
      | match ?scrutinee with _ => _ end = _ =>
          destruct scrutinee as [e0|] eqn:Ea
      end.
      * inversion H; subst e0. refine (IHa s i _ e _ Ea).
        intros j e' Hj Hc. destruct (i <? j); [|discriminate].
        apply (IHn j e'); [|exact Hc].
        intros j' e'' Hj' Hk'. apply Hk; [lia|exact Hk'].
      * exact (Hk i e (le_n i) H).
  - destruct (JS.run a s i (fun j => Some j)); [discriminate|].
    exact (Hk i e (le_n i) H).
  - destruct i as [|i']; [exact (Hk 0 e (le_n 0) H)|].
    destruct (JS.charAt s i') as [c|]; [|discriminate].
    destruct (Re.isLineTerminator c); [|discriminate].
    exact (Hk (S i') e (le_n _) H).
  - destruct (JS.charAt s i) as [c|].
    + destruct (Re.isLineTerminator c); [|discriminate].
      exact (Hk i e (le_n i) H).
    + exact (Hk i e (le_n i) H).
  - match type of H with
    | (if ?b then _ else _) = _ => destruct b; [|discriminate]
    end.
    exact (Hk i e (le_n i) H).
Qed.

Lemma run_consumes (r : Re.node) :
  Re.consumes r = true ->
  forall s i k e,
    (forall j e', i <= j -> k j = Some e' -> j <= e') ->
    JS.run r s i k = Some e -> i < e.
Proof.
  induction r as [|c|p|a IHa b IHb|a IHa b IHb|a IHa|a IHa| | |];
    cbn [Re.consumes]; try discriminate; intros Hc s i k e Hk H.
  - cbn [JS.run] in H.
    destruct (JS.charAt s i) as [d|]; [|discriminate].
    destruct (Ascii.eqb c d); [|discriminate].
    exact (Hk (S i) e (le_S _ _ (le_n i)) H).
  - cbn [JS.run] in H.
    destruct (JS.charAt s i) as [d|]; [|discriminate].
    destruct (p d); [|discriminate].
    exact (Hk (S i) e (le_S _ _ (le_n i)) H).
  - cbn [JS.run] in H. destruct (Re.consumes a) eqn:Ca.
    + apply (IHa eq_refl s i (fun j => JS.run b s j k) e); [|exact H].
      intros j e' Hj Hb.
      apply (run_rel le ltac:(intros; lia) b s j k e'); [|exact Hb].
      intros j' e'' Hj' Hk'. apply Hk; [lia|exact Hk'].
    + cbn [orb] in Hc.
      apply (run_rel lt ltac:(intros; lia) a s i
               (fun j => JS.run b s j k) e); [|exact H].
      intros j e' Hj Hb. apply (IHb Hc s j k e'); [|exact Hb].
      intros j' e'' Hj' Hk'. apply Hk; [lia|exact Hk'].
  - apply andb_true_iff in Hc as [Ca Cb]. cbn [JS.run] in H.
    destruct (JS.run a s i k) as [e0|] eqn:Ea.
    + inversion H; subst e0. exact (IHa Ca s i k e Hk Ea).
    + exact (IHb Cb s i k e Hk H).
Qed.

Lemma jsmatch_nonempty re s i :
  Re.consumes (source re) = true -> JS.jsmatch re s i <> Some 0.
Proof.
  intros Hc. unfold JS.jsmatch.
  destruct (JS.run (source re) s i (fun j => Some j)) as [e|] eqn:E;
    [|discriminate].
  apply (run_consumes (source re) Hc) in E.
  - intros H; inversion H; lia.
  - intros j e' _ Hj. inversion Hj; lia.
Qed.

Lemma jsmatch_progresses re s :
  global re && Re.consumes (source re) = true ->
  progresses JS.jsmatch re s = true.
Proof.
  intros H. apply andb_true_iff in H as [Hg Hc].
  unfold progresses. rewrite Hg. cbn [andb].
  apply forallb_forall. intros i _.
  pose proof (jsmatch_nonempty re s i Hc) as Hne.
  destruct (JS.jsmatch re s i) as [[|n]|]; [now destruct Hne| |]; reflexivity.
Qed.

(** The reference matcher scans every text with a table of detectors that
    cannot match the empty string: the built-in table is one. *)
Lemma reference_scans entries content :
  detectorsConsume entries = true ->
  scans JS.jsmatch entries content = true.
Proof.
  unfold detectorsConsume, scans. rewrite !forallb_forall.
  intros H entry Hin. specialize (H entry Hin).
  rewrite forallb_forall in *. intros d Hd.
  apply jsmatch_progresses. exact (H d Hd).
Qed.

Lemma builtin_detectors_consume :
  detectorsConsume MLAnalyzer.getHeuristicPatterns = true.
Proof. reflexivity. Qed.

(** ** Heuristic analyzer: what a scan returns *)

Lemma count_occ_firstn (l : text) n c :
  count_occ ascii_dec (firstn n l) c <= count_occ ascii_dec l c.
Proof.
  revert n; induction l as [|d l IH]; intros [|n]; cbn [firstn count_occ];
    try lia.
  specialize (IH n). destruct (ascii_dec d c); lia.
Qed.

(** [lines[line - 1]] is defined for the line of any offset of the text. *)
Lemma line_in_range content index :
  exists lineContent,
    nth_error (split newline content)
      (Position.line (MLAnalyzer.getLineAndColumn content index) - 1)
    = Some lineContent.
Proof.
  unfold MLAnalyzer.getLineAndColumn. cbn [Position.line].
  rewrite substring_0, split_length.
  destruct (nth_error (split newline content)
              (S (count_occ ascii_dec (firstn index content) newline) - 1))
    as [l|] eqn:E; [now exists l|].
  apply nth_error_None in E. rewrite split_length in E.
  pose proof (count_occ_firstn content index newline). lia.
Qed.

Lemma rule_line_in_range content index :
  exists lineContent,
    nth_error (split newline content)
      (Position.line (RuleEngine.getLineAndColumn content index) - 1)
    = Some lineContent.
Proof. exact (line_in_range content index). Qed.

Section HeuristicFacts.

Variable rmatch : RegExp -> text -> nat -> option nat.

Lemma findPatternMatches_ok pattern content matches :
  MLAnalyzer.findPatternMatches rmatch pattern content
    (split newline content) = Returns matches ->
  Forall (matchOk rmatch pattern content) matches.
Proof.
  unfold MLAnalyzer.findPatternMatches.
  apply (whileExec_invariant rmatch (Forall (matchOk rmatch pattern content)));
    [|constructor].
  intros acc i len acc' Hi Hm Hacc.
  destruct (line_in_range content i) as [lineContent Hline].
  rewrite Hline.
  destruct (MLAnalyzer.calculateConfidence (matched content i len)
              (Some lineContent)
              (Position.line (MLAnalyzer.getLineAndColumn content i)))
    as [c| |] eqn:Ec; cbn [bind]; try discriminate.
  intros H; inversion H; subst acc'. apply Forall_app. split; [exact Hacc|].
  constructor; [|constructor].
  exists i, len, lineContent. cbn. repeat split; assumption.
Qed.

Lemma calculateConfidence_returns match0 lineContent lineNumber :
  exists c, MLAnalyzer.calculateConfidence match0 (Some lineContent)
              lineNumber = Returns c.
Proof. eexists. apply calculateConfidence_double. Qed.

Lemma findPatternMatches_body_returns content acc i len :
  exists acc',
    (let p := MLAnalyzer.getLineAndColumn content i in
     confidence <- MLAnalyzer.calculateConfidence (matched content i len)
                     (nth_error (split newline content) (Position.line p - 1))
                     (Position.line p) ;;
     Returns (acc ++ [
       {| MLAnalyzer.Match.line := Position.line p;
          MLAnalyzer.Match.column := Position.column p;
          MLAnalyzer.Match.confidence := confidence;
          MLAnalyzer.Match.match0 := matched content i len |}]))
    = Returns acc'.
Proof.
  cbv zeta.
  destruct (line_in_range content i) as [lineContent Hline]. rewrite Hline.
  destruct (calculateConfidence_returns (matched content i len) lineContent
              (Position.line (MLAnalyzer.getLineAndColumn content i)))
    as [c Hc].
  rewrite Hc. cbn [bind]. eexists; reflexivity.
Qed.

Lemma findPatternMatches_no_throw pattern content e :
  MLAnalyzer.findPatternMatches rmatch pattern content
    (split newline content) <> Throws e.
Proof.
  unfold MLAnalyzer.findPatternMatches. apply whileExec_no_throw.
  intros acc i len e' _ _.
  destruct (findPatternMatches_body_returns content acc i len) as [a Ha].
  cbv zeta in Ha. rewrite Ha. discriminate.
Qed.

Lemma findPatternMatches_returns pattern content :
  progresses rmatch pattern content = true ->
  exists matches,
    MLAnalyzer.findPatternMatches rmatch pattern content
      (split newline content) = Returns matches.
Proof.
  intros Hp.
  destruct (MLAnalyzer.findPatternMatches rmatch pattern content
              (split newline content)) as [ms|e|] eqn:E.
  - now exists ms.
  - now destruct (findPatternMatches_no_throw pattern content e).
  - exfalso. revert E. unfold MLAnalyzer.findPatternMatches.
    apply whileExec_finishes; [exact Hp| |unfold scanFuel; lia].
    intros acc i len _ _.
    destruct (findPatternMatches_body_returns content acc i len) as [a Ha].
    cbv zeta in Ha. rewrite Ha. discriminate.
Qed.

Lemma rawOfDetectors_ok category categoryConfig content patterns :
  forall raws,
  rawOfDetectors rmatch category categoryConfig patterns content
    = Returns raws ->
  Forall (fun r => Raw.category r = category /\
                   Raw.categoryConfig r = categoryConfig /\
                   In (Raw.detector r) patterns /\
                   matchOk rmatch (MLAnalyzer.Detector.pattern
                                     (Raw.detector r))
                     content (Raw.found r)) raws.
Proof.
  induction patterns as [|p patterns IH]; intros raws; cbn [rawOfDetectors].
  - intros H; inversion H; constructor.
  - destruct (MLAnalyzer.findPatternMatches rmatch
                (MLAnalyzer.Detector.pattern p) content
                (split newline content)) as [ms| |] eqn:E;
      cbn [bind]; try discriminate.
    destruct (rawOfDetectors rmatch category categoryConfig patterns content)
      as [rest| |]; cbn [bind]; try discriminate.
    intros H; inversion H; subst raws. apply Forall_app. split.
    + apply findPatternMatches_ok in E. apply Forall_map.
      eapply Forall_impl; [|exact E]. intros m Hm. cbn.
      repeat split; [now left|exact Hm].
    + eapply Forall_impl; [|exact (IH rest eq_refl)].
      intros r (H1 & H2 & H3 & H4). repeat split; try assumption.
      now right.
Qed.

Lemma rawOfCategories_ok content entries :
  forall raws,
  rawOfCategories rmatch entries content = Returns raws ->
  Forall (rawOk rmatch entries content) raws.
Proof.
  induction entries as [|[category categoryConfig] entries IH]; intros raws;
    cbn [rawOfCategories].
  - intros H; inversion H; constructor.
  - destruct (rawOfDetectors rmatch category categoryConfig
                (MLAnalyzer.Category.patterns categoryConfig) content)
      as [here| |] eqn:E; cbn [bind]; try discriminate.
    destruct (rawOfCategories rmatch entries content) as [rest| |];
      cbn [bind]; try discriminate.
    intros H; inversion H; subst raws. apply Forall_app. split.
    + apply rawOfDetectors_ok in E.
      eapply Forall_impl; [|exact E].
      intros r (H1 & H2 & H3 & H4). unfold rawOk. rewrite H1, H2.
      repeat split; [now left|exact H3|exact H4].
    + eapply Forall_impl; [|exact (IH rest eq_refl)].
      intros r (H1 & H2 & H3). repeat split; try assumption. now right.
Qed.

Lemma rawOfCategories_no_throw content entries e :
  rawOfCategories rmatch entries content <> Throws e.
Proof.
  induction entries as [|[category categoryConfig] entries IH];
    cbn [rawOfCategories]; [discriminate|].
  assert (Hd : forall patterns,
             rawOfDetectors rmatch category categoryConfig patterns content
             <> Throws e).
  { induction patterns as [|p patterns IHp]; cbn [rawOfDetectors];
      [discriminate|].
    destruct (MLAnalyzer.findPatternMatches rmatch
                (MLAnalyzer.Detector.pattern p) content
                (split newline content)) as [ms|e'|] eqn:E; cbn [bind];
      [| |discriminate].
    - destruct (rawOfDetectors rmatch category categoryConfig patterns
                  content); cbn [bind]; [discriminate|exact IHp|discriminate].
    - now destruct (findPatternMatches_no_throw _ _ _ E). }
  specialize (Hd (MLAnalyzer.Category.patterns categoryConfig)).
  destruct (rawOfDetectors rmatch category categoryConfig
              (MLAnalyzer.Category.patterns categoryConfig) content);
    cbn [bind]; [|exact Hd|discriminate].
  destruct (rawOfCategories rmatch entries content); cbn [bind];
    [discriminate|exact IH|discriminate].
Qed.

(** Enough fuel for a whole scan. *)
Lemma rawOfCategories_returns content entries :
  scans rmatch entries content = true ->
  exists raws, rawOfCategories rmatch entries content = Returns raws.
Proof.
  induction entries as [|[category categoryConfig] entries IH];
    cbn [scans forallb rawOfCategories]; [now exists []|].
  intros H. apply andb_true_iff in H as [Hhere Hrest]. cbn [snd] in Hhere.
  assert (Hd : forall patterns,
             forallb (fun d => progresses rmatch
                                 (MLAnalyzer.Detector.pattern d) content)
                     patterns = true ->
             exists raws,
               rawOfDetectors rmatch category categoryConfig patterns content
               = Returns raws).
  { induction patterns as [|p patterns IHp]; cbn [forallb rawOfDetectors];
      [now exists []|].
    intros Hp. apply andb_true_iff in Hp as [Hp Hps].
    destruct (findPatternMatches_returns _ content Hp) as [ms ->].
    destruct (IHp Hps) as [rest ->]. cbn [bind]. eexists; reflexivity. }
  destruct (Hd _ Hhere) as [here ->].
  destruct (IH Hrest) as [rest ->]. cbn [bind]. eexists; reflexivity.
Qed.

End HeuristicFacts.

Lemma In_firstn {A} (x : A) n l : In x (firstn n l) -> In x l.
Proof.
  revert n; induction l as [|a l IH]; intros [|n]; cbn; try tauto.
  intros [H|H]; [now left|right; exact (IH n H)].
Qed.

Section HeuristicLoops.

Variable rmatch : RegExp -> text -> nat -> option nat.

Lemma pushMatches_spec this category categoryConfig pattern filePath matches :
  forall results,
  MLAnalyzer.pushMatches this category categoryConfig pattern filePath
    matches results
  = results
    ++ map (MLAnalyzer.finding category categoryConfig pattern filePath)
         (filter (MLAnalyzer.reaches
                    (MLAnalyzer.Config.confidenceThreshold
                       (MLAnalyzer.config this))) matches).
Proof.
  unfold MLAnalyzer.pushMatches.
  induction matches as [|m matches IH]; intros results;
    cbn [fold_left filter map]; [now rewrite app_nil_r|].
  rewrite IH.
  destruct (MLAnalyzer.reaches _ m); [|reflexivity].
  cbn [map]. now rewrite <- app_assoc.
Qed.

Lemma tagged_findings filePath threshold category categoryConfig pattern
    matches :
  map (rawFinding filePath)
    (filter (rawReaches threshold)
       (map (fun m => {| Raw.category := category;
                         Raw.categoryConfig := categoryConfig;
                         Raw.detector := pattern;
                         Raw.found := m |}) matches))
  = map (MLAnalyzer.finding category categoryConfig pattern filePath)
      (filter (MLAnalyzer.reaches threshold) matches).
Proof.
  induction matches as [|m matches IH]; [reflexivity|].
  cbn [map filter]. unfold rawReaches at 1. cbn [Raw.found].
  destruct (MLAnalyzer.reaches threshold m); cbn [map]; now rewrite IH.
Qed.

Lemma detectorsLoop_raw this category categoryConfig content filePath
    patterns :
  forall results,
  MLAnalyzer.detectorsLoop rmatch this category categoryConfig patterns
    content (split newline content) filePath results
  = (raws <- rawOfDetectors rmatch category categoryConfig patterns content ;;
     Returns (results ++ emitted this filePath raws)).
Proof.
  induction patterns as [|p patterns IH]; intros results;
    cbn [MLAnalyzer.detectorsLoop rawOfDetectors bind].
  - unfold emitted. cbn. now rewrite app_nil_r.
  - destruct (MLAnalyzer.findPatternMatches rmatch
                (MLAnalyzer.Detector.pattern p) content
                (split newline content)) as [ms| |]; cbn [bind];
      try reflexivity.
    rewrite IH.
    destruct (rawOfDetectors rmatch category categoryConfig patterns content)
      as [rest| |]; cbn [bind]; try reflexivity.
    f_equal. unfold emitted.
    rewrite pushMatches_spec, filter_app, map_app, tagged_findings.
    now rewrite <- app_assoc.
Qed.

Lemma categoriesLoop_raw this content filePath entries :
  forall results,
  MLAnalyzer.categoriesLoop rmatch this entries content
    (split newline content) filePath results
  = (raws <- rawOfCategories rmatch entries content ;;
     Returns (results ++ emitted this filePath raws)).
Proof.
  induction entries as [|[category categoryConfig] entries IH];
    intros results; cbn [MLAnalyzer.categoriesLoop rawOfCategories bind].
  - unfold emitted. cbn. now rewrite app_nil_r.
  - rewrite detectorsLoop_raw.
    destruct (rawOfDetectors rmatch category categoryConfig
                (MLAnalyzer.Category.patterns categoryConfig) content)
      as [here| |]; cbn [bind]; try reflexivity.
    rewrite IH.
    destruct (rawOfCategories rmatch entries content) as [rest| |];
      cbn [bind]; try reflexivity.
    f_equal. unfold emitted. now rewrite filter_app, map_app, <- app_assoc.
Qed.

(** The scan pushes, in scan order, the finding of every raw match that
    reaches the threshold. *)
Lemma analyzeWithHeuristics_raw this model content filePath :
  MLAnalyzer.analyzeWithHeuristics rmatch this model content filePath
  = (raws <- rawMatches rmatch model content ;;
     Returns (emitted this filePath raws)).
Proof.
  unfold MLAnalyzer.analyzeWithHeuristics, rawMatches.
  now rewrite categoriesLoop_raw.
Qed.

Lemma analyze_raw this model content filePath raws :
  MLAnalyzer.model this = Some model ->
  MLAnalyzer.Model.type model = "heuristic"%string ->
  truthy (MLAnalyzer.Config.enabled (MLAnalyzer.config this)) = true ->
  rawMatches rmatch model content = Returns raws ->
  MLAnalyzer.analyze rmatch this content filePath
  = Returns (firstn (MLAnalyzer.Config.maxWarningsPerFile
                       (MLAnalyzer.config this))
                    (emitted this filePath raws)).
Proof.
  intros Hm Ht He Hr. unfold MLAnalyzer.analyze.
  rewrite Hm, He, Ht, analyzeWithHeuristics_raw, Hr. reflexivity.
Qed.

(** Whatever [analyze] returns is a prefix of the findings of the raw
    matches that reach the threshold. *)
Lemma analyze_returns_inv this content filePath fs :
  MLAnalyzer.analyze rmatch this content filePath = Returns fs ->
  fs = [] \/
  exists model raws,
    MLAnalyzer.model this = Some model /\
    rawMatches rmatch model content = Returns raws /\
    fs = firstn (MLAnalyzer.Config.maxWarningsPerFile
                   (MLAnalyzer.config this))
                (emitted this filePath raws).
Proof.
  unfold MLAnalyzer.analyze.
  destruct (MLAnalyzer.model this) as [model|] eqn:Hm;
    [|intros H; inversion H; now left].
  destruct (truthy _); cbn [negb]; [|intros H; inversion H; now left].
  destruct (String.eqb _ _).
  - rewrite analyzeWithHeuristics_raw.
    destruct (rawMatches rmatch model content) as [raws| |] eqn:Hr;
      cbn [bind]; try discriminate.
    + intros H; inversion H. right. now exists model, raws.
    + intros H; inversion H. cbn. rewrite firstn_nil. now left.
  - cbn. rewrite firstn_nil. intros H; inversion H. now left.
Qed.

Lemma emitted_inv this filePath entries content raws f :
  Forall (rawOk rmatch entries content) raws ->
  In f (emitted this filePath raws) ->
  exists r,
    In r raws /\ rawOk rmatch entries content r /\
    f = rawFinding filePath r /\
    rawReaches (MLAnalyzer.Config.confidenceThreshold
                  (MLAnalyzer.config this)) r = true.
Proof.
  intros Hok Hin. unfold emitted in Hin.
  apply in_map_iff in Hin as (r & Hf & Hr).
  apply filter_In in Hr as [Hr Hreach].
  exists r. rewrite Forall_forall in Hok. repeat split; auto.
  all: apply (Hok r Hr).
Qed.

Lemma matchOk_confidence re content m :
  matchOk rmatch re content m ->
  (0 <=? MLAnalyzer.Match.confidence m)%float = true /\
  (MLAnalyzer.Match.confidence m <=? 1)%float = true.
Proof.
  intros (i & len & lineContent & _ & _ & _ & _ & _ & _ & Hc).
  rewrite calculateConfidence_double in Hc. inversion Hc as [Hc'].
  apply doubleConfidence_range.
Qed.

End HeuristicLoops.

(** ** Heuristic analyzer: threshold, truncation, borrowed attributes *)

Lemma nothing_reaches_above_one rmatch entries content threshold raws :
  Forall (rawOk rmatch entries content) raws ->
  (1 <? threshold)%float = true ->
  filter (rawReaches threshold) raws = [].
Proof.
  intros Hok Hthr. induction Hok as [|r raws Hr _ IH]; [reflexivity|].
  cbn [filter]. rewrite IH.
  destruct (rawReaches threshold r) eqn:E; [|reflexivity].
  exfalso. unfold rawReaches, MLAnalyzer.reaches in E.
  destruct Hr as (_ & _ & Hm).
  apply matchOk_confidence in Hm as [_ Hle].
  rewrite (leb_ltb_trans _ _ _ Hle Hthr) in E. discriminate.
Qed.

Lemma analyze_empty_above_one rmatch this model content filePath :
  MLAnalyzer.model this = Some model ->
  scans rmatch (MLAnalyzer.Model.patterns model) content = true ->
  (1 <? MLAnalyzer.Config.confidenceThreshold (MLAnalyzer.config this))%float
    = true ->
  MLAnalyzer.analyze rmatch this content filePath = Returns [].
Proof.
  intros Hm Hscan Hthr.
  destruct (rawOfCategories_returns rmatch content _ Hscan) as [raws Hr].
  unfold MLAnalyzer.analyze. rewrite Hm.
  destruct (truthy _); cbn [negb]; [|reflexivity].
  destruct (String.eqb _ _); [|cbn; now rewrite firstn_nil].
  rewrite analyzeWithHeuristics_raw. unfold rawMatches. rewrite Hr.
  cbn [bind app]. unfold emitted.
  rewrite (nothing_reaches_above_one rmatch _ content _ raws
             (rawOfCategories_ok rmatch content _ raws Hr) Hthr).
  cbn. now rewrite firstn_nil.
Qed.

(** C5. Every finding that [MLAnalyzer.analyze] returns has a confidence
    in [0, 1] that is at least the configured threshold; the finding of a
    match whose confidence is below the threshold is not in the output;
    and with a threshold above 1 the output is empty: for every text that
    the detectors scan without an empty match, under any matcher, and for
    every text at all under the reference matcher and the built-in
    detectors. *)
Theorem findings_reach_threshold
    (rmatch : RegExp -> text -> nat -> option nat)
    (this : MLAnalyzer.analyzer) (content : text) (filePath : string) :
  let threshold :=
    MLAnalyzer.Config.confidenceThreshold (MLAnalyzer.config this) in
  (forall fs f,
     MLAnalyzer.analyze rmatch this content filePath = Returns fs ->
     In f fs ->
     exists c, Finding.confidence f = Some c /\
               (0 <=? c)%float = true /\ (c <=? 1)%float = true /\
               (threshold <=? c)%float = true) /\
  (forall fs category categoryConfig pattern m,
     MLAnalyzer.analyze rmatch this content filePath = Returns fs ->
     (MLAnalyzer.Match.confidence m <? threshold)%float = true ->
     ~ In (MLAnalyzer.finding category categoryConfig pattern filePath m)
          fs) /\
  (forall model,
     MLAnalyzer.model this = Some model ->
     scans rmatch (MLAnalyzer.Model.patterns model) content = true ->
     (1 <? threshold)%float = true ->
     MLAnalyzer.analyze rmatch this content filePath = Returns []) /\
  (MLAnalyzer.model this = Some builtinModel ->
   (1 <? threshold)%float = true ->
   MLAnalyzer.analyze JS.jsmatch this content filePath = Returns []).
Proof.
  intros threshold.
  assert (H1 : forall fs f,
             MLAnalyzer.analyze rmatch this content filePath = Returns fs ->
             In f fs ->
             exists c, Finding.confidence f = Some c /\
                       (0 <=? c)%float = true /\ (c <=? 1)%float = true /\
                       (threshold <=? c)%float = true).
  { intros fs f Hfs Hin.
    apply analyze_returns_inv in Hfs as [->|(model & raws & Hm & Hr & ->)];
      [destruct Hin|].
    apply In_firstn in Hin.
    apply (emitted_inv rmatch this filePath
             (MLAnalyzer.Model.patterns model) content raws f
             (rawOfCategories_ok rmatch content _ raws Hr)) in Hin
      as (r & _ & (_ & _ & Hok) & -> & Hreach).
    exists (MLAnalyzer.Match.confidence (Raw.found r)).
    split; [reflexivity|].
    apply matchOk_confidence in Hok as [H0 H1]. repeat split; auto. }
  split; [exact H1|]. split; [|split].
  - intros fs category categoryConfig pattern m Hfs Hlt Hin.
    destruct (H1 fs _ Hfs Hin) as (c & Hc & _ & _ & Hle).
    cbn in Hc. inversion Hc; subst c.
    rewrite (ltb_not_leb _ _ Hlt) in Hle. discriminate.
  - intros model Hm Hscan Hthr.
    exact (analyze_empty_above_one rmatch this model content filePath
             Hm Hscan Hthr).
  - intros Hm Hthr.
    apply (analyze_empty_above_one JS.jsmatch this builtinModel content
             filePath Hm); [|exact Hthr].
    apply reference_scans. exact builtin_detectors_consume.
Qed.

Lemma findings_reach_threshold_witness :
  scans JS.jsmatch MLAnalyzer.getHeuristicPatterns looseEquality = true /\
  (1 <? 1.5)%float = true /\
  MLAnalyzer.analyze JS.jsmatch (analyzerWith 1.5 10) looseEquality "a.js"
    = Returns [].
Proof.
  split; [vm_compute; reflexivity|]. split; [reflexivity|].
  apply (proj1 (proj2 (proj2 (findings_reach_threshold JS.jsmatch
                                (analyzerWith 1.5 10) looseEquality
                                "a.js"%string)))
           builtinModel);
    [reflexivity | vm_compute; reflexivity | reflexivity].
Defined.

(** A text with one raw match, of confidence 0.5: under the default
    threshold 0.7 and cap 10 the output is empty, not of length
    [min 10 1]. *)
Lemma truncation_counterexample :
  totalRawMatches JS.jsmatch builtinModel looseEquality = Returns 1 /\
  MLAnalyzer.Config.maxWarningsPerFile
    (MLAnalyzer.config (MLAnalyzer.new MLAnalyzer.noOverrides)) = 10 /\
  MLAnalyzer.analyze JS.jsmatch (MLAnalyzer.new MLAnalyzer.noOverrides)
    looseEquality "a.js" = Returns [] /\
  length (@nil Finding.t) <> Nat.min 10 1.
Proof.
  split; [vm_compute; reflexivity|]. split; [reflexivity|].
  split; [vm_compute; reflexivity|]. cbn; lia.
Qed.

(** C6 (amended). When the analyzer is enabled and the scan returns, the
    output is the first [k] findings, in category, detector, occurrence
    order, of the raw matches whose confidence reaches the threshold, and
    its length is the minimum of [k] and the number of those matches. *)
Theorem analyze_truncates_reaching_matches
    (rmatch : RegExp -> text -> nat -> option nat)
    (this : MLAnalyzer.analyzer) (model : MLAnalyzer.Model.t)
    (content : text) (filePath : string) (raws : list Raw.t) :
  MLAnalyzer.model this = Some model ->
  MLAnalyzer.Model.type model = "heuristic"%string ->
  truthy (MLAnalyzer.Config.enabled (MLAnalyzer.config this)) = true ->
  rawMatches rmatch model content = Returns raws ->
  let k := MLAnalyzer.Config.maxWarningsPerFile (MLAnalyzer.config this) in
  let reaching :=
    filter (rawReaches (MLAnalyzer.Config.confidenceThreshold
                          (MLAnalyzer.config this))) raws in
  MLAnalyzer.analyze rmatch this content filePath
    = Returns (firstn k (map (rawFinding filePath) reaching)) /\
  length (firstn k (map (rawFinding filePath) reaching))
    = Nat.min k (length reaching).
Proof.
  intros Hm Ht He Hr k reaching. split.
  - exact (analyze_raw rmatch this model content filePath raws Hm Ht He Hr).
  - now rewrite length_firstn, length_map.
Qed.

(** The scan returns on every text that the detectors scan without an
    empty match. *)
Lemma rawMatches_returns rmatch model content :
  scans rmatch (MLAnalyzer.Model.patterns model) content = true ->
  exists raws, rawMatches rmatch model content = Returns raws.
Proof. apply rawOfCategories_returns. Qed.

Lemma analyze_truncates_reaching_matches_witness :
  scans JS.jsmatch MLAnalyzer.getHeuristicPatterns threeComparisons = true /\
  totalRawMatches JS.jsmatch builtinModel threeComparisons = Returns 3 /\
  exists raws,
    rawMatches JS.jsmatch builtinModel threeComparisons = Returns raws /\
    MLAnalyzer.analyze JS.jsmatch (analyzerWith 0.5 2) threeComparisons "a.js"
      = Returns (firstn 2 (map (rawFinding "a.js")
                             (filter (rawReaches 0.5) raws))) /\
    length (firstn 2 (map (rawFinding "a.js")
                        (filter (rawReaches 0.5) raws)))
      = Nat.min 2 (length (filter (rawReaches 0.5) raws)).
Proof.
  assert (Hs : scans JS.jsmatch MLAnalyzer.getHeuristicPatterns
                 threeComparisons = true) by (vm_compute; reflexivity).
  split; [exact Hs|]. split; [vm_compute; reflexivity|].
  destruct (rawMatches_returns JS.jsmatch builtinModel threeComparisons Hs)
    as [raws Hr].
  exists raws. split; [exact Hr|].
  apply (analyze_truncates_reaching_matches JS.jsmatch (analyzerWith 0.5 2)
           builtinModel threeComparisons "a.js" raws);
    [reflexivity | reflexivity | reflexivity | exact Hr].
Defined.

Lemma finding_severity_only category c1 c2 pattern filePath m :
  MLAnalyzer.Category.severity c1 = MLAnalyzer.Category.severity c2 ->
  MLAnalyzer.finding category c1 pattern filePath m
  = MLAnalyzer.finding category c2 pattern filePath m.
Proof. intros H. unfold MLAnalyzer.finding. now rewrite H. Qed.

Lemma detectorsLoop_severity_only rmatch this category c1 c2 content lines
    filePath patterns :
  MLAnalyzer.Category.severity c1 = MLAnalyzer.Category.severity c2 ->
  forall results,
  MLAnalyzer.detectorsLoop rmatch this category c1 patterns content lines
    filePath results
  = MLAnalyzer.detectorsLoop rmatch this category c2 patterns content lines
      filePath results.
Proof.
  intros Hs. induction patterns as [|p patterns IH]; intros results;
    cbn [MLAnalyzer.detectorsLoop]; [reflexivity|].
  destruct (MLAnalyzer.findPatternMatches rmatch
              (MLAnalyzer.Detector.pattern p) content lines) as [ms| |];
    cbn [bind]; try reflexivity.
  rewrite IH, !pushMatches_spec. do 2 f_equal.
  apply map_ext. intros m. now apply finding_severity_only.
Qed.

(** The base confidence of a category is not read by the scan. *)
Lemma analyzeWithHeuristics_rebase rmatch this g model content filePath :
  MLAnalyzer.analyzeWithHeuristics rmatch this (rebase g model) content
    filePath
  = MLAnalyzer.analyzeWithHeuristics rmatch this model content filePath.
Proof.
  unfold MLAnalyzer.analyzeWithHeuristics, rebase.
  cbn [MLAnalyzer.Model.patterns]. generalize (@nil Finding.t).
  induction (MLAnalyzer.Model.patterns model)
    as [|[category categoryConfig] entries IH]; intros results;
    [reflexivity|].
  cbn [map MLAnalyzer.categoriesLoop fst snd MLAnalyzer.Category.patterns].
  rewrite (detectorsLoop_severity_only rmatch this category _ categoryConfig)
    by reflexivity.
  destruct (MLAnalyzer.detectorsLoop rmatch this category categoryConfig _ _
              _ _ results); cbn [bind]; try reflexivity.
  apply IH.
Qed.

(** The one finding of [looseEquality] under threshold 0.5 belongs to
    category ['type-safety'], whose base confidence is 0.8; no adjustment
    applies to its match, and its confidence is 0.5, not 0.8. *)
Lemma borrowed_confidence_counterexample :
  exists f categoryConfig,
    MLAnalyzer.analyze JS.jsmatch (analyzerWith 0.5 10) looseEquality "a.js"
      = Returns [f] /\
    Finding.category f = Some "type-safety"%string /\
    obj_get "type-safety" MLAnalyzer.getHeuristicPatterns
      = Some categoryConfig /\
    Finding.severity f = Some (MLAnalyzer.Category.severity categoryConfig) /\
    Finding.confidence f = Some 0.5%float /\
    borrowedConfidence categoryConfig (lit "== b") looseEquality
      = 0.8%float /\
    0.5%float
      <> borrowedConfidence categoryConfig (lit "== b") looseEquality.
Proof.
  eexists. eexists.
  split; [vm_compute; reflexivity|]. split; [reflexivity|].
  split; [reflexivity|]. split; [reflexivity|]. split; [reflexivity|].
  split; [vm_compute; reflexivity|].
  apply ltb_neq. vm_compute. reflexivity.
Qed.

(** C4 (amended). A finding of the heuristic scan takes its severity and
    its category name from the category that owns its detector; its
    confidence is the fixed base 0.5 adjusted for its match and clamped,
    and the base confidence of the category is not read: replacing the
    base confidences of all categories leaves the output unchanged. *)
Theorem findings_borrow_severity_only
    (rmatch : RegExp -> text -> nat -> option nat)
    (this : MLAnalyzer.analyzer) (model : MLAnalyzer.Model.t)
    (g : string -> float) (content : text) (filePath : string)
    (fs : list Finding.t) (f : Finding.t) :
  MLAnalyzer.analyzeWithHeuristics rmatch this model content filePath
    = Returns fs ->
  In f fs ->
  MLAnalyzer.analyzeWithHeuristics rmatch this (rebase g model) content
    filePath = Returns fs /\
  exists category categoryConfig pattern index len lineContent c,
    In (category, categoryConfig) (MLAnalyzer.Model.patterns model) /\
    In pattern (MLAnalyzer.Category.patterns categoryConfig) /\
    Finding.category f = Some category /\
    Finding.severity f = Some (MLAnalyzer.Category.severity categoryConfig) /\
    Finding.rule f
      = (category ++ "-" ++ MLAnalyzer.Detector.type pattern)%string /\
    rmatch (MLAnalyzer.Detector.pattern pattern) content index = Some len /\
    Finding.line f
      = Position.line (MLAnalyzer.getLineAndColumn content index) /\
    nth_error (split newline content) (Finding.line f - 1)
      = Some lineContent /\
    Finding.confidence f = Some c /\
    c = doubleConfidence 0.5 (matched content index len) lineContent.
Proof.
  intros Hfs Hin. split; [now rewrite analyzeWithHeuristics_rebase|].
  rewrite analyzeWithHeuristics_raw in Hfs.
  destruct (rawMatches rmatch model content) as [raws| |] eqn:Hr;
    cbn [bind] in Hfs; try discriminate.
  inversion Hfs; subst fs.
  apply (emitted_inv rmatch this filePath (MLAnalyzer.Model.patterns model)
           content raws f (rawOfCategories_ok rmatch content _ raws Hr))
    in Hin as (r & _ & (Hcat & Hdet & Hok) & -> & _).
  destruct Hok as (index & len & lineContent & _ & Hm & Hm0 & Hl & _ & Hline
                   & Hc).
  exists (Raw.category r), (Raw.categoryConfig r), (Raw.detector r), index,
    len, lineContent, (MLAnalyzer.Match.confidence (Raw.found r)).
  cbn. rewrite <- Hm0. repeat split; try assumption.
  rewrite calculateConfidence_double in Hc. now inversion Hc.
Qed.

Lemma findings_borrow_severity_only_witness :
  exists fs f,
    MLAnalyzer.analyzeWithHeuristics JS.jsmatch (analyzerWith 0.5 10)
      builtinModel looseEquality "a.js" = Returns fs /\
    In f fs /\
    MLAnalyzer.analyzeWithHeuristics JS.jsmatch (analyzerWith 0.5 10)
      (rebase (fun _ => 0%float) builtinModel) looseEquality "a.js"
      = Returns fs /\
    Finding.severity f = Some "warning"%string /\
    Finding.confidence f = Some 0.5%float.
Proof.
  eexists. eexists.
  split; [vm_compute; reflexivity|]. split; [left; reflexivity|].
  split; [|split; reflexivity].
  eapply (findings_borrow_severity_only JS.jsmatch (analyzerWith 0.5 10)
            builtinModel (fun _ => 0%float) looseEquality "a.js");
    [vm_compute; reflexivity | left; reflexivity].
Defined.

(** ** Rule engine *)

Lemma obj_get_created {A} k (o : obj A) v :
  obj_get k o = Some v -> In k (created o).
Proof.
  induction o as [|[k' v'] o IH]; cbn; [discriminate|].
  destruct (String.eqb_spec k' k); [now left|right; auto].
Qed.

Lemma obj_get_None_created {A} k (o : obj A) :
  obj_get k o = None <-> existsb (String.eqb k) (created o) = false.
Proof.
  induction o as [|[k' v] o IH]; cbn; [tauto|].
  rewrite (String.eqb_sym k k').
  destruct (String.eqb k' k); cbn; [split; discriminate|exact IH].
Qed.

Lemma created_set_present {A} k (v v0 : A) o :
  obj_get k o = Some v0 -> created (obj_set k v o) = created o.
Proof.
  induction o as [|[k' v'] o IH]; cbn; [discriminate|].
  destruct (String.eqb_spec k' k) as [->|Hk]; cbn; [reflexivity|].
  intros H. f_equal. exact (IH H).
Qed.

Lemma created_set_absent {A} k (v : A) o :
  obj_get k o = None -> created (obj_set k v o) = created o ++ [k].
Proof.
  induction o as [|[k' v'] o IH]; cbn; [reflexivity|].
  destruct (String.eqb k' k); [discriminate|].
  intros H. cbn. f_equal. exact (IH H).
Qed.

(** The order of listing: a rearrangement that leaves a list without
    array indices as it is. *)
Lemma Permutation_insertIndex k ks : Permutation (insertIndex k ks) (k :: ks).
Proof.
  induction ks as [|k' ks IH]; cbn [insertIndex]; [reflexivity|].
  destruct (decimal 0 k <=? decimal 0 k')%N; [reflexivity|].
  rewrite IH. apply perm_swap.
Qed.

Lemma Permutation_sortIndices ks : Permutation (sortIndices ks) ks.
Proof.
  induction ks as [|k ks IH]; cbn [sortIndices fold_right]; [reflexivity|].
  rewrite Permutation_insertIndex. now constructor.
Qed.

Lemma Permutation_listed ks : Permutation (listed ks) ks.
Proof.
  unfold listed. rewrite Permutation_sortIndices.
  induction ks as [|k ks IH]; cbn [filter]; [reflexivity|].
  destruct (arrayIndex k); cbn [negb app].
  - now constructor.
  - rewrite <- Permutation_middle. now constructor.
Qed.

Lemma In_listed k ks : In k (listed ks) <-> In k ks.
Proof.
  split; apply Permutation_in;
    [apply Permutation_listed|symmetry; apply Permutation_listed].
Qed.

Lemma existsb_listed p ks : existsb p (listed ks) = existsb p ks.
Proof.
  apply eq_true_iff_eq. rewrite !existsb_exists.
  split; intros (x & Hx & Hp); exists x; (split; [|exact Hp]);
    now apply In_listed.
Qed.

Lemma NoDup_listed ks : NoDup (listed ks) <-> NoDup ks.
Proof.
  split; apply Permutation_NoDup;
    [apply Permutation_listed|symmetry; apply Permutation_listed].
Qed.

Lemma listed_plain ks :
  forallb (fun k => negb (arrayIndex k)) ks = true -> listed ks = ks.
Proof.
  unfold listed. intros H.
  assert (Hi : filter arrayIndex ks = []).
  { induction ks as [|k ks IH]; [reflexivity|].
    cbn [forallb] in H. apply andb_true_iff in H as [Hk H].
    cbn [filter]. destruct (arrayIndex k); [discriminate|]. now apply IH. }
  rewrite Hi. cbn [sortIndices fold_right app].
  induction ks as [|k ks IH]; [reflexivity|].
  cbn [forallb] in H. apply andb_true_iff in H as [Hk H].
  cbn [filter] in *. rewrite Hk.
  destruct (arrayIndex k); [discriminate|]. f_equal. now apply IH.
Qed.

Lemma listed_snoc ks k :
  arrayIndex k = false -> listed (ks ++ [k]) = listed ks ++ [k].
Proof.
  intros Hk. unfold listed. rewrite !filter_app. cbn [filter].
  rewrite Hk. cbn [negb]. now rewrite app_nil_r, app_assoc.
Qed.

Lemma obj_get_keys {A} k (o : obj A) v : obj_get k o = Some v -> In k (keys o).
Proof. intros H. apply In_listed. exact (obj_get_created k o v H). Qed.

Lemma obj_get_None_keys {A} k (o : obj A) :
  obj_get k o = None <-> existsb (String.eqb k) (keys o) = false.
Proof. unfold keys. rewrite existsb_listed. apply obj_get_None_created. Qed.

Lemma obj_get_set_same {A} k (v : A) o : obj_get k (obj_set k v o) = Some v.
Proof.
  induction o as [|[k' v'] o IH]; cbn; [now rewrite String.eqb_refl|].
  destruct (String.eqb_spec k' k) as [->|Hne]; cbn.
  - now rewrite String.eqb_refl.
  - destruct (String.eqb_spec k' k); [contradiction|exact IH].
Qed.

Lemma obj_get_set_other {A} k k0 (v : A) o :
  k0 <> k -> obj_get k0 (obj_set k v o) = obj_get k0 o.
Proof.
  intros Hne. induction o as [|[k' v'] o IH]; cbn.
  - destruct (String.eqb_spec k k0); [congruence|reflexivity].
  - destruct (String.eqb_spec k' k) as [->|Hk]; cbn.
    + destruct (String.eqb_spec k k0); [congruence|reflexivity].
    + destruct (String.eqb_spec k' k0); [reflexivity|exact IH].
Qed.

Lemma keys_set_present {A} k (v v0 : A) o :
  obj_get k o = Some v0 -> keys (obj_set k v o) = keys o.
Proof. intros H. unfold keys. now rewrite (created_set_present k v v0 o H). Qed.

(** A new key that is not an array index is listed last. *)
Lemma keys_set_absent {A} k (v : A) o :
  arrayIndex k = false ->
  obj_get k o = None -> keys (obj_set k v o) = keys o ++ [k].
Proof.
  intros Hk H. unfold keys. rewrite (created_set_absent k v o H).
  now apply listed_snoc.
Qed.

Lemma keys_set {A} k (v : A) o :
  arrayIndex k = false ->
  keys (obj_set k v o)
  = keys o ++ (if existsb (String.eqb k) (keys o) then [] else [k]).
Proof.
  intros Hk. destruct (obj_get k o) as [v0|] eqn:E.
  - rewrite (keys_set_present k v v0 o E).
    destruct (existsb (String.eqb k) (keys o)) eqn:Ex;
      [now rewrite app_nil_r|].
    apply obj_get_None_keys in Ex. congruence.
  - rewrite (keys_set_absent k v o Hk E).
    now rewrite (proj1 (obj_get_None_keys k o) E).
Qed.

Lemma inStep_engineOf rules : inStep (engineOf rules).
Proof. reflexivity. Qed.

Lemma inStep_new customRules : inStep (RuleEngine.new customRules).
Proof. reflexivity. Qed.

Lemma inStep_addRule e ruleName ruleConfig e' :
  RuleEngine.addRule e ruleName ruleConfig = Some e' -> inStep e'.
Proof.
  unfold RuleEngine.addRule.
  destruct (obj_get ruleName (RuleEngine.rules e));
    [|destruct (String.eqb ruleName "__proto__"); [discriminate|]];
    intros H; inversion H; reflexivity.
Qed.

Lemma inStep_setRuleEnabled e ruleName v e' :
  inStep e -> RuleEngine.setRuleEnabled e ruleName v = Some e' -> inStep e'.
Proof.
  intros He. unfold RuleEngine.setRuleEnabled.
  destruct (obj_get ruleName (RuleEngine.rules e)).
  - intros H; inversion H; reflexivity.
  - destruct (String.eqb ruleName "__proto__"); [discriminate|].
    destruct (inherited ruleName); intros H; inversion H; subst;
      [reflexivity|exact He].
Qed.

Section RuleFacts.

Variable rmatch : RegExp -> text -> nat -> option nat.

Lemma applyRule_ok rule ruleName content filePath violations :
  RuleEngine.applyRule rmatch rule ruleName content filePath
    = Returns violations ->
  Forall (fun f => Finding.rule f = ruleName /\ unsuppressed content f)
         violations.
Proof.
  unfold RuleEngine.applyRule.
  destruct (RuleEngine.pattern rule) as [re|];
    [|intros H; inversion H; constructor].
  apply (whileExec_invariant rmatch
           (Forall (fun f => Finding.rule f = ruleName
                             /\ unsuppressed content f)));
    [|constructor].
  intros acc i len acc' _ _ Hacc. cbv zeta.
  destruct (rule_line_in_range content i) as [lineContent Hline].
  rewrite Hline.
  unfold RuleEngine.shouldSkipRule. fold (hasDisableMarker lineContent).
  destruct (hasDisableMarker lineContent) eqn:Emark; cbn [bind].
  - intros H; inversion H; subst; exact Hacc.
  - assert (Hnew : forall f,
               Finding.rule f = ruleName ->
               Finding.line f
               = Position.line (RuleEngine.getLineAndColumn content i) ->
               Forall (fun f => Finding.rule f = ruleName
                                /\ unsuppressed content f) (acc ++ [f])).
    { intros f Hr Hl. apply Forall_app. split; [exact Hacc|].
      constructor; [|constructor]. split; [exact Hr|].
      exists lineContent. rewrite Hl. now split. }
    destruct (RuleEngine.exclude rule) as [patterns|].
    + destruct (existsb _ patterns); cbn [bind];
        intros H; inversion H; subst; [exact Hacc|now apply Hnew].
    + cbn [bind]. intros H; inversion H; subst. now apply Hnew.
Qed.

Lemma analyzeLoop_ok rs content filePath all names :
  forall results fs,
  incl names all ->
  Forall (fun f => In (Finding.rule f) all /\ unsuppressed content f)
         results ->
  RuleEngine.analyzeLoop rmatch rs names content filePath results
    = Returns fs ->
  Forall (fun f => In (Finding.rule f) all /\ unsuppressed content f) fs.
Proof.
  induction names as [|ruleName names IH]; intros results fs Hincl Hres;
    cbn [RuleEngine.analyzeLoop].
  - intros H; inversion H; subst; exact Hres.
  - destruct (obj_get ruleName rs) as [rule|]; [|discriminate].
    destruct (RuleEngine.applyRule rmatch rule ruleName content filePath)
      as [vs| |] eqn:E; cbn [bind]; try discriminate.
    apply IH; [intros x Hx; apply Hincl; now right|].
    apply Forall_app. split; [exact Hres|].
    apply applyRule_ok in E. eapply Forall_impl; [|exact E].
    intros f [Hr Hu]. split; [|exact Hu]. rewrite Hr. apply Hincl. now left.
Qed.

(** Every finding of [analyze] bears the name of a rule of the active set
    and sits on a line without a disable marker. *)
Lemma analyze_ok e content filePath fs f :
  RuleEngine.analyze rmatch e content filePath = Returns fs ->
  In f fs ->
  In (Finding.rule f) (RuleEngine.enabledRules e) /\ unsuppressed content f.
Proof.
  unfold RuleEngine.analyze. intros H Hin.
  apply (analyzeLoop_ok _ content filePath (RuleEngine.enabledRules e))
    in H; [|apply incl_refl|constructor].
  rewrite Forall_forall in H. exact (H f Hin).
Qed.

Lemma applyRule_explicitlyEnabled r ruleName content filePath :
  RuleEngine.applyRule rmatch (explicitlyEnabled r) ruleName content filePath
  = RuleEngine.applyRule rmatch r ruleName content filePath.
Proof. reflexivity. Qed.

Lemma analyzeLoop_explicitlyEnabled rules name r content filePath names :
  obj_get name rules = Some r ->
  forall results,
  RuleEngine.analyzeLoop rmatch
    (obj_set name (explicitlyEnabled r) rules) names content filePath results
  = RuleEngine.analyzeLoop rmatch rules names content filePath results.
Proof.
  intros Hr. induction names as [|n names IH]; intros results;
    cbn [RuleEngine.analyzeLoop]; [reflexivity|].
  destruct (String.eqb_spec n name) as [->|Hne].
  - rewrite obj_get_set_same, Hr, applyRule_explicitlyEnabled.
    destruct (RuleEngine.applyRule rmatch r name content filePath);
      cbn [bind]; try reflexivity. apply IH.
  - rewrite (obj_get_set_other name n _ rules Hne).
    destruct (obj_get n rules) as [rule|]; [|reflexivity].
    destruct (RuleEngine.applyRule rmatch rule n content filePath);
      cbn [bind]; try reflexivity. apply IH.
Qed.

End RuleFacts.

Lemma isEnabled_not_false r :
  RuleEngine.enabled r <> Some (JBool false) -> RuleEngine.isEnabled r = true.
Proof.
  unfold RuleEngine.isEnabled.
  destruct (RuleEngine.enabled r) as [[| |[|]| |]|]; try reflexivity.
  intros H. now destruct H.
Qed.

Lemma getEnabledRules_explicitlyEnabled rules name r :
  obj_get name rules = Some r ->
  RuleEngine.isEnabled r = true ->
  RuleEngine.getEnabledRules (obj_set name (explicitlyEnabled r) rules)
  = RuleEngine.getEnabledRules rules.
Proof.
  intros Hr He. unfold RuleEngine.getEnabledRules.
  rewrite (keys_set_present name (explicitlyEnabled r) r rules Hr).
  apply filter_ext. intros n.
  destruct (String.eqb_spec n name) as [->|Hne].
  - now rewrite obj_get_set_same, Hr, He.
  - now rewrite (obj_get_set_other name n _ rules Hne).
Qed.

Lemma getEnabledRules_spec rules name :
  In name (RuleEngine.getEnabledRules rules) <->
  exists r, obj_get name rules = Some r /\ RuleEngine.isEnabled r = true.
Proof.
  unfold RuleEngine.getEnabledRules. rewrite filter_In. split.
  - intros [_ H]. destruct (obj_get name rules) as [r|]; [|discriminate].
    now exists r.
  - intros (r & Hr & He). split; [exact (obj_get_keys name rules r Hr)|].
    now rewrite Hr.
Qed.

(** ** Suppression and disabling *)





Lemma analyze_disabled rmatch this content filePath :
  truthy (MLAnalyzer.Config.enabled (MLAnalyzer.config this)) = false ->
  MLAnalyzer.analyze rmatch this content filePath = Returns [].
Proof.
  intros H. unfold MLAnalyzer.analyze. rewrite H.
  now destruct (MLAnalyzer.model this).
Qed.

(** C8. A rule whose [enabled] attribute is [false] gives no finding to
    [RuleEngine.analyze], whatever the text; and a heuristic analyzer whose
    [enabled] setting is [false] (or any other falsy value) returns the
    empty sequence for every text. *)
Theorem disabled_contributes_nothing
    (rmatch : RegExp -> text -> nat -> option nat) :
  (forall e content filePath fs f name r,
     inStep e ->
     RuleEngine.analyze rmatch e content filePath = Returns fs ->
     In f fs ->
     obj_get name (RuleEngine.rules e) = Some r ->
     RuleEngine.enabled r = Some (JBool false) ->
     Finding.rule f <> name) /\
  (forall this content filePath,
     truthy (MLAnalyzer.Config.enabled (MLAnalyzer.config this)) = false ->
     MLAnalyzer.analyze rmatch this content filePath = Returns []).
Proof.
  split; [|exact (analyze_disabled rmatch)].
  intros e content filePath fs f name r He Hfs Hin Hr Hoff Heq.
  apply (analyze_ok rmatch e content filePath fs f Hfs) in Hin as [Hin _].
  rewrite He, Heq in Hin.
  apply getEnabledRules_spec in Hin as (r' & Hr' & Hon).
  rewrite Hr in Hr'. inversion Hr'; subst r'.
  unfold RuleEngine.isEnabled in Hon. rewrite Hoff in Hon. discriminate.
Qed.

Lemma disabled_contributes_nothing_witness :
  (exists r re len f,
     obj_get "no-unused-variables" (RuleEngine.rules (RuleEngine.new []))
       = Some r /\
     RuleEngine.enabled r = Some (JBool false) /\
     RuleEngine.pattern r = Some re /\
     JS.jsmatch re unusedConst 0 = Some len /\
     RuleEngine.analyze JS.jsmatch (RuleEngine.new []) unusedConst "a.js"
       = Returns [f] /\
     Finding.rule f <> "no-unused-variables"%string) /\
  MLAnalyzer.analyze JS.jsmatch disabledAnalyzer looseEquality "a.js"
    = Returns [].
Proof.
  split.
  - do 4 eexists.
    split; [reflexivity|]. split; [reflexivity|]. split; [reflexivity|].
    split; [vm_compute; reflexivity|].
    split; [vm_compute; reflexivity|].
    eapply (proj1 (disabled_contributes_nothing JS.jsmatch)
              (RuleEngine.new []) unusedConst "a.js"%string);
      [apply inStep_new | vm_compute; reflexivity | left; reflexivity
      | reflexivity | reflexivity].
  - apply (proj2 (disabled_contributes_nothing JS.jsmatch)). reflexivity.
Defined.

(** C10. Only the value [false] of a rule's [enabled] attribute keeps the
    rule out of the active set: a rule whose attribute is absent or holds
    any other value is in the active set, and [analyze] returns what it
    returns when the attribute of that rule is [true]. *)
Theorem only_false_disables
    (rmatch : RegExp -> text -> nat -> option nat)
    (rules : obj RuleEngine.Rule) (name : string) (r : RuleEngine.Rule)
    (content : text) (filePath : string) :
  obj_get name rules = Some r ->
  RuleEngine.enabled r <> Some (JBool false) ->
  In name (RuleEngine.enabledRules (engineOf rules)) /\
  RuleEngine.analyze rmatch (engineOf rules) content filePath
  = RuleEngine.analyze rmatch
      (engineOf (obj_set name (explicitlyEnabled r) rules)) content filePath.
Proof.
  intros Hr Hnf. pose proof (isEnabled_not_false r Hnf) as He. split.
  - apply getEnabledRules_spec. now exists r.
  - unfold RuleEngine.analyze, engineOf.
    cbn [RuleEngine.rules RuleEngine.enabledRules].
    rewrite (getEnabledRules_explicitlyEnabled rules name r Hr He).
    symmetry. now apply analyzeLoop_explicitlyEnabled.
Qed.

(** What [addRule] leaves, when it is within the model. *)
Lemma addRule_Some e ruleName ruleConfig e' :
  RuleEngine.addRule e ruleName ruleConfig = Some e' ->
  e' = engineOf
         (obj_set ruleName
            {| RuleEngine.name :=
                 RuleEngine.orDefault (RuleEngine.name ruleConfig)
                   (Some ruleName);
               RuleEngine.enabled :=
                 RuleEngine.orDefault (RuleEngine.enabled ruleConfig)
                   (Some (JBool true));
               RuleEngine.severity :=
                 RuleEngine.orDefault (RuleEngine.severity ruleConfig)
                   (Some "warning"%string);
               RuleEngine.description := RuleEngine.description ruleConfig;
               RuleEngine.pattern := RuleEngine.pattern ruleConfig;
               RuleEngine.exclude := RuleEngine.exclude ruleConfig |}
            (RuleEngine.rules e)).
Proof.
  unfold RuleEngine.addRule.
  destruct (obj_get ruleName (RuleEngine.rules e));
    [|destruct (String.eqb ruleName "__proto__"); [discriminate|]];
    intros H; inversion H; reflexivity.
Qed.

Lemma addRule_returns e ruleName ruleConfig :
  ruleName <> "__proto__"%string ->
  exists e', RuleEngine.addRule e ruleName ruleConfig = Some e'.
Proof.
  intros Hne. unfold RuleEngine.addRule.
  destruct (obj_get ruleName (RuleEngine.rules e)); [eexists; reflexivity|].
  destruct (String.eqb_spec ruleName "__proto__"); [contradiction|].
  eexists; reflexivity.
Qed.

Lemma addRule_active e ruleName ruleConfig e' :
  RuleEngine.addRule e ruleName ruleConfig = Some e' ->
  RuleEngine.enabled ruleConfig <> Some (JBool false) ->
  In ruleName (RuleEngine.enabledRules e').
Proof.
  intros He' Hnf. apply addRule_Some in He'. subst e'.
  cbn [engineOf RuleEngine.enabledRules].
  apply getEnabledRules_spec. eexists. split; [apply obj_get_set_same|].
  apply isEnabled_not_false. cbn [RuleEngine.enabled].
  destruct (RuleEngine.enabled ruleConfig); cbn; [exact Hnf|discriminate].
Qed.

Lemma only_false_disables_witness :
  obj_get "no-todo" (RuleEngine.initializeRules [("no-todo"%string, noTodo)])
    = Some noTodo /\
  RuleEngine.enabled noTodo <> Some (JBool false) /\
  In "no-todo"%string
     (RuleEngine.enabledRules
        (RuleEngine.new [("no-todo"%string, noTodo)])) /\
  RuleEngine.analyze JS.jsmatch
    (RuleEngine.new [("no-todo"%string, noTodo)]) todoText "a.js"
  = RuleEngine.analyze JS.jsmatch
      (engineOf (obj_set "no-todo" (explicitlyEnabled noTodo)
                   (RuleEngine.initializeRules [("no-todo"%string, noTodo)])))
      todoText "a.js" /\
  exists f,
    RuleEngine.analyze JS.jsmatch
      (RuleEngine.new [("no-todo"%string, noTodo)]) todoText "a.js"
    = Returns [f] /\ Finding.rule f = "no-todo"%string.
Proof.
  split; [reflexivity|]. split; [discriminate|].
  split; [|split].
  - apply (only_false_disables JS.jsmatch
             (RuleEngine.initializeRules [("no-todo"%string, noTodo)])
             "no-todo" noTodo todoText "a.js"); [reflexivity|discriminate].
  - apply (only_false_disables JS.jsmatch
             (RuleEngine.initializeRules [("no-todo"%string, noTodo)])
             "no-todo" noTodo todoText "a.js"); [reflexivity|discriminate].
  - eexists. split; [vm_compute; reflexivity|reflexivity].
Defined.

(** ** A file that cannot be analysed *)

Lemma analyze_never_throws rmatch this content filePath message :
  MLAnalyzer.analyze rmatch this content filePath <> Throws message.
Proof.
  unfold MLAnalyzer.analyze.
  destruct (MLAnalyzer.model this) as [model|]; [|discriminate].
  destruct (negb _); [discriminate|].
  destruct (if String.eqb _ _ then _ else _); cbn; discriminate.
Qed.

Section AnalyzeFileFacts.

Variable Ast : Type.
Variable readFileSync : string -> outcome text.
Variable extname : string -> string.
Variable parseFile : text -> string -> outcome Ast.
Variable ruleAnalyze : Ast -> text -> string -> outcome (list Finding.t).
Variable mlAnalyze : Ast -> text -> string -> outcome (list Finding.t).

Local Abbreviation analyzeFile :=
  (Scan.analyzeFile Ast readFileSync extname parseFile ruleAnalyze mlAnalyze).
Local Abbreviation analyzeFiles :=
  (Scan.analyzeFiles Ast readFileSync extname parseFile ruleAnalyze
     mlAnalyze).
Local Abbreviation tryBlock :=
  (Scan.tryBlock Ast readFileSync extname parseFile ruleAnalyze mlAnalyze).

(** [analyzeFile] does not throw, whatever its collaborators do. *)
Lemma analyzeFile_never_throws filePath message :
  analyzeFile filePath <> Throws message.
Proof.
  unfold Scan.analyzeFile.
  destruct (tryBlock filePath []) as [results [[]| |]]; discriminate.
Qed.






End AnalyzeFileFacts.



(** * Properties of more of the code *)

(** ** Grouping by file *)

Lemma filter_twice {A} (f g h : A -> bool) l :
  (forall x, f x = g x && h x) -> filter f l = filter g (filter h l).
Proof.
  intros H. induction l as [|x l IH]; cbn; [reflexivity|].
  rewrite H. destruct (h x); cbn.
  - rewrite andb_true_r. destruct (g x); now rewrite IH.
  - rewrite andb_false_r. exact IH.
Qed.

Lemma firsts_In k l : In k (firsts l) -> In k l.
Proof.
  induction l as [|x l IH]; cbn [firsts]; [tauto|].
  intros [<-|H]; [now left|]. apply filter_In in H as [H _].
  right. now apply IH.
Qed.

(** What the loop returns when no file name is an inherited name: the
    groups, and the names in the order of their creation. *)
Lemma groupLoop_returns results :
  forall acc,
  existsb (fun r => inherited (Finding.file r)) results = false ->
  exists groups,
    OutputFormatter.groupLoop results acc = Returns groups /\
    (forall file,
       obj_get file groups
       = match obj_get file acc with
         | Some group => Some (group ++ filter (fromFile file) results)
         | None => match filter (fromFile file) results with
                   | [] => None
                   | group => Some group
                   end
         end) /\
    created groups
    = created acc
      ++ filter (fun k => negb (existsb (String.eqb k) (created acc)))
           (firsts (map Finding.file results)).
Proof.
  induction results as [|r results IH]; intros acc Hplain;
    cbn [OutputFormatter.groupLoop filter map firsts].
  - exists acc. split; [reflexivity|]. split; [|now rewrite app_nil_r].
    intros file. destruct (obj_get file acc); [now rewrite app_nil_r|].
    reflexivity.
  - cbn [existsb] in Hplain. apply orb_false_iff in Hplain as [Hr Hplain].
    rewrite Hr.
    assert (Hstep : forall next,
              (forall file,
                 obj_get file next
                 = if fromFile file r
                   then Some (match obj_get file acc with
                              | Some group => group ++ [r]
                              | None => [r]
                              end)
                   else obj_get file acc) ->
              created next
              = created acc
                ++ (if existsb (String.eqb (Finding.file r)) (created acc)
                    then [] else [Finding.file r]) ->
              exists groups,
                OutputFormatter.groupLoop results next = Returns groups /\
                (forall file,
                   obj_get file groups
                   = match obj_get file acc with
                     | Some group =>
                         Some (group
                               ++ (if fromFile file r
                                   then r :: filter (fromFile file) results
                                   else filter (fromFile file) results))
                     | None =>
                         match
                           (if fromFile file r
                            then r :: filter (fromFile file) results
                            else filter (fromFile file) results)
                         with
                         | [] => None
                         | group => Some group
                         end
                     end) /\
                created groups
                = created acc
                  ++ filter
                       (fun k => negb (existsb (String.eqb k) (created acc)))
                       (Finding.file r
                        :: filter
                             (fun y => negb (String.eqb y (Finding.file r)))
                             (firsts (map Finding.file results)))).
    { intros next Hget Hcreated.
      destruct (IH next Hplain) as (groups & Hg & Hlook & Hn).
      exists groups. split; [exact Hg|]. split.
      - intros file. rewrite Hlook, Hget.
        destruct (fromFile file r);
          destruct (obj_get file acc) as [group|];
          try reflexivity; now rewrite <- app_assoc.
      - rewrite Hn, Hcreated. cbn [filter].
        destruct (existsb (String.eqb (Finding.file r)) (created acc)) eqn:Ex;
          cbn [negb].
        + rewrite app_nil_r. f_equal.
          rewrite <- (filter_twice
                        (fun k => negb (existsb (String.eqb k) (created acc)))
                        (fun k => negb (existsb (String.eqb k) (created acc)))
                        (fun y => negb (String.eqb y (Finding.file r))));
            [reflexivity|].
          intros k. destruct (String.eqb_spec k (Finding.file r)) as [->|];
            cbn; [now rewrite Ex|now rewrite andb_true_r].
        + rewrite <- app_assoc. cbn [app]. do 2 f_equal.
          apply filter_twice. intros k. rewrite existsb_app. cbn [existsb].
          rewrite orb_false_r, negb_orb. reflexivity. }
    destruct (obj_get (Finding.file r) acc) as [group|] eqn:E.
    + apply Hstep.
      * intros file. unfold fromFile.
        destruct (String.eqb_spec (Finding.file r) file) as [<-|Hne].
        -- now rewrite obj_get_set_same, E.
        -- apply obj_get_set_other. congruence.
      * rewrite (created_set_present _ _ group acc E).
        destruct (existsb _ (created acc)) eqn:Ex; [now rewrite app_nil_r|].
        apply obj_get_None_created in Ex. congruence.
    + apply Hstep.
      * intros file. unfold fromFile.
        destruct (String.eqb_spec (Finding.file r) file) as [<-|Hne].
        -- now rewrite obj_get_set_same, E.
        -- apply obj_get_set_other. congruence.
      * rewrite (created_set_absent _ _ acc E).
        now rewrite (proj1 (obj_get_None_created _ acc) E).
Qed.

(** The loop throws at the first finding whose file name is inherited. *)
Lemma groupLoop_throws results :
  forall acc,
  (forall k, In k (created acc) -> inherited k = false) ->
  existsb (fun r => inherited (Finding.file r)) results = true ->
  OutputFormatter.groupLoop results acc
  = Throws "acc[result.file].push is not a function".
Proof.
  induction results as [|r results IH]; intros acc Hacc Hex;
    cbn [existsb] in Hex; [discriminate|].
  cbn [OutputFormatter.groupLoop].
  destruct (obj_get (Finding.file r) acc) as [group|] eqn:E.
  - pose proof (Hacc _ (obj_get_created _ _ _ E)) as Hr.
    rewrite Hr in Hex. cbn [orb] in Hex. apply IH; [|exact Hex].
    now rewrite (created_set_present _ _ group acc E).
  - destruct (inherited (Finding.file r)) eqn:Hr; [reflexivity|].
    cbn [orb] in Hex. apply IH; [|exact Hex].
    rewrite (created_set_absent _ _ acc E). intros k Hk.
    apply in_app_or in Hk as [Hk|[<-|[]]]; [now apply Hacc|exact Hr].
Qed.

(** X1. Grouping by file is a stable group-by, for findings whose file
    is not a name that every object inherits (such as [constructor]): the
    group of a file is the findings of that file in their original order,
    a file without findings has no group, and the files are listed in
    the order of their first appearance, after those that are array
    indices; when no file is an array index, simply in the order of their
    first appearance.  With a finding whose file is an inherited name,
    the function throws. *)
Theorem groupResultsByFile_stable (results : list Finding.t) :
  (existsb (fun r => inherited (Finding.file r)) results = false ->
   exists groups,
     OutputFormatter.groupResultsByFile results = Returns groups /\
     (forall file,
        obj_get file groups
        = match filter (fromFile file) results with
          | [] => None
          | group => Some group
          end) /\
     keys groups = listed (firsts (map Finding.file results)) /\
     (forallb (fun r => negb (arrayIndex (Finding.file r))) results = true ->
      keys groups = firsts (map Finding.file results))) /\
  (existsb (fun r => inherited (Finding.file r)) results = true ->
   OutputFormatter.groupResultsByFile results
   = Throws "acc[result.file].push is not a function").
Proof.
  unfold OutputFormatter.groupResultsByFile. split.
  - intros Hplain.
    destruct (groupLoop_returns results [] Hplain)
      as (groups & Hg & Hlook & Hn).
    assert (Hcreated : created groups = firsts (map Finding.file results)).
    { rewrite Hn. cbn [created map app existsb negb].
      generalize (firsts (map Finding.file results)). intros l.
      induction l as [|k l IH]; cbn; [reflexivity|now rewrite IH]. }
    exists groups. split; [exact Hg|]. split; [exact Hlook|].
    unfold keys. rewrite Hcreated. split; [reflexivity|].
    intros Hidx. apply listed_plain. apply forallb_forall.
    intros k Hk. apply firsts_In in Hk. apply in_map_iff in Hk as (r & <- & Hr).
    rewrite forallb_forall in Hidx. now apply Hidx.
  - apply groupLoop_throws. intros k [].
Qed.

Lemma groupResultsByFile_stable_witness :
  (exists groups,
     OutputFormatter.groupResultsByFile
       [reported "no-var" 1; reported "no-eval" 2] = Returns groups /\
     keys groups = ["a.js"%string]) /\
  OutputFormatter.groupResultsByFile [fromConstructor]
  = Throws "acc[result.file].push is not a function".
Proof.
  split.
  - destruct (proj1 (groupResultsByFile_stable
                       [reported "no-var" 1; reported "no-eval" 2])
                eq_refl) as (groups & Hg & _ & _ & Hk).
    exists groups. split; [exact Hg|]. now rewrite Hk.
  - apply (proj2 (groupResultsByFile_stable [fromConstructor])). reflexivity.
Defined.

(** ** Summary counts and the range of the risk score *)

Lemma count_total results summary :
  OutputFormatter.total (fold_left OutputFormatter.count results summary)
  = OutputFormatter.total summary.
Proof.
  revert summary; induction results as [|f results IH]; intros summary;
    cbn [fold_left]; [reflexivity|]. now rewrite IH.
Qed.

Lemma bump_other k k' o :
  k' <> k ->
  obj_get k' (OutputFormatter.bump k o) = obj_get k' o.
Proof.
  intros Hne. unfold OutputFormatter.bump.
  destruct (obj_get k o) as [[n|f ones]|];
    [now apply obj_get_set_other|now apply obj_get_set_other|].
  destruct (String.eqb k "__proto__"); [reflexivity|].
  destruct (inherited k); now apply obj_get_set_other.
Qed.

Lemma count_bySeverity k results :
  k <> "__proto__"%string ->
  forall summary n,
  obj_get k (OutputFormatter.bySeverity summary) = counted k n ->
  obj_get k (OutputFormatter.bySeverity
               (fold_left OutputFormatter.count results summary))
  = counted k (n + withKey k results).
Proof.
  intros Hk. unfold withKey.
  induction results as [|f results IH]; intros summary n Hn;
    cbn [fold_left filter length].
  - now rewrite Nat.add_0_r.
  - destruct (String.eqb_spec (OutputFormatter.key (Finding.severity f)) k)
      as [Heq|Hne].
    + cbn [length]. replace (n + S (length (filter
                (fun r => String.eqb (OutputFormatter.key (Finding.severity r)) k)
                results)))
        with (S n + length (filter
                (fun r => String.eqb (OutputFormatter.key (Finding.severity r)) k)
                results)) by lia.
      apply IH. cbn [OutputFormatter.count OutputFormatter.bySeverity].
      rewrite Heq. unfold OutputFormatter.bump. rewrite Hn.
      unfold counted. destruct n as [|n].
      * destruct (String.eqb_spec k "__proto__"); [contradiction|].
        destruct (inherited k); now rewrite obj_get_set_same.
      * destruct (inherited k); rewrite obj_get_set_same;
          now rewrite Nat.add_1_r.
    + apply IH. cbn [OutputFormatter.count OutputFormatter.bySeverity].
      rewrite bump_other by congruence. exact Hn.
Qed.

Lemma count_bySeverity_proto results :
  forall summary,
  obj_get "__proto__" (OutputFormatter.bySeverity summary) = None ->
  obj_get "__proto__"
    (OutputFormatter.bySeverity
       (fold_left OutputFormatter.count results summary)) = None.
Proof.
  induction results as [|f results IH]; intros summary Hn;
    cbn [fold_left]; [exact Hn|].
  apply IH. cbn [OutputFormatter.count OutputFormatter.bySeverity].
  destruct (String.eqb_spec (OutputFormatter.key (Finding.severity f))
              "__proto__") as [Heq|Hne].
  - rewrite Heq. unfold OutputFormatter.bump. now rewrite Hn.
  - rewrite bump_other by congruence. exact Hn.
Qed.

Lemma errors_and_warnings results :
  length (filter (severityIs "error") results)
  + length (filter (severityIs "warning") results) <= length results.
Proof.
  induction results as [|f results IH]; cbn [filter length]; [lia|].
  destruct (severityIs "error" f) eqn:E.
  - rewrite (severity_exclusive f E). cbn [length]. lia.
  - destruct (severityIs "warning" f); cbn [length]; lia.
Qed.

(** X2. The summary of the formatter counts what it says: [total] is the
    number of findings, [errors] and [warnings] the numbers of findings of
    those severities (together at most [total]), and [bySeverity] maps
    each severity that occurs, and no other key, to its number of
    findings.  A severity that is a name every object inherits (such as
    [constructor]) is not counted by a number: [bySeverity] holds for it
    the text of the inherited function followed by one digit [1] for each
    finding, and nothing at all for [__proto__]. *)
Theorem generateSummary_counts (results : list Finding.t) :
  let summary := OutputFormatter.generateSummary results in
  OutputFormatter.total summary = length results /\
  OutputFormatter.errors summary
    = length (filter (severityIs "error") results) /\
  OutputFormatter.warnings summary
    = length (filter (severityIs "warning") results) /\
  OutputFormatter.errors summary + OutputFormatter.warnings summary
    <= OutputFormatter.total summary /\
  (forall k,
     inherited k = false ->
     obj_get k (OutputFormatter.bySeverity summary)
     = match withKey k results with
       | O => None
       | S n => Some (OutputFormatter.Count (S n))
       end) /\
  (forall k,
     inherited k = true -> k <> "__proto__"%string ->
     obj_get k (OutputFormatter.bySeverity summary)
     = match withKey k results with
       | O => None
       | S n => Some (OutputFormatter.FunctionText k (S n))
       end) /\
  obj_get "__proto__" (OutputFormatter.bySeverity summary) = None.
Proof.
  assert (H : let summary := OutputFormatter.generateSummary results in
              OutputFormatter.total summary = length results /\
              OutputFormatter.errors summary
                = length (filter (severityIs "error") results) /\
              OutputFormatter.warnings summary
                = length (filter (severityIs "warning") results) /\
              (forall k,
                 k <> "__proto__"%string ->
                 obj_get k (OutputFormatter.bySeverity summary)
                 = counted k (withKey k results)) /\
              obj_get "__proto__" (OutputFormatter.bySeverity summary)
              = None).
  { unfold OutputFormatter.generateSummary. cbv zeta.
    destruct (0 <? length results);
      cbn [OutputFormatter.total OutputFormatter.errors
           OutputFormatter.warnings OutputFormatter.bySeverity];
      rewrite count_total, count_errors, count_warnings;
      (repeat split;
       [intros k Hk;
        rewrite (count_bySeverity k results Hk _ 0); reflexivity
       |now apply count_bySeverity_proto]). }
  cbv zeta in *. destruct H as (Ht & He & Hw & Hk & Hp).
  repeat split; try assumption.
  - rewrite Ht, He, Hw. apply errors_and_warnings.
  - intros k Hplain. rewrite Hk.
    + unfold counted. rewrite Hplain. now destruct (withKey k results).
    + intros ->. discriminate.
  - intros k Hin Hne. rewrite (Hk k Hne). unfold counted. rewrite Hin.
    now destruct (withKey k results).
Qed.

Lemma generateSummary_counts_witness :
  inherited "warning" = false /\
  inherited "constructor" = true /\
  obj_get "warning"
    (OutputFormatter.bySeverity
       (OutputFormatter.generateSummary
          [withSeverity "warning"; withSeverity "constructor";
           withSeverity "warning"]))
  = Some (OutputFormatter.Count 2) /\
  obj_get "constructor"
    (OutputFormatter.bySeverity
       (OutputFormatter.generateSummary
          [withSeverity "warning"; withSeverity "constructor";
           withSeverity "warning"]))
  = Some (OutputFormatter.FunctionText "constructor" 1).
Proof.
  split; [reflexivity|]. split; [reflexivity|]. split.
  - exact (proj1 (proj2 (proj2 (proj2 (proj2
             (generateSummary_counts
                [withSeverity "warning"; withSeverity "constructor";
                 withSeverity "warning"])))))
             "warning"%string eq_refl).
  - refine (proj1 (proj2 (proj2 (proj2 (proj2 (proj2
             (generateSummary_counts
                [withSeverity "warning"; withSeverity "constructor";
                 withSeverity "warning"]))))))
             "constructor"%string eq_refl _).
    discriminate.
Defined.

Lemma scaled_round_bounds (a : Z) (w n : nat) :
  0 < n ->
  (a * Z.of_nat n <= Z.of_nat w)%Z ->
  w <= 3 * n ->
  (20 * a <= round (inject_Z (Z.of_nat w) / inject_Z (Z.of_nat n) * 20)
   <= 60)%Z.
Proof.
  intros Hn Hlo Hhi.
  set (W := inject_Z (Z.of_nat w)). set (N := inject_Z (Z.of_nat n)).
  assert (HN : (0 < N)%Q).
  { unfold N. change 0%Q with (inject_Z 0). rewrite <- Zlt_Qlt. lia. }
  assert (H1 : (inject_Z a <= W / N)%Q).
  { apply Qle_shift_div_l; [exact HN|]. unfold W, N.
    rewrite <- inject_Z_mult, <- Zle_Qle. exact Hlo. }
  assert (H2 : (W / N <= 3)%Q).
  { apply Qle_shift_div_r; [exact HN|]. unfold W, N.
    change 3%Q with (inject_Z 3).
    rewrite <- inject_Z_mult, <- Zle_Qle. lia. }
  unfold round. split.
  - rewrite <- (Qfloor_Z (20 * a)). apply Qfloor_resp_le.
    rewrite inject_Z_mult. change (inject_Z 20) with 20%Q. lra.
  - change 60%Z with (Qfloor (60 + (1 # 2))). apply Qfloor_resp_le. lra.
Qed.

Lemma weights_bounded results :
  list_sum (map weight results) <= 3 * length results.
Proof.
  induction results as [|f results IH]; [cbn; lia|].
  change (list_sum (map weight (f :: results)))
    with (weight f + list_sum (map weight results)).
  cbn [length]. unfold weight at 1.
  destruct (severityIs "error" f); [lia|].
  destruct (severityIs "warning" f); lia.
Qed.

(** X3. The risk score of the formatter is an integer between 0 and 60
    (the cap at 100 is never reached).  The risk score of the scan command
    is 0 for no finding, [NaN] when there are findings but none is an
    error or a warning, and otherwise an integer between 20 and 60. *)
Theorem riskScore_range (results : list Finding.t) :
  (exists z, OutputFormatter.riskScore
               (OutputFormatter.generateSummary results) = ofZ z
             /\ (0 <= z <= 60)%Z) /\
  match results with
  | [] => Scan.riskScore (Scan.generateSummary results) = ofZ 0
  | _ :: _ =>
      if length (filter (severityIs "warning") results)
         + length (filter (severityIs "error") results) =? 0
      then Scan.riskScore (Scan.generateSummary results) = NaN
      else exists z, Scan.riskScore (Scan.generateSummary results) = ofZ z
                     /\ (20 <= z <= 60)%Z
  end.
Proof.
  split.
  - exists (specRiskScore results). split; [apply formatter_riskScore|].
    unfold specRiskScore. destruct results as [|f results]; [lia|].
    pose proof (scaled_round_bounds 0 (list_sum (map weight (f :: results)))
                  (length (f :: results)) ltac:(cbn; lia) ltac:(lia)
                  (weights_bounded (f :: results))) as H.
    lia.
  - destruct results as [|f results]; [reflexivity|].
    unfold Scan.generateSummary. cbv zeta. cbn [Scan.riskScore].
    change (0 <? length (f :: results)) with true. cbv iota.
    set (w := length (filter (severityIs "warning") (f :: results))).
    set (e := length (filter (severityIs "error") (f :: results))).
    destruct (w + e) as [|m] eqn:Ewe.
    + assert (w = 0 /\ e = 0) as [-> ->] by lia. reflexivity.
    + cbn [Nat.eqb]. rewrite <- Ewe.
      unfold divide. rewrite Ewe, <- Ewe.
      cbn [times20 Math_round]. rewrite Math_min100_ofZ.
      pose proof (scaled_round_bounds 1 (e * 3 + w * 1) (w + e)
                    ltac:(lia) ltac:(lia) ltac:(lia)) as H.
      eexists. split; [reflexivity|]. lia.
Qed.

(** ** What a scanning loop goes through *)

Section TraceFacts.

Variable rmatch : RegExp -> text -> nat -> option nat.

Lemma search_leftmost re s n : forall i j len,
  search rmatch re s i n = Some (j, len) ->
  forall j', i <= j' < j -> rmatch re s j' = None.
Proof.
  induction n as [|n IH]; intros i j len; cbn [search];
    destruct (rmatch re s i) as [l|] eqn:E; intros H j' Hj';
    try discriminate.
  - inversion H; subst. lia.
  - inversion H; subst. lia.
  - destruct (Nat.eq_dec j' i) as [->|Hne]; [exact E|].
    apply (IH (S i) j len H). lia.
Qed.

Lemma search_none re s n : forall i,
  search rmatch re s i n = None ->
  forall j, i <= j <= i + n -> rmatch re s j = None.
Proof.
  induction n as [|n IH]; intros i; cbn [search];
    destruct (rmatch re s i) as [l|] eqn:E; intros H j Hj;
    try discriminate.
  - assert (j = i) as -> by lia. exact E.
  - destruct (Nat.eq_dec j i) as [->|Hne]; [exact E|].
    apply (IH (S i) H). lia.
Qed.

Lemma search_here re s i n len :
  rmatch re s i = Some len -> search rmatch re s i n = Some (i, len).
Proof. intros H. destruct n; cbn [search]; now rewrite H. Qed.

(** The loop that returns went through a trace, and ran its body over
    it. *)
Lemma whileExec_scanned {A} (body : A -> nat -> text -> outcome A) re s :
  forall fuel lastIndex acc acc',
    whileExec rmatch fuel body re s lastIndex acc = Returns acc' ->
    exists ms,
      scanned rmatch re s lastIndex ms /\
      foldMatches body s acc ms = Returns acc'.
Proof.
  induction fuel as [|fuel IH]; intros li acc acc'; cbn [whileExec];
    [discriminate|].
  destruct (exec rmatch re s li) as [[i len]|] eqn:E.
  - destruct (body acc i (matched s i len)) as [a| |] eqn:Eb; cbn [bind];
      try discriminate.
    intros H. apply IH in H as (ms & Hs & Hf).
    exists ((i, len) :: ms). split; [now apply scanned_step|].
    cbn [foldMatches]. now rewrite Eb.
  - intros H; inversion H; subst. exists []. split; [now constructor|].
    reflexivity.
Qed.

(** A state from which [exec] gives a match and leaves [lastIndex] where
    it is has no finite trace. *)
Lemma scanned_not_stuck re s lastIndex ms :
  scanned rmatch re s lastIndex ms ->
  forall index len,
    exec rmatch re s lastIndex = Some (index, len) ->
    (if global re then index + len else lastIndex) <> lastIndex.
Proof.
  induction 1 as [li Hnone|li i l ms Hexec Hrest IH]; intros index len He.
  - congruence.
  - rewrite Hexec in He. inversion He; subst i l. intros Hstuck.
    rewrite Hstuck in Hrest, IH. exact (IH index len Hexec Hstuck).
Qed.

Lemma exec_none re s lastIndex :
  exec rmatch re s lastIndex = None ->
  lastIndex <= S (length s) ->
  forall j, lastIndex <= j <= length s -> rmatch re s j = None.
Proof.
  unfold exec. intros Hn Hli j Hj.
  destruct (length s <? (if global re then lastIndex else 0)) eqn:El.
  - apply Nat.ltb_lt in El. destruct (global re); lia.
  - apply Nat.ltb_ge in El.
    apply (search_none re s _ _ Hn). destruct (global re); lia.
Qed.

(** A trace is made of matches that are leftmost, not empty and apart; a
    trace with a match is the trace of a global pattern. *)
Lemma scanned_apart re s lastIndex ms :
  scanned rmatch re s lastIndex ms ->
  lastIndex <= S (length s) ->
  apart rmatch re s lastIndex ms /\ (ms <> [] -> global re = true).
Proof.
  induction 1 as [li Hnone|li i l ms Hexec Hrest IH]; intros Hli.
  - split; [|congruence]. cbn [apart]. now apply exec_none.
  - pose proof (scanned_step rmatch re s li i l ms Hexec Hrest) as Hall.
    pose proof (scanned_not_stuck re s li _ Hall i l Hexec) as Hmove.
    destruct (global re) eqn:Hg; [|congruence].
    split; [|reflexivity].
    pose proof Hexec as Hspec. apply exec_spec in Hspec as (Hi & Hm & Hle).
    specialize (Hle Hg).
    assert (Hl : 0 < l).
    { destruct l as [|l']; [|lia]. exfalso.
      assert (Hex : exec rmatch re s (i + 0) = Some (i + 0, 0)).
      { unfold exec. rewrite Hg, Nat.add_0_r.
        destruct (length s <? i) eqn:El; [apply Nat.ltb_lt in El; lia|].
        now apply search_here. }
      apply (scanned_not_stuck re s (i + 0) ms Hrest (i + 0) 0 Hex).
      rewrite Hg. lia. }
    cbn [apart]. repeat split; try assumption; try lia.
    + intros j Hj. unfold exec in Hexec. rewrite Hg in Hexec.
      destruct (length s <? li); [discriminate|].
      exact (search_leftmost re s _ li i l Hexec j Hj).
    + destruct (Nat.le_gt_cases (i + l) (S (length s))) as [Hin|Hout];
        [now apply IH|].
      inversion Hrest as [li' Hn Heq|li' i' l' ms'' Hex' Hrest' Heq]; subst.
      * cbn [apart]. intros j Hj. lia.
      * exfalso. apply exec_spec in Hex' as (Hi' & _ & Hle').
        specialize (Hle' Hg). lia.
Qed.

End TraceFacts.

(** ** Positions in reading order *)

Lemma newlinesBefore_succ t o c :
  nth_error t o = Some c ->
  newlinesBefore t (S o)
  = if Ascii.eqb c newline then S (newlinesBefore t o)
    else newlinesBefore t o.
Proof.
  intros H. unfold newlinesBefore.
  rewrite (firstn_succ_snoc t o c H), count_occ_app. cbn [count_occ].
  destruct (Ascii.eqb_spec c newline) as [->|Hne].
  - destruct (ascii_dec newline newline); [lia|congruence].
  - destruct (ascii_dec c newline); [congruence|lia].
Qed.

Lemma same_line_same_newline t j : forall i,
  i <= j -> j <= length t ->
  newlinesBefore t i <= newlinesBefore t j /\
  (newlinesBefore t i = newlinesBefore t j ->
   lastNewlineIndexBefore t i = lastNewlineIndexBefore t j).
Proof.
  induction j as [|j IH]; intros i Hi Hj.
  - assert (i = 0) as -> by lia. split; [lia|reflexivity].
  - destruct (Nat.eq_dec i (S j)) as [->|Hne]; [split; [lia|reflexivity]|].
    destruct (IH i ltac:(lia) ltac:(lia)) as [Hle Heq].
    destruct (nth_error t j) as [c|] eqn:E.
    2:{ apply nth_error_None in E. lia. }
    rewrite (newlinesBefore_succ t j c E). cbn [lastNewlineIndexBefore].
    rewrite E. destruct (Ascii.eqb c newline); split; lia.
Qed.

Lemma position_numbers t o :
  o <= length t ->
  Position.line (RuleEngine.getLineAndColumn t o) = S (newlinesBefore t o) /\
  Z.of_nat (Position.column (RuleEngine.getLineAndColumn t o))
  = (Z.of_nat o - lastNewlineIndexBefore t o)%Z.
Proof.
  intros Ho. unfold RuleEngine.getLineAndColumn.
  cbn [Position.line Position.column]. rewrite substring_0.
  fold (lastPiece newline (firstn o t)). rewrite split_length.
  split; [reflexivity|]. exact (column_spec t o Ho).
Qed.

(** A later offset has a later position. *)
Lemma position_lt t i j :
  i < j -> j <= length t ->
  positionBefore (RuleEngine.getLineAndColumn t i)
                 (RuleEngine.getLineAndColumn t j).
Proof.
  intros Hij Hj.
  destruct (position_numbers t i ltac:(lia)) as [Li Ci].
  destruct (position_numbers t j Hj) as [Lj Cj].
  destruct (same_line_same_newline t j i ltac:(lia) Hj) as [Hle Heq].
  unfold positionBefore. rewrite Li, Lj.
  destruct (Nat.eq_dec (newlinesBefore t i) (newlinesBefore t j)) as [E|E];
    [right|left; lia].
  split; [now rewrite E|]. specialize (Heq E). lia.
Qed.

(** ** The rule engine, match by match *)

Section RuleTraces.

Variable rmatch : RegExp -> text -> nat -> option nat.

Lemma shouldSkipRule_defined rule lineContent lineNumber :
  RuleEngine.shouldSkipRule rmatch rule (Some lineContent) lineNumber
  = Returns (skips rmatch rule lineContent).
Proof.
  unfold RuleEngine.shouldSkipRule, skips.
  fold (hasDisableMarker lineContent).
  destruct (hasDisableMarker lineContent); [reflexivity|]. cbn [orb].
  destruct (RuleEngine.exclude rule) as [patterns|]; [|reflexivity].
  now destruct (existsb _ patterns).
Qed.

Lemma lineOf_defined content index :
  nth_error (split newline content)
    (Position.line (RuleEngine.getLineAndColumn content index) - 1)
  = Some (lineOf content index).
Proof.
  destruct (rule_line_in_range content index) as [l Hl]. rewrite Hl.
  unfold lineOf. f_equal. symmetry. now apply nth_error_nth.
Qed.

Lemma foldMatches_violations rule ruleName content filePath ms :
  forall acc,
  foldMatches
    (fun violations matchStart match0 =>
       let p := RuleEngine.getLineAndColumn content matchStart in
       let line := Position.line p in
       let column := Position.column p in
       skip <- RuleEngine.shouldSkipRule rmatch rule
                 (nth_error (split newline content) (line - 1)) line ;;
       if (skip : bool) then Returns violations
       else Returns (violations ++ [
         {| Finding.type := "rule";
            Finding.severity := RuleEngine.severity rule;
            Finding.file := filePath;
            Finding.line := line;
            Finding.column := column;
            Finding.message := RuleEngine.description rule;
            Finding.rule := ruleName;
            Finding.code := Some (trim match0);
            Finding.suggestion :=
              Some (RuleEngine.getSuggestion ruleName match0);
            Finding.confidence := None;
            Finding.category := None |}]))
    content acc ms
  = Returns (acc ++ violations rmatch rule ruleName content filePath ms).
Proof.
  unfold violations.
  induction ms as [|[i len] ms IH]; intros acc;
    cbn [foldMatches flat_map fst snd]; [now rewrite app_nil_r|].
  cbv zeta. rewrite lineOf_defined, shouldSkipRule_defined. cbn [bind].
  destruct (skips rmatch rule (lineOf content i)); cbn [bind app].
  - apply IH.
  - rewrite IH, <- app_assoc. reflexivity.
Qed.

(** What [applyRule] returns is the findings of a trace from offset 0. *)
Lemma applyRule_trace rule ruleName content filePath re vs :
  RuleEngine.pattern rule = Some re ->
  RuleEngine.applyRule rmatch rule ruleName content filePath = Returns vs ->
  exists ms,
    apart rmatch re content 0 ms /\
    vs = violations rmatch rule ruleName content filePath ms.
Proof.
  intros Hp. unfold RuleEngine.applyRule. rewrite Hp. intros H.
  apply whileExec_scanned in H as (ms & Hs & Hf).
  exists ms. split; [apply (scanned_apart rmatch re content 0 ms Hs); lia|].
  rewrite foldMatches_violations in Hf. now inversion Hf.
Qed.

Lemma violations_sorted rule ruleName content filePath re ms :
  forall from,
  apart rmatch re content from ms ->
  StronglySorted findingBefore
    (violations rmatch rule ruleName content filePath ms) /\
  Forall (fun f => exists i,
            from <= i <= length content /\
            Finding.line f
              = Position.line (RuleEngine.getLineAndColumn content i) /\
            Finding.column f
              = Position.column (RuleEngine.getLineAndColumn content i))
         (violations rmatch rule ruleName content filePath ms).
Proof.
  unfold violations.
  induction ms as [|[i len] ms IH]; intros from Hap;
    cbn [flat_map fst snd]; [split; constructor|].
  cbn [apart] in Hap. destruct Hap as (Hi & Hlen & _ & _ & Hrest).
  destruct (IH (i + len) Hrest) as [Hs Hall].
  assert (Hall' : Forall (fun f => exists j,
                     from <= j <= length content /\
                     Finding.line f
                       = Position.line
                           (RuleEngine.getLineAndColumn content j) /\
                     Finding.column f
                       = Position.column
                           (RuleEngine.getLineAndColumn content j))
                    (flat_map
                       (fun m =>
                          if skips rmatch rule (lineOf content (fst m))
                          then []
                          else [violation rule ruleName content filePath
                                  (fst m) (snd m)]) ms)).
  { eapply Forall_impl; [|exact Hall].
    intros f (j & Hj & Hl & Hc). exists j. repeat split; try assumption; lia. }
  destruct (skips rmatch rule (lineOf content i)); cbn [app];
    [split; assumption|].
  split.
  - constructor; [exact Hs|].
    eapply Forall_impl; [|exact Hall].
    intros f (j & Hj & Hl & Hc).
    pose proof (position_lt content i j ltac:(lia) ltac:(lia)) as Hlt.
    unfold findingBefore, positionBefore in *. cbn. rewrite Hl, Hc.
    exact Hlt.
  - constructor; [|exact Hall'].
    exists i. repeat split; lia.
Qed.

Lemma analyzeLoop_concat rs content filePath names :
  forall results fs,
  RuleEngine.analyzeLoop rmatch rs names content filePath results
    = Returns fs <->
  exists vss,
    Forall2 (fun ruleName vs =>
               exists rule,
                 obj_get ruleName rs = Some rule /\
                 RuleEngine.applyRule rmatch rule ruleName content filePath
                 = Returns vs) names vss /\
    fs = results ++ concat vss.
Proof.
  induction names as [|n names IH]; intros results fs;
    cbn [RuleEngine.analyzeLoop].
  - split.
    + intros H; inversion H; subst. exists []. split; [constructor|].
      cbn. now rewrite app_nil_r.
    + intros (vss & Hf & ->). inversion Hf; subst. cbn.
      now rewrite app_nil_r.
  - split.
    + destruct (obj_get n rs) as [rule|] eqn:Er; [|discriminate].
      destruct (RuleEngine.applyRule rmatch rule n content filePath)
        as [vs| |] eqn:Ea; cbn [bind]; try discriminate.
      intros H. apply IH in H as (vss & Hf & ->).
      exists (vs :: vss). split.
      * constructor; [|exact Hf]. now exists rule.
      * cbn. now rewrite app_assoc.
    + intros (vss & Hf & ->).
      inversion Hf as [|n' vs names' vss' (rule & Er & Ea) Hf']; subst.
      rewrite Er, Ea. cbn [bind]. apply IH.
      exists vss'. split; [exact Hf'|]. cbn. now rewrite app_assoc.
Qed.

End RuleTraces.

(** X4. [applyRule] reports the matches of the rule's pattern that the
    scan meets from offset 0: each is the leftmost match at or after the
    end of the one before, none is empty, and one finding is pushed for
    every match whose line is not skipped; the findings are in strictly
    ascending (line, column) order. *)
Theorem applyRule_reports_apart_matches
    (rmatch : RegExp -> text -> nat -> option nat)
    (rule : RuleEngine.Rule) (ruleName : string) (content : text)
    (filePath : string) (re : RegExp) (vs : list Finding.t) :
  RuleEngine.pattern rule = Some re ->
  RuleEngine.applyRule rmatch rule ruleName content filePath = Returns vs ->
  (exists ms,
     apart rmatch re content 0 ms /\
     vs = violations rmatch rule ruleName content filePath ms) /\
  StronglySorted findingBefore vs.
Proof.
  intros Hp Hvs.
  destruct (applyRule_trace rmatch rule ruleName content filePath re vs
              Hp Hvs) as (ms & Hap & ->).
  split; [now exists ms|].
  exact (proj1 (violations_sorted rmatch rule ruleName content filePath re
                  ms 0 Hap)).
Qed.

(** X5. [RuleEngine.analyze] returns exactly when [applyRule] returns for
    every rule of the active set, and then its result is the results of
    the rules one after the other, in the order of the active set. *)
Theorem analyze_rule_by_rule
    (rmatch : RegExp -> text -> nat -> option nat)
    (e : RuleEngine.engine) (content : text) (filePath : string)
    (fs : list Finding.t) :
  RuleEngine.analyze rmatch e content filePath = Returns fs <->
  exists vss,
    Forall2 (fun ruleName vs =>
               exists rule,
                 obj_get ruleName (RuleEngine.rules e) = Some rule /\
                 RuleEngine.applyRule rmatch rule ruleName content filePath
                 = Returns vs)
            (RuleEngine.enabledRules e) vss /\
    fs = concat vss.
Proof.
  unfold RuleEngine.analyze. rewrite analyzeLoop_concat. reflexivity.
Qed.

Lemma applyRule_reports_apart_matches_witness :
  exists rule re vs,
    obj_get "no-var" RuleEngine.defaultRules = Some rule /\
    RuleEngine.pattern rule = Some re /\
    RuleEngine.applyRule JS.jsmatch rule "no-var" twoVars "a.js"
      = Returns vs /\
    map (fun f => (Finding.line f, Finding.column f)) vs = [(1, 1); (1, 12)] /\
    StronglySorted findingBefore vs.
Proof.
  exists (defaultRule "no-var"). do 2 eexists.
  split; [reflexivity|]. split; [reflexivity|].
  split; [vm_compute; reflexivity|]. split; [reflexivity|].
  eapply (applyRule_reports_apart_matches JS.jsmatch (defaultRule "no-var")
            "no-var" twoVars "a.js"%string);
    [reflexivity|vm_compute; reflexivity].
Defined.

(** ** What every finding looks like *)

Lemma apart_In rmatch re s ms : forall from i len,
  apart rmatch re s from ms -> In (i, len) ms ->
  from <= i <= length s /\ rmatch re s i = Some len.
Proof.
  induction ms as [|[i0 l0] ms IH]; intros from i len Hap Hin;
    [destruct Hin|].
  cbn [apart] in Hap. destruct Hap as (Hi & _ & Hm & _ & Hrest).
  destruct Hin as [Heq|Hin].
  - inversion Heq; subst. split; [lia|exact Hm].
  - destruct (IH _ i len Hrest Hin) as [Hr Hm']. split; [lia|exact Hm'].
Qed.

Lemma Forall2_in_concat {A B} (R : A -> list B -> Prop) names vss x :
  Forall2 R names vss -> In x (concat vss) ->
  exists n vs, In n names /\ R n vs /\ In x vs.
Proof.
  induction 1 as [|n vs names vss HR _ IH]; cbn [concat]; [intros []|].
  intros Hin. apply in_app_or in Hin as [Hin|Hin].
  - exists n, vs. repeat split; [now left|exact HR|exact Hin].
  - destruct (IH Hin) as (n' & vs' & Hn & HR' & Hx).
    exists n', vs'. repeat split; [now right|exact HR'|exact Hx].
Qed.

Lemma rule_finding_origin rmatch e content filePath fs f :
  RuleEngine.analyze rmatch e content filePath = Returns fs ->
  In f fs ->
  exists ruleName rule re index len,
    In ruleName (RuleEngine.enabledRules e) /\
    obj_get ruleName (RuleEngine.rules e) = Some rule /\
    RuleEngine.pattern rule = Some re /\
    index <= length content /\
    rmatch re content index = Some len /\
    skips rmatch rule (lineOf content index) = false /\
    f = violation rule ruleName content filePath index len.
Proof.
  unfold RuleEngine.analyze. intros Hfs Hin.
  apply analyzeLoop_concat in Hfs as (vss & Hf2 & ->). cbn [app] in Hin.
  destruct (Forall2_in_concat _ _ _ _ Hf2 Hin)
    as (n & vs & Hn & (rule & Hr & Ha) & Hx).
  destruct (RuleEngine.pattern rule) as [re|] eqn:Hp.
  - destruct (applyRule_trace rmatch rule n content filePath re vs Hp Ha)
      as (ms & Hap & ->).
    unfold violations in Hx. apply in_flat_map in Hx as ([i len] & Hm & Hx).
    cbn [fst snd] in Hx.
    destruct (skips rmatch rule (lineOf content i)) eqn:Hs; [destruct Hx|].
    destruct Hx as [<-|[]].
    destruct (apart_In rmatch re content ms 0 i len Hap Hm) as [Hi Hmatch].
    exists n, rule, re, i, len. repeat split; try assumption; lia.
  - unfold RuleEngine.applyRule in Ha. rewrite Hp in Ha.
    inversion Ha; subst. destruct Hx.
Qed.

(** X6. Every finding that [RuleEngine.analyze] returns has origin
    ['rule'], no confidence and no category, the file path it was called
    with, a line between 1 and the number of lines of the text and a
    column of at least 1; it bears the name of a rule of the active set,
    whose severity and description it copies, and it stands for a match of
    that rule's pattern on a line that is not skipped. *)
Theorem rule_findings_wellformed
    (rmatch : RegExp -> text -> nat -> option nat)
    (e : RuleEngine.engine) (content : text) (filePath : string)
    (fs : list Finding.t) (f : Finding.t) :
  RuleEngine.analyze rmatch e content filePath = Returns fs ->
  In f fs ->
  Finding.type f = "rule"%string /\
  Finding.confidence f = None /\ Finding.category f = None /\
  Finding.file f = filePath /\
  1 <= Finding.line f <= length (split newline content) /\
  1 <= Finding.column f /\
  exists rule re index len,
    In (Finding.rule f) (RuleEngine.enabledRules e) /\
    obj_get (Finding.rule f) (RuleEngine.rules e) = Some rule /\
    Finding.severity f = RuleEngine.severity rule /\
    Finding.message f = RuleEngine.description rule /\
    RuleEngine.pattern rule = Some re /\
    index <= length content /\
    rmatch re content index = Some len /\
    Finding.code f = Some (trim (matched content index len)) /\
    Finding.line f
      = Position.line (RuleEngine.getLineAndColumn content index) /\
    skips rmatch rule (lineOf content index) = false.
Proof.
  intros Hfs Hin.
  destruct (rule_finding_origin rmatch e content filePath fs f Hfs Hin)
    as (n & rule & re & i & len & Hn & Hr & Hp & Hi & Hm & Hs & ->).
  unfold violation. cbv zeta.
  cbn [Finding.type Finding.confidence Finding.category Finding.file
       Finding.line Finding.column Finding.rule Finding.severity
       Finding.message Finding.code].
  repeat split.
  - destruct (position_numbers content i Hi) as [Hl _]. rewrite Hl. lia.
  - pose proof (lineOf_defined content i) as Hd.
    assert (Hlt : Position.line (RuleEngine.getLineAndColumn content i) - 1
                  < length (split newline content))
      by (apply nth_error_Some; congruence).
    destruct (position_numbers content i Hi) as [Hl _]. rewrite Hl in *. lia.
  - unfold RuleEngine.getLineAndColumn. cbn [Position.column]. lia.
  - exists rule, re, i, len. repeat split; try assumption; reflexivity.
Qed.

Lemma rule_findings_wellformed_witness :
  exists f,
    RuleEngine.analyze JS.jsmatch (RuleEngine.new []) markedLog "a.js"
      = Returns [f] /\
    Finding.type f = "rule"%string /\
    Finding.confidence f = None /\
    1 <= Finding.line f <= length (split newline markedLog).
Proof.
  eexists. split; [vm_compute; reflexivity|].
  split; [reflexivity|]. split; [reflexivity|].
  eapply (rule_findings_wellformed JS.jsmatch (RuleEngine.new []) markedLog
            "a.js"%string); [vm_compute; reflexivity|left; reflexivity].
Defined.

(** X7. [MLAnalyzer.analyze] never returns more than
    [maxWarningsPerFile] findings, and every finding it returns has
    origin ['ml'], no code snippet, the file path it was called with, a
    line between 1 and the number of lines of the text, a column of at
    least 1, the name of a category of the model, and the identifier,
    message and suggestion of one of that category's detectors. *)
Theorem ml_findings_wellformed
    (rmatch : RegExp -> text -> nat -> option nat)
    (this : MLAnalyzer.analyzer) (content : text) (filePath : string)
    (fs : list Finding.t) :
  MLAnalyzer.analyze rmatch this content filePath = Returns fs ->
  length fs <= MLAnalyzer.Config.maxWarningsPerFile (MLAnalyzer.config this)
  /\
  forall f, In f fs ->
    Finding.type f = "ml"%string /\ Finding.code f = None /\
    Finding.file f = filePath /\
    1 <= Finding.line f <= length (split newline content) /\
    1 <= Finding.column f /\
    exists model category categoryConfig pattern,
      MLAnalyzer.model this = Some model /\
      In (category, categoryConfig) (MLAnalyzer.Model.patterns model) /\
      In pattern (MLAnalyzer.Category.patterns categoryConfig) /\
      Finding.category f = Some category /\
      Finding.rule f
        = (category ++ "-" ++ MLAnalyzer.Detector.type pattern)%string /\
      Finding.message f = Some (MLAnalyzer.Detector.message pattern) /\
      Finding.suggestion f
        = Some (MLAnalyzer.getMLSuggestion category
                  (MLAnalyzer.Detector.type pattern)).
Proof.
  intros Hfs.
  apply analyze_returns_inv in Hfs as [->|(model & raws & Hm & Hr & ->)].
  - split; [cbn; lia|intros f []].
  - split; [rewrite length_firstn; lia|].
    intros f Hin. apply In_firstn in Hin.
    apply (emitted_inv rmatch this filePath
             (MLAnalyzer.Model.patterns model) content raws f
             (rawOfCategories_ok rmatch content _ raws Hr)) in Hin
      as (r & _ & (Hcat & Hdet & Hok) & -> & _).
    destruct Hok as (i & len & lineContent & Hi & _ & _ & Hl & Hc & Hline
                     & _).
    unfold rawFinding, MLAnalyzer.finding. cbn.
    destruct (position_numbers content i Hi) as [Hln Hcol].
    change (RuleEngine.getLineAndColumn content i)
      with (MLAnalyzer.getLineAndColumn content i) in Hln, Hcol.
    assert (Hlt : MLAnalyzer.Match.line (Raw.found r) - 1
                  < length (split newline content))
      by (apply nth_error_Some; congruence).
    repeat split; try lia.
    + rewrite Hc. unfold MLAnalyzer.getLineAndColumn.
      cbn [Position.column]. lia.
    + exists model, (Raw.category r), (Raw.categoryConfig r),
        (Raw.detector r). repeat split; assumption.
Qed.

Lemma ml_findings_wellformed_witness :
  exists fs,
    MLAnalyzer.analyze JS.jsmatch (analyzerWith 0.5 2) threeComparisons "a.js"
      = Returns fs /\
    length fs = 2 /\
    length fs <= MLAnalyzer.Config.maxWarningsPerFile
                   (MLAnalyzer.config (analyzerWith 0.5 2)).
Proof.
  eexists. split; [vm_compute; reflexivity|]. split; [reflexivity|].
  eapply (ml_findings_wellformed JS.jsmatch (analyzerWith 0.5 2)
            threeComparisons "a.js"%string). vm_compute; reflexivity.
Defined.

(** ** The rule table: merging, enabling, adding *)

Lemma created_set {A} k (v : A) o :
  created (obj_set k v o)
  = created o ++ (if existsb (String.eqb k) (created o) then [] else [k]).
Proof.
  destruct (obj_get k o) as [v0|] eqn:E.
  - rewrite (created_set_present k v v0 o E).
    destruct (existsb (String.eqb k) (created o)) eqn:Ex;
      [now rewrite app_nil_r|].
    apply obj_get_None_created in Ex. congruence.
  - rewrite (created_set_absent k v o E).
    now rewrite (proj1 (obj_get_None_created k o) E).
Qed.

Lemma spread_lookup {A} k (b : obj A) :
  NoDup (keys b) ->
  forall a,
  obj_get k (spread a b)
  = match obj_get k b with
    | Some v => Some v
    | None => obj_get k a
    end.
Proof.
  intros Hnd. apply (proj1 (NoDup_listed (created b))) in Hnd.
  revert Hnd. unfold spread.
  induction b as [|[k1 v1] b IH]; intros Hnd a; cbn [fold_left fst snd];
    [reflexivity|].
  cbn [created map fst] in Hnd. inversion Hnd as [|? ? Hnotin Hnd']; subst.
  rewrite (IH Hnd'). cbn [obj_get].
  destruct (String.eqb_spec k1 k) as [->|Hne].
  - assert (Hk : obj_get k b = None).
    { apply obj_get_None_created. destruct (existsb _ (created b)) eqn:Ex;
        [|reflexivity].
      apply existsb_exists in Ex as (x & Hx & Heq).
      apply String.eqb_eq in Heq. subst x. contradiction. }
    rewrite Hk. apply obj_get_set_same.
  - destruct (obj_get k b); [reflexivity|].
    apply obj_get_set_other. congruence.
Qed.

(** A spread creates the new keys after those of its first operand. *)
Lemma spread_created {A} (b : obj A) :
  forall a,
  exists extra,
    created (spread a b) = created a ++ extra /\
    forall k, In k extra -> In k (created b).
Proof.
  unfold spread. induction b as [|[k1 v1] b IH]; intros a;
    cbn [fold_left fst snd].
  - exists []. split; [now rewrite app_nil_r|intros k []].
  - destruct (IH (obj_set k1 v1 a)) as (extra & He & Hin).
    rewrite He, created_set.
    exists ((if existsb (String.eqb k1) (created a) then [] else [k1])
            ++ extra).
    split; [now rewrite <- app_assoc|].
    intros k Hk. cbn [created map fst]. apply in_app_or in Hk as [Hk|Hk].
    + destruct (existsb (String.eqb k1) (created a)); [destruct Hk|].
      destruct Hk as [<-|[]]. now left.
    + right. now apply Hin.
Qed.

Lemma filter_none {A} (p : A -> bool) l :
  (forall x, In x l -> p x = false) -> filter p l = [].
Proof.
  induction l as [|x l IH]; intros H; cbn [filter]; [reflexivity|].
  rewrite (H x (or_introl eq_refl)). apply IH. intros y Hy. apply H.
  now right.
Qed.

Lemma filter_all {A} (p : A -> bool) l :
  (forall x, In x l -> p x = true) -> filter p l = l.
Proof.
  induction l as [|x l IH]; intros H; cbn [filter]; [reflexivity|].
  rewrite (H x (or_introl eq_refl)). f_equal. apply IH. intros y Hy.
  apply H. now right.
Qed.

(** X8. The constructor merges the rule table entry by entry, not field
    by field: a custom entry replaces the default rule of the same name
    as a whole, and a default rule without a custom entry is kept.  The
    table lists first the new custom names that are array indices, in
    ascending order, then the default names, then the other new custom
    names: when no custom name is an array index, the default names keep
    their places at the head of the table.  A custom entry without a
    pattern silences the default rule whose name it bears. *)
Theorem initializeRules_replaces_whole_rules
    (rmatch : RegExp -> text -> nat -> option nat)
    (customRules : obj RuleEngine.Rule) :
  NoDup (keys customRules) ->
  (forall ruleName,
     obj_get ruleName (RuleEngine.rules (RuleEngine.new customRules))
     = match obj_get ruleName customRules with
       | Some rule => Some rule
       | None => obj_get ruleName RuleEngine.defaultRules
       end) /\
  (exists extra,
     (forall k, In k extra -> In k (keys customRules)) /\
     keys (RuleEngine.rules (RuleEngine.new customRules))
     = sortIndices (filter arrayIndex extra)
       ++ keys RuleEngine.defaultRules
       ++ filter (fun k => negb (arrayIndex k)) extra) /\
  (forallb (fun k => negb (arrayIndex k)) (keys customRules) = true ->
   exists extra,
     keys (RuleEngine.rules (RuleEngine.new customRules))
     = keys RuleEngine.defaultRules ++ extra) /\
  (forall ruleName rule content filePath fs f,
     obj_get ruleName customRules = Some rule ->
     RuleEngine.pattern rule = None ->
     RuleEngine.analyze rmatch (RuleEngine.new customRules) content filePath
       = Returns fs ->
     In f fs ->
     Finding.rule f <> ruleName).
Proof.
  intros Hnd.
  assert (Hget : forall ruleName,
             obj_get ruleName (RuleEngine.rules (RuleEngine.new customRules))
             = match obj_get ruleName customRules with
               | Some rule => Some rule
               | None => obj_get ruleName RuleEngine.defaultRules
               end).
  { intros ruleName. cbn [RuleEngine.new RuleEngine.rules].
    unfold RuleEngine.initializeRules. now apply spread_lookup. }
  assert (Hkeys : exists extra,
             (forall k, In k extra -> In k (keys customRules)) /\
             keys (RuleEngine.rules (RuleEngine.new customRules))
             = sortIndices (filter arrayIndex extra)
               ++ keys RuleEngine.defaultRules
               ++ filter (fun k => negb (arrayIndex k)) extra).
  { cbn [RuleEngine.new RuleEngine.rules]. unfold RuleEngine.initializeRules.
    destruct (spread_created customRules RuleEngine.defaultRules)
      as (extra & He & Hin).
    exists extra. split; [intros k Hk; apply In_listed; now apply Hin|].
    unfold keys at 1. rewrite He. unfold listed. rewrite !filter_app.
    change (filter arrayIndex (created RuleEngine.defaultRules))
      with (@nil string).
    change (filter (fun k => negb (arrayIndex k))
              (created RuleEngine.defaultRules))
      with (keys RuleEngine.defaultRules).
    reflexivity. }
  split; [exact Hget|]. split; [exact Hkeys|]. split.
  - intros Hplain. destruct Hkeys as (extra & Hin & ->).
    rewrite forallb_forall in Hplain.
    exists extra. rewrite filter_none, filter_all; [reflexivity| |].
    + intros k Hk. now apply Hplain, Hin.
    + intros k Hk. apply negb_true_iff. now apply Hplain, Hin.
  - intros ruleName rule content filePath fs f Hc Hp Hfs Hin Heq.
    destruct (rule_finding_origin rmatch _ content filePath fs f Hfs Hin)
      as (n & rule' & re & i & len & _ & Hr & Hp' & _ & _ & _ & ->).
    cbn [violation Finding.rule] in Heq. subst n.
    rewrite Hget, Hc in Hr. inversion Hr; subst rule'. congruence.
Qed.

Lemma initializeRules_replaces_whole_rules_witness :
  NoDup (keys [("no-console-log"%string, configEntry)]) /\
  (exists rule re len,
     obj_get "no-console-log" RuleEngine.defaultRules = Some rule /\
     RuleEngine.pattern rule = Some re /\
     JS.jsmatch re (lit "console.log(1)") 0 = Some len) /\
  obj_get "no-console-log"
    (RuleEngine.rules (RuleEngine.new [("no-console-log"%string, configEntry)]))
  = Some configEntry /\
  RuleEngine.analyze JS.jsmatch
    (RuleEngine.new [("no-console-log"%string, configEntry)])
    (lit "console.log(1)") "a.js" = Returns [].
Proof.
  assert (Hnd : NoDup (keys [("no-console-log"%string, configEntry)]))
    by (repeat constructor; intros []).
  split; [exact Hnd|]. split.
  - exists (defaultRule "no-console-log"). do 2 eexists.
    split; [reflexivity|]. split; [reflexivity|]. vm_compute; reflexivity.
  - split; [|vm_compute; reflexivity].
    rewrite (proj1 (initializeRules_replaces_whole_rules JS.jsmatch
                      [("no-console-log"%string, configEntry)] Hnd)).
    reflexivity.
Defined.

(** A custom rule called [7] is listed before the default rules, one
    called [no-todo] after them. *)
Example index_names_come_first :
  keys (RuleEngine.rules
          (RuleEngine.new [("no-todo"%string, noTodo); ("7"%string, noTodo)]))
  = ["7"%string] ++ keys RuleEngine.defaultRules ++ ["no-todo"%string].
Proof. vm_compute. reflexivity. Qed.

Lemma getEnabledRules_set rules ruleName r r' other :
  obj_get ruleName rules = Some r ->
  other <> ruleName ->
  (In other (RuleEngine.getEnabledRules (obj_set ruleName r' rules)) <->
   In other (RuleEngine.getEnabledRules rules)).
Proof.
  intros Hr Hne. rewrite !getEnabledRules_spec.
  now rewrite (obj_get_set_other ruleName other r' rules Hne).
Qed.

(** X9. [setRuleEnabled] on a rule of the table puts the rule in the
    active set exactly when the value given is not [false], leaves every
    other rule in or out as it was, and keeps the rule's other attributes
    and the order of the table; after [setRuleEnabled(name, false)] no
    finding bears that name.  On a name that is not in the table, and is
    not [__proto__], it leaves the engine as it was (under a name that
    every object inherits, the value given goes to the function that the
    table inherits under that name). *)
Theorem setRuleEnabled_toggles_one_rule
    (rmatch : RegExp -> text -> nat -> option nat)
    (e : RuleEngine.engine) (ruleName : string) (v : jsval) :
  inStep e ->
  match obj_get ruleName (RuleEngine.rules e) with
  | None =>
      ruleName <> "__proto__"%string ->
      RuleEngine.setRuleEnabled e ruleName v = Some e
  | Some r =>
      exists e',
        RuleEngine.setRuleEnabled e ruleName v = Some e' /\
        (In ruleName (RuleEngine.enabledRules e') <-> notFalse v = true) /\
        (forall other, other <> ruleName ->
           (In other (RuleEngine.enabledRules e') <->
            In other (RuleEngine.enabledRules e))) /\
        keys (RuleEngine.rules e') = keys (RuleEngine.rules e) /\
        (exists r', obj_get ruleName (RuleEngine.rules e') = Some r' /\
                    RuleEngine.enabled r' = Some v /\
                    RuleEngine.pattern r' = RuleEngine.pattern r /\
                    RuleEngine.severity r' = RuleEngine.severity r /\
                    RuleEngine.description r' = RuleEngine.description r /\
                    RuleEngine.exclude r' = RuleEngine.exclude r) /\
        (v = JBool false ->
         forall content filePath fs f,
           RuleEngine.analyze rmatch e' content filePath = Returns fs ->
           In f fs -> Finding.rule f <> ruleName)
  end.
Proof.
  intros He. unfold RuleEngine.setRuleEnabled.
  destruct (obj_get ruleName (RuleEngine.rules e)) as [r|] eqn:Hr.
  2:{ intros Hne.
      destruct (String.eqb_spec ruleName "__proto__"); [contradiction|].
      destruct (inherited ruleName); [|reflexivity].
      destruct e as [rs active]. unfold inStep in He.
      cbn [RuleEngine.rules RuleEngine.enabledRules] in *. now rewrite He. }
  eexists. split; [reflexivity|].
  cbn [RuleEngine.rules RuleEngine.enabledRules].
  set (r' := {| RuleEngine.name := RuleEngine.name r;
                RuleEngine.enabled := Some v;
                RuleEngine.severity := RuleEngine.severity r;
                RuleEngine.description := RuleEngine.description r;
                RuleEngine.pattern := RuleEngine.pattern r;
                RuleEngine.exclude := RuleEngine.exclude r |}).
  assert (Hin : In ruleName
                   (RuleEngine.getEnabledRules
                      (obj_set ruleName r' (RuleEngine.rules e)))
                <-> notFalse v = true).
  { rewrite getEnabledRules_spec, obj_get_set_same. split.
    - intros (x & Hx & Hon). inversion Hx; subst x. exact Hon.
    - intros Hon. now exists r'. }
  split; [exact Hin|]. split; [|split; [|split]].
  - intros other Hne. rewrite He.
    exact (getEnabledRules_set _ ruleName r r' other Hr Hne).
  - exact (keys_set_present ruleName r' r _ Hr).
  - exists r'. rewrite obj_get_set_same. repeat split.
  - intros -> content filePath fs f Hfs Hf Heq.
    destruct (analyze_ok rmatch _ content filePath fs f Hfs Hf) as [Hact _].
    cbn [RuleEngine.enabledRules] in Hact. rewrite Heq in Hact.
    apply Hin in Hact. discriminate.
Qed.

Lemma setRuleEnabled_toggles_one_rule_witness :
  inStep (RuleEngine.new []) /\
  In "no-eval"%string (RuleEngine.enabledRules (RuleEngine.new [])) /\
  (exists e',
     RuleEngine.setRuleEnabled (RuleEngine.new []) "no-eval" (JBool false)
       = Some e' /\
     ~ In "no-eval"%string (RuleEngine.enabledRules e')) /\
  RuleEngine.setRuleEnabled (RuleEngine.new []) "constructor" (JBool false)
    = Some (RuleEngine.new []).
Proof.
  split; [apply inStep_new|]. split; [vm_compute; tauto|]. split.
  - pose proof (setRuleEnabled_toggles_one_rule JS.jsmatch (RuleEngine.new [])
                  "no-eval" (JBool false) (inStep_new [])) as H.
    change (obj_get "no-eval" (RuleEngine.rules (RuleEngine.new [])))
      with (Some (defaultRule "no-eval")) in H.
    destruct H as (e' & He' & H & _). exists e'. split; [exact He'|].
    intros Hin. apply H in Hin. discriminate.
  - pose proof (setRuleEnabled_toggles_one_rule JS.jsmatch (RuleEngine.new [])
                  "constructor" (JBool false) (inStep_new [])) as H.
    change (obj_get "constructor" (RuleEngine.rules (RuleEngine.new [])))
      with (@None RuleEngine.Rule) in H.
    apply H. discriminate.
Defined.

(** X10. [addRule], under a name other than [__proto__], stores the rule
    under its name with the defaults [name], [enabled: true] and
    [severity: 'warning'] for the attributes the configuration leaves
    out; every other rule is untouched; a name already in the table keeps
    its place, and a new name that is not an array index goes last; and
    the rule is in the active set unless its configuration says
    [enabled: false]. *)
Theorem addRule_stores_with_defaults
    (e : RuleEngine.engine) (ruleName : string)
    (ruleConfig : RuleEngine.Rule) :
  ruleName <> "__proto__"%string ->
  exists e',
    RuleEngine.addRule e ruleName ruleConfig = Some e' /\
    (exists r,
       obj_get ruleName (RuleEngine.rules e') = Some r /\
       RuleEngine.name r
         = Some (match RuleEngine.name ruleConfig with
                 | Some n => n | None => ruleName end) /\
       RuleEngine.enabled r
         = Some (match RuleEngine.enabled ruleConfig with
                 | Some v => v | None => JBool true end) /\
       RuleEngine.severity r
         = Some (match RuleEngine.severity ruleConfig with
                 | Some s => s | None => "warning"%string end) /\
       RuleEngine.description r = RuleEngine.description ruleConfig /\
       RuleEngine.pattern r = RuleEngine.pattern ruleConfig /\
       RuleEngine.exclude r = RuleEngine.exclude ruleConfig) /\
    (forall other, other <> ruleName ->
       obj_get other (RuleEngine.rules e')
       = obj_get other (RuleEngine.rules e)) /\
    (forall k, In k (keys (RuleEngine.rules e')) <->
               k = ruleName \/ In k (keys (RuleEngine.rules e))) /\
    (obj_get ruleName (RuleEngine.rules e) <> None ->
     keys (RuleEngine.rules e') = keys (RuleEngine.rules e)) /\
    (arrayIndex ruleName = false ->
     keys (RuleEngine.rules e')
     = keys (RuleEngine.rules e)
       ++ (if existsb (String.eqb ruleName) (keys (RuleEngine.rules e))
           then [] else [ruleName])) /\
    (In ruleName (RuleEngine.enabledRules e') <->
     RuleEngine.enabled ruleConfig <> Some (JBool false)).
Proof.
  intros Hne.
  destruct (addRule_returns e ruleName ruleConfig Hne) as [e' He'].
  exists e'. split; [exact He'|].
  apply addRule_Some in He'. subst e'.
  cbn [engineOf RuleEngine.rules RuleEngine.enabledRules].
  split; [|split; [|split; [|split; [|split]]]].
  - eexists. split; [apply obj_get_set_same|].
    cbn [RuleEngine.name RuleEngine.enabled RuleEngine.severity
         RuleEngine.description RuleEngine.pattern RuleEngine.exclude].
    unfold RuleEngine.orDefault.
    destruct (RuleEngine.name ruleConfig), (RuleEngine.enabled ruleConfig),
      (RuleEngine.severity ruleConfig); repeat split.
  - intros other Hother. now apply obj_get_set_other.
  - intros k. unfold keys. rewrite !In_listed, created_set, in_app_iff.
    destruct (existsb (String.eqb ruleName) (created (RuleEngine.rules e)))
      eqn:Ex; cbn [In].
    + apply existsb_exists in Ex as (x & Hx & Heq).
      apply String.eqb_eq in Heq. subst x.
      split; [intros [H|[]]; now right|intros [->|H]; now left].
    + split; [intros [H|[<-|[]]]; [now right|now left]
             |intros [->|H]; [right; now left|now left]].
  - intros Hown. destruct (obj_get ruleName (RuleEngine.rules e)) as [r|] eqn:Hr;
      [|congruence].
    exact (keys_set_present ruleName _ r _ Hr).
  - intros Hidx. now apply keys_set.
  - rewrite getEnabledRules_spec, obj_get_set_same. split.
    + intros (r & Hr & Hon) Hoff. inversion Hr; subst r.
      unfold RuleEngine.isEnabled in Hon. cbn [RuleEngine.enabled] in Hon.
      rewrite Hoff in Hon. discriminate.
    + intros Hnf. eexists. split; [reflexivity|].
      apply isEnabled_not_false. cbn [RuleEngine.enabled].
      destruct (RuleEngine.enabled ruleConfig); cbn; [exact Hnf|discriminate].
Qed.

(** ** The code fixer: lines *)

Lemma join_cons sep l l0 ls :
  join sep (l :: l0 :: ls) = l ++ sep :: join sep (l0 :: ls).
Proof. reflexivity. Qed.

Lemma join_split sep s : join sep (split sep s) = s.
Proof.
  induction s as [|c s IH]; [reflexivity|].
  cbn [split]. destruct (Ascii.eqb_spec c sep) as [->|Hne].
  - pose proof (split_nonempty sep s) as Hn.
    destruct (split sep s) as [|l ls] eqn:E; [contradiction|].
    rewrite join_cons. cbn [app]. now rewrite IH.
  - destruct (split sep s) as [|l [|l0 ls]] eqn:E.
    + now destruct (split_nonempty sep s).
    + cbn [join] in *. now rewrite IH.
    + rewrite join_cons in *. cbn [app]. now rewrite IH.
Qed.

Lemma split_app_sep sep l s :
  ~ In sep l -> split sep (l ++ sep :: s) = l :: split sep s.
Proof.
  induction l as [|c l IH]; intros Hl; cbn [app split].
  - now rewrite Ascii.eqb_refl.
  - destruct (Ascii.eqb_spec c sep) as [->|Hne]; [destruct Hl; now left|].
    rewrite IH; [reflexivity|]. intros H. apply Hl. now right.
Qed.

Lemma split_plain sep l : ~ In sep l -> split sep l = [l].
Proof.
  induction l as [|c l IH]; intros Hl; cbn [split]; [reflexivity|].
  destruct (Ascii.eqb_spec c sep) as [->|Hne]; [destruct Hl; now left|].
  rewrite IH; [reflexivity|]. intros H. apply Hl. now right.
Qed.

Lemma split_join sep ls :
  ls <> [] -> Forall (fun l => ~ In sep l) ls ->
  split sep (join sep ls) = ls.
Proof.
  induction ls as [|l ls IH]; intros Hne Hall; [congruence|].
  inversion Hall as [|? ? Hl Hls]; subst.
  destruct ls as [|l0 ls].
  - cbn [join]. now apply split_plain.
  - rewrite join_cons, split_app_sep by assumption.
    f_equal. apply IH; [discriminate|assumption].
Qed.

Lemma split_pieces sep s : Forall (fun l => ~ In sep l) (split sep s).
Proof.
  induction s as [|c s IH]; cbn [split].
  - constructor; [intros []|constructor].
  - destruct (Ascii.eqb_spec c sep) as [->|Hne].
    + constructor; [intros []|exact IH].
    + destruct (split sep s) as [|l ls]; [constructor; [|constructor]|].
      * intros [H|[]]. congruence.
      * inversion IH as [|? ? Hl Hls]; subst. constructor; [|exact Hls].
        intros [H|H]; [congruence|contradiction].
Qed.

Lemma update_length {A} (l : list A) i v : length (update l i v) = length l.
Proof.
  revert i. induction l as [|x l IH]; intros [|i]; cbn [update length];
    try reflexivity. now rewrite IH.
Qed.

Lemma update_nth_same {A} (l : list A) i v d :
  i < length l -> nth i (update l i v) d = v.
Proof.
  revert i. induction l as [|x l IH]; intros [|i] Hi; cbn [length] in Hi;
    cbn [update nth]; try lia; [reflexivity|]. apply IH. lia.
Qed.

Lemma update_nth_other {A} (l : list A) i k v d :
  k <> i -> nth k (update l i v) d = nth k l d.
Proof.
  revert i k. induction l as [|x l IH]; intros [|i] [|k] Hk;
    cbn [update nth]; try reflexivity; try congruence.
  apply IH. congruence.
Qed.

Lemma update_self {A} (l : list A) i d : update l i (nth i l d) = l.
Proof.
  revert i. induction l as [|x l IH]; intros [|i]; cbn [update nth];
    try reflexivity. now rewrite IH.
Qed.

Lemma update_Forall {A} (P : A -> Prop) (l : list A) i v :
  Forall P l -> P v -> Forall P (update l i v).
Proof.
  intros Hl Hv. revert i.
  induction Hl as [|x l Hx Hl IH]; intros [|i]; cbn [update];
    constructor; auto.
Qed.

Lemma update_nonempty {A} (l : list A) i v : l <> [] -> update l i v <> [].
Proof. destruct l, i; cbn [update]; congruence. Qed.

Lemma text_eqb_eq a b : text_eqb a b = true <-> a = b.
Proof.
  unfold text_eqb. destruct (list_eq_dec ascii_dec a b); split;
    congruence.
Qed.

Lemma nth_Forall {A} (P : A -> Prop) (l : list A) i d :
  Forall P l -> P d -> P (nth i l d).
Proof.
  intros Hl Hd. revert i.
  induction Hl as [|x l Hx Hl IH]; intros [|i]; cbn [nth]; auto.
Qed.

Lemma not_in_firstn_skipn sep (l : text) a b :
  ~ In sep l -> ~ In sep (firstn a l ++ skipn b l).
Proof.
  intros Hl Hin. apply in_app_or in Hin as [H|H].
  - apply Hl. revert H. apply In_firstn.
  - apply Hl. clear Hl. revert l H.
    induction b as [|b IH]; intros [|c l] H; cbn [skipn] in *; auto.
    right. now apply IH.
Qed.

Lemma skipn_In' {A} (x : A) n l : In x (skipn n l) -> In x l.
Proof.
  revert l. induction n as [|n IH]; intros [|c l] H; cbn [skipn] in *; auto.
  right. now apply IH.
Qed.

Lemma updated_lines content i l :
  ~ In newline l ->
  split newline (join newline (update (split newline content) i l))
  = update (split newline content) i l.
Proof.
  intros Hl. apply split_join.
  - apply update_nonempty, split_nonempty.
  - apply update_Forall; [apply split_pieces|exact Hl].
Qed.

Lemma line_plain content i : ~ In newline (nth i (split newline content) []).
Proof.
  apply (nth_Forall (fun l => ~ In newline l));
    [apply split_pieces|intros []].
Qed.

Lemma replaceFirst_plain rmatch re (l : text) sep :
  ~ In sep l -> ~ In sep (replaceFirst rmatch re l []).
Proof.
  intros Hl. unfold replaceFirst.
  destruct (search rmatch re l 0 (length l)) as [[i len]|]; [|exact Hl].
  cbn [app]. now apply not_in_firstn_skipn.
Qed.

Lemma isFixable_new rmatch ruleName :
  CodeFixer.isFixable (CodeFixer.new rmatch) ruleName
  = match obj_get ruleName (CodeFixer.fixers (CodeFixer.new rmatch)) with
    | Some _ => true
    | None => false
    end.
Proof.
  unfold CodeFixer.isFixable, CodeFixer.new.
  cbn [CodeFixer.fixableRules CodeFixer.fixers existsb obj_get].
  rewrite !(String.eqb_sym ruleName).
  repeat match goal with
         | |- context [String.eqb ?a ?b] => destruct (String.eqb a b)
         end; reflexivity.
Qed.

(** The three fixers and the fallback of [applyFix], by the rule of the
    finding. *)
Lemma applyFix_new rmatch result content :
  CodeFixer.applyFix (CodeFixer.new rmatch) result (Some content)
  = Returns
      (if String.eqb "no-trailing-spaces" (Finding.rule result)
       then CodeFixer.Result
              (CodeFixer.fixTrailingSpaces rmatch result content)
       else if String.eqb "no-multiple-empty-lines" (Finding.rule result)
       then CodeFixer.Result
              (CodeFixer.fixMultipleEmptyLines rmatch result content)
       else if String.eqb "no-mixed-spaces-and-tabs" (Finding.rule result)
       then CodeFixer.Result
              (CodeFixer.fixMixedSpacesAndTabs rmatch result content)
       else if inherited (Finding.rule result)
       then CodeFixer.callInherited (Finding.rule result) (Some content)
       else CodeFixer.Result
              {| CodeFixer.fixed := false; CodeFixer.content := content |}).
Proof.
  unfold CodeFixer.applyFix, CodeFixer.new, CodeFixer.onText.
  cbn [CodeFixer.fixers obj_get CodeFixer.unfixed].
  destruct (String.eqb "no-trailing-spaces" (Finding.rule result));
    [reflexivity|].
  destruct (String.eqb "no-multiple-empty-lines" (Finding.rule result));
    [reflexivity|].
  destruct (String.eqb "no-mixed-spaces-and-tabs" (Finding.rule result));
    [reflexivity|].
  destruct (inherited (Finding.rule result)); reflexivity.
Qed.

(** The names of the three fixers are not inherited names. *)
Lemma fixable_new_plain rmatch ruleName :
  CodeFixer.isFixable (CodeFixer.new rmatch) ruleName = true ->
  inherited ruleName = false.
Proof.
  unfold CodeFixer.isFixable, CodeFixer.new.
  cbn [CodeFixer.fixableRules existsb]. intros H.
  repeat (apply orb_true_iff in H as [H|H];
          [apply String.eqb_eq in H; subst ruleName; reflexivity|]).
  discriminate.
Qed.

(** What the call of an inherited value hands back is never a fix result
    that reports a fix. *)
Lemma callInherited_unfixed k content (r : CodeFixer.FixResult) :
  CodeFixer.callInherited k (Some content) = CodeFixer.Result r ->
  r = {| CodeFixer.fixed := false; CodeFixer.content := content |}.
Proof.
  unfold CodeFixer.callInherited, CodeFixer.unfixed.
  repeat match goal with
         | |- context [if ?b then _ else _] => destruct b
         end; intros H; inversion H; reflexivity.
Qed.

(** X11. The fixer as constructed always answers.  For a finding whose
    rule is not a name that every object inherits, the answer is a fix
    result; when it reports that nothing was fixed, the content it returns
    is the content it was given; it fixes nothing for a rule that is not
    fixable, and the two line fixers fix nothing for a line number outside
    the content.  For a finding whose rule is an inherited name, the answer
    is what the inherited function returns: under [constructor] the finding
    itself, under [valueOf] the fixer, under [__lookupGetter__]
    [undefined], none of which has [fixed] or [content]; and whenever it is
    a fix result, it is the content unfixed. *)
Theorem applyFix_unfixed_keeps_content
    (rmatch : RegExp -> text -> nat -> option nat)
    (result : Finding.t) (content : text) :
  (inherited (Finding.rule result) = false ->
   exists r : CodeFixer.FixResult,
     CodeFixer.applyFix (CodeFixer.new rmatch) result (Some content)
     = Returns (CodeFixer.Result r) /\
     (CodeFixer.fixed r = false -> CodeFixer.content r = content) /\
     (CodeFixer.isFixable (CodeFixer.new rmatch) (Finding.rule result) = false
      -> CodeFixer.fixed r = false) /\
     (Finding.rule result <> "no-multiple-empty-lines"%string ->
      Finding.line result = 0 \/
      length (split newline content) < Finding.line result ->
      CodeFixer.fixed r = false)) /\
  (inherited (Finding.rule result) = true ->
   exists a,
     CodeFixer.applyFix (CodeFixer.new rmatch) result (Some content)
     = Returns a /\
     (Finding.rule result = "constructor"%string ->
      a = CodeFixer.TheFinding) /\
     (Finding.rule result = "valueOf"%string -> a = CodeFixer.TheFixer) /\
     (Finding.rule result = "__lookupGetter__"%string ->
      a = CodeFixer.Undefined) /\
     (forall r : CodeFixer.FixResult,
        a = CodeFixer.Result r ->
        r = {| CodeFixer.fixed := false; CodeFixer.content := content |})).
Proof.
  split.
  2:{ intros Hin.
      exists (CodeFixer.callInherited (Finding.rule result) (Some content)).
      split.
      - rewrite applyFix_new, Hin.
        destruct (String.eqb_spec "no-trailing-spaces" (Finding.rule result))
          as [E|_]; [rewrite <- E in Hin; discriminate|].
        destruct (String.eqb_spec "no-multiple-empty-lines"
                    (Finding.rule result))
          as [E|_]; [rewrite <- E in Hin; discriminate|].
        destruct (String.eqb_spec "no-mixed-spaces-and-tabs"
                    (Finding.rule result))
          as [E|_]; [rewrite <- E in Hin; discriminate|].
        reflexivity.
      - split; [intros ->; reflexivity|]. split; [intros ->; reflexivity|].
        split; [intros ->; reflexivity|].
        intros r. apply callInherited_unfixed. }
  intros Hplain.
  rewrite applyFix_new, isFixable_new, Hplain.
  exists (if String.eqb "no-trailing-spaces" (Finding.rule result)
          then CodeFixer.fixTrailingSpaces rmatch result content
          else if String.eqb "no-multiple-empty-lines" (Finding.rule result)
          then CodeFixer.fixMultipleEmptyLines rmatch result content
          else if String.eqb "no-mixed-spaces-and-tabs" (Finding.rule result)
          then CodeFixer.fixMixedSpacesAndTabs rmatch result content
          else {| CodeFixer.fixed := false; CodeFixer.content := content |}).
  split.
  { repeat match goal with
           | |- context [String.eqb ?a ?b] => destruct (String.eqb a b)
           end; reflexivity. }
  unfold CodeFixer.new. cbn [CodeFixer.fixers obj_get].
  assert (Hout : Finding.line result = 0 \/
                 length (split newline content) < Finding.line result ->
                 CodeFixer.onLine result (split newline content) = false).
  { intros H. unfold CodeFixer.onLine.
    destruct (Nat.ltb_spec 0 (Finding.line result)); [|reflexivity].
    destruct (Nat.leb_spec (Finding.line result)
                (length (split newline content))); [lia|reflexivity]. }
  destruct (String.eqb_spec "no-trailing-spaces" (Finding.rule result))
    as [E1|E1];
    [|destruct (String.eqb_spec "no-multiple-empty-lines"
                  (Finding.rule result)) as [E2|E2];
      [|destruct (String.eqb_spec "no-mixed-spaces-and-tabs"
                   (Finding.rule result)) as [E3|E3]]].
  - unfold CodeFixer.fixTrailingSpaces. cbv zeta.
    destruct (CodeFixer.onLine result (split newline content)) eqn:Eon.
    + destruct (negb _); cbn [CodeFixer.fixed CodeFixer.content];
        (split; [intros; try discriminate; apply join_split|]);
        (split; [discriminate|]); intros _ H; apply Hout in H; discriminate.
    + cbn [CodeFixer.fixed CodeFixer.content].
      split; [intros; apply join_split|]. split; reflexivity.
  - unfold CodeFixer.fixMultipleEmptyLines.
    cbn [CodeFixer.fixed CodeFixer.content].
    split; [|split; [discriminate|congruence]].
    intros H. apply negb_false_iff in H. now apply text_eqb_eq.
  - unfold CodeFixer.fixMixedSpacesAndTabs. cbv zeta.
    destruct (CodeFixer.onLine result (split newline content)) eqn:Eon.
    + destruct (search _ _ _ _ _) as [[[|i] len]|];
        try destruct (0 <? _); cbn [CodeFixer.fixed CodeFixer.content];
        (split; [intros; try discriminate; apply join_split|]);
        (split; [discriminate|]); intros _ H; apply Hout in H; discriminate.
    + cbn [CodeFixer.fixed CodeFixer.content].
      split; [intros; apply join_split|]. split; reflexivity.
  - cbn [CodeFixer.fixed CodeFixer.content]. repeat split.
Qed.

(** X12. The fixes of trailing blanks and of mixed indentation keep the
    number of lines and every line but the one of the finding, so the
    line numbers of the findings that remain still point at their
    lines. *)
Theorem line_fixes_keep_the_other_lines
    (rmatch : RegExp -> text -> nat -> option nat)
    (result : Finding.t) (content : text) (r : CodeFixer.FixResult) :
  Finding.rule result <> "no-multiple-empty-lines"%string ->
  CodeFixer.applyFix (CodeFixer.new rmatch) result (Some content)
  = Returns (CodeFixer.Result r) ->
  length (split newline (CodeFixer.content r))
  = length (split newline content) /\
  forall k, k <> Finding.line result - 1 ->
    nth k (split newline (CodeFixer.content r)) []
    = nth k (split newline content) [].
Proof.
  intros Hrule Hr. rewrite applyFix_new in Hr.
  assert (Hcall : CodeFixer.callInherited (Finding.rule result)
                    (Some content)
                  = CodeFixer.Result r ->
                  length (split newline (CodeFixer.content r))
                  = length (split newline content) /\
                  forall k, k <> Finding.line result - 1 ->
                    nth k (split newline (CodeFixer.content r)) []
                    = nth k (split newline content) []).
  { intros H. apply callInherited_unfixed in H. subst r.
    cbn [CodeFixer.content]. split; [reflexivity|intros; reflexivity]. }
  assert (Hsame : forall r0,
             CodeFixer.content r0 = join newline (split newline content) ->
             length (split newline (CodeFixer.content r0))
             = length (split newline content) /\
             forall k, k <> Finding.line result - 1 ->
               nth k (split newline (CodeFixer.content r0)) []
               = nth k (split newline content) []).
  { intros r0 ->. rewrite join_split. split; reflexivity. }
  assert (Hupd : forall r0 l,
             ~ In newline l ->
             CodeFixer.content r0
             = join newline (update (split newline content)
                               (Finding.line result - 1) l) ->
             length (split newline (CodeFixer.content r0))
             = length (split newline content) /\
             forall k, k <> Finding.line result - 1 ->
               nth k (split newline (CodeFixer.content r0)) []
               = nth k (split newline content) []).
  { intros r0 l Hl ->. rewrite updated_lines by exact Hl.
    split; [apply update_length|].
    intros k Hk. now apply update_nth_other. }
  destruct (String.eqb_spec "no-trailing-spaces" (Finding.rule result))
    as [E1|E1];
    [|destruct (String.eqb_spec "no-multiple-empty-lines"
                  (Finding.rule result)) as [E2|E2];
      [congruence|
       destruct (String.eqb_spec "no-mixed-spaces-and-tabs"
                   (Finding.rule result)) as [E3|E3];
       [|destruct (inherited (Finding.rule result));
         [apply Hcall; now inversion Hr|]]]];
    inversion Hr; subst r; clear Hr.
  - unfold CodeFixer.fixTrailingSpaces. cbv zeta.
    destruct (CodeFixer.onLine result (split newline content));
      [|now apply Hsame].
    destruct (negb _); [|now apply Hsame].
    eapply Hupd; [|reflexivity].
    apply replaceFirst_plain, line_plain.
  - unfold CodeFixer.fixMixedSpacesAndTabs. cbv zeta.
    destruct (CodeFixer.onLine result (split newline content));
      [|now apply Hsame].
    destruct (search _ _ _ _ _) as [[[|i] len]|]; try now apply Hsame.
    destruct (0 <? _); [|now apply Hsame].
    eapply Hupd; [|reflexivity].
    intros Hin. apply in_app_or in Hin as [H|H].
    + apply repeat_spec in H. discriminate.
    + apply skipn_In' in H. revert H. apply line_plain.
  - cbn [CodeFixer.content]. split; [reflexivity|intros; reflexivity].
Qed.

Lemma line_fixes_keep_the_other_lines_witness :
  CodeFixer.applyFix (CodeFixer.new JS.jsmatch)
    (reported "no-trailing-spaces" 1) (Some trailingText)
  = Returns
      (CodeFixer.Result
         {| CodeFixer.fixed := true;
            CodeFixer.content := lit "a" ++ [newline] ++ lit "b" |}) /\
  length (split newline (lit "a" ++ [newline] ++ lit "b"))
  = length (split newline trailingText).
Proof.
  assert (H : CodeFixer.applyFix (CodeFixer.new JS.jsmatch)
                (reported "no-trailing-spaces" 1) (Some trailingText)
              = Returns
                  (CodeFixer.Result
                     {| CodeFixer.fixed := true;
                        CodeFixer.content :=
                          lit "a" ++ [newline] ++ lit "b" |}))
    by (vm_compute; reflexivity).
  split; [exact H|].
  apply (proj1 (line_fixes_keep_the_other_lines JS.jsmatch
                  (reported "no-trailing-spaces" 1) trailingText _
                  ltac:(discriminate) H)).
Defined.

(** ** The reference matcher on the patterns of the fixer *)

Lemma run_reaches (P : ascii -> bool) (r : Re.node) :
  within P r ->
  forall s i k e,
    JS.run r s i k = Some e ->
    exists j, i <= j /\ k j = Some e /\ span P s i j.
Proof.
  induction r as [|c|p|a IHa b IHb|a IHa b IHb|a IHa|a IHa| | |];
    intros Hw s i k e H; cbn [JS.run] in H; cbn [within] in Hw.
  - exists i. repeat split; [lia|exact H|]. intros x Hx. lia.
  - destruct (JS.charAt s i) as [d|] eqn:Ed; [|discriminate].
    destruct (Ascii.eqb_spec c d) as [->|]; [|discriminate].
    exists (S i). repeat split; [lia|exact H|].
    intros x Hx. assert (x = i) by lia. subst x. now exists d.
  - destruct (JS.charAt s i) as [d|] eqn:Ed; [|discriminate].
    destruct (p d) eqn:Ep; [|discriminate].
    exists (S i). repeat split; [lia|exact H|].
    intros x Hx. assert (x = i) by lia. subst x. exists d. auto.
  - destruct Hw as [Ha Hb].
    destruct (IHa Ha s i _ e H) as (j1 & Hj1 & Hk1 & Hs1).
    destruct (IHb Hb s j1 k e Hk1) as (j2 & Hj2 & Hk2 & Hs2).
    exists j2. repeat split; [lia|exact Hk2|].
    intros x Hx. destruct (Nat.lt_ge_cases x j1);
      [apply Hs1|apply Hs2]; lia.
  - destruct Hw as [Ha Hb].
    destruct (JS.run a s i k) as [e0|] eqn:Ea.
    + inversion H; subst e0. exact (IHa Ha s i k e Ea).
    + exact (IHb Hb s i k e H).
  - revert i e H. generalize (length s) as n.
    induction n as [|n IHn]; intros i e H.
    + exists i. repeat split; [lia|exact H|]. intros x Hx. lia.
    + match type of H with
      | match ?scrutinee with _ => _ end = _ =>
          destruct scrutinee as [e0|] eqn:Ea
      end.
      * inversion H; subst e0.
        destruct (IHa Hw s i _ e Ea) as (j1 & Hj1 & Hk1 & Hs1).
        destruct (i <? j1); [|discriminate].
        destruct (IHn j1 e Hk1) as (j2 & Hj2 & Hk2 & Hs2).
        exists j2. repeat split; [lia|exact Hk2|].
        intros x Hx. destruct (Nat.lt_ge_cases x j1);
          [apply Hs1|apply Hs2]; lia.
      * exists i. repeat split; [lia|exact H|]. intros x Hx. lia.
  - destruct (JS.run a s i (fun j => Some j)); [discriminate|].
    exists i. repeat split; [lia|exact H|]. intros x Hx. lia.
  - exists i. split; [lia|]. split; [|intros x Hx; lia].
    destruct i as [|i']; [exact H|].
    destruct (JS.charAt s i') as [c|]; [|discriminate].
    destruct (Re.isLineTerminator c); [exact H|discriminate].
  - exists i. split; [lia|]. split; [|intros x Hx; lia].
    destruct (JS.charAt s i) as [c|]; [|exact H].
    destruct (Re.isLineTerminator c); [exact H|discriminate].
  - exists i. split; [lia|]. split; [|intros x Hx; lia].
    match type of H with
    | (if ?b then _ else _) = _ => destruct b; [exact H|discriminate]
    end.
Qed.

Lemma skipn_charAt (s : text) i c :
  JS.charAt s i = Some c -> skipn i s = c :: skipn (S i) s.
Proof.
  unfold JS.charAt. revert i.
  induction s as [|d s IH]; intros [|i] H; cbn in H; try discriminate.
  - now inversion H.
  - cbn [skipn]. rewrite (IH i H). reflexivity.
Qed.

Lemma charAt_None (s : text) i : JS.charAt s i = None <-> length s <= i.
Proof. apply nth_error_None. Qed.

Lemma charAt_Some (s : text) i : i < length s -> exists c, JS.charAt s i = Some c.
Proof.
  intros Hi. destruct (JS.charAt s i) as [c|] eqn:E; [now exists c|].
  apply charAt_None in E. lia.
Qed.

Lemma span_forallb P s len : forall i,
  span P s i (i + len) -> forallb P (firstn len (skipn i s)) = true.
Proof.
  induction len as [|len IH]; intros i Hs; [reflexivity|].
  destruct (Hs i ltac:(lia)) as (c & Hc & Hp).
  rewrite (skipn_charAt s i c Hc). cbn [firstn forallb]. rewrite Hp.
  apply IH. intros x Hx. apply Hs. lia.
Qed.

Lemma jsmatch_within P re s i len :
  within P (source re) ->
  JS.jsmatch re s i = Some len ->
  forallb P (matched s i len) = true.
Proof.
  intros Hw H. unfold JS.jsmatch in H.
  destruct (JS.run (source re) s i (fun j => Some j)) as [e|] eqn:E;
    [|discriminate].
  inversion H; subst len.
  destruct (run_reaches P (source re) Hw s i _ e E) as (j & Hj & Hk & Hs).
  inversion Hk; subst j. apply span_forallb.
  replace (i + (e - i)) with e by lia. exact Hs.
Qed.

Lemma run_star_class p s k i :
  JS.run (Re.Star (Re.Class p)) s i k = starClass p s k (length s) i.
Proof. reflexivity. Qed.

Lemma starClass_to_end p s k :
  (forall j, k j = if j <? length s then None else Some j) ->
  forall n i, i <= length s -> length s <= n + i ->
    starClass p s k n i
    = if forallb p (skipn i s) then Some (length s) else None.
Proof.
  intros Hk. induction n as [|n IH]; intros i Hi Hn.
  - cbn. assert (i = length s) by lia. subst i.
    rewrite skipn_all, Hk, Nat.ltb_irrefl. reflexivity.
  - change (starClass p s k (S n) i)
      with (match
              match JS.charAt s i with
              | Some d =>
                  if p d
                  then (if i <? S i then starClass p s k n (S i) else None)
                  else None
              | None => None
              end
            with
            | Some e => Some e
            | None => k i
            end).
    destruct (JS.charAt s i) as [d|] eqn:Ed.
    + assert (Hlt : i < length s).
      { destruct (Nat.lt_ge_cases i (length s)) as [|Hge]; [assumption|].
        apply charAt_None in Hge. congruence. }
      rewrite (skipn_charAt s i d Ed). cbn [forallb].
      destruct (p d); cbn [andb].
      * replace (i <? S i) with true by (symmetry; apply Nat.ltb_lt; lia).
        rewrite IH by lia.
        destruct (forallb p (skipn (S i) s)); [reflexivity|].
        rewrite Hk. now apply Nat.ltb_lt in Hlt as ->.
      * rewrite Hk. now apply Nat.ltb_lt in Hlt as ->.
    + apply charAt_None in Ed. assert (i = length s) by lia. subst i.
      rewrite skipn_all, Hk, Nat.ltb_irrefl. reflexivity.
Qed.

Lemma jsmatch_trailingBlanks s i :
  JS.jsmatch CodeFixer.trailingBlanks s i
  = if (i <? length s) && forallb (Re.oneOf RuleEngine.blank) (skipn i s)
    then Some (length s - i) else None.
Proof.
  unfold JS.jsmatch.
  change (JS.run (source CodeFixer.trailingBlanks) s i (fun j => Some j))
    with (match JS.charAt s i with
          | Some d =>
              if Re.oneOf RuleEngine.blank d
              then JS.run (Re.Star (Re.Class (Re.oneOf RuleEngine.blank))) s
                     (S i)
                     (fun j => JS.run (Re.NotAhead (Re.Class Re.anyChar)) s j
                                 (fun j0 => Some j0))
              else None
          | None => None
          end).
  destruct (JS.charAt s i) as [d|] eqn:Ed.
  - assert (Hlt : i < length s).
    { destruct (Nat.lt_ge_cases i (length s)) as [|Hge]; [assumption|].
      apply charAt_None in Hge. congruence. }
    apply Nat.ltb_lt in Hlt as Hb. rewrite Hb. cbn [andb].
    rewrite (skipn_charAt s i d Ed). cbn [forallb].
    destruct (Re.oneOf RuleEngine.blank d); cbn [andb]; [|reflexivity].
    rewrite run_star_class, starClass_to_end; [| |lia|lia].
    + destruct (forallb _ (skipn (S i) s)); reflexivity.
    + intros j. cbn [JS.run]. unfold Re.anyChar.
      destruct (JS.charAt s j) eqn:Ej.
      * assert (j < length s).
        { destruct (Nat.lt_ge_cases j (length s)) as [|Hge]; [assumption|].
          apply charAt_None in Hge. congruence. }
        now apply Nat.ltb_lt in H as ->.
      * apply charAt_None in Ej. now apply Nat.ltb_ge in Ej as ->.
  - apply charAt_None in Ed. now apply Nat.ltb_ge in Ed as ->.
Qed.

Lemma jsmatch_class p g s i :
  JS.jsmatch {| source := Re.Class p; global := g |} s i
  = match JS.charAt s i with
    | Some d => if p d then Some 1 else None
    | None => None
    end.
Proof.
  unfold JS.jsmatch. cbn [source JS.run].
  destruct (JS.charAt s i) as [d|]; [|reflexivity].
  destruct (p d); [|reflexivity]. f_equal. lia.
Qed.

Lemma jsmatch_char c g s i :
  JS.jsmatch {| source := Re.Char c; global := g |} s i
  = match JS.charAt s i with
    | Some d => if Ascii.eqb c d then Some 1 else None
    | None => None
    end.
Proof.
  unfold JS.jsmatch. cbn [source JS.run].
  destruct (JS.charAt s i) as [d|]; [|reflexivity].
  destruct (Ascii.eqb c d); [|reflexivity]. f_equal. lia.
Qed.

Lemma search_first rmatch re s n : forall i j len,
  i <= j <= i + n ->
  rmatch re s j = Some len ->
  (forall x, i <= x < j -> rmatch re s x = None) ->
  search rmatch re s i n = Some (j, len).
Proof.
  induction n as [|n IH]; intros i j len Hj Hm Hnone; cbn [search].
  - assert (j = i) by lia. subst j. now rewrite Hm.
  - destruct (Nat.eq_dec i j) as [->|Hne]; [now rewrite Hm|].
    rewrite (Hnone i) by lia. apply IH; [lia|exact Hm|].
    intros x Hx. apply Hnone. lia.
Qed.

Lemma search_nowhere rmatch re s n : forall i,
  (forall x, i <= x <= i + n -> rmatch re s x = None) ->
  search rmatch re s i n = None.
Proof.
  induction n as [|n IH]; intros i Hnone; cbn [search];
    rewrite (Hnone i) by lia; [reflexivity|].
  apply IH. intros x Hx. apply Hnone. lia.
Qed.

(** ** The fix of trailing blanks *)

Lemma strip_trailing (l : text) :
  exists removed,
    l = replaceFirst JS.jsmatch CodeFixer.trailingBlanks l [] ++ removed /\
    forallb (Re.oneOf RuleEngine.blank) removed = true /\
    forall kept' c,
      replaceFirst JS.jsmatch CodeFixer.trailingBlanks l [] = kept' ++ [c] ->
      Re.oneOf RuleEngine.blank c = false.
Proof.
  unfold replaceFirst.
  destruct (search JS.jsmatch CodeFixer.trailingBlanks l 0 (length l))
    as [[i len]|] eqn:Es.
  - destruct (search_spec JS.jsmatch _ _ _ _ _ _ Es) as [Hi Hm].
    pose proof (search_leftmost JS.jsmatch _ _ _ _ _ _ Es) as Hleft.
    rewrite jsmatch_trailingBlanks in Hm.
    destruct (Nat.ltb_spec i (length l)) as [Hlt|]; [|discriminate].
    cbn [andb] in Hm.
    destruct (forallb _ (skipn i l)) eqn:Hall; [|discriminate].
    inversion Hm; subst len.
    replace (i + (length l - i)) with (length l) by lia.
    rewrite skipn_all, app_nil_r. cbn [app].
    exists (skipn i l). split; [now rewrite firstn_skipn|].
    split; [exact Hall|].
    intros kept' c Hk.
    assert (Hlen : i = S (length kept')).
    { apply (f_equal (@length ascii)) in Hk.
      rewrite length_firstn, length_app in Hk. cbn [length] in Hk. lia. }
    specialize (Hleft (length kept') ltac:(lia)).
    rewrite jsmatch_trailingBlanks in Hleft.
    replace (length kept' <? length l) with true in Hleft
      by (symmetry; apply Nat.ltb_lt; lia).
    cbn [andb] in Hleft.
    assert (Hsk : skipn (length kept') l = c :: skipn i l).
    { rewrite <- (firstn_skipn i l) at 1. rewrite Hk, <- app_assoc.
      rewrite skipn_app, skipn_all, Nat.sub_diag. reflexivity. }
    rewrite Hsk in Hleft. cbn [forallb] in Hleft. rewrite Hall in Hleft.
    destruct (Re.oneOf RuleEngine.blank c); [discriminate|reflexivity].
  - exists []. split; [now rewrite app_nil_r|]. split; [reflexivity|].
    intros kept' c Hk.
    pose proof (search_none JS.jsmatch _ _ _ _ Es (length kept')) as Hn.
    assert (Hlen : length l = S (length kept')).
    { rewrite Hk, length_app. cbn [length]. lia. }
    specialize (Hn ltac:(lia)). rewrite jsmatch_trailingBlanks in Hn.
    replace (length kept' <? length l) with true in Hn
      by (symmetry; apply Nat.ltb_lt; lia).
    cbn [andb] in Hn.
    rewrite Hk, skipn_app, skipn_all, Nat.sub_diag in Hn.
    cbn [skipn app forallb] in Hn.
    destruct (Re.oneOf RuleEngine.blank c); [discriminate|reflexivity].
Qed.

Lemma onLine_spec result lines :
  CodeFixer.onLine result lines = true
  <-> 0 < Finding.line result <= length lines.
Proof.
  unfold CodeFixer.onLine. rewrite andb_true_iff, Nat.ltb_lt, Nat.leb_le.
  tauto.
Qed.

Lemma fixTrailingSpaces_spec result content :
  0 < Finding.line result <= length (split newline content) ->
  exists kept removed,
    nth (Finding.line result - 1) (split newline content) []
    = kept ++ removed /\
    forallb (Re.oneOf RuleEngine.blank) removed = true /\
    (forall kept' c, kept = kept' ++ [c] ->
                     Re.oneOf RuleEngine.blank c = false) /\
    split newline
      (CodeFixer.content
         (CodeFixer.fixTrailingSpaces JS.jsmatch result content))
    = update (split newline content) (Finding.line result - 1) kept /\
    (CodeFixer.fixed (CodeFixer.fixTrailingSpaces JS.jsmatch result content)
     = true <-> removed <> []).
Proof.
  intros Hon. apply onLine_spec in Hon.
  unfold CodeFixer.fixTrailingSpaces. cbv zeta. rewrite Hon.
  set (l := nth (Finding.line result - 1) (split newline content) []).
  destruct (strip_trailing l) as (removed & Hl & Hall & Hlast).
  exists (replaceFirst JS.jsmatch CodeFixer.trailingBlanks l []), removed.
  split; [exact Hl|]. split; [exact Hall|]. split; [exact Hlast|].
  destruct (text_eqb _ l) eqn:Eq; cbn [negb CodeFixer.fixed CodeFixer.content].
  - apply text_eqb_eq in Eq. rewrite Eq. subst l.
    rewrite update_self, join_split. split; [reflexivity|].
    split; [discriminate|]. intros Hne. exfalso. apply Hne.
    rewrite Eq in Hl. rewrite <- app_nil_r in Hl at 1.
    now apply app_inv_head in Hl.
  - rewrite updated_lines by (apply replaceFirst_plain, line_plain).
    split; [reflexivity|]. split; [|reflexivity].
    intros _ ->. rewrite app_nil_r in Hl.
    assert (text_eqb (replaceFirst JS.jsmatch CodeFixer.trailingBlanks l [])
              l = true) by (apply text_eqb_eq; congruence).
    congruence.
Qed.

Lemma fixTrailingSpaces_unfixed rmatch result content :
  CodeFixer.fixed (CodeFixer.fixTrailingSpaces rmatch result content) = false
  -> CodeFixer.content (CodeFixer.fixTrailingSpaces rmatch result content)
     = content.
Proof.
  unfold CodeFixer.fixTrailingSpaces. cbv zeta.
  destruct (CodeFixer.onLine _ _); [destruct (negb _)|];
    cbn [CodeFixer.fixed CodeFixer.content]; intros H;
    try discriminate; apply join_split.
Qed.

(** X13. With the reference matcher, the fix of trailing blanks on a line
    of the content splits that line into what it keeps and a run of
    spaces and tabs that it removes; what it keeps does not end in a
    space or a tab; every other line stays; and it reports a fix exactly
    when it removed something. *)
Theorem fixTrailingSpaces_strips (result : Finding.t) (content : text) :
  0 < Finding.line result <= length (split newline content) ->
  let lines := split newline content in
  let r := CodeFixer.fixTrailingSpaces JS.jsmatch result content in
  exists kept removed,
    nth (Finding.line result - 1) lines [] = kept ++ removed /\
    forallb (Re.oneOf RuleEngine.blank) removed = true /\
    (forall kept' c, kept = kept' ++ [c] ->
                     Re.oneOf RuleEngine.blank c = false) /\
    split newline (CodeFixer.content r)
    = update lines (Finding.line result - 1) kept /\
    (CodeFixer.fixed r = true <-> removed <> []).
Proof. intros Hon. cbv zeta. now apply fixTrailingSpaces_spec. Qed.

Lemma fixTrailingSpaces_strips_witness :
  0 < Finding.line (reported "no-trailing-spaces" 1)
    <= length (split newline trailingText) /\
  exists kept removed,
    nth 0 (split newline trailingText) [] = kept ++ removed /\
    split newline
      (CodeFixer.content
         (CodeFixer.fixTrailingSpaces JS.jsmatch
            (reported "no-trailing-spaces" 1) trailingText))
    = update (split newline trailingText) 0 kept /\
    (CodeFixer.fixed
       (CodeFixer.fixTrailingSpaces JS.jsmatch
          (reported "no-trailing-spaces" 1) trailingText) = true
     <-> removed <> []).
Proof.
  assert (Hon : 0 < Finding.line (reported "no-trailing-spaces" 1)
                <= length (split newline trailingText))
    by (vm_compute; lia).
  split; [exact Hon|].
  destruct (fixTrailingSpaces_strips (reported "no-trailing-spaces" 1)
              trailingText Hon)
    as (kept & removed & H1 & _ & _ & H4 & H5).
  exists kept, removed. repeat split; try assumption; apply H5.
Defined.

(** X14. The fix of trailing blanks is idempotent: applied again to its
    own result, for the same finding, it reports no fix and returns that
    result. *)
Theorem fixTrailingSpaces_idempotent (result : Finding.t) (content : text) :
  let once := CodeFixer.fixTrailingSpaces JS.jsmatch result content in
  let twice :=
    CodeFixer.fixTrailingSpaces JS.jsmatch result (CodeFixer.content once) in
  CodeFixer.fixed twice = false /\
  CodeFixer.content twice = CodeFixer.content once.
Proof.
  cbv zeta.
  set (once := CodeFixer.fixTrailingSpaces JS.jsmatch result content).
  assert (Hf : CodeFixer.fixed
                 (CodeFixer.fixTrailingSpaces JS.jsmatch result
                    (CodeFixer.content once)) = false).
  { destruct (CodeFixer.onLine result (split newline content)) eqn:Eon.
    - apply onLine_spec in Eon.
      destruct (fixTrailingSpaces_spec result content Eon)
        as (kept & removed & Hl & Hall & Hlast & Hsplit & _).
      fold once in Hsplit.
      assert (Eon' : 0 < Finding.line result
                     <= length (split newline (CodeFixer.content once))).
      { rewrite Hsplit, update_length. exact Eon. }
      destruct (fixTrailingSpaces_spec result _ Eon')
        as (kept2 & removed2 & Hl2 & Hall2 & _ & _ & Hfix).
      rewrite Hsplit, update_nth_same in Hl2 by lia.
      destruct (CodeFixer.fixed _) eqn:Ef; [|reflexivity].
      exfalso. destruct (exists_last (proj1 Hfix eq_refl)) as (x & c & ->).
      rewrite app_assoc in Hl2. pose proof (Hlast _ c Hl2) as Hc'.
      rewrite forallb_app in Hall2. cbn [forallb] in Hall2.
      apply andb_true_iff in Hall2 as [_ Hc].
      rewrite Hc' in Hc. discriminate.
    - unfold once, CodeFixer.fixTrailingSpaces at 2. cbv zeta.
      rewrite Eon. cbn [CodeFixer.content]. rewrite join_split.
      unfold CodeFixer.fixTrailingSpaces. cbv zeta. now rewrite Eon. }
  split; [exact Hf|]. now apply fixTrailingSpaces_unfixed.
Qed.

(** ** Collected matches *)

Lemma matchAll_fuel rmatch re s : forall fuel lastIndex extra,
  length s < fuel + lastIndex ->
  matchAll rmatch (fuel + extra) re s lastIndex
  = matchAll rmatch fuel re s lastIndex.
Proof.
  induction fuel as [|fuel IH]; intros lastIndex extra Hf.
  - cbn [Nat.add matchAll]. destruct extra; cbn [matchAll]; [reflexivity|].
    now replace (length s <? lastIndex) with true
      by (symmetry; apply Nat.ltb_lt; lia).
  - cbn [Nat.add matchAll].
    destruct (length s <? lastIndex); [reflexivity|].
    destruct (search rmatch re s lastIndex (length s - lastIndex))
      as [[index len]|] eqn:Es; [|reflexivity].
    destruct (search_spec rmatch _ _ _ _ _ _ Es) as [Hi _].
    f_equal. apply IH. destruct (Nat.eqb_spec len 0); lia.
Qed.

Lemma count_occ_gap (s : text) c : forall d i,
  (forall x, i <= x < i + d -> JS.charAt s x <> Some c) ->
  count_occ ascii_dec (skipn i s) c = count_occ ascii_dec (skipn (i + d) s) c.
Proof.
  induction d as [|d IH]; intros i Hgap; [now rewrite Nat.add_0_r|].
  destruct (JS.charAt s i) as [a|] eqn:Ea.
  - rewrite (skipn_charAt s i a Ea). cbn [count_occ].
    destruct (ascii_dec a c) as [->|Hne].
    + now destruct (Hgap i ltac:(lia)).
    + replace (i + S d) with (S i + d) by lia. apply IH.
      intros x Hx. apply Hgap. lia.
  - apply charAt_None in Ea. now rewrite !skipn_all2 by lia.
Qed.

Lemma matchAll_char c s : forall fuel i,
  length s < fuel + i ->
  length (matchAll JS.jsmatch fuel
            {| source := Re.Char c; global := true |} s i)
  = count_occ ascii_dec (skipn i s) c.
Proof.
  set (re := {| source := Re.Char c; global := true |}).
  assert (Hno : forall x, JS.jsmatch re s x = None -> JS.charAt s x <> Some c).
  { intros x Hx Hc. unfold re in Hx. rewrite jsmatch_char, Hc in Hx.
    now rewrite Ascii.eqb_refl in Hx. }
  induction fuel as [|fuel IH]; intros i Hf; cbn [matchAll length].
  - now rewrite skipn_all2 by lia.
  - destruct (Nat.ltb_spec (length s) i) as [Hlt|Hle];
      [now rewrite skipn_all2 by lia|].
    destruct (search JS.jsmatch re s i (length s - i)) as [[j len]|] eqn:Es.
    + destruct (search_spec JS.jsmatch _ _ _ _ _ _ Es) as [Hj Hm].
      pose proof (search_leftmost JS.jsmatch _ _ _ _ _ _ Es) as Hleft.
      unfold re in Hm. rewrite jsmatch_char in Hm.
      destruct (JS.charAt s j) as [d|] eqn:Ed; [|discriminate].
      destruct (Ascii.eqb_spec c d) as [<-|]; [|discriminate].
      inversion Hm; subst len. cbn [Nat.eqb length].
      rewrite IH by lia.
      replace j with (i + (j - i)) at 2 by lia.
      rewrite (count_occ_gap s c (j - i) i).
      * replace (i + (j - i)) with j by lia.
        rewrite (skipn_charAt s j c Ed). cbn [count_occ].
        destruct (ascii_dec c c); [|congruence].
        now replace (j + 1) with (S j) by lia.
      * intros x Hx. apply Hno, Hleft. lia.
    + pose proof (search_none JS.jsmatch _ _ _ _ Es) as Hnone.
      cbn [length]. rewrite (count_occ_gap s c (length s - i) i).
      * now rewrite skipn_all2 by lia.
      * intros x Hx. apply Hno, Hnone. lia.
Qed.

Lemma matchCount_char c (s : text) :
  matchCount JS.jsmatch {| source := Re.Char c; global := true |} s
  = count_occ ascii_dec s c.
Proof. unfold matchCount. rewrite matchAll_char by lia. reflexivity. Qed.

(** ** The fix of mixed indentation *)

Lemma forallb_charAt P (s : text) x d :
  forallb P s = true -> JS.charAt s x = Some d -> P d = true.
Proof.
  intros Hall Hx. apply nth_error_In in Hx.
  now apply (proj1 (forallb_forall P s) Hall).
Qed.

Lemma search_nonWhitespace_none (l : text) :
  forallb Re.space l = true ->
  search JS.jsmatch CodeFixer.nonWhitespace l 0 (length l) = None.
Proof.
  intros Hall. apply search_nowhere. intros x _.
  unfold CodeFixer.nonWhitespace. rewrite jsmatch_class.
  destruct (JS.charAt l x) as [d|] eqn:Ed; [|reflexivity].
  now rewrite (forallb_charAt _ _ _ _ Hall Ed).
Qed.

Lemma search_nonWhitespace_first (w : text) c rest :
  forallb Re.space w = true -> Re.space c = false ->
  search JS.jsmatch CodeFixer.nonWhitespace (w ++ c :: rest) 0
    (length (w ++ c :: rest))
  = Some (length w, 1).
Proof.
  intros Hall Hc. apply search_first.
  - rewrite length_app. lia.
  - unfold CodeFixer.nonWhitespace. rewrite jsmatch_class.
    unfold JS.charAt. rewrite nth_error_app2, Nat.sub_diag by lia.
    cbn [nth_error]. now rewrite Hc.
  - intros x Hx. unfold CodeFixer.nonWhitespace. rewrite jsmatch_class.
    unfold JS.charAt. rewrite nth_error_app1 by lia.
    destruct (nth_error w x) as [d|] eqn:Ed; [|reflexivity].
    now rewrite (forallb_charAt _ w x d Hall Ed).
Qed.

Lemma fixMixedSpacesAndTabs_spec
    (result : Finding.t) (content : text) :
  0 < Finding.line result <= length (split newline content) ->
  let lines := split newline content in
  let line := nth (Finding.line result - 1) lines [] in
  let r := CodeFixer.fixMixedSpacesAndTabs JS.jsmatch result content in
  (forallb Re.space line = true -> CodeFixer.fixed r = false) /\
  (forall w c rest,
     line = w ++ c :: rest ->
     forallb Re.space w = true -> Re.space c = false ->
     let tabCount := count_occ ascii_dec w "009"%char in
     let spaceCount := count_occ ascii_dec w " "%char in
     CodeFixer.fixed r = (0 <? tabCount) /\
     (0 < tabCount ->
      split newline (CodeFixer.content r)
      = update lines (Finding.line result - 1)
          (repeat " "%char (spaceCount + tabCount * 2) ++ c :: rest))).
Proof.
  intros Hon. apply onLine_spec in Hon. cbv zeta.
  unfold CodeFixer.fixMixedSpacesAndTabs. cbv zeta. rewrite Hon.
  set (line := nth (Finding.line result - 1) (split newline content) []).
  split.
  - intros Hall. now rewrite (search_nonWhitespace_none line Hall).
  - intros w c rest Hline Hall Hc.
    assert (Hplain : ~ In newline line) by apply line_plain.
    rewrite Hline in *.
    rewrite (search_nonWhitespace_first w c rest Hall Hc).
    destruct w as [|a w]; [cbn; split; [reflexivity|lia]|].
    cbn [length].
    assert (Hlead : substring ((a :: w) ++ c :: rest) 0 (S (length w))
                    = a :: w).
    { unfold substring. cbn [Nat.max Nat.min Nat.sub skipn].
      change (S (length w)) with (length (a :: w)).
      rewrite firstn_app, Nat.sub_diag, firstn_all. cbn [firstn].
      apply app_nil_r. }
    assert (Hrest : skipn (S (length w)) ((a :: w) ++ c :: rest) = c :: rest).
    { change (S (length w)) with (length (a :: w)).
      rewrite skipn_app, skipn_all, Nat.sub_diag. reflexivity. }
    rewrite Hlead, Hrest.
    unfold CodeFixer.tabs, CodeFixer.spaces. rewrite !matchCount_char.
    destruct (0 <? count_occ ascii_dec (a :: w) "009"%char) eqn:Et;
      cbn [CodeFixer.fixed CodeFixer.content].
    + split; [reflexivity|]. intros _. apply updated_lines.
      intros Hin. apply in_app_or in Hin as [H|H].
      * apply repeat_spec in H. discriminate.
      * apply Hplain. apply in_or_app. now right.
    + split; [reflexivity|]. apply Nat.ltb_ge in Et. lia.
Qed.

(** X15. With the reference matcher, the fix of mixed indentation on a
    line of the content leaves a line of white space alone; on a line
    with leading white space [w] before its first other character it
    reports a fix exactly when [w] holds a tab, and then replaces [w] by
    as many spaces as [w] has spaces plus two for every tab (any other
    white space in [w] is dropped), keeping the rest of the line and
    every other line. *)
Theorem fixMixedSpacesAndTabs_converts
    (result : Finding.t) (content : text) :
  0 < Finding.line result <= length (split newline content) ->
  let lines := split newline content in
  let line := nth (Finding.line result - 1) lines [] in
  let r := CodeFixer.fixMixedSpacesAndTabs JS.jsmatch result content in
  (forallb Re.space line = true -> CodeFixer.fixed r = false) /\
  (forall w c rest,
     line = w ++ c :: rest ->
     forallb Re.space w = true -> Re.space c = false ->
     let tabCount := count_occ ascii_dec w "009"%char in
     let spaceCount := count_occ ascii_dec w " "%char in
     CodeFixer.fixed r = (0 <? tabCount) /\
     (0 < tabCount ->
      split newline (CodeFixer.content r)
      = update lines (Finding.line result - 1)
          (repeat " "%char (spaceCount + tabCount * 2) ++ c :: rest))).
Proof. exact (fixMixedSpacesAndTabs_spec result content). Qed.

Lemma fixMixedSpacesAndTabs_converts_witness :
  0 < Finding.line (reported "no-mixed-spaces-and-tabs" 2)
    <= length (split newline tabbedText) /\
  CodeFixer.fixed
    (CodeFixer.fixMixedSpacesAndTabs JS.jsmatch
       (reported "no-mixed-spaces-and-tabs" 2) tabbedText) = true /\
  split newline
    (CodeFixer.content
       (CodeFixer.fixMixedSpacesAndTabs JS.jsmatch
          (reported "no-mixed-spaces-and-tabs" 2) tabbedText))
  = [lit "a"; lit "   b"].
Proof.
  assert (Hon : 0 < Finding.line (reported "no-mixed-spaces-and-tabs" 2)
                <= length (split newline tabbedText))
    by (vm_compute; lia).
  split; [exact Hon|].
  destruct (proj2 (fixMixedSpacesAndTabs_converts
                     (reported "no-mixed-spaces-and-tabs" 2) tabbedText Hon)
              [" "; "009"]%char "b"%char [] eq_refl eq_refl eq_refl)
    as [Hf Hc].
  split; [exact Hf|]. rewrite Hc; [reflexivity|]. vm_compute. lia.
Defined.

(** ** What the fixes never touch *)

Lemma ink_app a b : ink (a ++ b) = ink a ++ ink b.
Proof. apply filter_app. Qed.

Lemma ink_space l : forallb Re.space l = true -> ink l = [].
Proof.
  induction l as [|c l IH]; [reflexivity|]. cbn [forallb ink filter].
  intros H. apply andb_true_iff in H as [Hc Hl]. rewrite Hc. cbn [negb].
  now apply IH.
Qed.

Lemma blank_is_space d :
  Re.oneOf RuleEngine.blank d = true -> Re.space d = true.
Proof.
  unfold Re.oneOf, RuleEngine.blank. cbn [existsb]. rewrite orb_false_r.
  intros H. apply orb_true_iff in H as [H|H];
    apply Ascii.eqb_eq in H; subst d; reflexivity.
Qed.

Lemma forallb_impl {A} (P Q : A -> bool) l :
  (forall x, P x = true -> Q x = true) ->
  forallb P l = true -> forallb Q l = true.
Proof.
  intros HPQ. induction l as [|x l IH]; [reflexivity|]. cbn [forallb].
  intros H. apply andb_true_iff in H as [Hx Hl].
  now rewrite (HPQ x Hx), IH.
Qed.

Lemma ink_join ls : ink (join newline ls) = concat (map ink ls).
Proof.
  induction ls as [|l [|l0 ls] IH]; [reflexivity| |].
  - cbn [join map concat]. now rewrite app_nil_r.
  - rewrite join_cons, ink_app. cbn [map concat]. f_equal.
    change (ink (newline :: join newline (l0 :: ls)))
      with (ink (join newline (l0 :: ls))). exact IH.
Qed.

Lemma ink_update ls i v :
  ink v = ink (nth i ls []) ->
  concat (map ink (update ls i v)) = concat (map ink ls).
Proof.
  revert i. induction ls as [|l ls IH]; intros [|i] Hv;
    cbn [update map concat nth] in *; try reflexivity.
  - now rewrite Hv.
  - now rewrite IH.
Qed.

Lemma ink_line content i v :
  ink v = ink (nth i (split newline content) []) ->
  ink (join newline (update (split newline content) i v)) = ink content.
Proof.
  intros Hv. rewrite ink_join, ink_update by exact Hv.
  now rewrite <- ink_join, join_split.
Qed.

Lemma ink_skipn_matched (s : text) i len :
  ink (matched s i len) = [] -> ink (skipn i s) = ink (skipn (i + len) s).
Proof.
  intros Hm. rewrite <- (firstn_skipn len (skipn i s)) at 1.
  rewrite ink_app. fold (matched s i len). rewrite Hm, skipn_skipn.
  cbn [app]. now rewrite (Nat.add_comm len i).
Qed.

Lemma ink_substitute (s replacement : text) :
  ink replacement = [] ->
  forall ms nextSourcePosition,
    Forall (fun m => ink (matched s (fst m) (snd m)) = []) ms ->
    ink (substitute s replacement nextSourcePosition ms)
    = ink (skipn nextSourcePosition s).
Proof.
  intros Hr. induction ms as [|[i len] ms IH]; intros pos Hms;
    cbn [substitute]; [reflexivity|].
  inversion Hms as [|? ? Hm Hms']; subst. cbn [fst snd] in Hm.
  destruct (Nat.leb_spec pos i) as [Hle|Hgt]; [|now apply IH].
  rewrite !ink_app, Hr, (IH _ Hms'). cbn [app].
  unfold substring.
  rewrite Nat.max_r, Nat.min_l by lia.
  rewrite <- (ink_skipn_matched s i len Hm).
  rewrite <- (firstn_skipn (i - pos) (skipn pos s)) at 2.
  rewrite ink_app, skipn_skipn. now replace (i - pos + pos) with i by lia.
Qed.

Lemma matchAll_matches rmatch re s : forall fuel lastIndex,
  Forall (fun m => rmatch re s (fst m) = Some (snd m))
         (matchAll rmatch fuel re s lastIndex).
Proof.
  induction fuel as [|fuel IH]; intros lastIndex; cbn [matchAll];
    [constructor|].
  destruct (length s <? lastIndex); [constructor|].
  destruct (search rmatch re s lastIndex (length s - lastIndex))
    as [[index len]|] eqn:Es; [|constructor].
  constructor; [|apply IH].
  exact (proj2 (search_spec rmatch _ _ _ _ _ _ Es)).
Qed.

Lemma ink_replaceAll re (s replacement : text) :
  within Re.space (source re) -> ink replacement = [] ->
  ink (replaceAll JS.jsmatch re s replacement) = ink s.
Proof.
  intros Hw Hr. unfold replaceAll. rewrite ink_substitute; [reflexivity|exact Hr|].
  eapply Forall_impl; [|apply matchAll_matches].
  intros [i len] Hm. cbn [fst snd] in *.
  apply ink_space. exact (jsmatch_within Re.space re s i len Hw Hm).
Qed.

Lemma ink_fixTrailingSpaces result content :
  ink (CodeFixer.content
         (CodeFixer.fixTrailingSpaces JS.jsmatch result content))
  = ink content.
Proof.
  unfold CodeFixer.fixTrailingSpaces. cbv zeta.
  destruct (CodeFixer.onLine _ _); [destruct (negb _)|];
    cbn [CodeFixer.content]; try now rewrite join_split.
  apply ink_line.
  destruct (strip_trailing
              (nth (Finding.line result - 1) (split newline content) []))
    as (removed & Hl & Hall & _).
  rewrite Hl at 2. rewrite ink_app.
  rewrite (ink_space removed), app_nil_r; [reflexivity|].
  exact (forallb_impl _ _ _ blank_is_space Hall).
Qed.

Lemma ink_fixMultipleEmptyLines result content :
  ink (CodeFixer.content
         (CodeFixer.fixMultipleEmptyLines JS.jsmatch result content))
  = ink content.
Proof.
  unfold CodeFixer.fixMultipleEmptyLines. cbn [CodeFixer.content].
  apply ink_replaceAll; [|reflexivity].
  cbn. repeat split; auto.
Qed.

Lemma ink_repeat_space n : ink (repeat " "%char n) = [].
Proof. induction n as [|n IH]; [reflexivity|exact IH]. Qed.

Lemma ink_fixMixedSpacesAndTabs result content :
  ink (CodeFixer.content
         (CodeFixer.fixMixedSpacesAndTabs JS.jsmatch result content))
  = ink content.
Proof.
  unfold CodeFixer.fixMixedSpacesAndTabs. cbv zeta.
  destruct (CodeFixer.onLine _ _); cbn [CodeFixer.content];
    [|now rewrite join_split].
  set (line := nth (Finding.line result - 1) (split newline content) []).
  destruct (search JS.jsmatch CodeFixer.nonWhitespace line 0 (length line))
    as [[[|i] len]|] eqn:Es; cbn [CodeFixer.content];
    try now rewrite join_split.
  destruct (0 <? _); cbn [CodeFixer.content]; [|now rewrite join_split].
  apply ink_line. fold line.
  rewrite ink_app, ink_repeat_space. cbn [app].
  rewrite <- (firstn_skipn (S i) line) at 2. rewrite ink_app.
  rewrite (ink_space (firstn (S i) line)); [reflexivity|].
  pose proof (search_leftmost JS.jsmatch _ _ _ _ _ _ Es) as Hleft.
  destruct (search_spec JS.jsmatch _ _ _ _ _ _ Es) as [Hi _].
  apply forallb_forall. intros d Hd.
  apply In_nth_error in Hd as (x & Hx).
  assert (Hlt : x < S i).
  { assert (x < length (firstn (S i) line))
      by (apply nth_error_Some; congruence).
    rewrite length_firstn in H. lia. }
  rewrite nth_error_firstn in Hx.
  replace (x <? S i) with true in Hx by (symmetry; apply Nat.ltb_lt; lia).
  specialize (Hleft x ltac:(lia)).
  unfold CodeFixer.nonWhitespace in Hleft. rewrite jsmatch_class in Hleft.
  unfold JS.charAt in Hleft. rewrite Hx in Hleft.
  destruct (Re.space d); [reflexivity|discriminate].
Qed.

Lemma ink_applyFix result content :
  inherited (Finding.rule result) = false ->
  exists r,
    CodeFixer.applyFix (CodeFixer.new JS.jsmatch) result (Some content)
    = Returns (CodeFixer.Result r)
    /\ ink (CodeFixer.content r) = ink content.
Proof.
  intros Hplain. rewrite applyFix_new, Hplain.
  repeat match goal with
         | |- context [String.eqb ?a ?b] => destruct (String.eqb a b)
         end; (eexists; split; [reflexivity|]).
  - apply ink_fixTrailingSpaces.
  - apply ink_fixMultipleEmptyLines.
  - apply ink_fixMixedSpacesAndTabs.
  - reflexivity.
Qed.

(** X16. With the reference matcher, the fixer as constructed changes
    nothing but white space: for a finding whose rule is not a name that
    every object inherits, it answers with a fix result whose content has
    the same characters other than white space, in the same order, as the
    content it was given; and for any finding, a fix result that it answers
    with has such a content.  (Under an inherited name such as
    [constructor] the answer is a value without content.) *)
Theorem fixes_change_white_space_only
    (result : Finding.t) (content : text) :
  (inherited (Finding.rule result) = false ->
   exists r,
     CodeFixer.applyFix (CodeFixer.new JS.jsmatch) result (Some content)
     = Returns (CodeFixer.Result r)
     /\ ink (CodeFixer.content r) = ink content) /\
  (forall r,
     CodeFixer.applyFix (CodeFixer.new JS.jsmatch) result (Some content)
     = Returns (CodeFixer.Result r) ->
     ink (CodeFixer.content r) = ink content).
Proof.
  split; [apply ink_applyFix|].
  intros r Hr. destruct (inherited (Finding.rule result)) eqn:Hin.
  - rewrite applyFix_new, Hin in Hr.
    destruct (String.eqb_spec "no-trailing-spaces" (Finding.rule result))
      as [E|_]; [rewrite <- E in Hin; discriminate|].
    destruct (String.eqb_spec "no-multiple-empty-lines"
                (Finding.rule result))
      as [E|_]; [rewrite <- E in Hin; discriminate|].
    destruct (String.eqb_spec "no-mixed-spaces-and-tabs"
                (Finding.rule result))
      as [E|_]; [rewrite <- E in Hin; discriminate|].
    inversion Hr as [Hc]. apply callInherited_unfixed in Hc. now subst r.
  - destruct (ink_applyFix result content Hin) as (r' & Hr' & Hink).
    rewrite Hr' in Hr. inversion Hr; subst r'. exact Hink.
Qed.

Lemma fixes_change_white_space_only_witness :
  inherited (Finding.rule (reported "no-mixed-spaces-and-tabs" 2)) = false /\
  (exists r,
     CodeFixer.applyFix (CodeFixer.new JS.jsmatch)
       (reported "no-mixed-spaces-and-tabs" 2) (Some tabbedText)
     = Returns (CodeFixer.Result r) /\
     CodeFixer.fixed r = true /\
     ink (CodeFixer.content r) = lit "ab") /\
  CodeFixer.applyFix (CodeFixer.new JS.jsmatch) (reported "constructor" 2)
    (Some tabbedText)
  = Returns CodeFixer.TheFinding.
Proof.
  split; [reflexivity|]. split; [|reflexivity].
  destruct (proj1 (fixes_change_white_space_only
                     (reported "no-mixed-spaces-and-tabs" 2) tabbedText)
              eq_refl)
    as (r & Hr & Hink).
  exists r. split; [exact Hr|]. split; [|exact Hink].
  assert (H : CodeFixer.applyFix (CodeFixer.new JS.jsmatch)
                (reported "no-mixed-spaces-and-tabs" 2) (Some tabbedText)
              = Returns
                  (CodeFixer.Result
                     {| CodeFixer.fixed := true;
                        CodeFixer.content :=
                          lit "a" ++ [newline] ++ lit "   b" |}))
    by (vm_compute; reflexivity).
  rewrite H in Hr. now inversion Hr.
Defined.

(** ** The fix command *)

Lemma applyFix_no_throw this result content e :
  CodeFixer.applyFix this result content <> Throws e.
Proof.
  unfold CodeFixer.applyFix.
  destruct (obj_get _ _) as [f|]; [|destruct (inherited _); discriminate].
  destruct (f result content); discriminate.
Qed.

Lemma applyFixes_count codeFixer : forall fileResults content n content' n',
  Fix.applyFixes codeFixer fileResults content n = Returns (content', n') ->
  n <= n' <= n + length (filter (fun r => CodeFixer.isFixable codeFixer
                                             (Finding.rule r)) fileResults).
Proof.
  induction fileResults as [|result rs IH]; intros content n content' n' H;
    cbn [Fix.applyFixes filter] in *.
  - inversion H; subst. cbn [length]. lia.
  - destruct (CodeFixer.isFixable codeFixer (Finding.rule result));
      [|exact (IH _ _ _ _ H)].
    cbn [length].
    destruct (CodeFixer.applyFix codeFixer result content) as [a| |];
      cbn [bind] in H; try discriminate.
    destruct (CodeFixer.readFixed a) as [[|]| |];
      cbn [bind] in H; try discriminate; apply IH in H; lia.
Qed.

Lemma applyFixes_would codeFixer : forall fileResults content n content' n',
  Fix.applyFixes codeFixer fileResults (Some content) n
  = Returns (content', n') ->
  CodeFixer.wouldModifyContent codeFixer fileResults content
  = Returns (n <? n').
Proof.
  induction fileResults as [|result rs IH]; intros content n content' n' H;
    cbn [Fix.applyFixes CodeFixer.wouldModifyContent] in *.
  - inversion H; subst. now rewrite Nat.ltb_irrefl.
  - destruct (CodeFixer.isFixable codeFixer (Finding.rule result));
      [|exact (IH _ _ _ _ H)].
    destruct (CodeFixer.applyFix codeFixer result (Some content)) as [a| |];
      cbn [bind] in *; try discriminate.
    destruct (CodeFixer.readFixed a) as [[|]| |];
      cbn [bind] in *; try discriminate; [|exact (IH _ _ _ _ H)].
    apply applyFixes_count in H.
    now replace (n <? n') with true by (symmetry; apply Nat.ltb_lt; lia).
Qed.

Lemma string_length_append (a b : string) :
  String.length (a ++ b) = String.length a + String.length b.
Proof. induction a as [|c a IH]; cbn; [reflexivity|now rewrite IH]. Qed.

Lemma backup_path_differs (filePath : string) :
  (filePath ++ ".outrider-backup")%string <> filePath.
Proof.
  intros H. apply (f_equal String.length) in H.
  rewrite string_length_append in H. cbn [String.length] in H. lia.
Qed.

(** X17. [processFile] writes nothing on a dry run; when it returns,
    [total] is the number of findings it was given and [fixed] is at most
    the number of those whose rule is fixable; when it returns without a
    fix, it has not written the file; and whatever makes it fail, the
    message it throws starts with the same words. *)
Theorem processFile_writes_and_counts
    (readFileSync : string -> outcome text)
    (writeFileSync : string -> text -> outcome unit)
    (filePath : string) (fileResults : list Finding.t)
    (codeFixer : CodeFixer.t) (dryRun backup : bool) :
  let run := Fix.processFile readFileSync writeFileSync filePath fileResults
               codeFixer dryRun backup in
  (dryRun = true -> fst run = []) /\
  (forall stats, snd run = Returns stats ->
     Fix.total stats = length fileResults /\
     Fix.fixed stats
     <= length (filter (fun r => CodeFixer.isFixable codeFixer
                                   (Finding.rule r)) fileResults) /\
     (Fix.fixed stats = 0 ->
      forall w, In w (fst run) -> fst w <> filePath)) /\
  (forall message, snd run = Throws message ->
     exists e, message = ("Failed to process file: " ++ e)%string).
Proof.
  cbv zeta. unfold Fix.processFile, Fix.failed.
  destruct (readFileSync filePath) as [content|e|]; cbn [fst snd].
  2: { repeat split; try discriminate. intros m H. inversion H. now exists e. }
  2: { repeat split; discriminate. }
  assert (Hsaved :
            forall writes (o : outcome unit),
              (if backup && negb dryRun
               then ([((filePath ++ ".outrider-backup")%string, content)],
                     writeFileSync (filePath ++ ".outrider-backup")%string
                       content)
               else ([], Returns tt)) = (writes, o) ->
              (dryRun = true -> writes = []) /\
              (forall w, In w writes -> fst w <> filePath)).
  { intros writes o H. destruct backup, dryRun; cbn [andb negb] in H;
      inversion H; subst;
      (split; [intros Hd; try discriminate; reflexivity|]);
      intros w Hw; cbn [In] in Hw; try contradiction.
    destruct Hw as [<-|[]]. apply backup_path_differs. }
  destruct (if backup && negb dryRun then _ else _) as [writes o] eqn:Esaved.
  destruct (Hsaved writes o eq_refl) as [Hdry Hback].
  destruct o as [[]|e|]; cbn [fst snd].
  2: { split; [exact Hdry|]. split; [discriminate|].
       intros m H. inversion H. now exists e. }
  2: { split; [exact Hdry|]. split; discriminate. }
  destruct (Fix.applyFixes codeFixer fileResults (Some content) 0)
    as [[modifiedContent fixed]|e|] eqn:Ef; cbn [fst snd].
  2: { split; [exact Hdry|]. split; [discriminate|].
       intros m H. inversion H. now exists e. }
  2: { split; [exact Hdry|]. split; discriminate. }
  apply applyFixes_count in Ef. cbn [Nat.add] in Ef.
  destruct (negb dryRun && (0 <? fixed)) eqn:Ew.
  - apply andb_true_iff in Ew as [Hd Hfix].
    apply negb_true_iff in Hd. apply Nat.ltb_lt in Hfix.
    destruct modifiedContent as [modifiedContent|]; cbn [fst snd].
    2: { split; [congruence|]. split; [discriminate|].
         intros m H. inversion H. now exists Fix.invalidData. }
    destruct (writeFileSync filePath modifiedContent) as [[]|e|];
      cbn [fst snd]; (split; [congruence|]); split;
      try discriminate.
    + intros stats H. inversion H; subst stats. cbn [Fix.total Fix.fixed].
      repeat split; lia.
    + intros m H. inversion H. now exists e.
  - cbn [fst snd]. split; [exact Hdry|]. split; [|discriminate].
    intros stats H. inversion H; subst stats. cbn [Fix.total Fix.fixed].
    split; [reflexivity|]. split; [lia|]. intros _. exact Hback.
Qed.

(** X18. [wouldModifyContent] foretells [processFile]: when [processFile]
    returns for a file, [wouldModifyContent] on the content of that file
    and the same findings returns [true] exactly when [processFile]
    counted a fix, although the one tries every fix on the content as
    given and the other on the content as fixed so far. *)
Theorem wouldModifyContent_foretells
    (readFileSync : string -> outcome text)
    (writeFileSync : string -> text -> outcome unit)
    (filePath : string) (fileResults : list Finding.t)
    (codeFixer : CodeFixer.t) (dryRun backup : bool)
    (content : text) (stats : Fix.Stats) :
  readFileSync filePath = Returns content ->
  snd (Fix.processFile readFileSync writeFileSync filePath fileResults
         codeFixer dryRun backup) = Returns stats ->
  CodeFixer.wouldModifyContent codeFixer fileResults content
  = Returns (0 <? Fix.fixed stats).
Proof.
  intros Hread. unfold Fix.processFile, Fix.failed. rewrite Hread.
  destruct (if backup && negb dryRun then _ else _) as [writes [[]|e|]];
    cbn [snd]; try discriminate.
  destruct (Fix.applyFixes codeFixer fileResults (Some content) 0)
    as [[modifiedContent fixed]|e|] eqn:Ef; cbn [snd]; try discriminate.
  apply applyFixes_would in Ef.
  destruct (negb dryRun && (0 <? fixed));
    [destruct modifiedContent as [modifiedContent|];
     [destruct (writeFileSync filePath modifiedContent) as [[]|e|]|]|];
    cbn [snd]; try discriminate;
    intros H; inversion H; subst stats; exact Ef.
Qed.

Lemma wouldModifyContent_foretells_witness :
  oneFile "a.js" = Returns trailingText /\
  snd (Fix.processFile oneFile accepts "a.js"
         [reported "no-trailing-spaces" 1] (CodeFixer.new JS.jsmatch)
         false true)
  = Returns {| Fix.fixed := 1; Fix.total := 1 |} /\
  CodeFixer.wouldModifyContent (CodeFixer.new JS.jsmatch)
    [reported "no-trailing-spaces" 1] trailingText
  = Returns true.
Proof.
  assert (H : snd (Fix.processFile oneFile accepts "a.js"
                     [reported "no-trailing-spaces" 1]
                     (CodeFixer.new JS.jsmatch) false true)
              = Returns {| Fix.fixed := 1; Fix.total := 1 |})
    by (vm_compute; reflexivity).
  split; [reflexivity|]. split; [exact H|].
  exact (wouldModifyContent_foretells oneFile accepts "a.js"
           [reported "no-trailing-spaces" 1] (CodeFixer.new JS.jsmatch)
           false true trailingText _ eq_refl H).
Defined.

Lemma ink_applyFixes : forall fileResults content n,
  exists content' n',
    Fix.applyFixes (CodeFixer.new JS.jsmatch) fileResults (Some content) n
    = Returns (Some content', n') /\
    ink content' = ink content.
Proof.
  induction fileResults as [|result rs IH]; intros content n;
    cbn [Fix.applyFixes].
  - now exists content, n.
  - destruct (CodeFixer.isFixable _ _) eqn:Efix; [|apply IH].
    apply fixable_new_plain in Efix.
    destruct (ink_applyFix result content Efix) as (r & -> & Hr).
    cbn [bind CodeFixer.readFixed CodeFixer.readContent].
    destruct (CodeFixer.fixed r); [|apply IH].
    destruct (IH (CodeFixer.content r) (n + 1)) as (c' & n' & -> & Hc).
    exists c', n'. split; [reflexivity|congruence].
Qed.

(** X19. With the fixer as constructed and the reference matcher, the
    fix command changes nothing but white space: everything that
    [processFile] writes, to the file or to its backup, has the
    characters other than white space of the content it read, in the
    same order; and [processFile] fails only if reading or writing
    does. *)
Theorem processFile_changes_white_space_only
    (readFileSync : string -> outcome text)
    (writeFileSync : string -> text -> outcome unit)
    (filePath : string) (fileResults : list Finding.t)
    (dryRun backup : bool) (content : text) :
  readFileSync filePath = Returns content ->
  let run := Fix.processFile readFileSync writeFileSync filePath fileResults
               (CodeFixer.new JS.jsmatch) dryRun backup in
  (forall w, In w (fst run) -> ink (snd w) = ink content) /\
  ((forall path data, In (path, data) (fst run) ->
      writeFileSync path data = Returns tt) ->
   exists stats, snd run = Returns stats).
Proof.
  intros Hread. cbv zeta. unfold Fix.processFile, Fix.failed.
  rewrite Hread.
  destruct (ink_applyFixes fileResults content 0) as (c' & n' & Hf & Hink).
  destruct (backup && negb dryRun); cbn [fst snd].
  - destruct (writeFileSync (filePath ++ ".outrider-backup")%string content)
      as [[]|e|] eqn:Eb; cbn [fst snd].
    + rewrite Hf.
      destruct (negb dryRun && (0 <? n')).
      * destruct (writeFileSync filePath c') as [[]|e|] eqn:Ew;
          cbn [fst snd]; (split;
            [intros w [<-|[<-|[]]]; cbn [snd]; congruence|]);
          intros Hok; try (now eexists);
          specialize (Hok filePath c' ltac:(right; now left)); congruence.
      * cbn [fst snd]. split; [intros w [<-|[]]; reflexivity|].
        intros _. now eexists.
    + split; [intros w [<-|[]]; reflexivity|]. intros Hok.
      specialize (Hok _ _ ltac:(now left)). congruence.
    + split; [intros w [<-|[]]; reflexivity|]. intros Hok.
      specialize (Hok _ _ ltac:(now left)). congruence.
  - rewrite Hf.
    destruct (negb dryRun && (0 <? n')).
    + destruct (writeFileSync filePath c') as [[]|e|] eqn:Ew;
        cbn [fst snd app]; (split; [intros w [<-|[]]; cbn [snd]; congruence|]);
        intros Hok; try (now eexists);
        specialize (Hok filePath c' ltac:(now left)); congruence.
    + cbn [fst snd]. split; [intros w []|]. intros _. now eexists.
Qed.

Lemma processFile_changes_white_space_only_witness :
  oneFile "a.js" = Returns trailingText /\
  fst (Fix.processFile oneFile accepts "a.js"
         [reported "no-trailing-spaces" 1] (CodeFixer.new JS.jsmatch)
         false true)
  = [("a.js.outrider-backup"%string, trailingText);
     ("a.js"%string, lit "a" ++ [newline] ++ lit "b")] /\
  ink (lit "a" ++ [newline] ++ lit "b") = ink trailingText.
Proof.
  split; [reflexivity|].
  assert (H : fst (Fix.processFile oneFile accepts "a.js"
                     [reported "no-trailing-spaces" 1]
                     (CodeFixer.new JS.jsmatch) false true)
              = [("a.js.outrider-backup"%string, trailingText);
                 ("a.js"%string, lit "a" ++ [newline] ++ lit "b")])
    by (vm_compute; reflexivity).
  split; [exact H|].
  apply (proj1 (processFile_changes_white_space_only oneFile accepts "a.js"
                  [reported "no-trailing-spaces" 1] false true trailingText
                  eq_refl)
           ("a.js"%string, lit "a" ++ [newline] ++ lit "b")).
  rewrite H. right. now left.
Defined.

(** ** The table of fixers *)

Lemma isFixable_In this ruleName :
  CodeFixer.isFixable this ruleName = true
  <-> In ruleName (CodeFixer.fixableRules this).
Proof.
  unfold CodeFixer.isFixable. rewrite existsb_exists. split.
  - intros (x & Hx & Heq). apply String.eqb_eq in Heq. now subst.
  - intros H. exists ruleName. split; [exact H|apply String.eqb_refl].
Qed.

Lemma obj_get_filter {A} k k0 (o : obj A) :
  obj_get k (filter (fun kv => negb (String.eqb (fst kv) k0)) o)
  = if String.eqb k k0 then None else obj_get k o.
Proof.
  induction o as [|[k1 v1] o IH]; cbn [filter obj_get fst].
  - now destruct (String.eqb k k0).
  - destruct (String.eqb_spec k1 k0) as [->|Hne]; cbn [negb obj_get].
    + rewrite IH. destruct (String.eqb_spec k k0) as [->|Hne'];
        [reflexivity|].
      destruct (String.eqb_spec k0 k); [congruence|reflexivity].
    + rewrite IH. destruct (String.eqb_spec k1 k) as [->|Hne'];
        [|reflexivity].
      destruct (String.eqb_spec k k0); [congruence|reflexivity].
Qed.

(** X20. A rule is fixable exactly when the table of fixers has a fix
    function of its own for it: the constructor establishes this, and
    [addFixableRule] (under a name other than [__proto__]) and
    [removeFixableRule] keep it.  After [addFixableRule] the rule is
    fixable and [applyFix] runs the function given, catching what it
    throws; after [removeFixableRule] the rule is not fixable, and
    [applyFix] returns the content unfixed for a rule that is not a name
    every object inherits, and what the inherited function returns for one
    that is; both leave every other rule as it was. *)
Theorem fixable_rules_follow_fixers
    (rmatch : RegExp -> text -> nat -> option nat) :
  coherent (CodeFixer.new rmatch) /\
  (forall this ruleName f,
     ruleName <> "__proto__"%string ->
     exists this',
       CodeFixer.addFixableRule this ruleName f = Some this' /\
       (coherent this -> coherent this') /\
       CodeFixer.isFixable this' ruleName = true /\
       obj_get ruleName (CodeFixer.fixers this') = Some f /\
       (forall result (content : text),
          Finding.rule result = ruleName ->
          CodeFixer.applyFix this' result (Some content)
          = match f result (Some content) with
            | Returns r => Returns (CodeFixer.Result r)
            | Throws _ =>
                Returns (CodeFixer.Result
                           {| CodeFixer.fixed := false;
                              CodeFixer.content := content |})
            | Diverges => Diverges
            end) /\
       forall other, other <> ruleName ->
         CodeFixer.isFixable this' other = CodeFixer.isFixable this other /\
         obj_get other (CodeFixer.fixers this')
         = obj_get other (CodeFixer.fixers this)) /\
  (forall this ruleName,
     let this' := CodeFixer.removeFixableRule this ruleName in
     (coherent this -> coherent this') /\
     CodeFixer.isFixable this' ruleName = false /\
     (forall result (content : text),
        Finding.rule result = ruleName ->
        (inherited ruleName = false ->
         CodeFixer.applyFix this' result (Some content)
         = Returns (CodeFixer.Result
                      {| CodeFixer.fixed := false;
                         CodeFixer.content := content |})) /\
        (inherited ruleName = true ->
         CodeFixer.applyFix this' result (Some content)
         = Returns (CodeFixer.callInherited ruleName (Some content)))) /\
     forall other, other <> ruleName ->
       CodeFixer.isFixable this' other = CodeFixer.isFixable this other /\
       obj_get other (CodeFixer.fixers this')
       = obj_get other (CodeFixer.fixers this)).
Proof.
  split; [|split].
  - intros ruleName. rewrite isFixable_new.
    destruct (obj_get ruleName _); split; congruence.
  - intros this ruleName f Hne.
    set (this' :=
           {| CodeFixer.fixableRules :=
                if existsb (String.eqb ruleName) (CodeFixer.fixableRules this)
                then CodeFixer.fixableRules this
                else CodeFixer.fixableRules this ++ [ruleName];
              CodeFixer.fixers :=
                obj_set ruleName f (CodeFixer.fixers this) |}).
    exists this'. split.
    { unfold CodeFixer.addFixableRule. fold this'.
      destruct (obj_get ruleName (CodeFixer.fixers this)); [reflexivity|].
      destruct (String.eqb_spec ruleName "__proto__"); [contradiction|].
      reflexivity. }
    assert (Hfix : forall other,
               CodeFixer.isFixable this' other
               = String.eqb other ruleName || CodeFixer.isFixable this other).
    { intros other. unfold this', CodeFixer.isFixable.
      cbn [CodeFixer.fixableRules].
      destruct (existsb (String.eqb ruleName) (CodeFixer.fixableRules this))
        eqn:Ex.
      - destruct (String.eqb_spec other ruleName) as [->|]; [|reflexivity].
        now rewrite Ex.
      - rewrite existsb_app. cbn [existsb]. rewrite orb_false_r.
        apply orb_comm. }
    assert (Hget : forall other,
               obj_get other (CodeFixer.fixers this')
               = if String.eqb other ruleName then Some f
                 else obj_get other (CodeFixer.fixers this)).
    { intros other. unfold this'. cbn [CodeFixer.fixers].
      destruct (String.eqb_spec other ruleName) as [->|Hne'];
        [apply obj_get_set_same|].
      apply obj_get_set_other. congruence. }
    split; [|split; [|split; [|split]]].
    + intros Hco other. rewrite Hfix, Hget.
      destruct (String.eqb other ruleName); cbn [orb];
        [split; congruence|apply Hco].
    + now rewrite Hfix, String.eqb_refl.
    + now rewrite Hget, String.eqb_refl.
    + intros result content <-. unfold CodeFixer.applyFix.
      rewrite Hget, String.eqb_refl.
      now destruct (f result (Some content)).
    + intros other Hne'. rewrite Hfix, Hget.
      apply String.eqb_neq in Hne'. now rewrite Hne'.
  - intros this ruleName this'.
    assert (Hfix : forall other,
               CodeFixer.isFixable this' other
               = negb (String.eqb other ruleName)
                 && CodeFixer.isFixable this other).
    { intros other. apply eq_true_iff_eq.
      rewrite andb_true_iff, negb_true_iff, !isFixable_In.
      unfold this', CodeFixer.removeFixableRule.
      cbn [CodeFixer.fixableRules]. rewrite filter_In, negb_true_iff.
      tauto. }
    assert (Hget : forall other,
               obj_get other (CodeFixer.fixers this')
               = if String.eqb other ruleName then None
                 else obj_get other (CodeFixer.fixers this)).
    { intros other. unfold this', CodeFixer.removeFixableRule.
      cbn [CodeFixer.fixers]. apply obj_get_filter. }
    split; [|split; [|split]].
    + intros Hco other. rewrite Hfix, Hget.
      destruct (String.eqb other ruleName); cbn [negb andb];
        [split; congruence|apply Hco].
    + now rewrite Hfix, String.eqb_refl.
    + intros result content <-. unfold CodeFixer.applyFix.
      rewrite Hget, String.eqb_refl.
      split; intros ->; reflexivity.
    + intros other Hne. rewrite Hfix, Hget.
      apply String.eqb_neq in Hne. now rewrite Hne.
Qed.

(** ** The file analyzer *)

Lemma parseTypeScript_plain Tree parseModule parseScript content extension :
  exists e,
    FileAnalyzer.parseTypeScript Tree parseModule parseScript FileAnalyzer.Plain content
      extension = Throws e.
Proof. eexists. reflexivity. Qed.

Lemma parseFile_no_throw Tree parseModule parseScript toLowerCase content
    extension e :
  FileAnalyzer.parseFile Tree parseModule parseScript toLowerCase content
    extension <> Throws e.
Proof.
  unfold FileAnalyzer.parseFile. destruct (negb _); [discriminate|].
  destruct (obj_get _ _) as [parser|]; [|discriminate].
  destruct (parser FileAnalyzer.Plain content extension); discriminate.
Qed.

(** X21. [parseFile] never throws.  For an extension that is not
    supported it returns the fallback of [parseBasic]; and so it does for
    [.ts] and [.tsx] whatever the parser library would say, as the
    TypeScript parser is called without its receiver and fails before it
    reaches the library.  For [.js] and [.jsx] it returns the tree of the
    module parse, else of the script parse, else the fallback. *)
Theorem parseFile_falls_back
    (Tree : Type) (parseModule parseScript : text -> bool -> outcome Tree)
    (toLowerCase : string -> string) (content : text) (extension : string) :
  let parseFile :=
    FileAnalyzer.parseFile Tree parseModule parseScript toLowerCase in
  let fallback :=
    Returns (FileAnalyzer.BasicParse Tree
               (FileAnalyzer.parseBasic content extension)) in
  (forall e, parseFile content extension <> Throws e) /\
  (~ In (toLowerCase extension) FileAnalyzer.supportedExtensions ->
   parseFile content extension = fallback) /\
  (In (toLowerCase extension) [".ts"; ".tsx"]%string ->
   parseFile content extension = fallback) /\
  (In (toLowerCase extension) [".js"; ".jsx"]%string ->
   parseFile content extension
   = match parseModule content (String.eqb extension ".jsx") with
     | Returns tree => Returns (FileAnalyzer.Parsed Tree tree)
     | Diverges => Diverges
     | Throws _ =>
         match parseScript content (String.eqb extension ".jsx") with
         | Returns tree => Returns (FileAnalyzer.Parsed Tree tree)
         | Diverges => Diverges
         | Throws _ => fallback
         end
     end).
Proof.
  cbv zeta. unfold FileAnalyzer.parseFile. split; [|split; [|split]].
  - intros e. apply parseFile_no_throw.
  - intros Hn.
    destruct (existsb _ FileAnalyzer.supportedExtensions) eqn:Ex;
      [|reflexivity].
    apply existsb_exists in Ex as (x & Hx & Heq).
    apply String.eqb_eq in Heq. subst x. contradiction.
  - intros [<-|[<-|[]]]; cbn; reflexivity.
  - intros [<-|[<-|[]]]; cbn [FileAnalyzer.supportedExtensions existsb
      String.eqb Ascii.eqb Bool.eqb orb negb andb obj_get
      FileAnalyzer.parsers]; cbn - [String.eqb];
      unfold FileAnalyzer.parseJavaScript;
      destruct (parseModule content _); try reflexivity;
      destruct (parseScript content _); reflexivity.
Qed.

Lemma parseFile_falls_back_witness :
  In (lower ".TS") [".ts"; ".tsx"]%string /\
  FileAnalyzer.parseFile unit anyTree anyTree lower looseEquality ".TS"
  = Returns (FileAnalyzer.BasicParse unit
               (FileAnalyzer.parseBasic looseEquality ".TS")) /\
  FileAnalyzer.parseFile unit anyTree anyTree lower looseEquality ".js"
  = Returns (FileAnalyzer.Parsed unit tt).
Proof.
  assert (H : In (lower ".TS") [".ts"; ".tsx"]%string) by (now left).
  split; [exact H|]. split; [|reflexivity].
  exact (proj1 (proj2 (proj2 (parseFile_falls_back unit anyTree anyTree
                                lower looseEquality ".TS"))) H).
Defined.

Lemma blank_not_comment line :
  FileAnalyzer.isBlank line = true -> FileAnalyzer.isComment line = false.
Proof.
  unfold FileAnalyzer.isBlank, FileAnalyzer.isComment. intros H.
  apply text_eqb_eq in H. rewrite H. reflexivity.
Qed.

Lemma lines_by_kind lines :
  length lines
  = length (filter FileAnalyzer.isBlank lines)
    + length (filter FileAnalyzer.isComment lines)
    + length (filter isCode lines).
Proof.
  induction lines as [|l lines IH]; [reflexivity|].
  cbn [filter]. unfold isCode at 1.
  destruct (FileAnalyzer.isBlank l) eqn:Eb.
  - rewrite (blank_not_comment l Eb). cbn [negb andb length]. lia.
  - destruct (FileAnalyzer.isComment l); cbn [negb andb length]; lia.
Qed.

(** X22. The line statistics of [extractFileStats] add up: no line is
    counted both as blank and as a comment, so [codeLines] is the number
    of lines that are neither (never negative), and blank, comment and
    code lines together are all the lines, of which there is at least
    one.  Without a tree of the parser library the function always
    returns, with the four counters at 0. *)
Theorem extractFileStats_lines_add_up
    (Tree : Type)
    (countFunctions countClasses countImports countExports
       : Tree -> outcome nat)
    (ast : option (FileAnalyzer.Ast Tree)) (content : text) :
  let extractFileStats :=
    FileAnalyzer.extractFileStats Tree countFunctions countClasses
      countImports countExports in
  let lines := split newline content in
  (forall stats,
     extractFileStats ast content = Returns stats ->
     FileAnalyzer.totalLines stats = length lines /\
     1 <= FileAnalyzer.totalLines stats /\
     FileAnalyzer.blankLines stats
     = length (filter FileAnalyzer.isBlank lines) /\
     FileAnalyzer.commentLines stats
     = length (filter FileAnalyzer.isComment lines) /\
     FileAnalyzer.codeLines stats = Z.of_nat (length (filter isCode lines))
     /\
     FileAnalyzer.blankLines stats + FileAnalyzer.commentLines stats
     + length (filter isCode lines) = FileAnalyzer.totalLines stats) /\
  ((forall tree, ast <> Some (FileAnalyzer.Parsed Tree tree)) ->
   exists stats,
     extractFileStats ast content = Returns stats /\
     FileAnalyzer.functions stats = 0 /\ FileAnalyzer.classes stats = 0 /\
     FileAnalyzer.imports stats = 0 /\ FileAnalyzer.exports stats = 0).
Proof.
  cbv zeta. split.
  - intros stats H.
    assert (Hshape :
              FileAnalyzer.totalLines stats = length (split newline content)
              /\ FileAnalyzer.blankLines stats
                 = length (filter FileAnalyzer.isBlank
                             (split newline content))
              /\ FileAnalyzer.commentLines stats
                 = length (filter FileAnalyzer.isComment
                             (split newline content))
              /\ FileAnalyzer.codeLines stats
                 = (Z.of_nat (length (split newline content))
                    - Z.of_nat (length (filter FileAnalyzer.isBlank
                                          (split newline content)))
                    - Z.of_nat (length (filter FileAnalyzer.isComment
                                          (split newline content))))%Z).
    { unfold FileAnalyzer.extractFileStats in H.
      destruct ast as [[tree|basic]|].
      - destruct (countFunctions tree); cbn [bind] in H; try discriminate.
        destruct (countClasses tree); cbn [bind] in H; try discriminate.
        destruct (countImports tree); cbn [bind] in H; try discriminate.
        destruct (countExports tree); cbn [bind] in H; try discriminate.
        inversion H; subst stats. repeat split.
      - inversion H; subst stats. repeat split.
      - inversion H; subst stats. repeat split. }
    destruct Hshape as (Ht & Hb & Hc & Hcode).
    pose proof (lines_by_kind (split newline content)) as Hsum.
    pose proof (split_length newline content) as Hlen.
    rewrite Ht, Hb, Hc, Hcode. repeat split; lia.
  - intros Hno. unfold FileAnalyzer.extractFileStats.
    destruct ast as [[tree|basic]|]; [now destruct (Hno tree)| |];
      eexists; (split; [reflexivity|]); repeat split.
Qed.

(** ** Composition: the scan of a file *)

Lemma applyRule_no_throw rmatch rule ruleName content filePath e :
  RuleEngine.applyRule rmatch rule ruleName content filePath <> Throws e.
Proof.
  unfold RuleEngine.applyRule.
  destruct (RuleEngine.pattern rule) as [re|]; [|discriminate].
  apply whileExec_no_throw. intros acc i len e' _ _.
  rewrite lineOf_defined, shouldSkipRule_defined. cbn [bind].
  destruct (skips rmatch rule _); discriminate.
Qed.

Lemma analyzeLoop_no_throw rmatch rs content filePath : forall names results e,
  Forall (fun n => obj_get n rs <> None) names ->
  RuleEngine.analyzeLoop rmatch rs names content filePath results
  <> Throws e.
Proof.
  induction names as [|n names IH]; intros results e Hn;
    cbn [RuleEngine.analyzeLoop]; [discriminate|].
  inversion Hn as [|? ? Hhd Htl]; subst.
  destruct (obj_get n rs) as [rule|]; [|congruence].
  destruct (RuleEngine.applyRule rmatch rule n content filePath)
    as [vs|e0|] eqn:Ea; cbn [bind];
    [now apply IH|now apply applyRule_no_throw in Ea|discriminate].
Qed.

Lemma rule_analyze_no_throw rmatch this content filePath e :
  inStep this ->
  RuleEngine.analyze rmatch this content filePath <> Throws e.
Proof.
  intros Hstep. unfold RuleEngine.analyze. apply analyzeLoop_no_throw.
  rewrite Hstep. apply Forall_forall. intros n Hn.
  apply getEnabledRules_spec in Hn as (r & Hr & _). congruence.
Qed.

(** X23. In the scan of a file with the file analyzer, a rule engine as
    constructed from a table of rules (whose patterns, where present, are
    regular expressions) and the heuristic analyzer, the [try] block
    fails exactly when reading the file fails: neither parsing nor an
    engine can make it throw.  The file then has one finding only: an
    ['error'] of type ['error'] under the rule [file-parsing-error], at
    line 1 and column 1 of the file, whose message is ['Failed to analyze
    file: '] followed by the message of the read error. *)
Theorem analyzeFile_fails_only_on_reading
    (Tree : Type) (parseModule parseScript : text -> bool -> outcome Tree)
    (toLowerCase : string -> string)
    (readFileSync : string -> outcome text) (extname : string -> string)
    (rmatch : RegExp -> text -> nat -> option nat)
    (customRules : obj RuleEngine.Rule) (mlAnalyzer : MLAnalyzer.analyzer)
    (filePath message : string) :
  let Ast := FileAnalyzer.Ast Tree in
  let parseFile :=
    FileAnalyzer.parseFile Tree parseModule parseScript toLowerCase in
  let ruleAnalyze := fun (_ : Ast) content path =>
    RuleEngine.analyze rmatch (RuleEngine.new customRules) content path in
  let mlAnalyze := fun (_ : Ast) content path =>
    MLAnalyzer.analyze rmatch mlAnalyzer content path in
  (snd (Scan.tryBlock Ast readFileSync extname parseFile ruleAnalyze
          mlAnalyze filePath []) = Throws message
   <-> readFileSync filePath = Throws message) /\
  (readFileSync filePath = Throws message ->
   exists f,
     Scan.analyzeFile Ast readFileSync extname parseFile ruleAnalyze
       mlAnalyze filePath = Returns [f] /\
     Finding.type f = "error"%string /\
     Finding.severity f = Some "error"%string /\
     Finding.rule f = "file-parsing-error"%string /\
     Finding.file f = filePath /\
     Finding.line f = 1 /\ Finding.column f = 1 /\
     Finding.message f
     = Some ("Failed to analyze file: " ++ message)%string /\
     Finding.code f = None /\ Finding.suggestion f = None /\
     Finding.confidence f = None /\ Finding.category f = None).
Proof.
  cbv zeta.
  assert (Hiff :
            snd (Scan.tryBlock (FileAnalyzer.Ast Tree) readFileSync extname
                   (FileAnalyzer.parseFile Tree parseModule parseScript
                      toLowerCase)
                   (fun _ content path =>
                      RuleEngine.analyze rmatch (RuleEngine.new customRules)
                        content path)
                   (fun _ content path =>
                      MLAnalyzer.analyze rmatch mlAnalyzer content path)
                   filePath []) = Throws message
            <-> readFileSync filePath = Throws message).
  { unfold Scan.tryBlock.
    destruct (readFileSync filePath) as [content|e|]; cbn [snd];
      [|split; intros H; inversion H; reflexivity|split; discriminate].
    destruct (FileAnalyzer.parseFile Tree parseModule parseScript
                toLowerCase content (extname filePath)) as [ast|e|] eqn:Ep;
      cbn [snd].
    - destruct (RuleEngine.analyze rmatch (RuleEngine.new customRules)
                  content filePath) as [rs|e|] eqn:Er; cbn [snd].
      + destruct (MLAnalyzer.analyze rmatch mlAnalyzer content filePath)
          as [ms|e|] eqn:Em; cbn [snd]; try (split; discriminate).
        now apply analyze_never_throws in Em.
      + now apply rule_analyze_no_throw in Er; [|apply inStep_new].
      + split; discriminate.
    - now apply parseFile_no_throw in Ep.
    - split; discriminate. }
  split; [exact Hiff|].
  intros Hread. eexists. split.
  - unfold Scan.analyzeFile, Scan.tryBlock. rewrite Hread. reflexivity.
  - repeat split.
Qed.

Lemma analyzeFile_fails_only_on_reading_witness :
  unreadable "bad.js" = Throws "ENOENT: no such file or directory" /\
  exists f,
    Scan.analyzeFile (FileAnalyzer.Ast unit) unreadable (fun p => p)
      (FileAnalyzer.parseFile unit anyTree anyTree lower)
      (fun _ content path =>
         RuleEngine.analyze JS.jsmatch (RuleEngine.new []) content path)
      (fun _ content path =>
         MLAnalyzer.analyze JS.jsmatch
           (MLAnalyzer.new MLAnalyzer.noOverrides) content path)
      "bad.js" = Returns [f] /\
    Finding.message f
    = Some "Failed to analyze file: ENOENT: no such file or directory"%string.
Proof.
  split; [reflexivity|].
  destruct (proj2 (analyzeFile_fails_only_on_reading unit anyTree anyTree
                     lower unreadable (fun p => p) JS.jsmatch []
                     (MLAnalyzer.new MLAnalyzer.noOverrides) "bad.js"
                     "ENOENT: no such file or directory") eq_refl)
    as (f & Hf & _ & _ & _ & _ & _ & _ & Hm & _).
  exists f. split; [exact Hf|exact Hm].
Defined.

(** ** The default configuration *)

(** X24. A rule engine built from the rules of the default configuration
    has all ten rules of the catalog active, yet whatever the text it
    reports findings only for the four rules that the configuration does
    not name: the six it names have lost their patterns in the merge. *)
Theorem default_configuration_silences_its_rules
    (rmatch : RegExp -> text -> nat -> option nat)
    (content : text) (filePath : string)
    (fs : list Finding.t) (f : Finding.t) :
  let engine := RuleEngine.new ConfigLoader.rules in
  RuleEngine.analyze rmatch engine content filePath = Returns fs ->
  In f fs ->
  RuleEngine.enabledRules engine = keys RuleEngine.defaultRules /\
  In (Finding.rule f) unnamedRules /\
  ~ In (Finding.rule f) (keys ConfigLoader.rules).
Proof.
  cbv zeta. intros Hfs Hin. split; [reflexivity|].
  destruct (rule_finding_origin rmatch _ content filePath fs f Hfs Hin)
    as (n & rule & re & i & len & Hn & Hr & Hp & _ & _ & _ & ->).
  cbn [violation Finding.rule].
  change (RuleEngine.enabledRules (RuleEngine.new ConfigLoader.rules))
    with (keys RuleEngine.defaultRules) in Hn.
  cbn in Hn.
  repeat (destruct Hn as [<-|Hn];
          [cbn in Hr; inversion Hr; subst rule; cbn in Hp;
           first [discriminate
                 |split; [cbn; tauto|cbn; intros H;
                   repeat (destruct H as [H|H]; [discriminate|]);
                   exact H]]|]).
  destruct Hn.
Qed.

Lemma default_configuration_silences_its_rules_witness :
  exists fs f,
    RuleEngine.analyze JS.jsmatch (RuleEngine.new ConfigLoader.rules)
      evalText "a.js" = Returns fs /\
    In f fs /\
    Finding.rule f = "no-trailing-spaces"%string /\
    In (Finding.rule f) unnamedRules /\
    obj_get "no-eval" (RuleEngine.rules (RuleEngine.new []))
    = Some (defaultRule "no-eval") /\
    (exists len,
       JS.jsmatch {| source := Re.seqs [Re.Str "eval";
                                        Re.Star (Re.Class Re.space);
                                        Re.Char "("];
                     global := true |} evalText 0 = Some len).
Proof.
  eexists. eexists.
  assert (Hfs : RuleEngine.analyze JS.jsmatch
                  (RuleEngine.new ConfigLoader.rules) evalText "a.js"
                = Returns
                    [violation (defaultRule "no-trailing-spaces")
                       "no-trailing-spaces" evalText "a.js" 7 2])
    by (vm_compute; reflexivity).
  split; [exact Hfs|]. split; [now left|]. split; [reflexivity|].
  split.
  - exact (proj1 (proj2 (default_configuration_silences_its_rules JS.jsmatch
                           evalText "a.js" _ _ Hfs (or_introl eq_refl)))).
  - split; [reflexivity|]. eexists. vm_compute. reflexivity.
Defined.

(** ** CSV fields *)

Lemma flat_map_gap (f : ascii -> text) (s : text) c : forall d i,
  (forall x, f x = if Ascii.eqb c x then f c else [x]) ->
  (forall x, i <= x < i + d -> JS.charAt s x <> Some c) ->
  i + d <= length s ->
  flat_map f (skipn i s)
  = firstn d (skipn i s) ++ flat_map f (skipn (i + d) s).
Proof.
  intros d i Hf. revert i.
  induction d as [|d IH]; intros i Hgap Hlen;
    [now rewrite Nat.add_0_r|].
  destruct (charAt_Some s i ltac:(lia)) as (a & Ea).
  rewrite (skipn_charAt s i a Ea). cbn [flat_map firstn].
  rewrite Hf. destruct (Ascii.eqb_spec c a) as [->|Hne].
  - now destruct (Hgap i ltac:(lia)).
  - cbn [app]. f_equal. replace (i + S d) with (S i + d) by lia.
    apply IH; [|lia]. intros x Hx. apply Hgap. lia.
Qed.

Lemma substitute_char c (replacement s : text) : forall fuel i,
  length s < fuel + i -> i <= length s ->
  substitute s replacement i
    (matchAll JS.jsmatch fuel {| source := Re.Char c; global := true |} s i)
  = flat_map (fun x => if Ascii.eqb c x then replacement else [x])
             (skipn i s).
Proof.
  set (re := {| source := Re.Char c; global := true |}).
  set (f := fun x => if Ascii.eqb c x then replacement else [x]).
  change (forall fuel i,
            length s < fuel + i -> i <= length s ->
            substitute s replacement i (matchAll JS.jsmatch fuel re s i)
            = flat_map f (skipn i s)).
  assert (Hf : forall x, f x = if Ascii.eqb c x then f c else [x]).
  { intros x. unfold f. rewrite Ascii.eqb_refl. reflexivity. }
  assert (Hno : forall x, JS.jsmatch re s x = None -> JS.charAt s x <> Some c).
  { intros x Hx Hc. unfold re in Hx. rewrite jsmatch_char, Hc in Hx.
    now rewrite Ascii.eqb_refl in Hx. }
  assert (Hid : forall l : text, ~ In c l -> flat_map f l = l).
  { induction l as [|a l IHl]; intros Hl; [reflexivity|].
    cbn [flat_map]. unfold f at 1.
    destruct (Ascii.eqb_spec c a) as [->|]; [destruct Hl; now left|].
    cbn [app]. f_equal. apply IHl. intros H. apply Hl. now right. }
  induction fuel as [|fuel IH]; intros i Hfuel Hi; [lia|].
  cbn [matchAll].
  replace (length s <? i) with false by (symmetry; apply Nat.ltb_ge; lia).
  destruct (search JS.jsmatch re s i (length s - i)) as [[j len]|] eqn:Es.
  - destruct (search_spec JS.jsmatch _ _ _ _ _ _ Es) as [Hj Hm].
    pose proof (search_leftmost JS.jsmatch _ _ _ _ _ _ Es) as Hleft.
    unfold re in Hm. rewrite jsmatch_char in Hm.
    destruct (JS.charAt s j) as [d|] eqn:Ed; [|discriminate].
    destruct (Ascii.eqb_spec c d) as [<-|]; [|discriminate].
    inversion Hm; subst len. cbn [Nat.eqb substitute].
    assert (Hjl : j < length s).
    { destruct (Nat.lt_ge_cases j (length s)) as [|Hge]; [assumption|].
      apply charAt_None in Hge. congruence. }
    replace (i <=? j) with true by (symmetry; apply Nat.leb_le; lia).
    rewrite IH by lia.
    replace j with (i + (j - i)) at 3 by lia.
    rewrite (flat_map_gap f s c (j - i) i Hf); [| |lia].
    + replace (i + (j - i)) with j by lia.
      rewrite (skipn_charAt s j c Ed). cbn [flat_map].
      unfold f at 2. rewrite Ascii.eqb_refl.
      unfold substring. rewrite Nat.max_r, Nat.min_l by lia.
      now replace (j + 1) with (S j) by lia.
    + intros x Hx. apply Hno, Hleft. lia.
  - pose proof (search_none JS.jsmatch _ _ _ _ Es) as Hnone.
    cbn [substitute]. symmetry. apply Hid. intros Hin.
    apply In_nth_error in Hin as (x & Hx).
    rewrite nth_error_skipn in Hx.
    assert (i + x < length s) by (apply nth_error_Some; congruence).
    apply (Hno (i + x)); [apply Hnone; lia|exact Hx].
Qed.

Lemma replaceAll_char c (s replacement : text) :
  replaceAll JS.jsmatch {| source := Re.Char c; global := true |} s
    replacement
  = flat_map (fun x => if Ascii.eqb c x then replacement else [x]) s.
Proof. unfold replaceAll. now rewrite substitute_char by lia. Qed.

Lemma includes_char (s : text) c : includes s [c] = existsb (Ascii.eqb c) s.
Proof.
  induction s as [|a s IH]; [reflexivity|].
  cbn [includes startsWith existsb]. rewrite IH.
  destruct s; cbn [startsWith]; now rewrite andb_true_r.
Qed.

Lemma undouble_doubled (s : text) : undouble (flat_map doubled s) = s.
Proof.
  induction s as [|c s IH]; [reflexivity|].
  cbn [flat_map]. unfold doubled at 1.
  destruct (Ascii.eqb_spec CSV.quote c) as [<-|Hne].
  - cbn [app undouble]. rewrite Ascii.eqb_refl. cbn [andb]. now rewrite IH.
  - cbn [app]. destruct (flat_map doubled s) as [|d rest] eqn:E.
    + cbn [undouble] in *. now rewrite <- IH.
    + cbn [undouble]. cbn [undouble] in IH.
      destruct (Ascii.eqb_spec c CSV.quote) as [->|];
        [congruence|]. cbn [andb]. now rewrite IH.
Qed.

Lemma doubled_plain (s : text) :
  existsb (Ascii.eqb CSV.quote) s = false -> flat_map doubled s = s.
Proof.
  induction s as [|c s IH]; [reflexivity|]. cbn [existsb flat_map].
  intros H. apply orb_false_iff in H as [Hc Hs].
  unfold doubled at 1. rewrite Hc. cbn [app]. now rewrite IH.
Qed.

Lemma doubled_special (s : text) :
  existsb special (flat_map doubled s) = existsb special s.
Proof.
  induction s as [|c s IH]; [reflexivity|]. cbn [flat_map existsb].
  rewrite existsb_app, IH. f_equal. unfold doubled.
  destruct (Ascii.eqb_spec CSV.quote c) as [<-|]; cbn [existsb];
    [reflexivity|apply orb_false_r].
Qed.

Lemma includes_special (s : text) :
  includes s [CSV.comma] || includes s [CSV.quote] || includes s [newline]
  = existsb special s.
Proof.
  rewrite !includes_char.
  induction s as [|c s IH]; [reflexivity|]. cbn [existsb]. rewrite <- IH.
  unfold special.
  rewrite (Ascii.eqb_sym CSV.comma c), (Ascii.eqb_sym CSV.quote c),
    (Ascii.eqb_sym newline c).
  destruct (Ascii.eqb c CSV.comma), (Ascii.eqb c CSV.quote),
    (Ascii.eqb c newline), (existsb (Ascii.eqb CSV.comma) s),
    (existsb (Ascii.eqb CSV.quote) s); reflexivity.
Qed.

(** X25. With the reference matcher, [escapeCSV] loses nothing: a reader
    that strips the outer quotes of a quoted field and halves its doubled
    quotes gets the value back.  A value without a comma, a double quote
    or a line feed is returned as it is; any other value is returned
    between quotes, with every quote of the value doubled. *)
Theorem escapeCSV_round_trip (value : text) :
  let field := CSV.escapeCSV JS.jsmatch value in
  readField field = value /\
  (existsb special value = false -> field = value) /\
  (existsb special value = true ->
   field = [CSV.quote] ++ flat_map doubled value ++ [CSV.quote]).
Proof.
  cbv zeta. unfold CSV.escapeCSV. cbv zeta.
  unfold CSV.quotes. rewrite replaceAll_char.
  change (fun x => if Ascii.eqb CSV.quote x then [CSV.quote; CSV.quote]
                   else [x]) with doubled.
  rewrite includes_special, doubled_special.
  destruct (existsb special value) eqn:Es.
  - split; [|split; [discriminate|reflexivity]].
    cbn [app readField]. rewrite Ascii.eqb_refl, removelast_last.
    apply undouble_doubled.
  - assert (Hq : existsb (Ascii.eqb CSV.quote) value = false).
    { apply not_true_is_false. intros H.
      apply existsb_exists in H as (x & Hx & Heq).
      apply Ascii.eqb_eq in Heq. subst x.
      assert (existsb special value = true); [|congruence].
      apply existsb_exists. exists CSV.quote. split; [exact Hx|reflexivity]. }
    rewrite (doubled_plain value Hq).
    split; [|split; [reflexivity|discriminate]].
    destruct value as [|c rest]; [reflexivity|]. cbn [readField].
    cbn [existsb] in Hq. apply orb_false_iff in Hq as [Hc _].
    rewrite Ascii.eqb_sym in Hc. now rewrite Hc.
Qed.

Lemma escapeCSV_round_trip_witness :
  existsb special quotedMessage = true /\
  CSV.escapeCSV JS.jsmatch quotedMessage
  = [CSV.quote] ++ lit "Use " ++ [CSV.quote; CSV.quote] ++ lit "let"
    ++ [CSV.quote; CSV.quote] ++ lit ", not var" ++ [CSV.quote] /\
  existsb special looseEquality = false /\
  CSV.escapeCSV JS.jsmatch looseEquality = looseEquality.
Proof.
  split; [reflexivity|]. split.
  - rewrite (proj2 (proj2 (escapeCSV_round_trip quotedMessage)) eq_refl).
    reflexivity.
  - split; [reflexivity|].
    exact (proj1 (proj2 (escapeCSV_round_trip looseEquality)) eq_refl).
Defined.

(** ** What the rule reports, the fixer fixes *)

Lemma split_app sep (a b : text) :
  split sep (a ++ b)
  = removelast (split sep a)
    ++ [last (split sep a) [] ++ hd [] (split sep b)]
    ++ tl (split sep b).
Proof.
  induction a as [|c a IH].
  - cbn. pose proof (split_nonempty sep b).
    destruct (split sep b); [contradiction|reflexivity].
  - cbn [app split]. rewrite IH. clear IH.
    pose proof (split_nonempty sep a) as Hne.
    destruct (Ascii.eqb c sep).
    + destruct (split sep a) as [|l ls]; [contradiction|]. reflexivity.
    + destruct (split sep a) as [|l [|l0 ls]]; [contradiction| |];
        reflexivity.
Qed.

Lemma lineOf_split content index :
  lineOf content index
  = last (split newline (firstn index content)) []
    ++ hd [] (split newline (skipn index content)).
Proof.
  unfold lineOf, RuleEngine.getLineAndColumn. cbv zeta.
  cbn [Position.line]. rewrite substring_0.
  rewrite <- (firstn_skipn index content) at 2. rewrite split_app.
  pose proof (split_nonempty newline (firstn index content)) as Hne.
  assert (Hlen : length (removelast (split newline (firstn index content)))
                 = length (split newline (firstn index content)) - 1).
  { destruct (exists_last Hne) as (l & x & ->).
    rewrite removelast_last, length_app. cbn [length]. lia. }
  rewrite app_nth2 by lia. rewrite Hlen, Nat.sub_diag. reflexivity.
Qed.

Lemma hd_split_plain sep (l : text) :
  ~ In sep l -> hd [] (split sep l) = l.
Proof. intros H. now rewrite split_plain. Qed.

Lemma hd_split_sep sep (l rest : text) :
  ~ In sep l -> hd [] (split sep (l ++ sep :: rest)) = l.
Proof. intros H. now rewrite split_app_sep. Qed.

Lemma forallb_blank_plain (l : text) :
  forallb (Re.oneOf RuleEngine.blank) l = true -> ~ In newline l.
Proof.
  intros Hall Hin.
  pose proof (proj1 (forallb_forall _ l) Hall newline Hin) as H.
  discriminate.
Qed.

Lemma matched_length (s : text) i len :
  i + len <= length s -> length (matched s i len) = len.
Proof.
  intros H. unfold matched. rewrite length_firstn, length_skipn. lia.
Qed.

Lemma jsmatch_trailingRule s i len :
  JS.jsmatch trailingRule s i = Some len ->
  0 < len /\ i + len <= length s /\
  forallb (Re.oneOf RuleEngine.blank) (matched s i len) = true /\
  match JS.charAt s (i + len) with
  | Some c => Re.isLineTerminator c = true
  | None => True
  end.
Proof.
  intros H.
  assert (Hpos : 0 < len).
  { destruct len; [|lia].
    now apply (jsmatch_nonempty trailingRule s i) in H. }
  unfold JS.jsmatch in H.
  change (JS.run (source trailingRule) s i (fun j => Some j))
    with (JS.run (Re.Plus (Re.Class (Re.oneOf RuleEngine.blank))) s i
            (fun j => JS.run Re.LineEnd s j (fun j0 => Some j0))) in H.
  destruct (JS.run _ s i _) as [e|] eqn:E; [|discriminate].
  inversion H; subst len. clear H.
  destruct (run_reaches (Re.oneOf RuleEngine.blank)
              (Re.Plus (Re.Class (Re.oneOf RuleEngine.blank)))
              ltac:(cbn; auto) s i _ e E) as (j & Hj & Hk & Hs).
  cbn [JS.run] in Hk.
  assert (Hje : j = e /\ match JS.charAt s j with
                         | Some c => Re.isLineTerminator c = true
                         | None => True
                         end).
  { destruct (JS.charAt s j) as [c|]; [|now inversion Hk].
    destruct (Re.isLineTerminator c); [now inversion Hk|discriminate]. }
  destruct Hje as [-> Hend].
  assert (Hle : e <= length s).
  { destruct (Nat.le_gt_cases e (length s)) as [|Hgt]; [assumption|].
    destruct (Hs i ltac:(lia)) as (c0 & Hc0 & _).
    assert (i < length s) by (apply nth_error_Some; unfold JS.charAt in Hc0;
                              congruence).
    destruct (Hs (length s) ltac:(lia)) as (c & Hc & _).
    assert (JS.charAt s (length s) = None) by (apply charAt_None; lia).
    congruence. }
  split; [exact Hpos|]. split; [lia|]. split.
  - apply span_forallb. now replace (i + (e - i)) with e by lia.
  - now replace (i + (e - i)) with e by lia.
Qed.

Lemma ends_in_blank (before blanks : text) :
  blanks <> [] ->
  forallb (Re.oneOf RuleEngine.blank) blanks = true ->
  replaceFirst JS.jsmatch CodeFixer.trailingBlanks (before ++ blanks) []
  <> before ++ blanks.
Proof.
  intros Hne Hall Heq.
  destruct (strip_trailing (before ++ blanks)) as (removed & _ & _ & Hlast).
  destruct (exists_last Hne) as (bs & c & ->).
  rewrite Heq, app_assoc in Hlast. specialize (Hlast _ c eq_refl).
  rewrite forallb_app in Hall. cbn [forallb] in Hall.
  apply andb_true_iff in Hall as [_ Hc]. rewrite andb_true_r in Hc.
  congruence.
Qed.

Lemma trailing_match_line content index len :
  ~ In carriageReturn content ->
  JS.jsmatch trailingRule content index = Some len ->
  exists before blanks,
    lineOf content index = before ++ blanks /\ blanks <> [] /\
    forallb (Re.oneOf RuleEngine.blank) blanks = true.
Proof.
  intros Hcr Hm.
  destruct (jsmatch_trailingRule content index len Hm)
    as (Hpos & Hle & Hall & Hend).
  exists (last (split newline (firstn index content)) []),
         (matched content index len).
  split; [|split; [|exact Hall]].
  - rewrite lineOf_split. f_equal.
    assert (Hsk : skipn index content
                  = matched content index len
                    ++ skipn (index + len) content).
    { unfold matched. rewrite <- (firstn_skipn len (skipn index content)) at 1.
      now rewrite skipn_skipn, (Nat.add_comm len index). }
    rewrite Hsk.
    destruct (JS.charAt content (index + len)) as [c|] eqn:Ec.
    + rewrite (skipn_charAt content _ c Ec).
      assert (c = newline).
      { unfold Re.isLineTerminator in Hend.
        apply orb_true_iff in Hend as [H|H]; apply Ascii.eqb_eq in H;
          [exact H|].
        exfalso. apply Hcr. subst c. apply nth_error_In in Ec. exact Ec. }
      subst c. apply hd_split_sep. now apply forallb_blank_plain.
    + apply charAt_None in Ec. rewrite skipn_all2 by lia.
      rewrite app_nil_r. apply hd_split_plain. now apply forallb_blank_plain.
  - intros Hnil. apply (f_equal (@length ascii)) in Hnil.
    rewrite matched_length in Hnil by lia. cbn [length] in Hnil. lia.
Qed.

(** X26. What the rule [no-trailing-spaces] reports, the fixer fixes: in
    a text without carriage returns, for every finding of that rule that
    the rule engine of the catalog returns, with the reference matcher,
    [fixTrailingSpaces] on that finding and that text reports a fix. *)
Theorem reported_trailing_spaces_are_fixed
    (content : text) (filePath : string)
    (fs : list Finding.t) (f : Finding.t) :
  ~ In carriageReturn content ->
  RuleEngine.analyze JS.jsmatch (RuleEngine.new []) content filePath
    = Returns fs ->
  In f fs ->
  Finding.rule f = "no-trailing-spaces"%string ->
  CodeFixer.fixed (CodeFixer.fixTrailingSpaces JS.jsmatch f content) = true.
Proof.
  intros Hcr Hfs Hin Hrule.
  destruct (rule_finding_origin JS.jsmatch _ content filePath fs f Hfs Hin)
    as (n & rule & re & index & len & _ & Hr & Hp & Hi & Hm & _ & ->).
  cbn [violation Finding.rule] in Hrule. subst n.
  change (obj_get "no-trailing-spaces"
            (RuleEngine.rules (RuleEngine.new [])))
    with (Some (defaultRule "no-trailing-spaces")) in Hr.
  injection Hr as <-.
  change (RuleEngine.pattern (defaultRule "no-trailing-spaces"))
    with (Some trailingRule) in Hp.
  injection Hp as <-.
  destruct (trailing_match_line content index len Hcr Hm)
    as (before & blanks & Hline & Hne & Hall).
  set (v := violation (defaultRule "no-trailing-spaces")
              "no-trailing-spaces" content filePath index len).
  assert (Hv : Finding.line v
               = Position.line (RuleEngine.getLineAndColumn content index))
    by reflexivity.
  assert (Hon : CodeFixer.onLine v (split newline content) = true).
  { apply onLine_spec. rewrite Hv.
    pose proof (lineOf_defined content index) as Hl.
    assert (Position.line (RuleEngine.getLineAndColumn content index) - 1
            < length (split newline content))
      by (apply nth_error_Some; congruence).
    pose proof (split_nonempty newline (firstn index content)) as Hs.
    unfold RuleEngine.getLineAndColumn in *. cbv zeta in *.
    cbn [Position.line] in *. rewrite substring_0 in *.
    destruct (split newline (firstn index content)); [contradiction|].
    cbn [length] in *. lia. }
  unfold CodeFixer.fixTrailingSpaces. cbv zeta. rewrite Hon, Hv.
  fold (lineOf content index). rewrite Hline.
  destruct (text_eqb _ (before ++ blanks)) eqn:Eq; [|reflexivity].
  apply text_eqb_eq in Eq. now apply ends_in_blank in Eq.
Qed.

Lemma reported_trailing_spaces_are_fixed_witness :
  ~ In carriageReturn trailingText /\
  RuleEngine.analyze JS.jsmatch (RuleEngine.new []) trailingText "a.js"
  = Returns [violation (defaultRule "no-trailing-spaces")
               "no-trailing-spaces" trailingText "a.js" 1 2] /\
  CodeFixer.fixed
    (CodeFixer.fixTrailingSpaces JS.jsmatch
       (violation (defaultRule "no-trailing-spaces") "no-trailing-spaces"
          trailingText "a.js" 1 2) trailingText) = true.
Proof.
  assert (Hcr : ~ In carriageReturn trailingText).
  { intros H. vm_compute in H. repeat destruct H as [H|H]; congruence. }
  assert (Hfs : RuleEngine.analyze JS.jsmatch (RuleEngine.new []) trailingText
                  "a.js"
                = Returns [violation (defaultRule "no-trailing-spaces")
                             "no-trailing-spaces" trailingText "a.js" 1 2])
    by (vm_compute; reflexivity).
  split; [exact Hcr|]. split; [exact Hfs|].
  exact (reported_trailing_spaces_are_fixed trailingText "a.js" _ _ Hcr Hfs
           (or_introl eq_refl) eq_refl).
Defined.

(** The hypothesis on carriage returns is needed: before a carriage
    return the rule reports the blanks, and the fixer leaves them. *)
Example crlf_reported_not_fixed :
  RuleEngine.analyze JS.jsmatch (RuleEngine.new []) crlfText "a.js"
  = Returns [violation (defaultRule "no-trailing-spaces")
               "no-trailing-spaces" crlfText "a.js" 1 2] /\
  CodeFixer.fixTrailingSpaces JS.jsmatch
    (violation (defaultRule "no-trailing-spaces") "no-trailing-spaces"
       crlfText "a.js" 1 2) crlfText
  = {| CodeFixer.fixed := false; CodeFixer.content := crlfText |}.
Proof. split; vm_compute; reflexivity. Qed.

(** ** The reference matcher against the syntax of a pattern *)

Lemma run_sound (r : Re.node) : forall s i k e,
  JS.run r s i k = Some e ->
  exists j, matches s r i j /\ k j = Some e.
Proof.
  induction r as [|c|p|a IHa b IHb|a IHa b IHb|a IHa|a IHa| | |];
    intros s i k e H; cbn [JS.run] in H.
  - exists i. split; [constructor|exact H].
  - destruct (JS.charAt s i) as [d|] eqn:Ed; [|discriminate].
    destruct (Ascii.eqb_spec c d) as [->|]; [|discriminate].
    exists (S i). split; [now constructor|exact H].
  - destruct (JS.charAt s i) as [d|] eqn:Ed; [|discriminate].
    destruct (p d) eqn:Ep; [|discriminate].
    exists (S i). split; [now apply matches_class with d|exact H].
  - destruct (IHa s i _ e H) as (j1 & Hm1 & Hk1).
    destruct (IHb s j1 k e Hk1) as (j2 & Hm2 & Hk2).
    exists j2. split; [now apply matches_seq with j1|exact Hk2].
  - destruct (JS.run a s i k) as [e0|] eqn:Ea.
    + inversion H; subst e0. destruct (IHa s i k e Ea) as (j & Hm & Hk).
      exists j. split; [now apply matches_alt_l|exact Hk].
    + destruct (IHb s i k e H) as (j & Hm & Hk).
      exists j. split; [now apply matches_alt_r|exact Hk].
  - revert i e H. generalize (length s) as n.
    induction n as [|n IHn]; intros i e H.
    + exists i. split; [constructor|exact H].
    + match type of H with
      | match ?scrutinee with _ => _ end = _ =>
          destruct scrutinee as [e0|] eqn:Ea
      end.
      * inversion H; subst e0.
        destruct (IHa s i _ e Ea) as (j1 & Hm1 & Hk1).
        destruct (Nat.ltb_spec i j1) as [Hlt|]; [|discriminate].
        destruct (IHn j1 e Hk1) as (j2 & Hm2 & Hk2).
        exists j2. split; [now apply matches_star_cons with j1|exact Hk2].
      * exists i. split; [constructor|exact H].
  - destruct (JS.run a s i (fun j => Some j)); [discriminate|].
    exists i. split; [constructor|exact H].
  - exists i. split.
    + constructor. destruct i as [|i']; [exact I|].
      destruct (JS.charAt s i') as [c|]; [|discriminate].
      destruct (Re.isLineTerminator c) eqn:Ec; [|discriminate].
      now exists c.
    + destruct i as [|i']; [exact H|].
      destruct (JS.charAt s i') as [c|]; [|discriminate].
      destruct (Re.isLineTerminator c); [exact H|discriminate].
  - exists i. split.
    + constructor. destruct (JS.charAt s i) as [c|]; [|exact I].
      destruct (Re.isLineTerminator c); [reflexivity|discriminate].
    + destruct (JS.charAt s i) as [c|]; [|exact H].
      destruct (Re.isLineTerminator c); [exact H|discriminate].
  - exists i. split; [constructor|].
    match type of H with
    | (if ?b then _ else _) = _ => destruct b; [exact H|discriminate]
    end.
Qed.

Lemma jsmatch_sound re s i len :
  JS.jsmatch re s i = Some len ->
  exists e, matches s (source re) i e /\ len = e - i.
Proof.
  unfold JS.jsmatch. intros H.
  destruct (JS.run (source re) s i (fun j => Some j)) as [e|] eqn:E;
    [|discriminate].
  destruct (run_sound _ _ _ _ _ E) as (j & Hm & Hk).
  inversion Hk; subst j. inversion H. now exists e.
Qed.

Lemma matches_le s r i j : matches s r i j -> i <= j.
Proof. induction 1; lia. Qed.

Lemma matches_star_class s p i j :
  matches s (Re.Star (Re.Class p)) i j -> i <= j /\ span p s i j.
Proof.
  remember (Re.Star (Re.Class p)) as r eqn:Er. intros H.
  induction H as [| | | | | |a i|a i j k Ha _ Hlt Hs IH| | | |];
    try discriminate.
  - split; [lia|]. intros x Hx. lia.
  - inversion Er; subst a. specialize (IH eq_refl) as [Hle Hsp].
    inversion Ha as [| |p' c i' Hc Hp| | | | | | | | |]; subst.
    split; [lia|]. intros x Hx.
    destruct (Nat.eq_dec x i) as [->|]; [now exists c|].
    apply Hsp. lia.
Qed.

Lemma charAt_lt (s : text) i c : JS.charAt s i = Some c -> i < length s.
Proof. intros H. apply nth_error_Some. unfold JS.charAt in H. congruence. Qed.

(** ** What the rule reports, the fixer fixes: empty lines *)

Lemma emptyLines_match s i len :
  JS.jsmatch CodeFixer.emptyLines s i = Some len ->
  3 <= len /\ i + len <= length s.
Proof.
  intros H. destruct (jsmatch_sound _ _ _ _ H) as (e & Hm & ->).
  unfold CodeFixer.emptyLines in Hm. cbn [source Re.seqs] in Hm.
  inversion Hm as [| | |? ? ? ? ? Ma1 Mr1| | | | | | | |]; subst.
  inversion Ma1; subst.
  inversion Mr1 as [| | |? ? ? ? ? Ma2 Mr2| | | | | | | |]; subst.
  apply matches_le in Ma2.
  inversion Mr2 as [| | |? ? ? ? ? Ma3 Mr3| | | | | | | |]; subst.
  inversion Ma3; subst.
  inversion Mr3 as [| | |? ? ? ? ? Ma4 Mr4| | | | | | | |]; subst.
  apply matches_le in Ma4.
  inversion Mr4 as [|? ? Hc5| | | | | | | | | |]; subst.
  apply charAt_lt in Hc5. lia.
Qed.

Lemma substitute_length (s replacement : text) : forall ms pos,
  pos <= length s ->
  Forall (fun m => fst m + snd m <= length s
                   /\ length replacement <= snd m) ms ->
  length (substitute s replacement pos ms) <= length s - pos.
Proof.
  induction ms as [|[i len] ms IH]; intros pos Hpos Hms; cbn [substitute].
  - rewrite length_skipn. lia.
  - inversion Hms as [|? ? [Hb Hr] Hms']; subst. cbn [fst snd] in *.
    destruct (Nat.leb_spec pos i) as [Hle|Hgt]; [|now apply IH].
    rewrite !length_app. specialize (IH (i + len) Hb Hms').
    unfold substring. rewrite Nat.max_r, Nat.min_l by lia.
    rewrite length_firstn, length_skipn. lia.
Qed.

Lemma search_somewhere rmatch re s i len :
  i <= length s -> rmatch re s i = Some len ->
  exists j l, search rmatch re s 0 (length s) = Some (j, l).
Proof.
  intros Hi Hm.
  destruct (search rmatch re s 0 (length s)) as [[j l]|] eqn:Es;
    [now exists j, l|].
  pose proof (search_none rmatch _ _ _ _ Es i ltac:(lia)). congruence.
Qed.

Lemma matchAll_step rmatch fuel re s lastIndex :
  matchAll rmatch (S fuel) re s lastIndex
  = if length s <? lastIndex then []
    else match search rmatch re s lastIndex (length s - lastIndex) with
         | None => []
         | Some (index, len) =>
             (index, len)
             :: matchAll rmatch fuel re s
                  (if len =? 0 then S (index + len) else index + len)
         end.
Proof. reflexivity. Qed.

Lemma replaceAll_emptyLines_shrinks content index len :
  index <= length content ->
  JS.jsmatch CodeFixer.emptyLines content index = Some len ->
  length (replaceAll JS.jsmatch CodeFixer.emptyLines content
            [newline; newline]) < length content.
Proof.
  intros Hi Hm. unfold replaceAll.
  destruct (search_somewhere JS.jsmatch _ _ _ _ Hi Hm) as (j & l & Es).
  pose proof (matchAll_matches JS.jsmatch CodeFixer.emptyLines content
                (S (S (length content))) 0) as Hall.
  rewrite matchAll_step in *.
  replace (length content <? 0) with false in * by reflexivity.
  rewrite Nat.sub_0_r in *. rewrite Es in *.
  inversion Hall as [|? ? Hfirst Hrest]; subst. cbn [fst snd] in Hfirst.
  destruct (emptyLines_match _ _ _ Hfirst) as [H3 Hb].
  cbn [substitute Nat.leb]. rewrite !length_app.
  unfold substring. rewrite Nat.max_r, Nat.min_l by lia.
  cbn [skipn]. rewrite length_firstn.
  match goal with
  | |- context [substitute content ?r (j + l) ?ms] =>
      assert (Hrest' : length (substitute content r (j + l) ms)
                       <= length content - (j + l))
  end.
  { apply substitute_length; [exact Hb|].
    eapply Forall_impl; [|exact Hrest].
    intros [i0 l0] H0. cbn [fst snd] in *.
    destruct (emptyLines_match _ _ _ H0). cbn [length]. lia. }
  cbn [length] in *. lia.
Qed.

(** X27. What the rule [no-multiple-empty-lines] reports, the fixer
    fixes: whenever the rule engine of the catalog returns a finding of
    that rule for a text, with the reference matcher,
    [fixMultipleEmptyLines] on that text reports a fix and returns a
    shorter text, whatever finding it is given. *)
Theorem reported_empty_lines_are_fixed
    (content : text) (filePath : string)
    (fs : list Finding.t) (f result : Finding.t) :
  RuleEngine.analyze JS.jsmatch (RuleEngine.new []) content filePath
    = Returns fs ->
  In f fs ->
  Finding.rule f = "no-multiple-empty-lines"%string ->
  let r := CodeFixer.fixMultipleEmptyLines JS.jsmatch result content in
  CodeFixer.fixed r = true /\
  length (CodeFixer.content r) < length content.
Proof.
  intros Hfs Hin Hrule.
  destruct (rule_finding_origin JS.jsmatch _ content filePath fs f Hfs Hin)
    as (n & rule & re & index & len & _ & Hr & Hp & Hi & Hm & _ & ->).
  cbn [violation Finding.rule] in Hrule. subst n.
  change (obj_get "no-multiple-empty-lines"
            (RuleEngine.rules (RuleEngine.new [])))
    with (Some (defaultRule "no-multiple-empty-lines")) in Hr.
  injection Hr as <-.
  change (RuleEngine.pattern (defaultRule "no-multiple-empty-lines"))
    with (Some CodeFixer.emptyLines) in Hp.
  injection Hp as <-.
  pose proof (replaceAll_emptyLines_shrinks content index len Hi Hm) as Hlt.
  cbv zeta. unfold CodeFixer.fixMultipleEmptyLines.
  cbn [CodeFixer.fixed CodeFixer.content]. split; [|exact Hlt].
  destruct (text_eqb _ content) eqn:Eq; [|reflexivity].
  apply text_eqb_eq in Eq. rewrite Eq in Hlt. lia.
Qed.

Lemma reported_empty_lines_are_fixed_witness :
  RuleEngine.analyze JS.jsmatch (RuleEngine.new []) gappedText "a.js"
  = Returns [violation (defaultRule "no-multiple-empty-lines")
               "no-multiple-empty-lines" gappedText "a.js" 1 3] /\
  CodeFixer.fixMultipleEmptyLines JS.jsmatch
    (reported "no-multiple-empty-lines" 1) gappedText
  = {| CodeFixer.fixed := true;
       CodeFixer.content := lit "a" ++ [newline; newline] ++ lit "b" |} /\
  length (lit "a" ++ [newline; newline] ++ lit "b") < length gappedText.
Proof.
  assert (Hfs : RuleEngine.analyze JS.jsmatch (RuleEngine.new []) gappedText
                  "a.js"
                = Returns [violation (defaultRule "no-multiple-empty-lines")
                             "no-multiple-empty-lines" gappedText "a.js" 1 3])
    by (vm_compute; reflexivity).
  assert (Hr : CodeFixer.fixMultipleEmptyLines JS.jsmatch
                 (reported "no-multiple-empty-lines" 1) gappedText
               = {| CodeFixer.fixed := true;
                    CodeFixer.content :=
                      lit "a" ++ [newline; newline] ++ lit "b" |})
    by (vm_compute; reflexivity).
  split; [exact Hfs|]. split; [exact Hr|].
  pose proof (proj2 (reported_empty_lines_are_fixed gappedText "a.js" _ _
                       (reported "no-multiple-empty-lines" 1) Hfs
                       (or_introl eq_refl) eq_refl)) as H.
  cbv zeta in H. rewrite Hr in H. exact H.
Defined.

(** ** What the rule reports, the fixer fixes: mixed indentation *)

Lemma violation_onLine rule ruleName content filePath index len :
  CodeFixer.onLine (violation rule ruleName content filePath index len)
    (split newline content) = true /\
  nth (Finding.line (violation rule ruleName content filePath index len) - 1)
      (split newline content) []
  = lineOf content index.
Proof.
  split; [|reflexivity].
  apply onLine_spec. cbn [violation Finding.line].
  pose proof (lineOf_defined content index) as Hl.
  assert (Position.line (RuleEngine.getLineAndColumn content index) - 1
          < length (split newline content))
    by (apply nth_error_Some; congruence).
  pose proof (split_nonempty newline (firstn index content)) as Hs.
  unfold RuleEngine.getLineAndColumn in *. cbv zeta in *.
  cbn [Position.line] in *. rewrite substring_0 in *.
  destruct (split newline (firstn index content)); [contradiction|].
  cbn [length] in *. lia.
Qed.

Lemma last_split_snoc sep (a : text) : last (split sep (a ++ [sep])) [] = [].
Proof.
  rewrite split_app. cbn [split]. rewrite Ascii.eqb_refl. cbn [hd tl].
  rewrite app_assoc. apply last_last.
Qed.

Lemma firstn_succ_charAt (s : text) i c :
  JS.charAt s i = Some c -> firstn (S i) s = firstn i s ++ [c].
Proof. exact (firstn_succ_snoc s i c). Qed.

Lemma hd_split_cons sep (w : text) c rest :
  ~ In sep w -> c <> sep ->
  hd [] (split sep (w ++ c :: rest)) = w ++ c :: hd [] (split sep rest).
Proof.
  intros Hw Hc. induction w as [|a w IH]; cbn [app split].
  - destruct (Ascii.eqb_spec c sep); [contradiction|].
    pose proof (split_nonempty sep rest).
    destruct (split sep rest); [contradiction|reflexivity].
  - destruct (Ascii.eqb_spec a sep) as [->|]; [destruct Hw; now left|].
    assert (Hw' : ~ In sep w) by (intros H; apply Hw; now right).
    specialize (IH Hw').
    pose proof (split_nonempty sep (w ++ c :: rest)).
    destruct (split sep (w ++ c :: rest)); [contradiction|].
    cbn [hd] in *. now rewrite IH.
Qed.

Lemma span_firstn P (s : text) i j :
  i <= j -> span P s i j ->
  forallb P (firstn (j - i) (skipn i s)) = true.
Proof.
  intros Hle Hs. apply span_forallb. now replace (i + (j - i)) with j by lia.
Qed.

Lemma matches_seq_inv s a b i k :
  matches s (Re.Seq a b) i k ->
  exists j, matches s a i j /\ matches s b j k.
Proof. intros H. inversion H; subst. eauto. Qed.

Lemma matches_char_inv s c i j :
  matches s (Re.Char c) i j -> JS.charAt s i = Some c /\ j = S i.
Proof. intros H. inversion H; subst. auto. Qed.

Lemma matches_class_inv s p i j :
  matches s (Re.Class p) i j ->
  exists c, JS.charAt s i = Some c /\ p c = true /\ j = S i.
Proof. intros H. inversion H; subst. eauto. Qed.

Lemma matches_lineStart_inv s i j :
  matches s Re.LineStart i j ->
  j = i /\
  match i with
  | O => True
  | S i' => exists c, JS.charAt s i' = Some c
                      /\ Re.isLineTerminator c = true
  end.
Proof. intros H. inversion H; subst. auto. Qed.

Lemma mixed_match_line content index len :
  ~ In carriageReturn content ->
  JS.jsmatch mixedRule content index = Some len ->
  exists w c rest,
    lineOf content index = hd [] (split newline (w ++ c :: rest)) /\
    forallb (Re.oneOf RuleEngine.blank) w = true /\
    In "009"%char w /\
    Re.noneOf RuleEngine.blank c = true.
Proof.
  intros Hcr H. destruct (jsmatch_sound _ _ _ _ H) as (e & Hm & _).
  unfold mixedRule in Hm. cbn [source Re.seqs] in Hm.
  apply matches_seq_inv in Hm as (j0 & Ma1 & Hm).
  apply matches_lineStart_inv in Ma1 as [-> Hstart].
  apply matches_seq_inv in Hm as (j1 & Ma2 & Hm).
  apply matches_star_class in Ma2 as [Hle2 Hs2].
  apply matches_seq_inv in Hm as (j2 & Ma3 & Hm).
  apply matches_char_inv in Ma3 as [Htab ->].
  apply matches_seq_inv in Hm as (j3 & Ma4 & Hm).
  apply matches_star_class in Ma4 as [Hle4 Hs4].
  apply matches_class_inv in Hm as (c & Hc & Hnone & _).
  assert (Hspan : span (Re.oneOf RuleEngine.blank) content index j3).
  { intros x Hx. destruct (Nat.lt_ge_cases x j1) as [|Hge];
      [apply Hs2; lia|].
    destruct (Nat.eq_dec x j1) as [->|]; [now exists "009"%char|].
    apply Hs4. lia. }
  assert (Hj3 : j3 < length content) by (now apply charAt_lt in Hc).
  exists (firstn (j3 - index) (skipn index content)), c,
         (skipn (S j3) content).
  assert (Hsk : skipn index content
                = firstn (j3 - index) (skipn index content)
                  ++ c :: skipn (S j3) content).
  { rewrite <- (firstn_skipn (j3 - index) (skipn index content)) at 1.
    f_equal. rewrite skipn_skipn.
    replace (j3 - index + index) with j3 by lia.
    now apply skipn_charAt. }
  split; [|split; [|split]].
  - rewrite lineOf_split, <- Hsk.
    replace (last (split newline (firstn index content)) [])
      with (@nil ascii); [reflexivity|].
    destruct index as [|i']; [reflexivity|].
    destruct Hstart as (d & Hd & Hlt).
    assert (d = newline).
    { unfold Re.isLineTerminator in Hlt.
      apply orb_true_iff in Hlt as [E|E]; apply Ascii.eqb_eq in E;
        [exact E|].
      exfalso. apply Hcr. subst d. apply nth_error_In in Hd. exact Hd. }
    subst d. rewrite (firstn_succ_charAt content i' newline Hd).
    symmetry. apply last_split_snoc.
  - apply span_firstn; [lia|exact Hspan].
  - assert (Hnth : nth_error (firstn (j3 - index) (skipn index content))
                     (j1 - index) = Some "009"%char).
    { rewrite nth_error_firstn.
      replace (j1 - index <? j3 - index) with true
        by (symmetry; apply Nat.ltb_lt; lia).
      rewrite nth_error_skipn. replace (index + (j1 - index)) with j1 by lia.
      exact Htab. }
    now apply nth_error_In in Hnth.
  - exact Hnone.
Qed.

Lemma first_ink (l : text) :
  forallb Re.space l = false ->
  exists w c rest,
    l = w ++ c :: rest /\ forallb Re.space w = true /\ Re.space c = false.
Proof.
  induction l as [|a l IH]; [discriminate|]. cbn [forallb]. intros H.
  destruct (Re.space a) eqn:Ea.
  - destruct (IH H) as (w & c & rest & -> & Hw & Hc).
    exists (a :: w), c, rest. cbn [forallb]. now rewrite Ea.
  - now exists [], a, l.
Qed.

(** X28. What the rule [no-mixed-spaces-and-tabs] reports, the fixer
    fixes: in a text without carriage returns, for every finding of that
    rule that the rule engine of the catalog returns, with the reference
    matcher, whose line holds a character other than white space,
    [fixMixedSpacesAndTabs] on that finding and that text reports a
    fix. *)
Theorem reported_mixed_indentation_is_fixed
    (content : text) (filePath : string)
    (fs : list Finding.t) (f : Finding.t) :
  ~ In carriageReturn content ->
  RuleEngine.analyze JS.jsmatch (RuleEngine.new []) content filePath
    = Returns fs ->
  In f fs ->
  Finding.rule f = "no-mixed-spaces-and-tabs"%string ->
  forallb Re.space (nth (Finding.line f - 1) (split newline content) [])
  = false ->
  CodeFixer.fixed (CodeFixer.fixMixedSpacesAndTabs JS.jsmatch f content)
  = true.
Proof.
  intros Hcr Hfs Hin Hrule Hink.
  destruct (rule_finding_origin JS.jsmatch _ content filePath fs f Hfs Hin)
    as (n & rule & re & index & len & _ & Hr & Hp & Hi & Hm & _ & ->).
  cbn [violation Finding.rule] in Hrule. subst n.
  change (obj_get "no-mixed-spaces-and-tabs"
            (RuleEngine.rules (RuleEngine.new [])))
    with (Some (defaultRule "no-mixed-spaces-and-tabs")) in Hr.
  injection Hr as <-.
  change (RuleEngine.pattern (defaultRule "no-mixed-spaces-and-tabs"))
    with (Some mixedRule) in Hp.
  injection Hp as <-.
  set (v := violation (defaultRule "no-mixed-spaces-and-tabs")
              "no-mixed-spaces-and-tabs" content filePath index len) in *.
  destruct (violation_onLine (defaultRule "no-mixed-spaces-and-tabs")
              "no-mixed-spaces-and-tabs" content filePath index len)
    as [Hon Hline].
  fold v in Hon, Hline. apply onLine_spec in Hon.
  destruct (mixed_match_line content index len Hcr Hm)
    as (w & c & rest & Hl & Hw & Htab & Hc).
  rewrite Hline in Hink.
  assert (Hplain : ~ In newline w) by (now apply forallb_blank_plain).
  assert (Hwsp : forallb Re.space w = true)
    by (exact (forallb_impl _ _ _ blank_is_space Hw)).
  assert (Hcn : c <> newline).
  { intros ->. rewrite Hl, hd_split_sep in Hink by exact Hplain.
    congruence. }
  rewrite hd_split_cons in Hl by assumption.
  destruct (first_ink _ Hink) as (w' & c' & rest' & Hl' & Hw' & Hc').
  destruct (proj2 (fixMixedSpacesAndTabs_spec v content Hon)
              w' c' rest' ltac:(rewrite Hline; exact Hl') Hw' Hc')
    as [Hfixed _].
  rewrite Hfixed. apply Nat.ltb_lt.
  apply (proj1 (count_occ_In ascii_dec w' "009"%char)).
  assert (Hlen : length w <= length w').
  { destruct (Nat.le_gt_cases (length w) (length w')) as [|Hgt];
      [assumption|exfalso].
    assert (Hn : nth_error (lineOf content index) (length w') = Some c').
    { rewrite Hl', nth_error_app2, Nat.sub_diag by lia. reflexivity. }
    rewrite Hl, nth_error_app1 in Hn by lia.
    rewrite (forallb_charAt _ w _ _ Hwsp Hn) in Hc'. discriminate. }
  assert (Hpre : w = firstn (length w) w').
  { assert (E : firstn (length w) (lineOf content index) = w).
    { rewrite Hl, firstn_app, Nat.sub_diag, firstn_all. cbn [firstn].
      apply app_nil_r. }
    rewrite Hl', firstn_app in E.
    replace (length w - length w') with 0 in E by lia.
    cbn [firstn] in E. rewrite app_nil_r in E. now symmetry. }
  rewrite Hpre in Htab. revert Htab. apply In_firstn.
Qed.

Lemma reported_mixed_indentation_is_fixed_witness :
  ~ In carriageReturn tabbedText /\
  RuleEngine.analyze JS.jsmatch (RuleEngine.new []) tabbedText "a.js"
  = Returns [violation (defaultRule "no-mixed-spaces-and-tabs")
               "no-mixed-spaces-and-tabs" tabbedText "a.js" 2 3] /\
  CodeFixer.fixed
    (CodeFixer.fixMixedSpacesAndTabs JS.jsmatch
       (violation (defaultRule "no-mixed-spaces-and-tabs")
          "no-mixed-spaces-and-tabs" tabbedText "a.js" 2 3) tabbedText)
  = true.
Proof.
  assert (Hcr : ~ In carriageReturn tabbedText).
  { intros H. vm_compute in H. repeat destruct H as [H|H]; congruence. }
  assert (Hfs : RuleEngine.analyze JS.jsmatch (RuleEngine.new []) tabbedText
                  "a.js"
                = Returns [violation (defaultRule "no-mixed-spaces-and-tabs")
                             "no-mixed-spaces-and-tabs" tabbedText "a.js"
                             2 3])
    by (vm_compute; reflexivity).
  split; [exact Hcr|]. split; [exact Hfs|].
  exact (reported_mixed_indentation_is_fixed tabbedText "a.js" _ _ Hcr Hfs
           (or_introl eq_refl) eq_refl eq_refl).
Defined.

(** ** The fix of empty lines, on the text ahead *)

Lemma starClass_step p s k n i :
  starClass p s k (S n) i
  = match
      match JS.charAt s i with
      | Some d =>
          if p d then (if i <? S i then starClass p s k n (S i) else None)
          else None
      | None => None
      end
    with
    | Some e => Some e
    | None => k i
    end.
Proof. reflexivity. Qed.

Lemma starClass_list p s k K :
  (forall j, j <= length s ->
             k j = option_map (Nat.add j) (K (skipn j s))) ->
  forall n j, j <= length s -> length s <= n + j ->
    starClass p s k n j = option_map (Nat.add j) (starL p K (skipn j s)).
Proof.
  intros Hk. induction n as [|n IH]; intros j Hj Hn.
  - assert (j = length s) by lia. subst j.
    change (starClass p s k 0 (length s)) with (k (length s)).
    rewrite Hk, skipn_all by lia. reflexivity.
  - rewrite starClass_step. destruct (JS.charAt s j) as [d|] eqn:Ed.
    + pose proof (charAt_lt s j d Ed) as Hlt.
      rewrite (skipn_charAt s j d Ed). cbn [starL].
      destruct (p d).
      * replace (j <? S j) with true by (symmetry; apply Nat.ltb_lt; lia).
        rewrite IH by lia.
        destruct (starL p K (skipn (S j) s)) as [m|]; cbn [option_map].
        -- f_equal. lia.
        -- rewrite Hk, (skipn_charAt s j d Ed) by lia. reflexivity.
      * rewrite Hk, (skipn_charAt s j d Ed) by lia. reflexivity.
    + apply charAt_None in Ed. assert (j = length s) by lia. subst j.
      rewrite Hk, skipn_all by lia. reflexivity.
Qed.

Lemma run_char_list s j :
  JS.run (Re.Char newline) s j (fun e => Some e)
  = option_map (Nat.add j) (lineFeed (skipn j s)).
Proof.
  cbn [JS.run]. destruct (JS.charAt s j) as [d|] eqn:Ed.
  - rewrite (skipn_charAt s j d Ed). cbn [lineFeed].
    destruct (Ascii.eqb newline d); cbn [option_map]; [f_equal; lia|
      reflexivity].
  - apply charAt_None in Ed. rewrite skipn_all2 by lia. reflexivity.
Qed.

Lemma option_map_S_add j (o : option nat) :
  option_map (Nat.add (S j)) o = option_map (Nat.add j) (option_map S o).
Proof. destruct o; cbn [option_map]; [f_equal; lia|reflexivity]. Qed.

Lemma run_feedRun_list s j :
  j <= length s ->
  JS.run (Re.Seq (Re.Char newline)
            (Re.Seq (Re.Star (Re.Class Re.space)) (Re.Char newline)))
    s j (fun e => Some e)
  = option_map (Nat.add j) (feedRun (skipn j s)).
Proof.
  intros Hj.
  change (JS.run _ s j _)
    with (match JS.charAt s j with
          | Some d =>
              if Ascii.eqb newline d
              then JS.run (Re.Star (Re.Class Re.space)) s (S j)
                     (fun j' => JS.run (Re.Char newline) s j'
                                  (fun e => Some e))
              else None
          | None => None
          end).
  destruct (JS.charAt s j) as [d|] eqn:Ed.
  - pose proof (charAt_lt s j d Ed) as Hlt.
    rewrite (skipn_charAt s j d Ed). cbn [feedRun].
    destruct (Ascii.eqb newline d); [|reflexivity].
    rewrite run_star_class.
    rewrite (starClass_list Re.space s _ lineFeed) by
      (try lia; intros; apply run_char_list).
    apply option_map_S_add.
  - apply charAt_None in Ed. rewrite skipn_all2 by lia. reflexivity.
Qed.

Lemma run_emptyRun_list s j :
  j <= length s ->
  JS.run (source CodeFixer.emptyLines) s j (fun e => Some e)
  = option_map (Nat.add j) (emptyRun (skipn j s)).
Proof.
  intros Hj.
  change (JS.run _ s j _)
    with (match JS.charAt s j with
          | Some d =>
              if Ascii.eqb newline d
              then JS.run (Re.Star (Re.Class Re.space)) s (S j)
                     (fun j' =>
                        JS.run (Re.Seq (Re.Char newline)
                                  (Re.Seq (Re.Star (Re.Class Re.space))
                                     (Re.Char newline)))
                          s j' (fun e => Some e))
              else None
          | None => None
          end).
  destruct (JS.charAt s j) as [d|] eqn:Ed.
  - pose proof (charAt_lt s j d Ed) as Hlt.
    rewrite (skipn_charAt s j d Ed). cbn [emptyRun].
    destruct (Ascii.eqb newline d); [|reflexivity].
    rewrite run_star_class.
    rewrite (starClass_list Re.space s _ feedRun) by
      (try lia; intros; now apply run_feedRun_list).
    apply option_map_S_add.
  - apply charAt_None in Ed. rewrite skipn_all2 by lia. reflexivity.
Qed.

Lemma jsmatch_emptyLines s i :
  i <= length s ->
  JS.jsmatch CodeFixer.emptyLines s i = emptyRun (skipn i s).
Proof.
  intros Hi. unfold JS.jsmatch. rewrite run_emptyRun_list by exact Hi.
  destruct (emptyRun (skipn i s)); cbn [option_map]; [f_equal; lia|
    reflexivity].
Qed.

Lemma replaceL_skip M replacement : forall l k,
  replaceL M replacement k l = replaceL M replacement 0 (skipn k l).
Proof.
  induction l as [|c l IH]; intros [|k]; cbn [replaceL skipn];
    try reflexivity. apply IH.
Qed.

Lemma replaceL_gap M replacement (s : text) : forall d i,
  (forall x, i <= x < i + d -> M (skipn x s) = None) ->
  i + d <= length s ->
  replaceL M replacement 0 (skipn i s)
  = firstn d (skipn i s) ++ replaceL M replacement 0 (skipn (i + d) s).
Proof.
  induction d as [|d IH]; intros i Hgap Hlen;
    [now rewrite Nat.add_0_r|].
  destruct (charAt_Some s i ltac:(lia)) as (a & Ea).
  pose proof (Hgap i ltac:(lia)) as Hi.
  rewrite (skipn_charAt s i a Ea) in *. cbn [replaceL firstn]. rewrite Hi.
  cbn [app]. f_equal. replace (i + S d) with (S i + d) by lia.
  apply IH; [|lia]. intros x Hx. apply Hgap. lia.
Qed.

Lemma replaceL_match M replacement (s : text) j len :
  M (skipn j s) = Some (S len) -> j < length s ->
  replaceL M replacement 0 (skipn j s)
  = replacement ++ replaceL M replacement 0 (skipn (j + S len) s).
Proof.
  intros Hm Hj. destruct (charAt_Some s j Hj) as (a & Ea).
  rewrite (skipn_charAt s j a Ea) in *. cbn [replaceL]. rewrite Hm.
  f_equal. rewrite replaceL_skip, skipn_skipn. f_equal. f_equal. lia.
Qed.

Lemma emptyRun_nil : emptyRun [] = None.
Proof. reflexivity. Qed.

Lemma substitute_emptyLines replacement (s : text) : forall fuel i,
  length s < fuel + i -> i <= length s ->
  substitute s replacement i
    (matchAll JS.jsmatch fuel CodeFixer.emptyLines s i)
  = replaceL emptyRun replacement 0 (skipn i s).
Proof.
  induction fuel as [|fuel IH]; intros i Hfuel Hi; [lia|].
  rewrite matchAll_step.
  replace (length s <? i) with false by (symmetry; apply Nat.ltb_ge; lia).
  destruct (search JS.jsmatch CodeFixer.emptyLines s i (length s - i))
    as [[j len]|] eqn:Es.
  - destruct (search_spec JS.jsmatch _ _ _ _ _ _ Es) as [Hj Hm].
    pose proof (search_leftmost JS.jsmatch _ _ _ _ _ _ Es) as Hleft.
    destruct (emptyLines_match _ _ _ Hm) as [H3 Hb].
    destruct len as [|len']; [lia|]. cbn [Nat.eqb substitute].
    replace (i <=? j) with true by (symmetry; apply Nat.leb_le; lia).
    rewrite IH by lia.
    rewrite jsmatch_emptyLines in Hm by lia.
    replace j with (i + (j - i)) at 3 by lia.
    rewrite (replaceL_gap emptyRun replacement s (j - i) i); [| |lia].
    + replace (i + (j - i)) with j by lia.
      rewrite (replaceL_match emptyRun replacement s j len' Hm) by lia.
      unfold substring. now rewrite Nat.max_r, Nat.min_l by lia.
    + intros x Hx. rewrite <- jsmatch_emptyLines by lia. apply Hleft. lia.
  - pose proof (search_none JS.jsmatch _ _ _ _ Es) as Hnone.
    cbn [substitute].
    rewrite (replaceL_gap emptyRun replacement s (length s - i) i); [| |lia].
    + replace (i + (length s - i)) with (length s) by lia.
      rewrite skipn_all. cbn [replaceL]. rewrite app_nil_r.
      symmetry. apply firstn_all2. rewrite length_skipn. lia.
    + intros x Hx. rewrite <- jsmatch_emptyLines by lia. apply Hnone. lia.
Qed.

Lemma replaceAll_emptyLines (s replacement : text) :
  replaceAll JS.jsmatch CodeFixer.emptyLines s replacement
  = replaceL emptyRun replacement 0 s.
Proof. unfold replaceAll. now rewrite substitute_emptyLines by lia. Qed.

Lemma newline_is_space c : Ascii.eqb newline c = true -> Re.space c = true.
Proof. intros H. apply Ascii.eqb_eq in H. now subst c. Qed.

Lemma starL_lineFeed (l : text) :
  match starL Re.space lineFeed l with
  | Some m => 1 <= wsNewlines l /\ wsNewlines (skipn m l) = 0
  | None => wsNewlines l = 0
  end.
Proof.
  induction l as [|c l IH]; [reflexivity|]. cbn [starL wsNewlines].
  destruct (Re.space c) eqn:Ec.
  - destruct (starL Re.space lineFeed l) as [m|].
    + destruct IH as [H1 H0]. cbn [skipn]. split; [lia|exact H0].
    + cbn [lineFeed]. destruct (Ascii.eqb newline c).
      * cbn [skipn]. split; [lia|exact IH].
      * lia.
  - cbn [lineFeed]. destruct (Ascii.eqb newline c) eqn:En; [|reflexivity].
    apply newline_is_space in En. congruence.
Qed.

Lemma starL_feedRun (l : text) :
  match starL Re.space feedRun l with
  | Some m => 2 <= wsNewlines l /\ wsNewlines (skipn m l) = 0
  | None => wsNewlines l <= 1
  end.
Proof.
  induction l as [|c l IH]; [cbn; lia|]. cbn [starL wsNewlines].
  destruct (Re.space c) eqn:Ec.
  - destruct (starL Re.space feedRun l) as [m|].
    + destruct IH as [H1 H0]. cbn [skipn]. split; [lia|exact H0].
    + cbn [feedRun]. destruct (Ascii.eqb newline c).
      * pose proof (starL_lineFeed l) as Hl.
        destruct (starL Re.space lineFeed l) as [m|]; cbn [option_map].
        -- destruct Hl as [H1 H0]. cbn [skipn]. split; [lia|exact H0].
        -- lia.
      * lia.
  - cbn [feedRun]. destruct (Ascii.eqb newline c) eqn:En; [|lia].
    apply newline_is_space in En. congruence.
Qed.

Lemma emptyRun_Some c (l : text) n :
  emptyRun (c :: l) = Some n ->
  Ascii.eqb newline c = true /\ 2 <= wsNewlines l /\
  exists m, n = S m /\ wsNewlines (skipn m l) = 0.
Proof.
  cbn [emptyRun]. destruct (Ascii.eqb newline c); [|discriminate].
  pose proof (starL_feedRun l) as Hl.
  destruct (starL Re.space feedRun l) as [m|]; cbn [option_map];
    [|discriminate].
  intros H. inversion H; subst n. destruct Hl as [H2 H0].
  split; [reflexivity|]. split; [exact H2|]. now exists m.
Qed.

Lemma emptyRun_None c (l : text) :
  emptyRun (c :: l) = None <->
  Ascii.eqb newline c = false \/ wsNewlines l <= 1.
Proof.
  cbn [emptyRun]. pose proof (starL_feedRun l) as Hl.
  destruct (Ascii.eqb newline c); [|tauto].
  destruct (starL Re.space feedRun l) as [m|]; cbn [option_map].
  - split; [discriminate|]. intros [H|H]; [discriminate|lia].
  - split; [now right|reflexivity].
Qed.

Lemma wsNewlines_replaceL : forall n (l : text),
  length l <= n ->
  wsNewlines (replaceL emptyRun [newline; newline] 0 l)
  = Nat.min (wsNewlines l) 2.
Proof.
  induction n as [|n IH]; intros [|c l] Hn; cbn [length] in Hn;
    try reflexivity; try lia.
  cbn [replaceL].
  destruct (emptyRun (c :: l)) as [[|len']|] eqn:Er.
  - apply emptyRun_Some in Er as (_ & _ & m & Hm & _). discriminate.
  - apply emptyRun_Some in Er as (Hc & H2 & m & Hm & H0).
    inversion Hm; subst m.
    rewrite replaceL_skip. cbn [app wsNewlines].
    rewrite IH by (rewrite length_skipn; lia). rewrite H0.
    rewrite Hc, (newline_is_space c Hc).
    replace (Re.space newline) with true by reflexivity.
    rewrite Ascii.eqb_refl. lia.
  - apply emptyRun_None in Er. cbn [wsNewlines].
    destruct (Re.space c) eqn:Ec; [|reflexivity].
    rewrite IH by lia.
    destruct Er as [Hc|Hle]; [rewrite Hc; cbn; lia|].
    destruct (Ascii.eqb newline c); cbn; lia.
Qed.

Lemma replaceL_leaves_none : forall n (l : text),
  length l <= n ->
  forall i,
    emptyRun (skipn i (replaceL emptyRun [newline; newline] 0 l)) = None.
Proof.
  induction n as [|n IH]; intros [|c l] Hn i; cbn [length] in Hn;
    try lia; try (cbn [replaceL]; now rewrite skipn_nil).
  cbn [replaceL].
  destruct (emptyRun (c :: l)) as [[|len']|] eqn:Er.
  - apply emptyRun_Some in Er as (_ & _ & m & Hm & _). discriminate.
  - apply emptyRun_Some in Er as (Hc & H2 & m & Hm & H0).
    inversion Hm; subst m. rewrite replaceL_skip. cbn [app].
    assert (Hx : wsNewlines (replaceL emptyRun [newline; newline] 0
                               (skipn len' l)) = 0).
    { rewrite (wsNewlines_replaceL n) by (rewrite length_skipn; lia).
      now rewrite H0. }
    destruct i as [|[|i]]; cbn [skipn].
    + apply emptyRun_None. right. cbn [wsNewlines]. rewrite Hx.
      replace (Re.space newline) with true by reflexivity.
      rewrite Ascii.eqb_refl. lia.
    + apply emptyRun_None. right. lia.
    + apply IH. rewrite length_skipn. lia.
  - assert (Hhead : emptyRun (c :: replaceL emptyRun [newline; newline] 0 l)
                    = None).
    { apply emptyRun_None. apply emptyRun_None in Er.
      destruct Er as [Hc|Hle]; [now left|right].
      rewrite (wsNewlines_replaceL n) by lia. lia. }
    destruct i as [|i]; cbn [skipn]; [exact Hhead|]. apply IH. lia.
Qed.

Lemma fixed_text_has_no_match (content : text) i :
  JS.jsmatch CodeFixer.emptyLines
    (replaceAll JS.jsmatch CodeFixer.emptyLines content [newline; newline]) i
  = None.
Proof.
  rewrite replaceAll_emptyLines.
  set (t := replaceL emptyRun [newline; newline] 0 content).
  destruct (Nat.le_gt_cases i (length t)) as [Hle|Hgt].
  - rewrite jsmatch_emptyLines by exact Hle.
    apply (replaceL_leaves_none (length content)). lia.
  - destruct (JS.jsmatch CodeFixer.emptyLines t i) as [len|] eqn:E;
      [|reflexivity].
    apply emptyLines_match in E. lia.
Qed.

Lemma replaceAll_without_match rmatch re (s replacement : text) :
  (forall i, rmatch re s i = None) ->
  replaceAll rmatch re s replacement = s.
Proof.
  intros Hnone. unfold replaceAll. rewrite matchAll_step.
  replace (length s <? 0) with false by reflexivity.
  rewrite search_nowhere; [reflexivity|]. intros x _. apply Hnone.
Qed.

(** X29. With the reference matcher, the fix of empty lines is
    effective: in the text it returns, its pattern (three line feeds with
    nothing but white space between them) has no match left.  So applied
    again it reports no fix and returns the text as it is, and the rule
    [no-multiple-empty-lines] of the catalog reports nothing on that
    text. *)
Theorem fixMultipleEmptyLines_leaves_none
    (result : Finding.t) (content : text) :
  let r := CodeFixer.fixMultipleEmptyLines JS.jsmatch result content in
  (forall i,
     JS.jsmatch CodeFixer.emptyLines (CodeFixer.content r) i = None) /\
  (forall result',
     CodeFixer.fixMultipleEmptyLines JS.jsmatch result' (CodeFixer.content r)
     = {| CodeFixer.fixed := false;
          CodeFixer.content := CodeFixer.content r |}) /\
  (forall filePath fs f,
     RuleEngine.analyze JS.jsmatch (RuleEngine.new []) (CodeFixer.content r)
       filePath = Returns fs ->
     In f fs ->
     Finding.rule f <> "no-multiple-empty-lines"%string).
Proof.
  cbv zeta. unfold CodeFixer.fixMultipleEmptyLines at 1 2 3 4.
  cbn [CodeFixer.content].
  set (t := replaceAll JS.jsmatch CodeFixer.emptyLines content
              [newline; newline]).
  assert (Hnone : forall i, JS.jsmatch CodeFixer.emptyLines t i = None)
    by (intros i; apply fixed_text_has_no_match).
  split; [exact Hnone|]. split.
  - intros result'. unfold CodeFixer.fixMultipleEmptyLines.
    rewrite (replaceAll_without_match JS.jsmatch _ t _ Hnone).
    assert (Heq : text_eqb t t = true) by (now apply text_eqb_eq).
    now rewrite Heq.
  - intros filePath fs f Hfs Hin Hrule.
    destruct (rule_finding_origin JS.jsmatch _ t filePath fs f Hfs Hin)
      as (n & rule & re & index & len & _ & Hr & Hp & Hi & Hm & _ & ->).
    cbn [violation Finding.rule] in Hrule. subst n.
    change (obj_get "no-multiple-empty-lines"
              (RuleEngine.rules (RuleEngine.new [])))
      with (Some (defaultRule "no-multiple-empty-lines")) in Hr.
    injection Hr as <-.
    change (RuleEngine.pattern (defaultRule "no-multiple-empty-lines"))
      with (Some CodeFixer.emptyLines) in Hp.
    injection Hp as <-. rewrite Hnone in Hm. discriminate.
Qed.

(** ** Composition: the scan of a list of files *)

Lemma analyzeFiles_concat
    (Ast : Type) (readFileSync : string -> outcome text)
    (extname : string -> string) (parseFile : text -> string -> outcome Ast)
    (ruleAnalyze mlAnalyze : Ast -> text -> string -> outcome (list Finding.t))
    (codeFiles : list string) :
  forall acc results,
    Scan.analyzeFiles Ast readFileSync extname parseFile ruleAnalyze mlAnalyze
      codeFiles acc = Returns results <->
    exists perFile,
      Forall2 (fun file fileResults =>
                 Scan.analyzeFile Ast readFileSync extname parseFile
                   ruleAnalyze mlAnalyze file = Returns fileResults)
              codeFiles perFile /\
      results = acc ++ concat perFile.
Proof.
  induction codeFiles as [|file files IH]; intros acc results;
    cbn [Scan.analyzeFiles].
  - split.
    + intros H. inversion H; subst. exists []. split; [constructor|].
      now rewrite app_nil_r.
    + intros (perFile & Hf & ->). inversion Hf; subst.
      now rewrite app_nil_r.
  - destruct (Scan.analyzeFile Ast readFileSync extname parseFile ruleAnalyze
                mlAnalyze file) as [frs|e|] eqn:Ef; cbn [bind].
    + rewrite IH. split.
      * intros (perFile & Hf & ->). exists (frs :: perFile).
        split; [now constructor|]. cbn [concat]. now rewrite app_assoc.
      * intros (perFile & Hf & ->).
        inversion Hf as [|? frs' ? perFile' Hhd Htl]; subst.
        assert (frs' = frs) by congruence. subst frs'.
        exists perFile'. split; [exact Htl|]. cbn [concat].
        now rewrite app_assoc.
    + split; [discriminate|]. intros (perFile & Hf & _).
      inversion Hf; subst. congruence.
    + split; [discriminate|]. intros (perFile & Hf & _).
      inversion Hf; subst. congruence.
Qed.

Lemma analyzeFiles_never_throw
    (Ast : Type) (readFileSync : string -> outcome text)
    (extname : string -> string) (parseFile : text -> string -> outcome Ast)
    (ruleAnalyze mlAnalyze : Ast -> text -> string -> outcome (list Finding.t))
    (codeFiles : list string) :
  forall acc e,
    Scan.analyzeFiles Ast readFileSync extname parseFile ruleAnalyze mlAnalyze
      codeFiles acc <> Throws e.
Proof.
  induction codeFiles as [|file files IH]; intros acc e;
    cbn [Scan.analyzeFiles]; [discriminate|].
  destruct (Scan.analyzeFile Ast readFileSync extname parseFile ruleAnalyze
              mlAnalyze file) as [frs|e0|] eqn:Ef; cbn [bind].
  - apply IH.
  - now apply analyzeFile_never_throws in Ef.
  - discriminate.
Qed.

Lemma analyzeFile_wired
    (Tree : Type) (parseModule parseScript : text -> bool -> outcome Tree)
    (toLowerCase : string -> string)
    (readFileSync : string -> outcome text) (extname : string -> string)
    (rmatch : RegExp -> text -> nat -> option nat)
    (customRules : obj RuleEngine.Rule) (mlAnalyzer : MLAnalyzer.analyzer)
    (file : string) (fileResults : list Finding.t) :
  Scan.analyzeFile (FileAnalyzer.Ast Tree) readFileSync extname
    (FileAnalyzer.parseFile Tree parseModule parseScript toLowerCase)
    (fun _ content path =>
       RuleEngine.analyze rmatch (RuleEngine.new customRules) content path)
    (fun _ content path =>
       MLAnalyzer.analyze rmatch mlAnalyzer content path)
    file = Returns fileResults <->
  match readFileSync file with
  | Throws message => fileResults = [Scan.parsingError file message]
  | Diverges => False
  | Returns content =>
      (exists ast,
         FileAnalyzer.parseFile Tree parseModule parseScript toLowerCase
           content (extname file) = Returns ast) /\
      exists ruleResults mlResults,
        RuleEngine.analyze rmatch (RuleEngine.new customRules) content file
        = Returns ruleResults /\
        MLAnalyzer.analyze rmatch mlAnalyzer content file
        = Returns mlResults /\
        fileResults = ruleResults ++ mlResults
  end.
Proof.
  unfold Scan.analyzeFile, Scan.tryBlock.
  destruct (readFileSync file) as [content|e|].
  - destruct (FileAnalyzer.parseFile Tree parseModule parseScript
                toLowerCase content (extname file)) as [ast|e|] eqn:Ep.
    + destruct (RuleEngine.analyze rmatch (RuleEngine.new customRules)
                  content file) as [rs|e|] eqn:Er.
      * destruct (MLAnalyzer.analyze rmatch mlAnalyzer content file)
          as [ms|e|] eqn:Em.
        -- cbn [app]. split.
           ++ intros H. inversion H; subst. split; [now exists ast|].
              now exists rs, ms.
           ++ intros (_ & rr & mr & Hr & Hm & ->). congruence.
        -- now apply analyze_never_throws in Em.
        -- split; [discriminate|].
           intros (_ & rr & mr & _ & Hm & _). discriminate.
      * now apply rule_analyze_no_throw in Er; [|apply inStep_new].
      * split; [discriminate|].
        intros (_ & rr & mr & Hr & _). discriminate.
    + now apply parseFile_no_throw in Ep.
    + split; [discriminate|]. intros ((ast & Ha) & _). discriminate.
  - cbn [app]. split; [intros H; now inversion H|intros ->; reflexivity].
  - split; [discriminate|tauto].
Qed.

(** X30. The loop of the scan command over the files, with the file
    analyzer, a rule engine as constructed from a table of rules (whose
    patterns, where present, are regular expressions) and the heuristic
    analyzer, never throws; it returns exactly when every file is done
    with, and its result is then the findings of the files one after the
    other, in the order of the files: for a file that cannot be read the
    one finding [file-parsing-error], for any other file the findings of
    the rule engine followed by those of the heuristic analyzer. *)
Theorem scan_results_file_by_file
    (Tree : Type) (parseModule parseScript : text -> bool -> outcome Tree)
    (toLowerCase : string -> string)
    (readFileSync : string -> outcome text) (extname : string -> string)
    (rmatch : RegExp -> text -> nat -> option nat)
    (customRules : obj RuleEngine.Rule) (mlAnalyzer : MLAnalyzer.analyzer)
    (codeFiles : list string) (results : list Finding.t) :
  let parseFile :=
    FileAnalyzer.parseFile Tree parseModule parseScript toLowerCase in
  let ruleAnalyze := fun content path =>
    RuleEngine.analyze rmatch (RuleEngine.new customRules) content path in
  let mlAnalyze := fun content path =>
    MLAnalyzer.analyze rmatch mlAnalyzer content path in
  let analyzeFiles :=
    Scan.analyzeFiles (FileAnalyzer.Ast Tree) readFileSync extname parseFile
      (fun _ => ruleAnalyze) (fun _ => mlAnalyze) in
  (forall e, analyzeFiles codeFiles [] <> Throws e) /\
  (analyzeFiles codeFiles [] = Returns results <->
   exists perFile,
     Forall2 (fun file fileResults =>
                match readFileSync file with
                | Throws message =>
                    fileResults = [Scan.parsingError file message]
                | Diverges => False
                | Returns content =>
                    (exists ast,
                       parseFile content (extname file) = Returns ast) /\
                    exists ruleResults mlResults,
                      ruleAnalyze content file = Returns ruleResults /\
                      mlAnalyze content file = Returns mlResults /\
                      fileResults = ruleResults ++ mlResults
                end) codeFiles perFile /\
     results = concat perFile).
Proof.
  cbv zeta. split; [intros e; apply analyzeFiles_never_throw|].
  rewrite analyzeFiles_concat. cbn [app].
  split; intros (perFile & Hf & ->); exists perFile; (split; [|reflexivity]);
    (eapply Forall2_impl; [|exact Hf]); intros file frs H;
    now apply analyzeFile_wired.
Qed.

(** ** Instances *)

Lemma addRule_stores_with_defaults_witness :
  "no-todo"%string <> "__proto__"%string /\
  arrayIndex "no-todo" = false /\
  exists e',
    RuleEngine.addRule (RuleEngine.new []) "no-todo" noTodo = Some e' /\
    obj_get "no-eval" (RuleEngine.rules e')
    = obj_get "no-eval" (RuleEngine.rules (RuleEngine.new [])) /\
    keys (RuleEngine.rules e')
    = keys RuleEngine.defaultRules ++ ["no-todo"%string].
Proof.
  assert (H : "no-todo"%string <> "__proto__"%string) by discriminate.
  split; [exact H|]. split; [reflexivity|].
  destruct (addRule_stores_with_defaults (RuleEngine.new []) "no-todo" noTodo
              H) as (e' & He' & _ & Hother & _ & _ & Hlast & _).
  exists e'. split; [exact He'|]. split.
  - apply Hother. discriminate.
  - now rewrite (Hlast eq_refl).
Defined.

Lemma applyFix_unfixed_keeps_content_witness :
  inherited (Finding.rule (reported "no-trailing-spaces" 5)) = false /\
  Finding.rule (reported "no-trailing-spaces" 5)
  <> "no-multiple-empty-lines"%string /\
  length (split newline trailingText)
  < Finding.line (reported "no-trailing-spaces" 5) /\
  (exists r,
     CodeFixer.applyFix (CodeFixer.new JS.jsmatch)
       (reported "no-trailing-spaces" 5) (Some trailingText)
     = Returns (CodeFixer.Result r) /\
     CodeFixer.fixed r = false /\
     CodeFixer.content r = trailingText) /\
  inherited (Finding.rule (reported "constructor" 1)) = true /\
  CodeFixer.applyFix (CodeFixer.new JS.jsmatch) (reported "constructor" 1)
    (Some trailingText)
  = Returns CodeFixer.TheFinding.
Proof.
  assert (Hrule : Finding.rule (reported "no-trailing-spaces" 5)
                  <> "no-multiple-empty-lines"%string) by discriminate.
  assert (Hline : length (split newline trailingText)
                  < Finding.line (reported "no-trailing-spaces" 5))
    by (vm_compute; lia).
  split; [reflexivity|]. split; [exact Hrule|]. split; [exact Hline|].
  split; [|split; [reflexivity|]].
  - destruct (proj1 (applyFix_unfixed_keeps_content JS.jsmatch
                       (reported "no-trailing-spaces" 5) trailingText)
                eq_refl)
      as (r & Hr & Hsame & _ & Hout).
    exists r. split; [exact Hr|].
    pose proof (Hout Hrule (or_intror Hline)) as Hf.
    split; [exact Hf|exact (Hsame Hf)].
  - destruct (proj2 (applyFix_unfixed_keeps_content JS.jsmatch
                       (reported "constructor" 1) trailingText) eq_refl)
      as (a & Ha & Hc & _).
    rewrite Ha. now rewrite (Hc eq_refl).
Defined.

Lemma processFile_writes_and_counts_witness :
  fst (Fix.processFile oneFile accepts "a.js"
         [reported "no-trailing-spaces" 1] (CodeFixer.new JS.jsmatch)
         true true) = [] /\
  snd (Fix.processFile oneFile accepts "a.js"
         [reported "no-trailing-spaces" 1] (CodeFixer.new JS.jsmatch)
         true true)
  = Returns {| Fix.fixed := 1; Fix.total := 1 |}.
Proof.
  split; [|vm_compute; reflexivity].
  exact (proj1 (processFile_writes_and_counts oneFile accepts "a.js"
                  [reported "no-trailing-spaces" 1]
                  (CodeFixer.new JS.jsmatch) true true) eq_refl).
Defined.

Lemma fixable_rules_follow_fixers_witness :
  coherent (CodeFixer.new JS.jsmatch) /\
  "no-todo"%string <> "__proto__"%string /\
  (exists this',
     CodeFixer.addFixableRule (CodeFixer.new JS.jsmatch) "no-todo" leaves
     = Some this' /\
     coherent this' /\
     CodeFixer.isFixable this' "no-todo" = true) /\
  coherent (CodeFixer.removeFixableRule (CodeFixer.new JS.jsmatch)
              "no-trailing-spaces") /\
  inherited "no-trailing-spaces" = false /\
  CodeFixer.applyFix
    (CodeFixer.removeFixableRule (CodeFixer.new JS.jsmatch)
       "no-trailing-spaces")
    (reported "no-trailing-spaces" 1) (Some trailingText)
  = Returns (CodeFixer.Result
               {| CodeFixer.fixed := false;
                  CodeFixer.content := trailingText |}) /\
  inherited "constructor" = true /\
  CodeFixer.applyFix
    (CodeFixer.removeFixableRule (CodeFixer.new JS.jsmatch) "constructor")
    (reported "constructor" 1) (Some trailingText)
  = Returns CodeFixer.TheFinding.
Proof.
  pose proof (fixable_rules_follow_fixers JS.jsmatch) as (Hnew & Hadd & Hrem).
  assert (Hne : "no-todo"%string <> "__proto__"%string) by discriminate.
  split; [exact Hnew|]. split; [exact Hne|].
  split; [|split; [|split; [|split; [|split]]]].
  - destruct (Hadd (CodeFixer.new JS.jsmatch) "no-todo"%string leaves Hne)
      as (this' & Hthis & Hco & Hfix & _).
    exists this'. split; [exact Hthis|]. split; [exact (Hco Hnew)|exact Hfix].
  - exact (proj1 (Hrem (CodeFixer.new JS.jsmatch)
                    "no-trailing-spaces"%string) Hnew).
  - reflexivity.
  - exact (proj1 (proj1 (proj2 (proj2 (Hrem (CodeFixer.new JS.jsmatch)
                                         "no-trailing-spaces"%string)))
                    (reported "no-trailing-spaces" 1) trailingText eq_refl)
             eq_refl).
  - reflexivity.
  - exact (proj2 (proj1 (proj2 (proj2 (Hrem (CodeFixer.new JS.jsmatch)
                                         "constructor"%string)))
                    (reported "constructor" 1) trailingText eq_refl)
             eq_refl).
Defined.

Lemma extractFileStats_lines_add_up_witness :
  FileAnalyzer.extractFileStats unit countsNothing countsNothing
    countsNothing countsNothing None twoLines
  = Returns {| FileAnalyzer.totalLines := 2; FileAnalyzer.codeLines := 2;
               FileAnalyzer.commentLines := 0; FileAnalyzer.blankLines := 0;
               FileAnalyzer.functions := 0; FileAnalyzer.classes := 0;
               FileAnalyzer.imports := 0; FileAnalyzer.exports := 0 |} /\
  0 + 0 + length (filter isCode (split newline twoLines)) = 2.
Proof.
  assert (H : FileAnalyzer.extractFileStats unit countsNothing countsNothing
                countsNothing countsNothing None twoLines
              = Returns {| FileAnalyzer.totalLines := 2;
                           FileAnalyzer.codeLines := 2;
                           FileAnalyzer.commentLines := 0;
                           FileAnalyzer.blankLines := 0;
                           FileAnalyzer.functions := 0;
                           FileAnalyzer.classes := 0;
                           FileAnalyzer.imports := 0;
                           FileAnalyzer.exports := 0 |})
    by (vm_compute; reflexivity).
  split; [exact H|].
  exact (proj2 (proj2 (proj2 (proj2 (proj2
           (proj1 (extractFileStats_lines_add_up unit countsNothing
                     countsNothing countsNothing countsNothing None twoLines)
              _ H)))))).
Defined.

Lemma fixMultipleEmptyLines_leaves_none_witness :
  CodeFixer.fixMultipleEmptyLines JS.jsmatch
    (reported "no-multiple-empty-lines" 1) gappedTrailing
  = {| CodeFixer.fixed := true;
       CodeFixer.content := lit "a  " ++ [newline; newline] ++ lit "b" |} /\
  RuleEngine.analyze JS.jsmatch (RuleEngine.new [])
    (lit "a  " ++ [newline; newline] ++ lit "b") "a.js"
  = Returns [violation (defaultRule "no-trailing-spaces")
               "no-trailing-spaces"
               (lit "a  " ++ [newline; newline] ++ lit "b") "a.js" 1 2] /\
  Finding.rule
    (violation (defaultRule "no-trailing-spaces") "no-trailing-spaces"
       (lit "a  " ++ [newline; newline] ++ lit "b") "a.js" 1 2)
  <> "no-multiple-empty-lines"%string.
Proof.
  assert (Hr : CodeFixer.fixMultipleEmptyLines JS.jsmatch
                 (reported "no-multiple-empty-lines" 1) gappedTrailing
               = {| CodeFixer.fixed := true;
                    CodeFixer.content :=
                      lit "a  " ++ [newline; newline] ++ lit "b" |})
    by (vm_compute; reflexivity).
  assert (Hfs : RuleEngine.analyze JS.jsmatch (RuleEngine.new [])
                  (lit "a  " ++ [newline; newline] ++ lit "b") "a.js"
                = Returns [violation (defaultRule "no-trailing-spaces")
                             "no-trailing-spaces"
                             (lit "a  " ++ [newline; newline] ++ lit "b")
                             "a.js" 1 2])
    by (vm_compute; reflexivity).
  split; [exact Hr|]. split; [exact Hfs|].
  pose proof (proj2 (proj2 (fixMultipleEmptyLines_leaves_none
                              (reported "no-multiple-empty-lines" 1)
                              gappedTrailing))) as H.
  cbv zeta in H. rewrite Hr in H. cbn [CodeFixer.content] in H.
  exact (H "a.js"%string _ _ Hfs (or_introl eq_refl)).
Defined.

(** ** The risk score of a scan *)

Lemma obj_get_In {A} k (o : obj A) v : obj_get k o = Some v -> In (k, v) o.
Proof.
  induction o as [|[k' v'] o IH]; cbn [obj_get]; [discriminate|].
  destruct (String.eqb_spec k' k) as [->|Hne].
  - intros H; inversion H; subst. now left.
  - intros H. right. exact (IH H).
Qed.

(** An entry of [{ ...a, ...b }] is an entry of [b] or an entry of [a]. *)
Lemma spread_origin {A} (b : obj A) : forall a k v,
  obj_get k (spread a b) = Some v -> In (k, v) b \/ obj_get k a = Some v.
Proof.
  unfold spread.
  induction b as [|[k1 v1] b IH]; intros a k v; cbn [fold_left fst snd];
    [now right|].
  intros H. apply IH in H as [H|H]; [left; now right|].
  destruct (String.eqb_spec k1 k) as [->|Hne].
  - rewrite obj_get_set_same in H. inversion H; subst. left. now left.
  - rewrite obj_get_set_other in H by congruence. now right.
Qed.

Lemma default_severities name rule :
  In (name, rule) RuleEngine.defaultRules ->
  RuleEngine.severity rule = Some "error"%string \/
  RuleEngine.severity rule = Some "warning"%string.
Proof.
  unfold RuleEngine.defaultRules. cbn [In].
  intros H.
  repeat (destruct H as [H|H];
          [inversion H; cbn [RuleEngine.severity]; auto|]).
  destruct H.
Qed.

(** A rule engine built from rules without patterns reports under the
    default rules only, whose severities are ['error'] and ['warning']. *)
Lemma rule_findings_error_or_warning rmatch customRules content filePath fs :
  withoutPatterns customRules ->
  RuleEngine.analyze rmatch (RuleEngine.new customRules) content filePath
    = Returns fs ->
  forallb errorOrWarning fs = true.
Proof.
  intros Hnone Hfs. apply forallb_forall. intros f Hin.
  destruct (rule_finding_origin rmatch _ content filePath fs f Hfs Hin)
    as (n & rule & re & i & len & _ & Hr & Hp & _ & _ & _ & ->).
  cbn [RuleEngine.new RuleEngine.rules] in Hr.
  unfold RuleEngine.initializeRules in Hr.
  apply spread_origin in Hr as [Hr|Hr].
  - rewrite (Hnone n rule Hr) in Hp. discriminate.
  - apply obj_get_In in Hr.
    unfold errorOrWarning, severityIs, violation. cbn [Finding.severity].
    destruct (default_severities n rule Hr) as [-> | ->]; reflexivity.
Qed.

Lemma builtin_severities category categoryConfig :
  In (category, categoryConfig) MLAnalyzer.getHeuristicPatterns ->
  MLAnalyzer.Category.severity categoryConfig = "warning"%string.
Proof.
  unfold MLAnalyzer.getHeuristicPatterns. cbn [In].
  intros H.
  repeat (destruct H as [H|H]; [inversion H; reflexivity|]).
  destruct H.
Qed.

(** The findings of the heuristic analyzer with its built-in model are all
    warnings. *)
Lemma heuristic_findings_warning rmatch this content filePath fs :
  MLAnalyzer.model this = Some builtinModel ->
  MLAnalyzer.analyze rmatch this content filePath = Returns fs ->
  forallb errorOrWarning fs = true.
Proof.
  intros Hmodel Hfs. apply forallb_forall. intros f Hin.
  apply analyze_returns_inv in Hfs as [->|(model & raws & Hm & Hr & ->)];
    [destruct Hin|].
  apply In_firstn in Hin.
  apply (emitted_inv rmatch this filePath
           (MLAnalyzer.Model.patterns model) content raws f
           (rawOfCategories_ok rmatch content _ raws Hr)) in Hin
    as (r & _ & (Hcat & _ & _) & -> & _).
  rewrite Hmodel in Hm. inversion Hm; subst model.
  cbn [builtinModel MLAnalyzer.Model.patterns] in Hcat.
  unfold errorOrWarning, severityIs, rawFinding, MLAnalyzer.finding.
  cbn [Finding.severity].
  now rewrite (builtin_severities _ _ Hcat).
Qed.

Lemma forallb_concat {A} (p : A -> bool) (ls : list (list A)) :
  Forall (fun l => forallb p l = true) ls -> forallb p (concat ls) = true.
Proof.
  induction 1 as [|l ls Hl _ IH]; [reflexivity|].
  cbn [concat]. rewrite forallb_app, Hl, IH. reflexivity.
Qed.

(** Every finding that the loop of the scan command collects is an error
    or a warning, when the findings that the two engines return are: what
    an engine throws ends in the [catch], whose finding is an error. *)
Lemma scan_collects_errors_and_warnings
    (Ast : Type) (readFileSync : string -> outcome text)
    (extname : string -> string) (parseFile : text -> string -> outcome Ast)
    (ruleAnalyze mlAnalyze : Ast -> text -> string -> outcome (list Finding.t))
    (codeFiles : list string) (results : list Finding.t) :
  (forall ast content path fs,
     ruleAnalyze ast content path = Returns fs ->
     forallb errorOrWarning fs = true) ->
  (forall ast content path fs,
     mlAnalyze ast content path = Returns fs ->
     forallb errorOrWarning fs = true) ->
  Scan.analyzeFiles Ast readFileSync extname parseFile ruleAnalyze mlAnalyze
    codeFiles [] = Returns results ->
  forallb errorOrWarning results = true.
Proof.
  intros Hrule Hml Hres.
  apply analyzeFiles_concat in Hres as (perFile & Hf & ->). cbn [app].
  apply forallb_concat.
  induction Hf as [|file frs files perFile Hfile _ IH]; constructor;
    [|exact IH].
  revert Hfile. unfold Scan.analyzeFile, Scan.tryBlock.
  destruct (readFileSync file) as [content|e|];
    [|intros H; inversion H; reflexivity|discriminate].
  destruct (parseFile content (extname file)) as [ast|e|];
    [|intros H; inversion H; reflexivity|discriminate].
  destruct (ruleAnalyze ast content file) as [rs|e|] eqn:Er;
    [|intros H; inversion H; reflexivity|discriminate].
  apply Hrule in Er.
  destruct (mlAnalyze ast content file) as [ms|e|] eqn:Em;
    [| |discriminate]; intros H; inversion H; cbn [app];
    rewrite forallb_app, Er; [|reflexivity].
  now apply Hml in Em.
Qed.

(** So it is when the rules come from a configuration file and the
    heuristic analyzer is constructed with its built-in model. *)
Lemma scan_findings_error_or_warning
    (Tree : Type) (parseModule parseScript : text -> bool -> outcome Tree)
    (toLowerCase : string -> string)
    (readFileSync : string -> outcome text) (extname : string -> string)
    (rmatch : RegExp -> text -> nat -> option nat)
    (customRules : obj RuleEngine.Rule) (ml : MLAnalyzer.Config.partial)
    (codeFiles : list string) (results : list Finding.t) :
  withoutPatterns customRules ->
  Scan.analyzeFiles (FileAnalyzer.Ast Tree) readFileSync extname
    (FileAnalyzer.parseFile Tree parseModule parseScript toLowerCase)
    (fun _ content path =>
       RuleEngine.analyze rmatch (RuleEngine.new customRules) content path)
    (fun _ content path =>
       MLAnalyzer.analyze rmatch (MLAnalyzer.new ml) content path)
    codeFiles [] = Returns results ->
  forallb errorOrWarning results = true.
Proof.
  intros Hnone.
  apply scan_collects_errors_and_warnings.
  - intros _ content path fs.
    now apply rule_findings_error_or_warning.
  - intros _ content path fs.
    now apply heuristic_findings_warning.
Qed.

(** C1. The risk score is [min(100, round(sum of weights / number of
    findings * 20))], an ['error'] weighing 3, a ['warning'] 1 and any
    other severity 0, at both places where it is computed: at the
    formatter for every list of findings; at the scan command for every
    list whose findings are errors and warnings, which is every list that
    the command builds from the files it scans: whatever the two engines
    are, as long as the findings they return are errors and warnings (what
    an engine throws, as the rule engine would on a pattern that is no
    regular expression, ends as the error of the [catch]); and so with the
    rule engine on the rules of a configuration file, which have no
    patterns, and the heuristic analyzer as constructed.  The empty list
    scores 0, one ['error'] 60 and ten warnings 20, at both places. *)
Theorem riskScore_meets_formula :
  (forall results,
     OutputFormatter.riskScore (OutputFormatter.generateSummary results)
     = ofZ (specRiskScore results)) /\
  (forall results,
     forallb errorOrWarning results = true ->
     Scan.riskScore (Scan.generateSummary results)
     = ofZ (specRiskScore results)) /\
  (forall (Ast : Type) (readFileSync : string -> outcome text)
          (extname : string -> string)
          (parseFile : text -> string -> outcome Ast)
          (ruleAnalyze mlAnalyze :
             Ast -> text -> string -> outcome (list Finding.t))
          (codeFiles : list string) (results : list Finding.t),
     (forall ast content path fs,
        ruleAnalyze ast content path = Returns fs ->
        forallb errorOrWarning fs = true) ->
     (forall ast content path fs,
        mlAnalyze ast content path = Returns fs ->
        forallb errorOrWarning fs = true) ->
     Scan.analyzeFiles Ast readFileSync extname parseFile ruleAnalyze
       mlAnalyze codeFiles [] = Returns results ->
     Scan.riskScore (Scan.generateSummary results)
     = ofZ (specRiskScore results)) /\
  (forall (Tree : Type)
          (parseModule parseScript : text -> bool -> outcome Tree)
          (toLowerCase : string -> string)
          (readFileSync : string -> outcome text)
          (extname : string -> string)
          (rmatch : RegExp -> text -> nat -> option nat)
          (customRules : obj RuleEngine.Rule)
          (ml : MLAnalyzer.Config.partial)
          (codeFiles : list string) (results : list Finding.t),
     withoutPatterns customRules ->
     Scan.analyzeFiles (FileAnalyzer.Ast Tree) readFileSync extname
       (FileAnalyzer.parseFile Tree parseModule parseScript toLowerCase)
       (fun _ content path =>
          RuleEngine.analyze rmatch (RuleEngine.new customRules) content
            path)
       (fun _ content path =>
          MLAnalyzer.analyze rmatch (MLAnalyzer.new ml) content path)
       codeFiles [] = Returns results ->
     Scan.riskScore (Scan.generateSummary results)
     = ofZ (specRiskScore results)) /\
  (OutputFormatter.riskScore (OutputFormatter.generateSummary []) = ofZ 0 /\
   OutputFormatter.riskScore
     (OutputFormatter.generateSummary [withSeverity "error"]) = ofZ 60 /\
   OutputFormatter.riskScore (OutputFormatter.generateSummary tenWarnings)
     = ofZ 20 /\
   Scan.riskScore (Scan.generateSummary []) = ofZ 0 /\
   Scan.riskScore (Scan.generateSummary [withSeverity "error"]) = ofZ 60 /\
   Scan.riskScore (Scan.generateSummary tenWarnings) = ofZ 20).
Proof.
  split; [exact formatter_riskScore|].
  split; [exact scan_riskScore|].
  split.
  { intros Ast readFileSync extname parseFile ruleAnalyze mlAnalyze codeFiles
      results Hrule Hml Hres.
    apply scan_riskScore.
    exact (scan_collects_errors_and_warnings Ast readFileSync extname
             parseFile ruleAnalyze mlAnalyze codeFiles results Hrule Hml
             Hres). }
  split; [|exact riskScore_examples].
  intros Tree parseModule parseScript toLowerCase readFileSync extname rmatch
    customRules ml codeFiles results Hnone Hres.
  apply scan_riskScore.
  exact (scan_findings_error_or_warning Tree parseModule parseScript
           toLowerCase readFileSync extname rmatch customRules ml codeFiles
           results Hnone Hres).
Qed.

(** A scan of two files, one unreadable and one with a loose equality,
    under a configuration that rates [no-debugger] as ['info']: one error
    and one warning, and a score of [round((3 + 1) / 2 * 20) = 40]. *)
Lemma riskScore_meets_formula_witness :
  withoutPatterns noisyConfig /\
  exists results,
    Scan.analyzeFiles (FileAnalyzer.Ast unit) unreadable (fun p => p)
      (FileAnalyzer.parseFile unit anyTree anyTree lower)
      (fun _ content path =>
         RuleEngine.analyze JS.jsmatch (RuleEngine.new noisyConfig) content
           path)
      (fun _ content path =>
         MLAnalyzer.analyze JS.jsmatch (MLAnalyzer.new (onlyThreshold 0.5))
           content path)
      ["bad.js"; "a.js"]%string [] = Returns results /\
    length results = 2 /\
    forallb errorOrWarning results = true /\
    specRiskScore results = 40%Z /\
    Scan.riskScore (Scan.generateSummary results)
    = ofZ (specRiskScore results).
Proof.
  assert (Hnone : withoutPatterns noisyConfig).
  { intros name rule [H|[]]. now inversion H. }
  split; [exact Hnone|].
  eexists. split; [vm_compute; reflexivity|].
  split; [reflexivity|]. split; [reflexivity|].
  split; [vm_compute; reflexivity|].
  apply (proj1 (proj2 (proj2 (proj2 riskScore_meets_formula))) unit anyTree
           anyTree lower unreadable (fun p => p) JS.jsmatch noisyConfig
           (onlyThreshold 0.5) ["bad.js"; "a.js"]%string);
    [exact Hnone | vm_compute; reflexivity].
Defined.
